(** * Chaski: message synchronisation and local cache

    A shallow embedding of the cache-first mail synchroniser of Chaski:

    - [CacheService]   (source/services/cacheService.ts): the SQLite store,
      modelled as tables (lists of rows in rowid order) behind a nullable
      connection;
    - [ImapService]    (services/imapService.ts): date-sorted range fetches and
      the folder status query;
    - [MessageList]    (components/MessageList.tsx): the page load
      ([loadMessages]) and the new-message tracking effect;
    - [App]            (source/app.tsx): [handleRefresh] for the current
      folder (initial backfill and steady-state merge);
    - [MessageView]    (components/MessageList.tsx): the displayed message
      and the key handler of the list;
    - [EmailOpen]      (source/app.tsx): [handleEmailOpen];
    - [ImapFetch]      (services/imapService.ts): how a fetched message is
      put together from its body and attributes;
    - [SettingsService] (source/services/settingsService.ts): the settings,
      their file and the default object they may share.

    Numbers are [Z]; a JavaScript [Date] is its epoch time in milliseconds;
    strings are sequences of 8-bit code units ([string]). Asynchronous code is
    written in a state-and-exception monad over the store and a log of the
    cache and remote operations that were issued. *)

From Stdlib Require Import ZArith String Ascii List Bool Lia Sorting.Sorted
  Sorting.Permutation DecimalString DecimalZ.
From stdpp Require Import base tactics option list gmap sets strings.

Open Scope string_scope.
Open Scope Z_scope.

(** ** JavaScript primitives used by the program *)
Module JS.

(** [s || d] on strings: the empty string is falsy. *)
Definition or_str (s d : string) : string :=
  match s with EmptyString => d | _ => s end.

(** [Array.prototype.join(',')]. *)
Definition join_comma (l : list string) : string := String.concat "," l.

(** [String.prototype.split(',')]: the empty string yields one empty piece. *)
Fixpoint split_comma (s : string) : list string :=
  match s with
  | EmptyString => [EmptyString]
  | String c s' =>
      if Ascii.eqb c ","%char then EmptyString :: split_comma s'
      else match split_comma s' with
           | [] => [String c EmptyString]
           | w :: ws => String c w :: ws
           end
  end.

(** [arr.includes(x)] on an array of strings. *)
Definition includes (x : string) (l : list string) : bool :=
  existsb (String.eqb x) l.

(** [toUpperCase] on code units below 256. The ASCII letters and the
    Latin-1 letters 224 to 254 (without the division sign 247) move down by
    32; the sharp s (223) becomes [SS]. The upper-case forms of the micro
    sign (181) and of y with diaeresis (255) are not code units below 256:
    the two are kept. No other string written in code units below 256 has
    these forms, so two upper-cased strings are equal here exactly when they
    are equal in JavaScript, and that is all the program does with them. *)
Definition upper_char (c : ascii) : string :=
  let n := nat_of_ascii c in
  if ((97 <=? n)%nat && (n <=? 122)%nat)%bool then String (ascii_of_nat (n - 32)) ""
  else if (n =? 223)%nat then "SS"
  else if (((224 <=? n)%nat && (n <=? 246)%nat) || ((248 <=? n)%nat && (n <=? 254)%nat))%bool
       then String (ascii_of_nat (n - 32)) ""
  else String c "".

Fixpoint toUpperCase (s : string) : string :=
  match s with
  | EmptyString => EmptyString
  | String c s' => upper_char c ++ toUpperCase s'
  end.

(** [s.substring(0, n)]. *)
Fixpoint substring0 (n : nat) (s : string) : string :=
  match n, s with
  | O, _ => EmptyString
  | _, EmptyString => EmptyString
  | S n', String c s' => String c (substring0 n' s')
  end.

(** [s.replace(/\n/g, ' ')]. *)
Fixpoint replace_newlines (s : string) : string :=
  match s with
  | EmptyString => EmptyString
  | String c s' =>
      String (if Ascii.eqb c "010"%char then " "%char else c) (replace_newlines s')
  end.

(** White space of [String.prototype.trim] among 8-bit code units:
    TAB, LF, VT, FF, CR, SPACE and NBSP. *)
Definition is_space (c : ascii) : bool :=
  let n := nat_of_ascii c in
  ((9 <=? n)%nat && (n <=? 13)%nat || (n =? 32)%nat || (n =? 160)%nat)%bool.

Fixpoint trim_start (s : string) : string :=
  match s with
  | EmptyString => EmptyString
  | String c s' => if is_space c then trim_start s' else s
  end.

(** Drops trailing white space: a character is kept when it is not a space
    or when something non-blank follows it. *)
Fixpoint trim_end (s : string) : string :=
  match s with
  | EmptyString => EmptyString
  | String c s' =>
      match trim_end s' with
      | EmptyString => if is_space c then EmptyString else String c EmptyString
      | t => String c t
      end
  end.

Definition trim (s : string) : string := trim_end (trim_start s).

(** [n.toString()] for an integer, and the reading of an integer literal. *)
Definition string_of_Z (z : Z) : string := NilZero.string_of_int (Z.to_int z).
Definition Z_of_string (s : string) : option Z :=
  option_map Z.of_int (NilZero.int_of_string s).

(** A stable sort in descending order of [key]; [Array.prototype.sort] with
    the comparator [(a, b) => key(b) - key(a)] and SQL's [ORDER BY key DESC]
    over rows in rowid order. *)
Section Sort.
Context {A : Type} (key : A -> Z).

Fixpoint insert_desc (x : A) (l : list A) : list A :=
  match l with
  | [] => [x]
  | y :: l' => if key y <=? key x then x :: y :: l' else y :: insert_desc x l'
  end.

Fixpoint sort_desc (l : list A) : list A :=
  match l with
  | [] => []
  | x :: l' => insert_desc x (sort_desc l')
  end.

(** Descending order of the keys. *)
Definition desc (a b : A) : Prop := key b <= key a.
End Sort.

End JS.

(** ** source/types/email.ts *)

Record EmailAddress := mkEmailAddress {
  addr_name : option string;
  addr_address : string
}.

Record Attachment := mkAttachment {
  att_filename : string;
  att_contentType : string;
  att_size : Z;
  att_contentId : option string
}.

(** [EmailMessage]. The recipients, labels and thread identifiers never reach
    the cache or the synchroniser and are left out. [uid] is a number on both
    paths that build a message (the fetch stores [attrs.uid || 0], the cache a
    NOT NULL column); [0] is the falsy "no UID". *)
Record EmailMessage := mkEmailMessage {
  id : string;
  accountId : string;
  folder : string;
  uid : Z;
  messageId : string;
  from : list EmailAddress;
  subject : string;
  date : Z;
  body_text : option string;
  attachments : option (list Attachment);
  flags : list string;
  references : option (list string)
}.

(** The UIDs carried by a list of messages, in order. *)
Definition uids (l : list EmailMessage) : list Z := map uid l.

(** ** source/services/cacheService.ts *)
Module CacheService.

(** Row of table [messages]. *)
Record CachedMessage := mkCachedMessage {
  row_id : Z;
  row_uid : Z;
  row_folder_id : string;
  row_account_id : string;
  row_subject : string;
  row_from_name : string;
  row_from_address : string;
  row_date : Z;
  row_flags : string;
  row_preview : string;
  row_has_attachments : bool;
  row_thread_count : Z;
  row_last_fetched : Z
}.

(** Row of table [attachments]. *)
Record CachedAttachment := mkCachedAttachment {
  arow_id : Z;
  arow_message_uid : Z;
  arow_folder_id : string;
  arow_account_id : string;
  arow_filename : string;
  arow_content_type : string;
  arow_size : Z;
  arow_content_id : option string
}.

(** Row of table [folders]. *)
Record CachedFolder := mkCachedFolder {
  frow_id : string;
  frow_account_id : string;
  frow_name : string;
  frow_last_sync : Z;
  frow_total_count : Z;
  frow_unread_count : Z
}.

(** An open database: each table is the list of its rows in rowid order,
    the two AUTOINCREMENT tables carry their [sqlite_sequence] counter, and
    [foreign_keys] is the connection's foreign-key enforcement setting (the
    program never changes it, so it is whatever the driver opens with).
    Table [message_bodies] is never written and is not represented. *)
Record Database := mkDatabase {
  messages : list CachedMessage;
  messages_seq : Z;
  folders : list CachedFolder;
  attachments_tbl : list CachedAttachment;
  attachments_seq : Z;
  foreign_keys : bool
}.

(** The service object: [db] is [null] when [initializeDatabase] failed. *)
Record t := mk { db : option Database }.

(** The tables created by [createTables] on a fresh file. *)
Definition createTables (fk : bool) : Database :=
  mkDatabase [] 0 [] [] 0 fk.

(** [initializeDatabase]: [opened] is the result of creating the directory,
    opening the file and running the schema; any exception there leaves
    [db = null]. *)
Definition initializeDatabase (opened : option Database) : t := mk opened.

Definition in_folder (folderId accountId : string) (r : CachedMessage) : bool :=
  String.eqb (row_folder_id r) folderId && String.eqb (row_account_id r) accountId.

Definition has_key (u : Z) (folderId accountId : string) (r : CachedMessage) : bool :=
  (row_uid r =? u) && in_folder folderId accountId r.

Definition att_of (u : Z) (folderId accountId : string) (a : CachedAttachment) : bool :=
  (arow_message_uid a =? u) && String.eqb (arow_folder_id a) folderId
  && String.eqb (arow_account_id a) accountId.

(** [FOREIGN KEY (message_uid, folder_id, account_id) REFERENCES messages
    ... ON DELETE CASCADE]: the attachment rows whose parent is among the
    deleted message rows go with them when enforcement is on. *)
Definition references_one_of (deleted : list CachedMessage) (a : CachedAttachment) : bool :=
  existsb (fun r => att_of (row_uid r) (row_folder_id r) (row_account_id r) a) deleted.

Definition cascade (fk : bool) (deleted : list CachedMessage)
    (atts : list CachedAttachment) : list CachedAttachment :=
  if fk then List.filter (fun a => negb (references_one_of deleted a)) atts else atts.

(** Next rowid of an AUTOINCREMENT table. *)
Definition next_rowid {A} (rid : A -> Z) (rows : list A) (seq : Z) : Z :=
  fold_right Z.max seq (map rid rows) + 1.

(** [LIMIT ? OFFSET ?]: a negative limit is no limit, a negative offset is 0. *)
Definition limit_offset {A} (limit offset : Z) (l : list A) : list A :=
  let l' := skipn (Z.to_nat offset) l in
  if limit <? 0 then l' else firstn (Z.to_nat limit) l'.

(** [SELECT * FROM messages WHERE folder_id = ? AND account_id = ?
     ORDER BY date DESC LIMIT ? OFFSET ?]. *)
Definition select_messages (d : Database) (folderId accountId : string)
    (limit offset : Z) : list CachedMessage :=
  limit_offset limit offset
    (JS.sort_desc row_date (List.filter (in_folder folderId accountId) (messages d))).

Definition select_attachments (d : Database) (u : Z) (folderId accountId : string)
    : list CachedAttachment :=
  List.filter (att_of u folderId accountId) (attachments_tbl d).

Definition attachmentToEmail (a : CachedAttachment) : Attachment :=
  mkAttachment (arow_filename a) (arow_content_type a) (arow_size a)
    (match arow_content_id a with
     | Some EmptyString => None
     | o => o
     end).

Definition cachedMessageToEmailMessage (cached : CachedMessage)
    (atts : list CachedAttachment) : EmailMessage :=
  {| id := JS.string_of_Z (row_uid cached);
     accountId := row_account_id cached;
     folder := row_folder_id cached;
     uid := row_uid cached;
     messageId := "";
     from := [ mkEmailAddress
                 (match row_from_name cached with
                  | EmptyString => None
                  | n => Some n
                  end)
                 (row_from_address cached) ];
     subject := row_subject cached;
     date := row_date cached;
     body_text := Some (row_preview cached);
     attachments := match atts with
                    | [] => None
                    | _ => Some (map attachmentToEmail atts)
                    end;
     flags := match row_flags cached with
              | EmptyString => []
              | f => JS.split_comma f
              end;
     references := if 0 <? row_thread_count cached then Some [] else None |}.

(** [getCachedMessages(folderId, accountId, limit = 50, offset = 0)]. *)
Definition getCachedMessages (cs : t) (folderId accountId : string)
    (limit offset : Z) : list EmailMessage :=
  match db cs with
  | None => []
  | Some d =>
      map (fun row =>
             cachedMessageToEmailMessage row
               (select_attachments d (row_uid row) folderId accountId))
          (select_messages d folderId accountId limit offset)
  end.

(** The preview column: [text.substring(0, 200).replace(/\n/g, ' ').trim()],
    or [''] when there is no (or an empty) text. *)
Definition preview_of (text : option string) : string :=
  match text with
  | None | Some EmptyString => ""
  | Some s => JS.trim (JS.replace_newlines (JS.substring0 200 s))
  end.

(** [INSERT OR REPLACE INTO messages ...]: the row that holds the same
    [(uid, folder_id, account_id)] is deleted (with the cascade of the
    schema) and the new row gets a fresh rowid. *)
Definition insert_or_replace_message (now : Z) (folderId accountId : string)
    (msg : EmailMessage) (d : Database) : Database :=
  let fromEmail := head (from msg) in
  let conflict := has_key (uid msg) folderId accountId in
  let rid := next_rowid row_id (messages d) (messages_seq d) in
  let row :=
    {| row_id := rid;
       row_uid := uid msg;
       row_folder_id := folderId;
       row_account_id := accountId;
       row_subject := JS.or_str (subject msg) "(No subject)";
       row_from_name :=
         match fromEmail with
         | Some a => match addr_name a with Some n => n | None => "" end
         | None => ""
         end;
       row_from_address :=
         match fromEmail with Some a => addr_address a | None => "" end;
       row_date := date msg;
       row_flags := JS.join_comma (flags msg);
       row_preview := preview_of (body_text msg);
       row_has_attachments :=
         match attachments msg with
         | Some (_ :: _) => true
         | _ => false
         end;
       row_thread_count :=
         match references msg with
         | Some refs => Z.of_nat (length refs)
         | None => 0
         end;
       row_last_fetched := now |} in
  {| messages := List.filter (fun r => negb (conflict r)) (messages d) ++ [row];
     messages_seq := rid;
     folders := folders d;
     attachments_tbl :=
       cascade (foreign_keys d) (List.filter conflict (messages d)) (attachments_tbl d);
     attachments_seq := attachments_seq d;
     foreign_keys := foreign_keys d |}.

(** [DELETE FROM attachments WHERE message_uid = ? AND folder_id = ? AND
    account_id = ?]. *)
Definition delete_attachments (u : Z) (folderId accountId : string)
    (d : Database) : Database :=
  {| messages := messages d;
     messages_seq := messages_seq d;
     folders := folders d;
     attachments_tbl :=
       List.filter (fun a => negb (att_of u folderId accountId a)) (attachments_tbl d);
     attachments_seq := attachments_seq d;
     foreign_keys := foreign_keys d |}.

(** [INSERT OR REPLACE INTO attachments ...] (only the rowid is unique, so
    this always appends). *)
Definition insert_attachment (u : Z) (folderId accountId : string)
    (a : Attachment) (d : Database) : Database :=
  let rid := next_rowid arow_id (attachments_tbl d) (attachments_seq d) in
  {| messages := messages d;
     messages_seq := messages_seq d;
     folders := folders d;
     attachments_tbl :=
       attachments_tbl d ++
       [ {| arow_id := rid;
            arow_message_uid := u;
            arow_folder_id := folderId;
            arow_account_id := accountId;
            arow_filename := JS.or_str (att_filename a) "unnamed";
            arow_content_type := JS.or_str (att_contentType a) "application/octet-stream";
            arow_size := att_size a;
            arow_content_id :=
              match att_contentId a with
              | Some EmptyString => None
              | o => o
              end |} ];
     attachments_seq := rid;
     foreign_keys := foreign_keys d |}.

(** One iteration of the loop inside the transaction of [updateMessages]. *)
Definition upsert_one (now : Z) (folderId accountId : string)
    (d : Database) (msg : EmailMessage) : Database :=
  let d1 := insert_or_replace_message now folderId accountId msg d in
  let d2 := delete_attachments (uid msg) folderId accountId d1 in
  match attachments msg with
  | Some (a :: l) =>
      fold_left (fun d' att => insert_attachment (uid msg) folderId accountId att d')
                (a :: l) d2
  | _ => d2
  end.

Definition transaction (now : Z) (folderId accountId : string)
    (msgs : list EmailMessage) (d : Database) : Database :=
  fold_left (upsert_one now folderId accountId) msgs d.

(** [updateMessages(messages, folderId, accountId)]; [now] is the reading of
    [Date.now()] taken inside the transaction. *)
Definition updateMessages (now : Z) (msgs : list EmailMessage)
    (folderId accountId : string) (cs : t) : t :=
  match db cs with
  | None => cs
  | Some d => mk (Some (transaction now folderId accountId msgs d))
  end.

(** [getLastSyncTime]: [MAX(last_fetched)], where [0] and the absence of
    rows both give [null]. *)
Definition getLastSyncTime (cs : t) (folderId accountId : string) : option Z :=
  match db cs with
  | None => None
  | Some d =>
      match map row_last_fetched
              (List.filter (in_folder folderId accountId) (messages d)) with
      | [] => None
      | x :: l => let m := fold_right Z.max x l in
                  if m =? 0 then None else Some m
      end
  end.

Definition folder_key (accountId folderId : string) : string :=
  accountId ++ ":" ++ folderId.

(** [updateFolderMetadata]: [INSERT OR REPLACE INTO folders] on the primary
    key [`${accountId}:${folderId}`]. *)
Definition updateFolderMetadata (now : Z) (folderId accountId : string)
    (totalCount unreadCount : Z) (cs : t) : t :=
  match db cs with
  | None => cs
  | Some d =>
      let k := folder_key accountId folderId in
      mk (Some
        {| messages := messages d;
           messages_seq := messages_seq d;
           folders :=
             List.filter (fun f => negb (String.eqb (frow_id f) k)) (folders d)
             ++ [ mkCachedFolder k accountId folderId now totalCount unreadCount ];
           attachments_tbl := attachments_tbl d;
           attachments_seq := attachments_seq d;
           foreign_keys := foreign_keys d |})
  end.

(** [clearFolder]: [DELETE FROM messages WHERE folder_id = ? AND
    account_id = ?], with the cascade the schema declares. *)
Definition clearFolder (folderId accountId : string) (cs : t) : t :=
  match db cs with
  | None => cs
  | Some d =>
      let gone := List.filter (in_folder folderId accountId) (messages d) in
      mk (Some
        {| messages :=
             List.filter (fun r => negb (in_folder folderId accountId r)) (messages d);
           messages_seq := messages_seq d;
           folders := folders d;
           attachments_tbl := cascade (foreign_keys d) gone (attachments_tbl d);
           attachments_seq := attachments_seq d;
           foreign_keys := foreign_keys d |})
  end.

(** [clearAllCache]: [DELETE FROM messages; DELETE FROM folders; DELETE FROM
    message_bodies]. *)
Definition clearAllCache (cs : t) : t :=
  match db cs with
  | None => cs
  | Some d =>
      mk (Some
        {| messages := [];
           messages_seq := messages_seq d;
           folders := [];
           attachments_tbl := cascade (foreign_keys d) (messages d) (attachments_tbl d);
           attachments_seq := attachments_seq d;
           foreign_keys := foreign_keys d |})
  end.

(** [getFolderMetadata]: the row of [folders] with id
    [`${accountId}:${folderId}`]. *)
Definition getFolderMetadata (cs : t) (folderId accountId : string)
    : option (Z * Z) :=
  match db cs with
  | None => None
  | Some d =>
      match List.find (fun f => String.eqb (frow_id f) (folder_key accountId folderId))
                      (folders d) with
      | Some f => Some (frow_total_count f, frow_unread_count f)
      | None => None
      end
  end.

(** [updateMessageFlags(uid: string, ...)]: the text parameter is compared
    with the INTEGER column, so it selects the row whose uid it spells. *)
Definition updateMessageFlags (u : string) (folderId accountId : string)
    (fl : list string) (cs : t) : t :=
  match db cs with
  | None => cs
  | Some d =>
      let hit r :=
        match JS.Z_of_string u with
        | Some n => has_key n folderId accountId r
        | None => false
        end in
      mk (Some
        {| messages :=
             map (fun r =>
                    if hit r then
                      mkCachedMessage (row_id r) (row_uid r) (row_folder_id r)
                        (row_account_id r) (row_subject r) (row_from_name r)
                        (row_from_address r) (row_date r) (JS.join_comma fl)
                        (row_preview r) (row_has_attachments r)
                        (row_thread_count r) (row_last_fetched r)
                    else r) (messages d);
           messages_seq := messages_seq d;
           folders := folders d;
           attachments_tbl := attachments_tbl d;
           attachments_seq := attachments_seq d;
           foreign_keys := foreign_keys d |})
  end.

(** [getCacheStats], without the size of the file on disk. *)
Definition getCacheStats (cs : t) : Z * option Z :=
  match db cs with
  | None => (0, None)
  | Some d =>
      (Z.of_nat (length (messages d)),
       match map row_last_fetched (messages d) with
       | [] => None
       | x :: l => let m := fold_right Z.min x l in
                   if m =? 0 then None else Some m
       end)
  end.

(** [close()]. *)
Definition close (cs : t) : t := mk None.

End CacheService.

(** ** Outcomes, the world and the monad of the asynchronous handlers *)

(** A promise settles with a value or rejects with an error message. *)
Inductive result (A : Type) : Type :=
| Ok (a : A)
| Err (e : string).
Arguments Ok {A} a.
Arguments Err {A} e.

(** Operations issued against the local store and the remote mailbox, with
    the folder name each one was given. *)
Inductive Event : Type :=
| EvCacheRead (folderId accountId : string) (limit offset : Z)
| EvCacheLastSync (folderId accountId : string)
| EvCacheMeta (folderId accountId : string)
| EvCacheWrite (folderId accountId : string) (count : nat)
| EvCacheMetaWrite (folderId accountId : string) (total unread : Z)
| EvFolders (accountId : string)
| EvStatus (accountId folderName : string)
| EvFetch (accountId folderName : string) (limit startSeq endSeq : Z)
| EvRefreshRequest
| EvRangeError (startSeq endSeq : Z).

(** What a handler can change besides its own component state: the store,
    the log of issued operations (oldest first) and the number of clock
    readings taken so far. *)
Record World := mkWorld {
  store : CacheService.t;
  log : list Event;
  ticks : nat
}.

(** State-and-exception monad over a state [S]. *)
Definition M (S A : Type) : Type := S -> result A * S.

Definition ret {S A} (a : A) : M S A := fun s => (Ok a, s).

Definition bind {S A B} (m : M S A) (k : A -> M S B) : M S B :=
  fun s => match m s with
           | (Ok a, s') => k a s'
           | (Err e, s') => (Err e, s')
           end.

Definition throw {S A} (e : string) : M S A := fun s => (Err e, s).

(** [try { m } catch (err) { h err }]. *)
Definition try_catch {S A} (m : M S A) (h : string -> M S A) : M S A :=
  fun s => match m s with
           | (Ok a, s') => (Ok a, s')
           | (Err e, s') => h e s'
           end.

(** [try { m } finally { f }]. *)
Definition finally {S A} (m : M S A) (f : M S unit) : M S A :=
  fun s => match m s with
           | (r, s') => match f s' with
                        | (Ok _, s'') => (r, s'')
                        | (Err e, s'') => (Err e, s'')
                        end
           end.

Definition get_state {S} : M S S := fun s => (Ok s, s).
Definition modify {S} (f : S -> S) : M S unit := fun s => (Ok tt, f s).

(** A promise that already settled. *)
Definition settle {S A} (r : result A) : M S A := fun s => (r, s).

Notation "'let*' x ':=' m 'in' k" := (bind m (fun x => k))
  (at level 10, x name, m at level 100, k at level 200).

(** ** services/imapService.ts *)
Module ImapService.

(** [box.messages] as node-imap reports it; a counter may be missing. *)
Record Box := mkBox {
  box_total : option Z;
  box_new : option Z
}.

(** The mailbox server behind a connection: the folder names of the
    top-level boxes, the reply to opening a box, to the two searches of
    [getFolderStatus], and to a fetch of the sequence range
    [startSeq:endSeq] (the messages that parsed, in order of completion,
    before [accountId] and [folder] are filled in). *)
Record Connection := mkConnection {
  getBoxes : result (list string);
  openBox : string -> result Box;
  search_all : string -> result (option (list Z));
  search_unseen : string -> result (option (list Z));
  seq_fetch : string -> Z -> Z -> result (list EmailMessage)
}.

(** The service object; [imap] is unset before [connect]. *)
Record t := mk { imap : option Connection }.

(** [n || 0] on a counter that may be missing. *)
Definition or_zero (o : option Z) : Z :=
  match o with Some n => n | None => 0 end.

(** [results ? results.length : 0]. *)
Definition length_or_zero (o : option (list Z)) : Z :=
  match o with Some l => Z.of_nat (length l) | None => 0 end.

Definition getFolders (s : t) : result (list string) :=
  match imap s with
  | None => Err "Not connected"
  | Some c => getBoxes c
  end.

(** [getMessages(folder, limit, sequenceRange)] for a range
    [`${startSeq}:${endSeq}`]: the fetched messages sorted by date,
    newest first. *)
Definition getMessages (s : t) (folder : string) (limit startSeq endSeq : Z)
    : result (list EmailMessage) :=
  match imap s with
  | None => Err "Not connected"
  | Some c =>
      match openBox c folder with
      | Err e => Err e
      | Ok _ =>
          match seq_fetch c folder startSeq endSeq with
          | Err e => Err e
          | Ok messages => Ok (JS.sort_desc date messages)
          end
      end
  end.

(** [getFolderStatus(folder)]: [(total, unseen)]. *)
Definition getFolderStatus (s : t) (folder : string) : result (Z * Z) :=
  match imap s with
  | None => Err "Not connected"
  | Some c =>
      match openBox c folder with
      | Err e => Err e
      | Ok box =>
          match search_all c folder with
          | Err _ => Ok (or_zero (box_total box), or_zero (box_new box))
          | Ok allResults =>
              let actualTotal := length_or_zero allResults in
              match search_unseen c folder with
              | Err _ => Ok (actualTotal, or_zero (box_new box))
              | Ok unseenResults => Ok (actualTotal, length_or_zero unseenResults)
              end
          end
      end
  end.

End ImapService.

(** ** services/emailService.ts *)
Module EmailService.

(** [getImapService(accountId)]: the connected service of the account, or
    the error of the lookup or of the connection. The service is a function
    of the account, and a connection answers by its arguments: during one run
    of a handler the same request gets the same answer, and a folder that
    cannot be opened for the status cannot be opened for the fetch either. *)
Definition t : Type := string -> result ImapService.t.

Definition getFolders (es : t) (accountId : string) : result (list string) :=
  match es accountId with
  | Err e => Err e
  | Ok imap => ImapService.getFolders imap
  end.

Definition set_origin (accountId folderName : string) (msg : EmailMessage)
    : EmailMessage :=
  {| id := id msg; accountId := accountId; folder := folderName;
     uid := uid msg; messageId := messageId msg; from := from msg;
     subject := subject msg; date := date msg; body_text := body_text msg;
     attachments := attachments msg; flags := flags msg;
     references := references msg |}.

Definition getMessages (es : t) (accountId folderName : string)
    (limit startSeq endSeq : Z) : result (list EmailMessage) :=
  match es accountId with
  | Err e => Err e
  | Ok imap =>
      match ImapService.getMessages imap folderName limit startSeq endSeq with
      | Err e => Err e
      | Ok messages => Ok (map (set_origin accountId folderName) messages)
      end
  end.

Definition getFolderStatus (es : t) (accountId folderName : string)
    : result (Z * Z) :=
  match es accountId with
  | Err e => Err e
  | Ok imap => ImapService.getFolderStatus imap folderName
  end.

End EmailService.

(** The environment of a handler: the mail service and the clock, given as
    the sequence of the readings of [Date.now()]. *)
Record Env := mkEnv {
  emailService : EmailService.t;
  clock : nat -> Z
}.

Record EmailAccount := mkEmailAccount {
  acc_id : string;
  acc_email : string
}.

(** [emailAccounts.find(acc => acc.email === account)]. *)
Definition find_account (accounts : list EmailAccount) (email : string)
    : option EmailAccount :=
  List.find (fun acc => String.eqb (acc_email acc) email) accounts.

(** *** The store and the remote services as monadic operations

    Every handler state [S] embeds a [World]; [wget] and [wset] project and
    update it. *)
Section Ops.
Context {S : Type} (wget : S -> World) (wset : World -> S -> S) (env : Env).

Definition emit (e : Event) : M S unit :=
  modify (fun s => let w := wget s in
                   wset (mkWorld (store w) (log w ++ [e]) (ticks w)) s).

Definition Date_now : M S Z :=
  fun s => let w := wget s in
           (Ok (clock env (ticks w)), wset (mkWorld (store w) (log w) (Datatypes.S (ticks w))) s).

Definition update_store (f : CacheService.t -> CacheService.t) : M S unit :=
  modify (fun s => let w := wget s in
                   wset (mkWorld (f (store w)) (log w) (ticks w)) s).

Definition cache_getCachedMessages (folderId accountId : string)
    (limit offset : Z) : M S (list EmailMessage) :=
  let* _ := emit (EvCacheRead folderId accountId limit offset) in
  let* s := get_state in
  ret (CacheService.getCachedMessages (store (wget s)) folderId accountId limit offset).

Definition cache_getLastSyncTime (folderId accountId : string) : M S (option Z) :=
  let* _ := emit (EvCacheLastSync folderId accountId) in
  let* s := get_state in
  ret (CacheService.getLastSyncTime (store (wget s)) folderId accountId).

Definition cache_getFolderMetadata (folderId accountId : string)
    : M S (option (Z * Z)) :=
  let* _ := emit (EvCacheMeta folderId accountId) in
  let* s := get_state in
  ret (CacheService.getFolderMetadata (store (wget s)) folderId accountId).

Definition cache_updateMessages (msgs : list EmailMessage)
    (folderId accountId : string) : M S unit :=
  let* _ := emit (EvCacheWrite folderId accountId (length msgs)) in
  let* s := get_state in
  match CacheService.db (store (wget s)) with
  | None => ret tt
  | Some _ =>
      let* now := Date_now in
      update_store (CacheService.updateMessages now msgs folderId accountId)
  end.

Definition cache_updateFolderMetadata (folderId accountId : string)
    (totalCount unreadCount : Z) : M S unit :=
  let* _ := emit (EvCacheMetaWrite folderId accountId totalCount unreadCount) in
  let* s := get_state in
  match CacheService.db (store (wget s)) with
  | None => ret tt
  | Some _ =>
      let* now := Date_now in
      update_store
        (CacheService.updateFolderMetadata now folderId accountId totalCount unreadCount)
  end.

Definition remote_getFolders (accountId : string) : M S (list string) :=
  let* _ := emit (EvFolders accountId) in
  settle (EmailService.getFolders (emailService env) accountId).

Definition remote_getFolderStatus (accountId folderName : string) : M S (Z * Z) :=
  let* _ := emit (EvStatus accountId folderName) in
  settle (EmailService.getFolderStatus (emailService env) accountId folderName).

Definition remote_getMessages (accountId folderName : string)
    (limit startSeq endSeq : Z) : M S (list EmailMessage) :=
  let* _ := emit (EvFetch accountId folderName limit startSeq endSeq) in
  settle (EmailService.getMessages (emailService env) accountId folderName
            limit startSeq endSeq).
End Ops.

(** ** components/MessageList.tsx *)
Module MessageList.

(** The props and settings the page load reads. [p_isRefreshing] is
    [refreshStatus?.isRefreshing]; [p_onRefreshRequest] tells whether the
    callback was supplied; an undefined [refreshTrigger] is [0]. *)
Record Props := mkProps {
  p_folder : string;
  p_account : option string;
  p_emailAccounts : list EmailAccount;
  p_messagesPerPage : Z;
  p_autoRefreshEnabled : bool;
  p_autoRefreshInterval : Z;
  p_isRefreshing : bool;
  p_onRefreshRequest : bool;
  p_refreshTrigger : Z
}.

(** The component state (a displayed message is kept as the [EmailMessage]
    it was converted from, its [_original]) together with the world. *)
Record State := mkState {
  st_messages : list EmailMessage;
  st_loading : bool;
  st_error : option string;
  st_currentPage : Z;
  st_totalMessages : Z;
  st_isChangingPage : bool;
  st_lastSyncTime : option Z;
  st_isFromCache : bool;
  st_newMessageCount : Z;
  st_lastMessageUIDs : gset Z;
  st_lastAutoRefresh : option Z;
  st_world : World
}.

Definition setMessages (l : list EmailMessage) (s : State) : State :=
  mkState l (st_loading s) (st_error s) (st_currentPage s) (st_totalMessages s)
    (st_isChangingPage s) (st_lastSyncTime s) (st_isFromCache s)
    (st_newMessageCount s) (st_lastMessageUIDs s) (st_lastAutoRefresh s) (st_world s).
Definition setLoading (b : bool) (s : State) : State :=
  mkState (st_messages s) b (st_error s) (st_currentPage s) (st_totalMessages s)
    (st_isChangingPage s) (st_lastSyncTime s) (st_isFromCache s)
    (st_newMessageCount s) (st_lastMessageUIDs s) (st_lastAutoRefresh s) (st_world s).
Definition setError (e : option string) (s : State) : State :=
  mkState (st_messages s) (st_loading s) e (st_currentPage s) (st_totalMessages s)
    (st_isChangingPage s) (st_lastSyncTime s) (st_isFromCache s)
    (st_newMessageCount s) (st_lastMessageUIDs s) (st_lastAutoRefresh s) (st_world s).
Definition setTotalMessages (n : Z) (s : State) : State :=
  mkState (st_messages s) (st_loading s) (st_error s) (st_currentPage s) n
    (st_isChangingPage s) (st_lastSyncTime s) (st_isFromCache s)
    (st_newMessageCount s) (st_lastMessageUIDs s) (st_lastAutoRefresh s) (st_world s).
Definition setIsChangingPage (b : bool) (s : State) : State :=
  mkState (st_messages s) (st_loading s) (st_error s) (st_currentPage s)
    (st_totalMessages s) b (st_lastSyncTime s) (st_isFromCache s)
    (st_newMessageCount s) (st_lastMessageUIDs s) (st_lastAutoRefresh s) (st_world s).
Definition setLastSyncTime (t : option Z) (s : State) : State :=
  mkState (st_messages s) (st_loading s) (st_error s) (st_currentPage s)
    (st_totalMessages s) (st_isChangingPage s) t (st_isFromCache s)
    (st_newMessageCount s) (st_lastMessageUIDs s) (st_lastAutoRefresh s) (st_world s).
Definition setIsFromCache (b : bool) (s : State) : State :=
  mkState (st_messages s) (st_loading s) (st_error s) (st_currentPage s)
    (st_totalMessages s) (st_isChangingPage s) (st_lastSyncTime s) b
    (st_newMessageCount s) (st_lastMessageUIDs s) (st_lastAutoRefresh s) (st_world s).
Definition setNewMessageCount (n : Z) (s : State) : State :=
  mkState (st_messages s) (st_loading s) (st_error s) (st_currentPage s)
    (st_totalMessages s) (st_isChangingPage s) (st_lastSyncTime s) (st_isFromCache s)
    n (st_lastMessageUIDs s) (st_lastAutoRefresh s) (st_world s).
Definition setLastMessageUIDs (u : gset Z) (s : State) : State :=
  mkState (st_messages s) (st_loading s) (st_error s) (st_currentPage s)
    (st_totalMessages s) (st_isChangingPage s) (st_lastSyncTime s) (st_isFromCache s)
    (st_newMessageCount s) u (st_lastAutoRefresh s) (st_world s).
Definition setLastAutoRefresh (t : option Z) (s : State) : State :=
  mkState (st_messages s) (st_loading s) (st_error s) (st_currentPage s)
    (st_totalMessages s) (st_isChangingPage s) (st_lastSyncTime s) (st_isFromCache s)
    (st_newMessageCount s) (st_lastMessageUIDs s) t (st_world s).
Definition setWorld (w : World) (s : State) : State :=
  mkState (st_messages s) (st_loading s) (st_error s) (st_currentPage s)
    (st_totalMessages s) (st_isChangingPage s) (st_lastSyncTime s) (st_isFromCache s)
    (st_newMessageCount s) (st_lastMessageUIDs s) (st_lastAutoRefresh s) w.

(** The match of one server folder name against the requested name, as
    written in both resolution loops of [loadMessages]. *)
Definition folder_matches (normalizedFolder : string) (f : string) : bool :=
  let normalized := JS.toUpperCase f in
  String.eqb normalized normalizedFolder
  || (String.eqb normalizedFolder "SENT"
      && (String.eqb normalized "SENT MAIL" || String.eqb normalized "SENT MESSAGES"))
  || (String.eqb normalizedFolder "DELETED"
      && (String.eqb normalized "DELETED MESSAGES" || String.eqb normalized "DELETED ITEMS"))
  || (String.eqb normalizedFolder "JUNK"
      && (String.eqb normalized "JUNK E-MAIL" || String.eqb normalized "JUNK MAIL"))
  || (String.eqb normalizedFolder "TRASH" && String.eqb normalized "DELETED").

(** [actualFolderName]: the first listed folder that matches, else the
    requested name. *)
Definition actualFolderName (folders : list string) (folder : string) : string :=
  match List.find (folder_matches (JS.toUpperCase folder)) folders with
  | Some f => f
  | None => folder
  end.

(** [Math.ceil(a / b)] for a positive divisor. *)
Definition ceil_div (a b : Z) : Z := (a + b - 1) / b.

(** [Math.ceil(messagesPerPage * 1.5)]. *)
Definition bufferSize (messagesPerPage : Z) : Z := (3 * messagesPerPage + 1) / 2.

Definition endSeq (actualTotalMessages currentPage messagesPerPage : Z) : Z :=
  Z.max 1 (actualTotalMessages - (currentPage - 1) * messagesPerPage).

Definition startSeq (endSeq messagesPerPage : Z) : Z :=
  Z.max 1 (endSeq - bufferSize messagesPerPage + 1).

(** [arr.slice(0, n)]; a negative [n] counts from the end. *)
Definition slice0 {A} (n : Z) (l : list A) : list A :=
  if 0 <=? n then firstn (Z.to_nat n) l
  else firstn (length l - Z.to_nat (- n)) l.

Section Handlers.
Context (p : Props) (env : Env).

Let emit := emit st_world setWorld.
Let Date_now := Date_now st_world setWorld env.
Let getCachedMessages := cache_getCachedMessages st_world setWorld.
Let getLastSyncTime := cache_getLastSyncTime st_world setWorld.
Let getFolderMetadata := cache_getFolderMetadata st_world setWorld.
Let updateMessages := cache_updateMessages st_world setWorld env.
Let updateFolderMetadata := cache_updateFolderMetadata st_world setWorld env.
Let getFolders := remote_getFolders st_world setWorld env.
Let getFolderStatus := remote_getFolderStatus st_world setWorld env.
Let getMessages := remote_getMessages st_world setWorld env.

Definition find_or_throw (account : string) : M State EmailAccount :=
  match find_account (p_emailAccounts p) account with
  | Some a => ret a
  | None => throw ("Account " ++ account ++ " not found")%string
  end.

(** [onRefreshRequest('current')], started and not awaited. *)
Definition onRefreshRequest : M State unit := emit EvRefreshRequest.

(** The auto-refresh check that opens [loadMessages]. *)
Definition initialAutoRefresh (st0 : State) (account : string) : M State unit :=
  if (st_currentPage st0 =? 1) && negb (st_isChangingPage st0)
     && p_onRefreshRequest p && p_autoRefreshEnabled p
  then
    match find_account (p_emailAccounts p) account with
    | None => ret tt
    | Some emailAccount =>
        let* syncTime := getLastSyncTime (p_folder p) (acc_id emailAccount) in
        let* shouldAutoRefresh :=
          match syncTime with
          | None => ret true
          | Some t =>
              let* now := Date_now in
              ret (p_autoRefreshInterval p * 60 * 1000 <? now - t)
          end in
        if shouldAutoRefresh && negb (p_isRefreshing p) then
          let* now := Date_now in
          let* _ := modify (setLastAutoRefresh (Some now)) in
          onRefreshRequest
        else ret tt
    end
  else ret tt.

(** The cache-first part: returns [true] when the cached page was shown
    and is complete (the source returns there), [false] when the load
    goes on to the remote fetch. *)
Definition loadFromCache (st0 : State) (account : string) : M State bool :=
  let* emailAccount := find_or_throw account in
  let offset := (st_currentPage st0 - 1) * p_messagesPerPage p in
  let* cachedMessages :=
    getCachedMessages (p_folder p) (acc_id emailAccount) (p_messagesPerPage p) offset in
  match cachedMessages with
  | [] => ret false
  | _ :: _ =>
      let* _ := modify (setMessages cachedMessages) in
      let* _ := modify (setIsFromCache true) in
      let* syncTime := getLastSyncTime (p_folder p) (acc_id emailAccount) in
      let* _ := modify (setLastSyncTime syncTime) in
      let* folders := getFolders (acc_id emailAccount) in
      let actual := actualFolderName folders (p_folder p) in
      let* metadata := getFolderMetadata actual (acc_id emailAccount) in
      let* _ :=
        match metadata with
        | Some (total, _) =>
            if 0 <? total then modify (setTotalMessages total)
            else
              let* _ := (if negb (p_isRefreshing p) && p_onRefreshRequest p
                         then onRefreshRequest else ret tt) in
              modify (setTotalMessages 0)
        | None =>
            let* _ := (if negb (p_isRefreshing p) && p_onRefreshRequest p
                       then onRefreshRequest else ret tt) in
            modify (setTotalMessages 0)
        end in
      let totalPages :=
        ceil_div (match metadata with Some (total, _) => total | None => 0 end)
                 (p_messagesPerPage p) in
      let isLastPage := totalPages <=? st_currentPage st0 in
      if negb isLastPage
         && (Z.of_nat (length cachedMessages) <? p_messagesPerPage p)
      then ret false
      else ret true
  end.

(** The remote fetch of the current page. *)
Definition loadFromImap (st0 : State) (account : string) : M State unit :=
  let* emailAccount := find_or_throw account in
  let* folders := getFolders (acc_id emailAccount) in
  let actual := actualFolderName folders (p_folder p) in
  let* actualTotalMessages :=
    try_catch
      (let* folderStatus := getFolderStatus (acc_id emailAccount) actual in
       let* _ := modify (setTotalMessages (fst folderStatus)) in
       ret (fst folderStatus))
      (fun _ =>
         if st_totalMessages st0 =? 0
         then let* _ := modify (setTotalMessages 100) in ret 100
         else ret (st_totalMessages st0)) in
  if actualTotalMessages =? 0 then modify (setMessages [])
  else
    let endSeq := endSeq actualTotalMessages (st_currentPage st0) (p_messagesPerPage p) in
    let startSeq := startSeq endSeq (p_messagesPerPage p) in
    if endSeq <? startSeq then
      let* _ := emit (EvRangeError startSeq endSeq) in
      modify (setMessages [])
    else
      let* pageMessages :=
        getMessages (acc_id emailAccount) actual (p_messagesPerPage p) startSeq endSeq in
      let messagesForPage := slice0 (p_messagesPerPage p) pageMessages in
      let* _ := modify (setMessages messagesForPage) in
      match messagesForPage with
      | [] => ret tt
      | _ :: _ =>
          let* _ := updateMessages messagesForPage actual (acc_id emailAccount) in
          let* _ := updateFolderMetadata actual (acc_id emailAccount)
                      actualTotalMessages 0 in
          let* now := Date_now in
          modify (setLastSyncTime (Some now))
      end.

(** The remote part of the page load with its loading flags and its error
    handler ("If no cache or cache failed, load from IMAP"). *)
Definition loadRemote (st0 : State) (account : string) : M State unit :=
  let* _ := modify (setLoading true) in
  let* _ := modify (setError None) in
  let* _ := modify (setIsFromCache false) in
  finally
    (try_catch (loadFromImap st0 account)
       (fun err =>
          let* _ := modify (setError (Some err)) in
          modify (setMessages [])))
    (let* _ := modify (setLoading false) in
     modify (setIsChangingPage false)).

(** [loadMessages], the body of the page-load effect. *)
Definition loadMessages : M State unit :=
  match p_account p, p_folder p with
  | None, _ | Some EmptyString, _ | _, EmptyString => modify (setMessages [])
  | Some account, _ =>
      let* st0 := get_state in
      let* _ := initialAutoRefresh st0 account in
      let* served := try_catch (loadFromCache st0 account) (fun _ => ret false) in
      if served then ret tt else loadRemote st0 account
  end.

(** The effect that tracks new messages after a refresh. *)
Definition trackNewMessages (s : State) : State :=
  if (0 <? p_refreshTrigger p)
     && negb (Nat.eqb (length (st_messages s)) 0)
  then
    let currentUIDs : gset Z := list_to_set (uids (st_messages s)) in
    let s1 :=
      if negb (Nat.eqb (size (st_lastMessageUIDs s)) 0) then
        let newUIDs :=
          List.filter (fun u => negb (bool_decide (u ∈ st_lastMessageUIDs s)))
                      (elements currentUIDs) in
        if negb (Nat.eqb (length newUIDs) 0)
        then setNewMessageCount (Z.of_nat (length newUIDs)) s
        else s
      else s in
    setLastMessageUIDs currentUIDs s1
  else s.
End Handlers.

End MessageList.

(** ** source/app.tsx *)
Module App.

Inductive Scope := Current | All | Inbox.

(** The content of [refreshStatus] besides [isRefreshing]. *)
Inductive Status :=
| Idle
| Refreshing
| Refreshed (folderName : string) (count : nat)
| InboxFound (count : nat)
| InboxUpToDate
| NotImplemented
| Failed (error : string).

Record State := mkState {
  st_isRefreshing : bool;
  st_status : Status;
  st_refreshTrigger : Z;
  st_selectedAccount : option string;
  st_selectedFolder : string;
  st_emailAccounts : list EmailAccount;
  st_world : World
}.

Definition setRefreshStatus (b : bool) (m : Status) (s : State) : State :=
  mkState b m (st_refreshTrigger s) (st_selectedAccount s) (st_selectedFolder s)
    (st_emailAccounts s) (st_world s).
Definition bumpRefreshTrigger (s : State) : State :=
  mkState (st_isRefreshing s) (st_status s) (st_refreshTrigger s + 1)
    (st_selectedAccount s) (st_selectedFolder s) (st_emailAccounts s) (st_world s).
Definition setWorld (w : World) (s : State) : State :=
  mkState (st_isRefreshing s) (st_status s) (st_refreshTrigger s)
    (st_selectedAccount s) (st_selectedFolder s) (st_emailAccounts s) w.

Definition firstBatchSize : Z := 50.
Definition regularBatchSize : Z := 500.
(** [messagesToCheck] of the folder refresh, [messagesToFetch] of the inbox
    refresh. *)
Definition messagesToCheck : Z := 200.
Definition messagesToFetch : Z := 100.

(** [new Set(cachedMessages.map(m => m.uid).filter(uid => uid !== undefined))]. *)
Definition existingUIDs (cachedMessages : list EmailMessage) : gset Z :=
  list_to_set (uids cachedMessages).

(** [fetchedMessages.filter(msg => msg.uid && !existingUIDs.has(msg.uid))]. *)
Definition newMessages (cachedMessages fetchedMessages : list EmailMessage)
    : list EmailMessage :=
  List.filter
    (fun msg => negb (uid msg =? 0)
                && negb (bool_decide (uid msg ∈ existingUIDs cachedMessages)))
    fetchedMessages.

(** [Map.prototype.set] on a [Map<number, EmailMessage>] kept in insertion
    order: an existing key keeps its place and takes the new value. *)
Fixpoint map_set (k : Z) (v : EmailMessage) (m : list (Z * EmailMessage))
    : list (Z * EmailMessage) :=
  match m with
  | [] => [(k, v)]
  | (k', v') :: m' =>
      if k' =? k then (k, v) :: m' else (k', v') :: map_set k v m'
  end.

(** [msgs.forEach(msg => { if (msg.uid) uidMap.set(msg.uid, msg) })]. *)
Definition set_all (msgs : list EmailMessage) (m : list (Z * EmailMessage))
    : list (Z * EmailMessage) :=
  fold_left (fun m msg => if uid msg =? 0 then m else map_set (uid msg) msg m) msgs m.

(** [uidMap] after the cached and then the fetched messages were entered. *)
Definition uidMap (cachedMessages fetchedMessages : list EmailMessage)
    : list (Z * EmailMessage) :=
  set_all fetchedMessages (set_all cachedMessages []).

(** [allMessages] of the steady-state refresh. *)
Definition mergedMessages (cachedMessages fetchedMessages : list EmailMessage)
    : list EmailMessage :=
  match newMessages cachedMessages fetchedMessages with
  | _ :: _ => map snd (uidMap cachedMessages fetchedMessages)
  | [] => cachedMessages
  end.

(** [allMessages.filter(msg => !msg.flags.includes('\\Seen')).length]. *)
Definition unreadCount (msgs : list EmailMessage) : Z :=
  Z.of_nat (length (List.filter (fun msg => negb (JS.includes "\Seen" (flags msg))) msgs)).

Section Handlers.
Context (env : Env).

Let getCachedMessages := cache_getCachedMessages st_world setWorld.
Let updateMessages := cache_updateMessages st_world setWorld env.
Let updateFolderMetadata := cache_updateFolderMetadata st_world setWorld env.
Let getFolderStatus := remote_getFolderStatus st_world setWorld env.
Let getMessages := remote_getMessages st_world setWorld env.

(** The loop that walks back from [endSeq] in steps of
    [regularBatchSize]; [fuel] bounds the number of iterations and
    [backfill] below supplies enough of it. *)
Fixpoint backfill_loop (fuel : nat) (accountId folderName : string)
    (endSeq : Z) (allMessages : list EmailMessage)
    : M State (list EmailMessage) :=
  if 0 <? endSeq then
    match fuel with
    | O => ret allMessages
    | Datatypes.S fuel' =>
        let startSeq := Z.max 1 (endSeq - regularBatchSize + 1) in
        let* batchMessages :=
          getMessages accountId folderName regularBatchSize startSeq endSeq in
        let allMessages := (allMessages ++ batchMessages)%list in
        let* _ :=
          (if Z.of_nat (length allMessages) mod 1000 =? 0
           then updateMessages allMessages folderName accountId
           else ret tt) in
        backfill_loop fuel' accountId folderName (endSeq - regularBatchSize) allMessages
    end
  else ret allMessages.

Definition backfill (accountId folderName : string) (remainingEnd : Z)
    (allMessages : list EmailMessage) : M State (list EmailMessage) :=
  backfill_loop (Z.to_nat remainingEnd) accountId folderName remainingEnd allMessages.

(** Initial load of a folder with nothing cached. *)
Definition initialLoad (accountId folderName : string) (totalMessages : Z)
    : M State (list EmailMessage) :=
  let firstEndSeq := totalMessages in
  let firstStartSeq := Z.max 1 (firstEndSeq - firstBatchSize + 1) in
  let* firstBatch :=
    getMessages accountId folderName firstBatchSize firstStartSeq firstEndSeq in
  let allMessages := firstBatch in
  let* _ := updateMessages allMessages folderName accountId in
  let* _ := modify bumpRefreshTrigger in
  let remainingEnd := firstStartSeq - 1 in
  if 0 <? remainingEnd
  then backfill accountId folderName remainingEnd allMessages
  else ret allMessages.

(** Steady-state refresh: look at the newest [window] sequence numbers
    and merge by UID. *)
Definition regularRefresh (accountId folderName : string) (window totalMessages : Z)
    (cachedMessages : list EmailMessage) : M State (list EmailMessage) :=
  let endSeq := totalMessages in
  let startSeq := Z.max 1 (endSeq - window + 1) in
  let* fetchedMessages := getMessages accountId folderName window startSeq endSeq in
  ret (mergedMessages cachedMessages fetchedMessages).

(** Scope [current] for a selected account and folder. *)
Definition refreshCurrent (account : EmailAccount) (selectedFolder : string)
    : M State unit :=
  let* cachedMessages := getCachedMessages selectedFolder (acc_id account) 10000 0 in
  let* folderStatus := getFolderStatus (acc_id account) selectedFolder in
  let totalMessages := fst folderStatus in
  let isInitialLoad := Nat.eqb (length cachedMessages) 0 in
  let* allMessages :=
    if 0 <? totalMessages then
      if isInitialLoad
      then initialLoad (acc_id account) selectedFolder totalMessages
      else regularRefresh (acc_id account) selectedFolder messagesToCheck
             totalMessages cachedMessages
    else ret [] in
  let* _ := updateMessages allMessages selectedFolder (acc_id account) in
  let* _ := updateFolderMetadata selectedFolder (acc_id account)
              (Z.of_nat (length allMessages)) (unreadCount allMessages) in
  let* _ := modify (setRefreshStatus false
                      (Refreshed selectedFolder (length allMessages))) in
  modify bumpRefreshTrigger.

(** Scope [inbox]: one pass over the accounts, returning the number of new
    messages found. *)
Fixpoint refreshInbox (accounts : list EmailAccount) (totalNewMessages : nat)
    : M State nat :=
  match accounts with
  | [] => ret totalNewMessages
  | account :: rest =>
      let* cachedMessages := getCachedMessages "INBOX" (acc_id account) 10000 0 in
      let* folderStatus := getFolderStatus (acc_id account) "INBOX" in
      let* found :=
        if 0 <? fst folderStatus then
          let endSeq := fst folderStatus in
          let startSeq := Z.max 1 (endSeq - messagesToFetch + 1) in
          let* fetchedMessages :=
            getMessages (acc_id account) "INBOX" messagesToFetch startSeq endSeq in
          match newMessages cachedMessages fetchedMessages with
          | [] => ret O
          | new =>
              let* _ := updateMessages
                          (map snd (uidMap cachedMessages fetchedMessages))
                          "INBOX" (acc_id account) in
              ret (length new)
          end
        else ret O in
      refreshInbox rest (totalNewMessages + found)%nat
  end.

(** [handleRefresh(scope)]. *)
Definition handleRefresh (scope : Scope) : M State unit :=
  let* s0 := get_state in
  if st_isRefreshing s0 then ret tt
  else
    let* _ := modify (setRefreshStatus true Refreshing) in
    try_catch
      (match scope, st_selectedAccount s0, st_selectedFolder s0 with
       | Current, Some (String _ _ as selectedAccount), (String _ _ as selectedFolder) =>
           match find_account (st_emailAccounts s0) selectedAccount with
           | Some account => refreshCurrent account selectedFolder
           | None => ret tt
           end
       | Inbox, _, _ =>
           let* totalNewMessages := refreshInbox (st_emailAccounts s0) O in
           let* _ := modify (setRefreshStatus false
                               (if Nat.ltb 0 totalNewMessages
                                then InboxFound totalNewMessages
                                else InboxUpToDate)) in
           modify bumpRefreshTrigger
       | _, _, _ => modify (setRefreshStatus false NotImplemented)
       end)
      (fun err => modify (setRefreshStatus false (Failed err))).
End Handlers.

End App.


(** ** components/MessageList.tsx: the displayed message and the key handler *)

Module MessageView.

(** The [Message] of the list view. The formatted date and the body and
    attachments it passes through are left out. *)
Record Message := mkMessage {
  m_id : string;
  m_from : string;
  m_subject : string;
  m_read : bool;
  m_preview : string;
  m_threadCount : option Z;
  m_original : option EmailMessage
}.

(** [convertEmailMessage]. *)
Definition convertEmailMessage (email : EmailMessage) : Message :=
  let fromString :=
    match from email with
    | [] => "Unknown"
    | f :: _ =>
        match addr_name f with
        | Some (String _ _ as name) => name ++ " <" ++ addr_address f ++ ">"
        | _ => JS.or_str (addr_address f) "Unknown"
        end
    end in
  let preview :=
    match body_text email with
    | Some (String _ _ as text) =>
        JS.trim (JS.replace_newlines (JS.substring0 100 text)) ++ "..."
    | _ => "No preview available"
    end in
  let isRead := JS.includes "\Seen" (flags email) in
  let threadCount :=
    match references email with
    | Some l => Some (Z.of_nat (length l))
    | None => None
    end in
  mkMessage (id email) fromString (JS.or_str (subject email) "(No subject)")
    isRead preview threadCount (Some email).

(** [key] of ink's [useInput], the flags the handler reads. *)
Record Key := mkKey {
  escape : bool;
  upArrow : bool;
  downArrow : bool;
  return_ : bool;
  rightArrow : bool;
  shift : bool;
  pageDown : bool;
  pageUp : bool
}.

(** The state the key handler writes. *)
Record Nav := mkNav {
  selectedIndex : Z;
  viewportOffset : Z;
  currentPage : Z;
  isChangingPage : bool
}.

Definition setSelectedIndex (i : Z) (s : Nav) : Nav :=
  mkNav i (viewportOffset s) (currentPage s) (isChangingPage s).
Definition setViewportOffset (o : Z) (s : Nav) : Nav :=
  mkNav (selectedIndex s) o (currentPage s) (isChangingPage s).
Definition setCurrentPage (p : Z) (s : Nav) : Nav :=
  mkNav (selectedIndex s) (viewportOffset s) p (isChangingPage s).
Definition setIsChangingPage (b : bool) (s : Nav) : Nav :=
  mkNav (selectedIndex s) (viewportOffset s) (currentPage s) b.

(** What a render of the component closes over besides [Nav]: [v_rows] is
    [stdout.rows], [v_onThreadOpen] tells whether the callback was
    supplied. *)
Record View := mkView {
  v_hasFocus : bool;
  v_messages : list Message;
  v_totalMessages : Z;
  v_messagesPerPage : Z;
  v_rows : option Z;
  v_onThreadOpen : bool
}.

(** The calls the handler makes to its parent. *)
Inductive Callback :=
| OnThreadOpen (message : Message)
| OnEmailOpen (message : Message).

(** [Math.ceil(totalMessages / messagesPerPage)], for a page size of at
    least one. *)
Definition totalPages (v : View) : Z :=
  MessageList.ceil_div (v_totalMessages v) (v_messagesPerPage v).

(** [stdout.rows || 24]. *)
Definition terminalHeight (v : View) : Z :=
  match v_rows v with
  | Some r => if r =? 0 then 24 else r
  | None => 24
  end.
Definition viewportHeight (v : View) : Z := Z.max 5 (terminalHeight v - 6).
Definition itemHeight : Z := 4.
Definition visibleItems (v : View) : Z := viewportHeight v / itemHeight.

(** [l[i]] for an integer [i]. *)
Definition at_index {A} (l : list A) (i : Z) : option A :=
  if i <? 0 then None else l !! Z.to_nat i.

(** [Array.prototype.slice(start, end)] on integers. *)
Definition slice {A} (start end_ : Z) (l : list A) : list A :=
  let len := Z.of_nat (length l) in
  let from := if start <? 0 then Z.max (len + start) 0 else Z.min start len in
  let to := if end_ <? 0 then Z.max (len + end_) 0 else Z.min end_ len in
  take (Z.to_nat (to - from)) (drop (Z.to_nat from) l).

(** The messages the render shows:
    [messages.slice(viewportOffset, viewportOffset + visibleItems)]. *)
Definition shown (v : View) (s : Nav) : list Message :=
  slice (viewportOffset s) (viewportOffset s + visibleItems v) (v_messages v).

(** The handler passed to [useInput]. Every condition reads the values of
    the render ([s0]); the setters queue their values, and the last value
    set for a piece of state is the one the next render sees. *)
Definition useInput (v : View) (s0 : Nav) (input : string) (key : Key)
    : Nav * list Callback :=
  if escape key then (s0, [])
  else if negb (v_hasFocus v) then (s0, [])
  else
    let messages := v_messages v in
    let len := Z.of_nat (length messages) in
    let selected := selectedIndex s0 in
    let offset := viewportOffset s0 in
    let page := currentPage s0 in
    let visible := visibleItems v in
    let turn (p : Z) (s : Nav) : Nav :=
      setViewportOffset 0
        (setSelectedIndex 0 (setCurrentPage p (setIsChangingPage true s))) in
    let s1 :=
      if upArrow key && (0 <? selected) then
        let newIndex := selected - 1 in
        let s' := setSelectedIndex newIndex s0 in
        if newIndex <? offset then setViewportOffset newIndex s' else s'
      else s0 in
    let s2 :=
      if downArrow key && (selected <? len - 1) then
        let newIndex := selected + 1 in
        let s' := setSelectedIndex newIndex s1 in
        if offset + visible <=? newIndex then
          setViewportOffset (Z.min (newIndex - visible + 1) (len - visible)) s'
        else s'
      else s1 in
    let calls :=
      if return_ key || rightArrow key then
        match at_index messages selected with
        | Some message =>
            match m_threadCount message with
            | Some n =>
                if negb (n =? 0) && (0 <? n) && v_onThreadOpen v
                then [OnThreadOpen message]
                else [OnEmailOpen message]
            | None => [OnEmailOpen message]
            end
        | None => []
        end
      else [] in
    let s3 :=
      if shift key && (String.eqb input "N" || String.eqb input "n") then
        if page <? totalPages v then turn (page + 1) s2 else s2
      else s2 in
    let s4 :=
      if shift key && (String.eqb input "P" || String.eqb input "p") then
        if 1 <? page then turn (page - 1) s3 else s3
      else s3 in
    let s5 := if pageDown key && (page <? totalPages v) then turn (page + 1) s4 else s4 in
    let s6 := if pageUp key && (1 <? page) then turn (page - 1) s5 else s5 in
    let s7 :=
      if String.eqb input "g" && (0 <? len) then
        setViewportOffset 0 (setSelectedIndex 0 s6)
      else s6 in
    let s8 :=
      if String.eqb input "G" && (0 <? len) then
        let lastIndex := len - 1 in
        setViewportOffset (Z.max 0 (len - visible)) (setSelectedIndex lastIndex s7)
      else s7 in
    (s8, calls).

End MessageView.

(** ** source/app.tsx: opening a message *)

Module EmailOpen.

Inductive ViewMode :=
| Main | Email | Thread | Compose | AddAccount | EditAccount | Settings.

(** The state [handleEmailOpen] reads and writes: the selection and the
    world of [App.State], the opened message and the view. *)
Record State := mkState {
  st_app : App.State;
  st_openedEmail : option MessageView.Message;
  st_viewMode : ViewMode
}.

Definition setOpenedEmail (m : option MessageView.Message) (s : State) : State :=
  mkState (st_app s) m (st_viewMode s).
Definition setViewMode (v : ViewMode) (s : State) : State :=
  mkState (st_app s) (st_openedEmail s) v.
Definition st_world (s : State) : World := App.st_world (st_app s).
Definition setWorld (w : World) (s : State) : State :=
  mkState (App.setWorld w (st_app s)) (st_openedEmail s) (st_viewMode s).

(** [{...message, read: true}]. *)
Definition set_read (m : MessageView.Message) : MessageView.Message :=
  MessageView.mkMessage (MessageView.m_id m) (MessageView.m_from m)
    (MessageView.m_subject m) true (MessageView.m_preview m)
    (MessageView.m_threadCount m) (MessageView.m_original m).

(** The flags written to the cache: the message's, with [\Seen] pushed when
    it is not among them. *)
Definition updatedFlags (original : EmailMessage) : list string :=
  if JS.includes "\Seen" (flags original) then flags original
  else flags original ++ ["\Seen"].

(** [handleEmailOpen(message)]. [markAsRead] is the outcome of
    [emailService.markAsRead(accountId, folder, id)]; the update of the
    cached flags is not among the logged operations. *)
Definition handleEmailOpen (markAsRead : string -> string -> string -> result unit)
    (message : MessageView.Message) : M State unit :=
  let* _ := modify (setOpenedEmail (Some (set_read message))) in
  let* _ := modify (setViewMode Email) in
  let* s := get_state in
  let selectedFolder := App.st_selectedFolder (st_app s) in
  match MessageView.m_original message, App.st_selectedAccount (st_app s) with
  | Some original, Some (String _ _ as selectedAccount) =>
      match find_account (App.st_emailAccounts (st_app s)) selectedAccount with
      | Some account =>
          match id original with
          | EmptyString => ret tt
          | _ =>
              try_catch
                (let* _ := settle (markAsRead (acc_id account) selectedFolder
                                     (id original)) in
                 update_store st_world setWorld
                   (CacheService.updateMessageFlags (id original) selectedFolder
                      (acc_id account) (updatedFlags original)))
                (fun _ => ret tt)
          end
      | None => ret tt
      end
  | _, _ => ret tt
  end.

End EmailOpen.

(** ** services/imapService.ts: building a message from a fetch *)

Module ImapFetch.

(** What [simpleParser] hands back, as far as [EmailMessage] keeps it. *)
Record ParsedAddress := mkParsedAddress {
  pa_name : option string;
  pa_address : option string
}.

(** An address header: an array of addresses, or an object with [value]. *)
Inductive AddressField :=
| AddressArray (l : list ParsedAddress)
| AddressObject (value : option (list ParsedAddress)).

Record ParsedAttachment := mkParsedAttachment {
  p_filename : option string;
  p_contentType : string;
  p_size : Z;
  p_contentId : option string
}.

Record ParsedMail := mkParsedMail {
  p_messageId : option string;
  p_from : option AddressField;
  p_subject : option string;
  p_date : option Z;
  p_text : option string;
  p_attachments : option (list ParsedAttachment);
  p_references : option (string + list string)
}.

(** The attributes of a fetched message. *)
Record Attrs := mkAttrs {
  attr_uid : option Z;
  attr_flags : option (list string)
}.

(** [s || d] on a string that may be missing. *)
Definition or_string (s : option string) (d : string) : string :=
  match s with
  | Some (String _ _ as x) => x
  | _ => d
  end.

Definition toEmailAddress (addr : ParsedAddress) : EmailAddress :=
  mkEmailAddress (pa_name addr) (or_string (pa_address addr) "").

(** [parseAddresses]. *)
Definition parseAddresses (addresses : option AddressField) : list EmailAddress :=
  match addresses with
  | None => []
  | Some (AddressArray l) => map toEmailAddress l
  | Some (AddressObject (Some l)) => map toEmailAddress l
  | Some (AddressObject None) => []
  end.

(** [parsedMailToEmailMessage(parsed, uid, envelope, attributes)]; [now] is
    the [new Date()] taken for a message without a date, [attributes] is
    [None] for the [{}] the caller passes in place of missing ones. *)
Definition parsedMailToEmailMessage (now : Z) (parsed : ParsedMail) (uid : Z)
    (attributes : option Attrs) : EmailMessage :=
  mkEmailMessage
    (or_string (p_messageId parsed) (JS.string_of_Z uid))
    "" ""
    uid
    (or_string (p_messageId parsed) "")
    (parseAddresses (p_from parsed))
    (or_string (p_subject parsed) "")
    (match p_date parsed with Some d => d | None => now end)
    (match p_text parsed with Some (String _ _ as t) => Some t | _ => None end)
    (match p_attachments parsed with
     | Some l =>
         Some (map (fun att =>
                      mkAttachment (or_string (p_filename att) "")
                        (p_contentType att) (p_size att) (p_contentId att)) l)
     | None => None
     end)
    (match attributes with
     | Some attrs => match attr_flags attrs with Some fl => fl | None => [] end
     | None => []
     end)
    (match p_references parsed with
     | None => None
     | Some (inl EmptyString) => None
     | Some (inl r) => Some [r]
     | Some (inr l) => Some l
     end).

(** [messageData] of one fetched message. *)
Record MessageData := mkMessageData {
  md_uid : option Z;
  md_attributes : option Attrs;
  md_body : option string
}.

Definition emptyData : MessageData := mkMessageData None None None.

(** What a fetched message emits: a body stream, given by its chunks, that
    ended, or its attributes. *)
Inductive MsgEvent :=
| BodyEnd (chunks : list string)
| Attributes (attrs : Attrs).

(** [messageData.body] as a condition: a missing or empty body is falsy. *)
Definition has_body (md : MessageData) : bool :=
  match md_body md with
  | Some (String _ _) => true
  | _ => false
  end.

Section Fetch.
Context (simpleParser : string -> result ParsedMail) (now : Z).

(** [processMessage]: the message pushed once the parser calls back, none
    when it reports an error. The callback is taken to run before the
    message emits anything further. *)
Definition processMessage (md : MessageData) : list EmailMessage :=
  match simpleParser (match md_body md with Some b => b | None => "" end) with
  | Err _ => []
  | Ok parsed =>
      [EmailService.set_origin "" ""
         (parsedMailToEmailMessage now parsed (ImapService.or_zero (md_uid md))
            (md_attributes md))]
  end.

(** The two handlers installed on a message. *)
Definition on_event (ev : MsgEvent) (md : MessageData)
    : MessageData * list EmailMessage :=
  match ev with
  | BodyEnd chunks =>
      let buffer := String.concat "" chunks in
      let md' := mkMessageData (md_uid md) (md_attributes md) (Some buffer) in
      (md', match md_attributes md' with
            | Some _ => if has_body md' then processMessage md' else []
            | None => []
            end)
  | Attributes attrs =>
      let md' := mkMessageData (attr_uid attrs) (Some attrs) (md_body md) in
      (md', if has_body md' then processMessage md' else [])
  end.

(** The messages pushed for one fetched message that emits [evs]. *)
Fixpoint on_message (evs : list MsgEvent) (md : MessageData) : list EmailMessage :=
  match evs with
  | [] => []
  | ev :: rest =>
      let '(md', pushed) := on_event ev md in
      pushed ++ on_message rest md'
  end.

End Fetch.

End ImapFetch.

(** ** services/settingsService.ts, types/settings.ts *)

Module SettingsService.

Record Display := mkDisplay {
  messagesPerPage : Z;
  foldersExpanded : bool
}.

Record Shortcuts := mkShortcuts {
  nextPage : option string;
  prevPage : option string
}.

(** The fields are optional here because [{...DEFAULT_SETTINGS.autoRefresh!}]
    is the empty object when the default has none. *)
Record AutoRefresh := mkAutoRefresh {
  enabled : option bool;
  intervalMinutes : option Z
}.

Record UserSettings := mkUserSettings {
  display : Display;
  shortcuts : option Shortcuts;
  autoRefresh : option AutoRefresh
}.

(** The content [DEFAULT_SETTINGS] is created with. *)
Definition DEFAULT_SETTINGS : UserSettings :=
  mkUserSettings (mkDisplay 20 false)
    (Some (mkShortcuts (Some "Shift+N") (Some "Shift+P")))
    (Some (mkAutoRefresh (Some true) (Some 5))).

(** The parsed settings file, read the way [mergeWithDefaults] reads it:
    the value at each path, [None] when the path is missing or null. *)
Record Loaded := mkLoaded {
  l_messagesPerPage : option Z;
  l_foldersExpanded : option bool;
  l_nextPage : option string;
  l_prevPage : option string;
  l_enabled : option bool;
  l_intervalMinutes : option Z
}.

(** The settings file: missing, unreadable (reading or parsing it throws),
    or holding JSON. *)
Inductive File :=
| Missing
| Unreadable
| Content (loaded : Loaded).

(** The service and what it shares: [default_object] is the present content
    of the object [DEFAULT_SETTINGS], which the setters change when
    [this.settings] is that very object; [settings] is [None] in that case
    and the service's own object otherwise. *)
Record t := mk {
  default_object : UserSettings;
  settings : option UserSettings;
  file : File;
  writable : bool
}.

(** [this.settings]. *)
Definition current (st : t) : UserSettings :=
  match settings st with
  | Some s => s
  | None => default_object st
  end.

(** [a ?? b]. *)
Definition nullish {A} (a : option A) (b : option A) : option A :=
  match a with Some _ => a | None => b end.

Definition auto_enabled (s : UserSettings) : option bool :=
  match autoRefresh s with Some ar => enabled ar | None => None end.
Definition auto_interval (s : UserSettings) : option Z :=
  match autoRefresh s with Some ar => intervalMinutes ar | None => None end.
Definition shortcut_next (s : UserSettings) : option string :=
  match shortcuts s with Some sc => nextPage sc | None => None end.
Definition shortcut_prev (s : UserSettings) : option string :=
  match shortcuts s with Some sc => prevPage sc | None => None end.

(** [mergeWithDefaults(loaded)], reading the default object as it is. *)
Definition mergeWithDefaults (defaults : UserSettings) (loaded : Loaded) : UserSettings :=
  mkUserSettings
    (mkDisplay
       (match l_messagesPerPage loaded with
        | Some n => n
        | None => messagesPerPage (display defaults)
        end)
       (match l_foldersExpanded loaded with
        | Some b => b
        | None => foldersExpanded (display defaults)
        end))
    (Some (mkShortcuts
             (nullish (l_nextPage loaded) (shortcut_next defaults))
             (nullish (l_prevPage loaded) (shortcut_prev defaults))))
    (Some (mkAutoRefresh
             (nullish (nullish (l_enabled loaded) (auto_enabled defaults)) (Some true))
             (nullish (nullish (l_intervalMinutes loaded) (auto_interval defaults))
                (Some 5)))).

(** [JSON.stringify(settings)] as [JSON.parse] reads it back. *)
Definition toJSON (s : UserSettings) : Loaded :=
  mkLoaded (Some (messagesPerPage (display s))) (Some (foldersExpanded (display s)))
    (shortcut_next s) (shortcut_prev s) (auto_enabled s) (auto_interval s).

(** [saveSettings(this.settings)]: a failed write is logged and ignored. *)
Definition saveSettings (st : t) : t :=
  if writable st
  then mk (default_object st) (settings st) (Content (toJSON (current st))) (writable st)
  else st.

(** The constructor with [loadSettings], in a process that just loaded the
    module (the default object has its initial content). *)
Definition create (file0 : File) (writable0 : bool) : t :=
  match file0 with
  | Missing => saveSettings (mk DEFAULT_SETTINGS None Missing writable0)
  | Unreadable => mk DEFAULT_SETTINGS None Unreadable writable0
  | Content loaded =>
      mk DEFAULT_SETTINGS (Some (mergeWithDefaults DEFAULT_SETTINGS loaded))
        (Content loaded) writable0
  end.

(** The next start of the program on the file the service left. *)
Definition restart (st : t) : t := create (file st) (writable st).

(** An assignment into the object [this.settings] refers to. *)
Definition assign (f : UserSettings -> UserSettings) (st : t) : t :=
  match settings st with
  | Some s => mk (default_object st) (Some (f s)) (file st) (writable st)
  | None => mk (f (default_object st)) None (file st) (writable st)
  end.

Definition getSettings (st : t) : UserSettings := current st.

Definition getMessagesPerPage (st : t) : Z := messagesPerPage (display (current st)).

Definition setMessagesPerPage (value : Z) (st : t) : result t :=
  if (value <? 1) || (100 <? value)
  then Err "Messages per page must be between 1 and 100"
  else
    Ok (saveSettings
          (assign (fun s => mkUserSettings
                              (mkDisplay value (foldersExpanded (display s)))
                              (shortcuts s) (autoRefresh s)) st)).

Definition getFoldersExpanded (st : t) : bool := foldersExpanded (display (current st)).

Definition setFoldersExpanded (value : bool) (st : t) : t :=
  saveSettings
    (assign (fun s => mkUserSettings
                        (mkDisplay (messagesPerPage (display s)) value)
                        (shortcuts s) (autoRefresh s)) st).

(** [resetToDefaults()]: [this.settings] becomes the default object. *)
Definition resetToDefaults (st : t) : t :=
  saveSettings (mk (default_object st) None (file st) (writable st)).

Definition getAutoRefreshEnabled (st : t) : bool :=
  match nullish (auto_enabled (current st)) (auto_enabled (default_object st)) with
  | Some b => b
  | None => true
  end.

(** [if (!this.settings.autoRefresh) this.settings.autoRefresh =
    {...DEFAULT_SETTINGS.autoRefresh!}]. *)
Definition ensureAutoRefresh (st : t) : t :=
  match autoRefresh (current st) with
  | Some _ => st
  | None =>
      let copy :=
        match autoRefresh (default_object st) with
        | Some ar => ar
        | None => mkAutoRefresh None None
        end in
      assign (fun s => mkUserSettings (display s) (shortcuts s) (Some copy)) st
  end.

Definition setAutoRefreshEnabled (value : bool) (st : t) : t :=
  saveSettings
    (assign (fun s => mkUserSettings (display s) (shortcuts s)
                        (match autoRefresh s with
                         | Some ar => Some (mkAutoRefresh (Some value) (intervalMinutes ar))
                         | None => None
                         end))
       (ensureAutoRefresh st)).

Definition getAutoRefreshInterval (st : t) : Z :=
  match nullish (auto_interval (current st)) (auto_interval (default_object st)) with
  | Some n => n
  | None => 5
  end.

Definition setAutoRefreshInterval (minutes : Z) (st : t) : result t :=
  if (minutes <? 1) || (60 <? minutes)
  then Err "Auto-refresh interval must be between 1 and 60 minutes"
  else
    Ok (saveSettings
          (assign (fun s => mkUserSettings (display s) (shortcuts s)
                              (match autoRefresh s with
                               | Some ar => Some (mkAutoRefresh (enabled ar) (Some minutes))
                               | None => None
                               end))
             (ensureAutoRefresh st))).

(** The calls of a caller that catches what a setter throws. *)
Inductive Call :=
| SetMessagesPerPage (value : Z)
| SetFoldersExpanded (value : bool)
| SetAutoRefreshEnabled (value : bool)
| SetAutoRefreshInterval (minutes : Z)
| ResetToDefaults.

Definition call (st : t) (c : Call) : t :=
  match c with
  | SetMessagesPerPage v =>
      match setMessagesPerPage v st with Ok st' => st' | Err _ => st end
  | SetFoldersExpanded b => setFoldersExpanded b st
  | SetAutoRefreshEnabled b => setAutoRefreshEnabled b st
  | SetAutoRefreshInterval m =>
      match setAutoRefreshInterval m st with Ok st' => st' | Err _ => st end
  | ResetToDefaults => resetToDefaults st
  end.

Definition calls (cs : list Call) (st : t) : t := fold_left call cs st.

(** What the four getters return. *)
Definition readings (st : t) : Z * bool * bool * Z :=
  (getMessagesPerPage st, getFoldersExpanded st, getAutoRefreshEnabled st,
   getAutoRefreshInterval st).

Definition is_reset (c : Call) : bool :=
  match c with ResetToDefaults => true | _ => false end.

End SettingsService.

(** ** Vocabulary of the statements *)

(** An event that is not the defensive range error of the page load. *)
Definition not_range_error (ev : Event) : Prop :=
  match ev with EvRangeError _ _ => False | _ => True end.

(** A handler respects a relation [R] on its state when every run takes a
    state to an [R]-related one, whether it returns or throws. *)
Definition respects {S A : Type} (R : S -> S -> Prop) (m : M S A) : Prop :=
  forall s, R s (snd (m s)).

(** The page load leaves a store that has no database as it is. *)
Definition keeps_failed_store (s s' : MessageList.State) : Prop :=
  CacheService.db (store (MessageList.st_world s)) = None ->
  store (MessageList.st_world s') = store (MessageList.st_world s).

(** The page load leaves the "from cache" flag as it is. *)
Definition keeps_isFromCache (s s' : MessageList.State) : Prop :=
  MessageList.st_isFromCache s' = MessageList.st_isFromCache s.

(** A store update that does nothing when there is no database. *)
Definition noop_without_db (f : CacheService.t -> CacheService.t) : Prop :=
  forall cs, CacheService.db cs = None -> f cs = cs.

(** A flag that survives the comma-separated column: not empty and without a
    comma. *)
Definition plain_flag (f : string) : bool :=
  negb (String.eqb f "")
  && forallb (fun c => negb (Ascii.eqb c ","%char)) (list_ascii_of_string f).

(** What [getCachedMessages] gives back for the flags that were written. *)
Definition stored_flags (fl : list string) : list string :=
  match JS.join_comma fl with
  | EmptyString => []
  | s => JS.split_comma s
  end.

(** A string without a comma. *)
Definition comma_free (s : string) : bool :=
  forallb (fun c => negb (Ascii.eqb c ","%char)) (list_ascii_of_string s).

(** The row that [updateMessages] writes for a message, given its rowid and
    the time of the write. *)
Definition written_row (rid now : Z) (folderId accountId : string) (msg : EmailMessage)
    : CacheService.CachedMessage :=
  CacheService.mkCachedMessage rid (uid msg) folderId accountId
    (JS.or_str (subject msg) "(No subject)")
    (match head (from msg) with
     | Some a => match addr_name a with Some n => n | None => "" end
     | None => ""
     end)
    (match head (from msg) with Some a => addr_address a | None => "" end)
    (date msg) (JS.join_comma (flags msg)) (CacheService.preview_of (body_text msg))
    (match attachments msg with Some (_ :: _) => true | _ => false end)
    (match references msg with Some refs => Z.of_nat (length refs) | None => 0 end)
    now.

(** The synonym table of the folder resolution, on upper-cased names: the
    listed name [listed] stands for the requested name [requested]. *)
Definition is_alias (requested listed : string) : Prop :=
  listed = requested
  \/ (requested = "SENT" /\ (listed = "SENT MAIL" \/ listed = "SENT MESSAGES"))
  \/ (requested = "DELETED" /\ (listed = "DELETED MESSAGES" \/ listed = "DELETED ITEMS"))
  \/ (requested = "JUNK" /\ (listed = "JUNK E-MAIL" \/ listed = "JUNK MAIL"))
  \/ (requested = "TRASH" /\ listed = "DELETED").

(** The names the operations of a page load carry: the reads of the cached
    page and of the last sync time carry the name [requested]; the
    folder-metadata lookup, the remote operations on a folder and the cache
    writes carry the name [key]; other events are not constrained. *)
Definition uses_folder_names (requested key : string) (ev : Event) : Prop :=
  match ev with
  | EvCacheRead f _ _ _ => f = requested
  | EvCacheLastSync f _ => f = requested
  | EvCacheMeta f _ => f = key
  | EvStatus _ f => f = key
  | EvFetch _ f _ _ _ => f = key
  | EvCacheWrite f _ _ => f = key
  | EvCacheMetaWrite f _ _ _ => f = key
  | _ => True
  end.

(** The events a handler adds to the log all satisfy [P]. *)
Definition logs_only (P : Event -> Prop) (s s' : MessageList.State) : Prop :=
  exists evs, log (MessageList.st_world s') = (log (MessageList.st_world s) ++ evs)%list
              /\ Forall P evs.

(** *** The content of the store

    A row without the values that every write renews: its rowid and the time
    it was written. *)
Definition erase_row (r : CacheService.CachedMessage) : CacheService.CachedMessage :=
  CacheService.mkCachedMessage 0 (CacheService.row_uid r) (CacheService.row_folder_id r)
    (CacheService.row_account_id r) (CacheService.row_subject r)
    (CacheService.row_from_name r) (CacheService.row_from_address r)
    (CacheService.row_date r) (CacheService.row_flags r) (CacheService.row_preview r)
    (CacheService.row_has_attachments r) (CacheService.row_thread_count r) 0.

Definition erase_att (a : CacheService.CachedAttachment) : CacheService.CachedAttachment :=
  CacheService.mkCachedAttachment 0 (CacheService.arow_message_uid a)
    (CacheService.arow_folder_id a) (CacheService.arow_account_id a)
    (CacheService.arow_filename a) (CacheService.arow_content_type a)
    (CacheService.arow_size a) (CacheService.arow_content_id a).

Definition erase_folder (f : CacheService.CachedFolder) : CacheService.CachedFolder :=
  CacheService.mkCachedFolder (CacheService.frow_id f) (CacheService.frow_account_id f)
    (CacheService.frow_name f) 0 (CacheService.frow_total_count f)
    (CacheService.frow_unread_count f).

(** The content of the store: the rows of the three tables, in order, without
    rowids and timestamps. *)
Definition content (cs : CacheService.t)
    : option (list CacheService.CachedMessage * list CacheService.CachedAttachment
              * list CacheService.CachedFolder) :=
  match CacheService.db cs with
  | None => None
  | Some d =>
      Some (map erase_row (CacheService.messages d),
            map erase_att (CacheService.attachments_tbl d),
            map erase_folder (CacheService.folders d))
  end.

(** [UNIQUE(uid, folder_id, account_id)] on table [messages]. *)
Definition unique_keys (d : CacheService.Database) : Prop :=
  NoDup (map (fun r => (CacheService.row_uid r, CacheService.row_folder_id r,
                        CacheService.row_account_id r))
             (CacheService.messages d)).

(** The rows of a folder, newest first, as the page query orders them. *)
Definition folder_rows (rows : list CacheService.CachedMessage)
    (folderId accountId : string) : list CacheService.CachedMessage :=
  JS.sort_desc CacheService.row_date
    (List.filter (CacheService.in_folder folderId accountId) rows).

(** The page query on tables given as lists. *)
Definition read_page (rows : list CacheService.CachedMessage)
    (atts : list CacheService.CachedAttachment) (folderId accountId : string)
    (limit offset : Z) : list EmailMessage :=
  CacheService.getCachedMessages
    (CacheService.mk (Some (CacheService.mkDatabase rows 0 [] atts 0 false)))
    folderId accountId limit offset.

(** The attachment row that [updateMessages] writes. *)
Definition written_att (rid u : Z) (folderId accountId : string) (a : Attachment)
    : CacheService.CachedAttachment :=
  CacheService.mkCachedAttachment rid u folderId accountId
    (JS.or_str (att_filename a) "unnamed")
    (JS.or_str (att_contentType a) "application/octet-stream")
    (att_size a)
    (match att_contentId a with Some EmptyString => None | o => o end).

(** The attachment rows written for a message, without rowids. *)
Definition written_atts (folderId accountId : string) (msg : EmailMessage)
    : list CacheService.CachedAttachment :=
  match attachments msg with
  | Some l => map (written_att 0 (uid msg) folderId accountId) l
  | None => []
  end.

(** A message row, or an attachment row, that belongs to one of the messages
    of a batch written to a folder. *)
Definition row_in_batch (msgs : list EmailMessage) (folderId accountId : string)
    (r : CacheService.CachedMessage) : bool :=
  CacheService.in_folder folderId accountId r
  && existsb (Z.eqb (CacheService.row_uid r)) (uids msgs).

Definition att_in_batch (msgs : list EmailMessage) (folderId accountId : string)
    (a : CacheService.CachedAttachment) : bool :=
  existsb (fun u => CacheService.att_of u folderId accountId a) (uids msgs).

(** The message that a page query builds from a row and the attachment table. *)
Definition read_row (atts : list CacheService.CachedAttachment)
    (folderId accountId : string) (r : CacheService.CachedMessage) : EmailMessage :=
  CacheService.cachedMessageToEmailMessage r
    (List.filter (CacheService.att_of (CacheService.row_uid r) folderId accountId) atts).

(** The key of the UNIQUE constraint of table [messages]. *)
Definition row_key (r : CacheService.CachedMessage) : Z * string * string :=
  (CacheService.row_uid r, CacheService.row_folder_id r, CacheService.row_account_id r).

(** The tables after the messages read from a folder (its newest 10000) are
    written back to it: rows and attachment rows, without rowids and times. *)
Definition writeback_rows (rows : list CacheService.CachedMessage)
    (atts : list CacheService.CachedAttachment) (folderId accountId : string)
    : list CacheService.CachedMessage :=
  let cached := read_page rows atts folderId accountId 10000 0 in
  (List.filter (fun r => negb (row_in_batch cached folderId accountId r)) rows
   ++ map (written_row 0 0 folderId accountId) cached)%list.

Definition writeback_atts (rows : list CacheService.CachedMessage)
    (atts : list CacheService.CachedAttachment) (folderId accountId : string)
    : list CacheService.CachedAttachment :=
  let cached := read_page rows atts folderId accountId 10000 0 in
  (List.filter (fun y => negb (att_in_batch cached folderId accountId y)) atts
   ++ concat (map (written_atts folderId accountId) cached))%list.

(** A string without line feeds. *)
Fixpoint no_newline (s : string) : bool :=
  match s with
  | EmptyString => true
  | String c s' => negb (Ascii.eqb c "010"%char) && no_newline s'
  end.

(** The store after the cached messages of a folder (its newest 10000) were
    written back together with the folder's counters, at the times [now1] and
    [now2]. *)
Definition written_back (now1 now2 : Z) (f a : string) (cs : CacheService.t)
    : CacheService.t :=
  let cached := CacheService.getCachedMessages cs f a 10000 0 in
  CacheService.updateFolderMetadata now2 f a (Z.of_nat (length cached))
    (App.unreadCount cached)
    (CacheService.updateMessages now1 cached f a cs).

(** ** Vocabulary of the store properties *)

(** A string without a colon. *)
Definition colon_free (s : string) : bool :=
  forallb (fun c => negb (Ascii.eqb c ":"%char)) (list_ascii_of_string s).

(** The mutators of [CacheService], as values, and a run of them. *)
Inductive StoreOp : Type :=
| OpUpdateMessages (now : Z) (msgs : list EmailMessage) (folderId accountId : string)
| OpUpdateFolderMetadata (now : Z) (folderId accountId : string) (totalCount unreadCount : Z)
| OpUpdateMessageFlags (u : string) (folderId accountId : string) (fl : list string)
| OpClearFolder (folderId accountId : string)
| OpClearAllCache
| OpClose.

Definition apply_op (cs : CacheService.t) (op : StoreOp) : CacheService.t :=
  match op with
  | OpUpdateMessages now msgs f a => CacheService.updateMessages now msgs f a cs
  | OpUpdateFolderMetadata now f a t u => CacheService.updateFolderMetadata now f a t u cs
  | OpUpdateMessageFlags u f a fl => CacheService.updateMessageFlags u f a fl cs
  | OpClearFolder f a => CacheService.clearFolder f a cs
  | OpClearAllCache => CacheService.clearAllCache cs
  | OpClose => CacheService.close cs
  end.

Definition run_ops (ops : list StoreOp) (cs : CacheService.t) : CacheService.t :=
  fold_left apply_op ops cs.

(** An attachment row has its parent row in table [messages]. *)
Definition has_parent (rows : list CacheService.CachedMessage)
    (a : CacheService.CachedAttachment) : bool :=
  existsb (fun r => CacheService.att_of (CacheService.row_uid r)
                      (CacheService.row_folder_id r) (CacheService.row_account_id r) a)
          rows.

(** The number of rows cached for a folder. *)
Definition cached_count (cs : CacheService.t) (folderId accountId : string) : Z :=
  match CacheService.db cs with
  | None => 0
  | Some d =>
      Z.of_nat (length (List.filter (CacheService.in_folder folderId accountId)
                          (CacheService.messages d)))
  end.

(** The attachment descriptors a message reads back with after it was
    written: the defaults of [updateMessages] filled in. *)
Definition stored_attachment (a : Attachment) : Attachment :=
  mkAttachment (JS.or_str (att_filename a) "unnamed")
    (JS.or_str (att_contentType a) "application/octet-stream")
    (att_size a)
    (match att_contentId a with Some EmptyString => None | o => o end).

(** What a message reads back as after [updateMessages] wrote it to a folder
    of an account. *)
Definition stored_message (folderId accountId : string) (m : EmailMessage)
    : EmailMessage :=
  {| id := JS.string_of_Z (uid m);
     accountId := accountId;
     folder := folderId;
     uid := uid m;
     messageId := "";
     from := [ mkEmailAddress
                 (match head (from m) with
                  | Some x => match addr_name x with
                              | Some (String c n) => Some (String c n)
                              | _ => None
                              end
                  | None => None
                  end)
                 (match head (from m) with Some x => addr_address x | None => "" end) ];
     subject := JS.or_str (subject m) "(No subject)";
     date := date m;
     body_text := Some (CacheService.preview_of (body_text m));
     attachments := match attachments m with
                    | Some (x :: l) => Some (map stored_attachment (x :: l))
                    | _ => None
                    end;
     flags := stored_flags (flags m);
     references := match references m with Some (_ :: _) => Some [] | _ => None end |}.

(** The uniqueness constraints of the schema: [UNIQUE(uid, folder_id,
    account_id)] and the primary keys of the three tables. *)
Definition keys_unique (d : CacheService.Database) : Prop :=
  unique_keys d
  /\ NoDup (map CacheService.frow_id (CacheService.folders d))
  /\ NoDup (map CacheService.row_id (CacheService.messages d))
  /\ NoDup (map CacheService.arow_id (CacheService.attachments_tbl d)).

(** Every attachment row refers to a row of table [messages]. *)
Definition no_orphans (d : CacheService.Database) : Prop :=
  Forall (fun a => has_parent (CacheService.messages d) a = true)
         (CacheService.attachments_tbl d).

(** ** Vocabulary of the page-load and refresh properties *)

(** An event of a page load served by the cache: reads of the store, the
    folder listing and the request for a refresh; no remote status or fetch
    and no write to the store. *)
Definition cache_only (ev : Event) : Prop :=
  match ev with
  | EvCacheRead _ _ _ _ | EvCacheLastSync _ _ | EvCacheMeta _ _
  | EvFolders _ | EvRefreshRequest => True
  | _ => False
  end.


(** The keys of the message rows of a store. *)
Definition cached_keys (cs : CacheService.t) : list (Z * string * string) :=
  match CacheService.db cs with
  | None => []
  | Some d => map row_key (CacheService.messages d)
  end.

(** Every message cached in [cs] is still cached in [cs']. *)
Definition keeps_cached (cs cs' : CacheService.t) : Prop :=
  forall k, k ∈ cached_keys cs -> k ∈ cached_keys cs'.

(** A refresh never drops a cached message. *)
Definition refresh_keeps_cached (s s' : App.State) : Prop :=
  keeps_cached (store (App.st_world s)) (store (App.st_world s')).

(** The events a refresh adds to the log all satisfy [P]. *)
Definition refresh_logs_only (P : Event -> Prop) (s s' : App.State) : Prop :=
  exists evs, log (App.st_world s') = (log (App.st_world s) ++ evs)%list /\ Forall P evs.

(** The operations of the quick inbox refresh: reads, status queries, fetches
    of at most [messagesToFetch] messages and message writes, all on INBOX;
    never a write of folder metadata. *)
Definition inbox_event (ev : Event) : Prop :=
  match ev with
  | EvCacheRead f _ limit offset => f = "INBOX" /\ limit = 10000 /\ offset = 0
  | EvStatus _ f => f = "INBOX"
  | EvFetch _ f limit startSeq endSeq =>
      f = "INBOX" /\ limit = App.messagesToFetch
      /\ 1 <= startSeq /\ endSeq - startSeq < App.messagesToFetch
  | EvCacheWrite f _ _ => f = "INBOX"
  | _ => False
  end.

(** ** Vocabulary of the view and settings properties *)

(** The selection of the list view is consistent: the highlighted row lies
    inside the window of rows on screen and inside the list (row 0 of an
    empty list). *)
Definition nav_ok (v : MessageView.View) (s : MessageView.Nav) : Prop :=
  0 <= MessageView.viewportOffset s <= MessageView.selectedIndex s
  /\ MessageView.selectedIndex s < MessageView.viewportOffset s + MessageView.visibleItems v
  /\ (MessageView.selectedIndex s < Z.of_nat (length (MessageView.v_messages v))
      \/ MessageView.selectedIndex s = 0).

(** A message with other flags. *)
Definition with_flags (fl : list string) (m : EmailMessage) : EmailMessage :=
  mkEmailMessage (id m) (accountId m) (folder m) (uid m) (messageId m) (from m)
    (subject m) (date m) (body_text m) (attachments m) fl (references m).

(** The settings the getters report respect the bounds of the setters. *)
Definition in_bounds (st : SettingsService.t) : Prop :=
  1 <= SettingsService.getMessagesPerPage st <= 100
  /\ 1 <= SettingsService.getAutoRefreshInterval st <= 60.

(** A settings file whose numbers, where present, respect the bounds. *)
Definition file_in_bounds (f : SettingsService.File) : Prop :=
  match f with
  | SettingsService.Content l =>
      (forall n, SettingsService.l_messagesPerPage l = Some n -> 1 <= n <= 100)
      /\ (forall n, SettingsService.l_intervalMinutes l = Some n -> 1 <= n <= 60)
  | _ => True
  end.

(** The settings file was found and parsed when the service started. *)
Definition file_was_read (f : SettingsService.File) : bool :=
  match f with
  | SettingsService.Content _ => true
  | _ => false
  end.

(** A settings object whose auto-refresh fields are both present. *)
Definition complete (s : SettingsService.UserSettings) : Prop :=
  is_Some (SettingsService.auto_enabled s) /\ is_Some (SettingsService.auto_interval s).

(** A complete settings object whose numbers respect the bounds. *)
Definition bounded (s : SettingsService.UserSettings) : Prop :=
  complete s
  /\ 1 <= SettingsService.messagesPerPage (SettingsService.display s) <= 100
  /\ (forall n, SettingsService.auto_interval s = Some n -> 1 <= n <= 60).

(** A property of the default object and of the service's own object. *)
Definition settings_ok (P : SettingsService.UserSettings -> Prop) (st : SettingsService.t)
    : Prop :=
  P (SettingsService.default_object st)
  /\ (forall s, SettingsService.settings st = Some s -> P s).

(** ** Sample data *)
Module Sample.

Definition message (u d : Z) (subj : string) (fl : list string) : EmailMessage :=
  {| id := JS.string_of_Z u; accountId := ""; folder := ""; uid := u;
     messageId := ""; from := [mkEmailAddress (Some "Ann") "ann@example.org"];
     subject := subj; date := d; body_text := Some "Hello"; attachments := None;
     flags := fl; references := None |}.

(** A mailbox whose message with sequence number [n] has UID [100 + n] and
    date [n]; a fetch returns one message per sequence number it covers. *)
Definition mailbox_fetch (total startSeq endSeq : Z) : list EmailMessage :=
  map (fun n => message (100 + Z.of_nat n) (Z.of_nat n) "Hi" ["\Seen"])
      (seq (Z.to_nat startSeq) (Z.to_nat (Z.min endSeq total) + 1 - Z.to_nat startSeq)).

Definition connection (folderNames : list string) (total : Z) : ImapService.Connection :=
  {| ImapService.getBoxes := Ok folderNames;
     ImapService.openBox := fun _ => Ok (ImapService.mkBox (Some total) (Some 0));
     ImapService.search_all := fun _ => Ok (Some (map Z.of_nat (seq 1 (Z.to_nat total))));
     ImapService.search_unseen := fun _ => Ok (Some []);
     ImapService.seq_fetch := fun _ s e => Ok (mailbox_fetch total s e) |}.

Definition account : EmailAccount := mkEmailAccount "acc1" "ann@example.org".

Definition env (folderNames : list string) (total : Z) : Env :=
  {| emailService := fun _ => Ok (ImapService.mk (Some (connection folderNames total)));
     clock := fun n => 1000 * (1 + Z.of_nat n) |}.

Definition world (cs : CacheService.t) : World := mkWorld cs [] 0.

(** A message with one attachment. *)
Definition message_with_attachment (u d : Z) : EmailMessage :=
  {| id := JS.string_of_Z u; accountId := ""; folder := ""; uid := u;
     messageId := ""; from := [mkEmailAddress (Some "Ann") "ann@example.org"];
     subject := "Report"; date := d; body_text := Some "See attachment";
     attachments := Some [mkAttachment "report.pdf" "application/pdf" 1024 None];
     flags := []; references := None |}.

Definition no_store : CacheService.t := CacheService.initializeDatabase None.
Definition empty_store : CacheService.t :=
  CacheService.initializeDatabase (Some (CacheService.createTables true)).

(** A store (opened with foreign keys enforced, as the driver does) that
    holds one message with an attachment and the metadata of its folder. *)
Definition store_with_attachment : CacheService.t :=
  CacheService.updateFolderMetadata 2000 "INBOX" "acc1" 1 0
    (CacheService.updateMessages 1000 [message_with_attachment 7 50] "INBOX" "acc1"
       empty_store).

(** A store that already holds the only message of a one-message mailbox,
    cached at time 500. *)
Definition db_in_sync : CacheService.Database :=
  CacheService.transaction 500 "INBOX" "acc1"
    (map (EmailService.set_origin "acc1" "INBOX") (mailbox_fetch 1 1 1))
    (CacheService.createTables true).

Definition store_in_sync : CacheService.t := CacheService.mk (Some db_in_sync).

Definition props (folderName : string) (pageSize : Z) : MessageList.Props :=
  {| MessageList.p_folder := folderName;
     MessageList.p_account := Some "ann@example.org";
     MessageList.p_emailAccounts := [account];
     MessageList.p_messagesPerPage := pageSize;
     MessageList.p_autoRefreshEnabled := false;
     MessageList.p_autoRefreshInterval := 5;
     MessageList.p_isRefreshing := false;
     MessageList.p_onRefreshRequest := true;
     MessageList.p_refreshTrigger := 0 |}.

Definition list_state (page : Z) (cs : CacheService.t) : MessageList.State :=
  {| MessageList.st_messages := [];
     MessageList.st_loading := false;
     MessageList.st_error := None;
     MessageList.st_currentPage := page;
     MessageList.st_totalMessages := 0;
     MessageList.st_isChangingPage := false;
     MessageList.st_lastSyncTime := None;
     MessageList.st_isFromCache := false;
     MessageList.st_newMessageCount := 0;
     MessageList.st_lastMessageUIDs := ∅;
     MessageList.st_lastAutoRefresh := None;
     MessageList.st_world := world cs |}.

Definition app_state (folderName : string) (cs : CacheService.t) : App.State :=
  {| App.st_isRefreshing := false;
     App.st_status := App.Idle;
     App.st_refreshTrigger := 0;
     App.st_selectedAccount := Some "ann@example.org";
     App.st_selectedFolder := folderName;
     App.st_emailAccounts := [account];
     App.st_world := world cs |}.

End Sample.

(** ** Further sample data *)

Module Scenario.

(** A server whose fetch fails. *)
Definition connection_fetch_fails : ImapService.Connection :=
  {| ImapService.getBoxes := Ok ["INBOX"];
     ImapService.openBox := fun _ => Ok (ImapService.mkBox (Some 523) (Some 0));
     ImapService.search_all := fun _ => Ok (Some (map Z.of_nat (seq 1 523)));
     ImapService.search_unseen := fun _ => Ok (Some []);
     ImapService.seq_fetch := fun _ _ _ => Err "Connection lost" |}.

Definition env_fetch_fails : Env :=
  {| emailService := fun _ => Ok (ImapService.mk (Some connection_fetch_fails));
     clock := fun n => 1000 * (1 + Z.of_nat n) |}.

(** A server that lists INBOX but cannot open it. *)
Definition connection_no_box : ImapService.Connection :=
  {| ImapService.getBoxes := Ok ["INBOX"];
     ImapService.openBox := fun _ => Err "Mailbox does not exist";
     ImapService.search_all := fun _ => Ok None;
     ImapService.search_unseen := fun _ => Ok None;
     ImapService.seq_fetch := fun _ _ _ => Ok [] |}.

Definition env_no_box : Env :=
  {| emailService := fun _ => Ok (ImapService.mk (Some connection_no_box));
     clock := fun n => 1000 * (1 + Z.of_nat n) |}.

(** Three messages of INBOX, as a fetch returns them. *)
Definition three_messages : list EmailMessage :=
  map (EmailService.set_origin "acc1" "INBOX") (Sample.mailbox_fetch 3 1 3).

(** A store holding the three messages, without folder metadata, and the
    same with metadata that counts [total] messages. *)
Definition store_without_metadata : CacheService.t :=
  CacheService.updateMessages 1000 three_messages "INBOX" "acc1" Sample.empty_store.

Definition store_with_total (total : Z) : CacheService.t :=
  CacheService.updateFolderMetadata 2000 "INBOX" "acc1" total 0 store_without_metadata.

(** A run of store operations and the database it leaves. *)
Definition ops : list StoreOp :=
  [OpUpdateMessages 1000 [Sample.message_with_attachment 7 50; Sample.message 8 60 "Hi" []]
     "INBOX" "acc1";
   OpUpdateFolderMetadata 2000 "INBOX" "acc1" 2 1;
   OpUpdateMessages 3000 [Sample.message_with_attachment 7 50] "INBOX" "acc1";
   OpUpdateMessageFlags "8" "INBOX" "acc1" ["\Seen"];
   OpClearFolder "Sent" "acc1"].

Definition db_after (fk : bool) : CacheService.Database :=
  match CacheService.db
          (run_ops ops (CacheService.initializeDatabase (Some (CacheService.createTables fk))))
  with
  | Some d => d
  | None => CacheService.createTables fk
  end.

(** The list view on a folder of 45 messages, three of them on screen in a
    terminal of 24 rows. *)
Definition view : MessageView.View :=
  {| MessageView.v_hasFocus := true;
     MessageView.v_messages := map MessageView.convertEmailMessage three_messages;
     MessageView.v_totalMessages := 45;
     MessageView.v_messagesPerPage := 20;
     MessageView.v_rows := Some 24;
     MessageView.v_onThreadOpen := true |}.

Definition no_key : MessageView.Key :=
  MessageView.mkKey false false false false false false false false.
Definition key_down : MessageView.Key :=
  MessageView.mkKey false false true false false false false false.
Definition key_return : MessageView.Key :=
  MessageView.mkKey false false false true false false false false.
Definition key_shift : MessageView.Key :=
  MessageView.mkKey false false false false false true false false.

(** The application showing INBOX of the sample account. *)
Definition open_state (cs : CacheService.t) : EmailOpen.State :=
  EmailOpen.mkState (Sample.app_state "INBOX" cs) None EmailOpen.Main.

(** The unread message of [Sample.store_with_attachment] as the cache
    returns it. *)
Definition cached_message : EmailMessage :=
  CacheService.cachedMessageToEmailMessage
    (written_row 1 1000 "INBOX" "acc1" (Sample.message_with_attachment 7 50))
    [written_att 1 7 "INBOX" "acc1" (mkAttachment "report.pdf" "application/pdf" 1024 None)].

(** A message as a fetch builds it from a mail with a Message-ID. *)
Definition parsed_mail : ImapFetch.ParsedMail :=
  {| ImapFetch.p_messageId := Some "<1@example.org>";
     ImapFetch.p_from :=
       Some (ImapFetch.AddressObject
               (Some [ImapFetch.mkParsedAddress (Some "Ann") (Some "ann@example.org")]));
     ImapFetch.p_subject := Some "Hi";
     ImapFetch.p_date := Some 50;
     ImapFetch.p_text := Some "Hello";
     ImapFetch.p_attachments := None;
     ImapFetch.p_references := None |}.

Definition fetched_message : EmailMessage :=
  EmailService.set_origin "acc1" "INBOX"
    (ImapFetch.parsedMailToEmailMessage 0 parsed_mail 7
       (Some (ImapFetch.mkAttrs (Some 7) (Some [])))).

(** A settings file with a page size and an interval, and a run of calls,
    two of which the setters reject. *)
Definition settings_file : SettingsService.File :=
  SettingsService.Content
    (SettingsService.mkLoaded (Some 50) None None None None (Some 10)).

Definition settings_calls : list SettingsService.Call :=
  [SettingsService.SetMessagesPerPage 500;
   SettingsService.SetAutoRefreshInterval 0;
   SettingsService.SetMessagesPerPage 30;
   SettingsService.SetAutoRefreshEnabled false].

(** A server whose search for all messages fails, and one whose search for
    unseen messages fails; the box reports 523 messages, 2 of them new. *)
Definition connection_search_fails : ImapService.Connection :=
  {| ImapService.getBoxes := Ok ["INBOX"];
     ImapService.openBox := fun _ => Ok (ImapService.mkBox (Some 523) (Some 2));
     ImapService.search_all := fun _ => Err "Search failed";
     ImapService.search_unseen := fun _ => Ok (Some [7; 9; 11]);
     ImapService.seq_fetch := fun _ _ _ => Ok [] |}.

Definition connection_unseen_search_fails : ImapService.Connection :=
  {| ImapService.getBoxes := Ok ["INBOX"];
     ImapService.openBox := fun _ => Ok (ImapService.mkBox (Some 523) (Some 2));
     ImapService.search_all := fun _ => Ok (Some [3; 5; 7; 9; 11]);
     ImapService.search_unseen := fun _ => Err "Search failed";
     ImapService.seq_fetch := fun _ _ _ => Ok [] |}.

End Scenario.

(** * Properties *)

(** ** The stable descending sort *)
Section SortFacts.
Context {A : Type} (key : A -> Z).

Lemma insert_desc_perm (x : A) (l : list A) :
  Permutation (JS.insert_desc key x l) (x :: l).
Proof.
  induction l as [|y l IH]; simpl; [reflexivity|].
  destruct (key y <=? key x); [reflexivity|].
  rewrite IH. apply perm_swap.
Qed.

Lemma sort_desc_perm (l : list A) : Permutation (JS.sort_desc key l) l.
Proof.
  induction l as [|x l IH]; simpl; [reflexivity|].
  rewrite insert_desc_perm. by constructor.
Qed.

Lemma sort_desc_length (l : list A) : length (JS.sort_desc key l) = length l.
Proof. apply Permutation_length, sort_desc_perm. Qed.

Abbreviation desc := (JS.desc key).

Lemma insert_desc_sorted (x : A) (l : list A) :
  StronglySorted desc l -> StronglySorted desc (JS.insert_desc key x l).
Proof.
  induction 1 as [|y l Hs IH Hall]; simpl.
  - repeat constructor.
  - destruct (Z.leb_spec (key y) (key x)) as [Hle|Hlt].
    + constructor; [by constructor|].
      constructor; [exact Hle|].
      eapply Forall_impl; [exact Hall|]. unfold JS.desc in *. intros; simpl in *; lia.
    + constructor; [exact IH|].
      rewrite insert_desc_perm. constructor; [unfold JS.desc; lia | exact Hall].
Qed.

Lemma sort_desc_sorted (l : list A) : StronglySorted desc (JS.sort_desc key l).
Proof.
  induction l; simpl; [constructor | by apply insert_desc_sorted].
Qed.

(** Sorting changes nothing on a list that is already in order: the sort is
    stable. *)
Lemma sort_desc_id (l : list A) : StronglySorted desc l -> JS.sort_desc key l = l.
Proof.
  induction 1 as [|x l Hs IH Hall]; simpl; [done|].
  rewrite IH. destruct l as [|y l']; simpl; [done|].
  inversion Hall as [|? ? Hy _]; subst. unfold JS.desc in Hy.
  destruct (Z.leb_spec (key y) (key x)); [done | lia].
Qed.

Lemma sorted_firstn (n : nat) (l : list A) :
  StronglySorted desc l -> StronglySorted desc (firstn n l).
Proof.
  intros H. revert n. induction H as [|x l Hs IH Hall]; intros [|n]; simpl;
    try constructor; auto.
  by apply Forall_take.
Qed.
End SortFacts.

(** ** ImapService.getFolderStatus *)

(** C10. [getFolderStatus] rejects only when there is no connection or the
    folder cannot be opened. Once the box is open it always resolves: with the
    box's own counters (its total and its count of new messages, each read as 0
    when it is missing) when the search for all messages fails, with the
    counted total and the box's count of new messages when only the search
    for unseen messages fails, and with the two counts otherwise. *)
Theorem getFolderStatus_never_fails_on_search (s : ImapService.t) (folder : string) :
  match ImapService.getFolderStatus s folder with
  | Err e =>
      (ImapService.imap s = None /\ e = "Not connected")
      \/ (exists c, ImapService.imap s = Some c /\ ImapService.openBox c folder = Err e)
  | Ok (total, unseen) =>
      exists c box,
        ImapService.imap s = Some c /\ ImapService.openBox c folder = Ok box /\
        let count (results : option (list Z)) :=
          match results with Some l => Z.of_nat (length l) | None => 0 end in
        let box_total := match ImapService.box_total box with Some n => n | None => 0 end in
        let box_new := match ImapService.box_new box with Some n => n | None => 0 end in
        match ImapService.search_all c folder, ImapService.search_unseen c folder with
        | Err _, _ => total = box_total /\ unseen = box_new
        | Ok allResults, Err _ => total = count allResults /\ unseen = box_new
        | Ok allResults, Ok unseenResults =>
            total = count allResults /\ unseen = count unseenResults
        end
  end.
Proof.
  unfold ImapService.getFolderStatus.
  destruct (ImapService.imap s) as [c|] eqn:Hc; [|by left].
  destruct (ImapService.openBox c folder) as [box|e] eqn:Hbox.
  - destruct (ImapService.search_all c folder) as [allResults|e1] eqn:Hall.
    + destruct (ImapService.search_unseen c folder) as [unseenResults|e2] eqn:Hun;
        exists c, box; rewrite Hall, Hun; auto.
    + exists c, box. rewrite Hall. auto.
  - right. exists c. auto.
Qed.

(** ** The sequence window of a remote page fetch *)

Lemma bufferSize_is_ceil (pageSize : Z) :
  3 * pageSize <= 2 * MessageList.bufferSize pageSize < 3 * pageSize + 2.
Proof.
  unfold MessageList.bufferSize.
  pose proof (Z.div_mod (3 * pageSize + 1) 2 ltac:(lia)).
  pose proof (Z.mod_pos_bound (3 * pageSize + 1) 2 ltac:(lia)).
  lia.
Qed.

Lemma window_in_order (total page pageSize : Z) :
  1 <= pageSize ->
  let e := MessageList.endSeq total page pageSize in
  1 <= MessageList.startSeq e pageSize <= e.
Proof.
  intros Hp e. unfold MessageList.startSeq.
  pose proof (bufferSize_is_ceil pageSize).
  assert (1 <= e) by (unfold e, MessageList.endSeq; lia).
  lia.
Qed.

(** A range fetch that succeeds returns its messages newest first. *)
Lemma EmailService_getMessages_sorted (es : EmailService.t)
    (accountId folderName : string) (limit s e : Z) (l : list EmailMessage) :
  EmailService.getMessages es accountId folderName limit s e = Ok l ->
  StronglySorted (JS.desc date) l.
Proof.
  unfold EmailService.getMessages, ImapService.getMessages.
  destruct (es accountId) as [imap|]; [|done].
  destruct (ImapService.imap imap) as [c|]; [|done].
  destruct (ImapService.openBox c folderName); [|done].
  destruct (ImapService.seq_fetch c folderName s e) as [msgs|]; [|done].
  intros [= <-].
  pose proof (sort_desc_sorted date msgs) as Hs.
  induction Hs as [|x l' Hs IH Hall]; simpl; constructor; auto.
  rewrite Forall_forall in *. intros y Hy.
  apply list_elem_of_fmap in Hy as [z [-> Hz]]. apply (Hall z Hz).
Qed.

(** ** Running the handlers *)

(** Unfolds the monad and the store/remote operations of a handler. *)
Ltac run_monad :=
  cbv beta iota zeta delta
    [bind ret throw try_catch finally get_state modify settle
     emit Date_now update_store
     cache_getCachedMessages cache_getLastSyncTime cache_getFolderMetadata
     cache_updateMessages cache_updateFolderMetadata
     remote_getFolders remote_getFolderStatus remote_getMessages
     MessageList.onRefreshRequest].

Ltac run_proj :=
  cbn [fst snd store log ticks andb orb negb
       MessageList.st_world MessageList.setWorld MessageList.setMessages
       MessageList.setLoading MessageList.setError MessageList.setTotalMessages
       MessageList.setIsChangingPage MessageList.setLastSyncTime
       MessageList.setIsFromCache MessageList.setLastAutoRefresh
       MessageList.st_messages MessageList.st_loading MessageList.st_error
       MessageList.st_currentPage MessageList.st_totalMessages
       MessageList.st_isChangingPage MessageList.st_lastSyncTime
       MessageList.st_isFromCache MessageList.st_newMessageCount
       MessageList.st_lastMessageUIDs MessageList.st_lastAutoRefresh
       App.st_world App.setWorld App.setRefreshStatus App.bumpRefreshTrigger
       App.st_isRefreshing App.st_status App.st_refreshTrigger
       App.st_selectedAccount App.st_selectedFolder App.st_emailAccounts].

Ltac run_step := run_monad; run_proj.

Lemma slice0_firstn {A} (n : Z) (l : list A) :
  0 <= n -> MessageList.slice0 n l = firstn (Z.to_nat n) l.
Proof. intros H. unfold MessageList.slice0. destruct (Z.leb_spec 0 n); [done | lia]. Qed.

Lemma updateMessages_no_db (now : Z) (msgs : list EmailMessage) (f a : string)
    (cs : CacheService.t) :
  CacheService.db cs = None -> CacheService.updateMessages now msgs f a cs = cs.
Proof. intros H. unfold CacheService.updateMessages. by rewrite H. Qed.

Lemma updateFolderMetadata_no_db (now : Z) (f a : string) (t u : Z)
    (cs : CacheService.t) :
  CacheService.db cs = None -> CacheService.updateFolderMetadata now f a t u cs = cs.
Proof. intros H. unfold CacheService.updateFolderMetadata. by rewrite H. Qed.

(** C1. A remote page fetch for a folder with [total >= 1] messages, page
    [page >= 1] and page size [pageSize >= 1] asks for the sequence window
    [startSeq:endSeq] with [endSeq = max(1, total - (page-1)*pageSize)],
    [bufferSize = ceil(pageSize * 1.5)] and
    [startSeq = max(1, endSeq - bufferSize + 1)]; what it shows and caches is
    the fetched list, which is sorted by date descending, cut to its first
    [pageSize] entries. For [total = 523], [pageSize = 20], [page = 1] the
    window is [494:523] with a buffer of 30. *)
Theorem remote_page_fetch_window
    (p : MessageList.Props) (env : Env) (st0 st : MessageList.State)
    (account : string) (ea : EmailAccount) (folders : list string)
    (total unseen : Z) (pageMessages : list EmailMessage) :
  let pageSize := MessageList.p_messagesPerPage p in
  let page := MessageList.st_currentPage st0 in
  let actual := MessageList.actualFolderName folders (MessageList.p_folder p) in
  let e := Z.max 1 (total - (page - 1) * pageSize) in
  let s := Z.max 1 (e - MessageList.bufferSize pageSize + 1) in
  1 <= total -> 1 <= page -> 1 <= pageSize ->
  find_account (MessageList.p_emailAccounts p) account = Some ea ->
  EmailService.getFolders (emailService env) (acc_id ea) = Ok folders ->
  EmailService.getFolderStatus (emailService env) (acc_id ea) actual = Ok (total, unseen) ->
  EmailService.getMessages (emailService env) (acc_id ea) actual pageSize s e = Ok pageMessages ->
  let r := MessageList.loadFromImap p env st0 account st in
  let shown := firstn (Z.to_nat pageSize) pageMessages in
  let w := MessageList.st_world st in
  fst r = Ok tt
  /\ log (MessageList.st_world (snd r)) =
     (log w ++ [EvFolders (acc_id ea); EvStatus (acc_id ea) actual;
                EvFetch (acc_id ea) actual pageSize s e]
            ++ match shown with
               | [] => []
               | _ :: _ => [EvCacheWrite actual (acc_id ea) (length shown);
                            EvCacheMetaWrite actual (acc_id ea) total 0]
               end)%list
  /\ MessageList.st_messages (snd r) = shown
  /\ store (MessageList.st_world (snd r)) =
     match shown with
     | [] => store w
     | _ :: _ =>
         CacheService.updateFolderMetadata (clock env (S (ticks w))) actual (acc_id ea) total 0
           (CacheService.updateMessages (clock env (ticks w)) shown actual (acc_id ea) (store w))
     end
  /\ StronglySorted (JS.desc date) pageMessages
  /\ StronglySorted (JS.desc date) shown
  /\ (length shown <= Z.to_nat pageSize)%nat
  /\ 3 * pageSize <= 2 * MessageList.bufferSize pageSize < 3 * pageSize + 2
  /\ MessageList.endSeq 523 1 20 = 523
  /\ MessageList.bufferSize 20 = 30
  /\ MessageList.startSeq 523 20 = 494.
Proof.
  intros pageSize page actual e s Ht Hpage Hps Hacc Hf Hst Hm r shown w.
  pose proof (EmailService_getMessages_sorted _ _ _ _ _ _ _ Hm) as Hsorted.
  assert (Hrun : fst r = Ok tt
    /\ log (MessageList.st_world (snd r)) =
       (log w ++ [EvFolders (acc_id ea); EvStatus (acc_id ea) actual;
                  EvFetch (acc_id ea) actual pageSize s e]
              ++ match shown with
                 | [] => []
                 | _ :: _ => [EvCacheWrite actual (acc_id ea) (length shown);
                              EvCacheMetaWrite actual (acc_id ea) total 0]
                 end)%list
    /\ MessageList.st_messages (snd r) = shown
    /\ store (MessageList.st_world (snd r)) =
       match shown with
       | [] => store w
       | _ :: _ =>
           CacheService.updateFolderMetadata (clock env (S (ticks w))) actual (acc_id ea) total 0
             (CacheService.updateMessages (clock env (ticks w)) shown actual (acc_id ea) (store w))
       end).
  { subst r. unfold MessageList.loadFromImap, MessageList.find_or_throw.
    rewrite Hacc.
    pose proof (window_in_order total page pageSize Hps) as Hwin.
    cbv zeta in Hwin. unfold MessageList.endSeq, MessageList.startSeq in Hwin.
    subst shown w pageSize page actual e s.
    run_step. rewrite Hf. run_step. rewrite Hst. run_step.
    destruct (Z.eqb_spec total 0) as [|_]; [lia|].
    unfold MessageList.endSeq, MessageList.startSeq.
    match goal with |- context [?a <? ?b] => destruct (Z.ltb_spec a b) as [|_]; [lia|] end.
    rewrite Hm. rewrite slice0_firstn by lia.
    destruct (firstn _ pageMessages) as [|m ms] eqn:Hshown; run_step.
    - repeat split; by rewrite <- ?app_assoc.
    - destruct (CacheService.db (store (MessageList.st_world st))) eqn:Hdb; run_step.
      + unfold CacheService.updateMessages at 1. rewrite Hdb. cbn [CacheService.db]. run_step.
        unfold CacheService.updateMessages. rewrite Hdb.
        repeat split; by rewrite <- ?app_assoc.
      + rewrite Hdb. run_step.
        rewrite updateMessages_no_db, updateFolderMetadata_no_db by done.
        repeat split; by rewrite <- ?app_assoc. }
  destruct Hrun as (H1 & H2 & H3 & H4).
  repeat split; try done.
  - by apply sorted_firstn.
  - subst shown. rewrite length_take. lia.
  - apply bufferSize_is_ceil.
  - apply bufferSize_is_ceil.
Qed.

(** ** Relational reasoning about handlers *)
Section Respects.
Context {S : Type} (R : S -> S -> Prop) {Hrefl : Reflexive R} {Htrans : Transitive R}.

Lemma respects_ret {A} (a : A) : respects R (ret a).
Proof. intros s. apply Hrefl. Qed.

Lemma respects_throw {A} (e : string) : respects R (@throw S A e).
Proof. intros s. apply Hrefl. Qed.

Lemma respects_settle {A} (r : result A) : respects R (settle r).
Proof. intros s. apply Hrefl. Qed.

Lemma respects_get_state : respects R get_state.
Proof. intros s. apply Hrefl. Qed.

Lemma respects_modify (f : S -> S) : (forall s, R s (f s)) -> respects R (modify f).
Proof. intros H s. apply H. Qed.

Lemma respects_bind {A B} (m : M S A) (k : A -> M S B) :
  respects R m -> (forall a, respects R (k a)) -> respects R (bind m k).
Proof.
  intros Hm Hk s. unfold bind. specialize (Hm s).
  destruct (m s) as [[a|e] s']; cbn in *; [|done].
  etransitivity; [exact Hm | apply Hk].
Qed.

Lemma respects_bind_ret {A B} (a : A) (k : A -> M S B) :
  respects R (k a) -> respects R (bind (ret a) k).
Proof. intros Hk s. apply Hk. Qed.

Lemma respects_try_catch {A} (m : M S A) (h : string -> M S A) :
  respects R m -> (forall e, respects R (h e)) -> respects R (try_catch m h).
Proof.
  intros Hm Hh s. unfold try_catch. specialize (Hm s).
  destruct (m s) as [[a|e] s']; cbn in *; [done|].
  etransitivity; [exact Hm | apply Hh].
Qed.

Lemma respects_finally {A} (m : M S A) (f : M S unit) :
  respects R m -> respects R f -> respects R (finally m f).
Proof.
  intros Hm Hf s. unfold finally. specialize (Hm s).
  destruct (m s) as [r s']. specialize (Hf s').
  destruct (f s') as [[[]|e] s'']; cbn in *; etransitivity; eauto.
Qed.

(** The store, clock and remote operations respect [R] as soon as the three
    ways of changing the world do: logging an event that satisfies [Pev],
    reading the clock, and applying a store update that satisfies [Pf]. *)
Context (wget : S -> World) (wset : World -> S -> S) (env : Env)
  (Pev : Event -> Prop) (Pf : (CacheService.t -> CacheService.t) -> Prop).
Hypothesis R_log : forall s e, Pev e ->
  R s (wset (mkWorld (store (wget s)) (log (wget s) ++ [e]) (ticks (wget s))) s).
Hypothesis R_tick : forall s,
  R s (wset (mkWorld (store (wget s)) (log (wget s)) (Datatypes.S (ticks (wget s)))) s).
Hypothesis R_store : forall s f, Pf f ->
  R s (wset (mkWorld (f (store (wget s))) (log (wget s)) (ticks (wget s))) s).

Lemma respects_emit (e : Event) : Pev e -> respects R (emit wget wset e).
Proof. intros He s. by apply R_log. Qed.

Lemma respects_Date_now : respects R (Date_now wget wset env).
Proof. intros s. apply R_tick. Qed.

Lemma respects_update_store f : Pf f -> respects R (update_store wget wset f).
Proof. intros Hf s. by apply R_store. Qed.

Lemma respects_getCachedMessages f a l o :
  Pev (EvCacheRead f a l o) -> respects R (cache_getCachedMessages wget wset f a l o).
Proof.
  intros He. unfold cache_getCachedMessages.
  apply respects_bind; [by apply respects_emit|intros _].
  apply respects_bind; [apply respects_get_state|intros s; apply respects_ret].
Qed.

Lemma respects_getLastSyncTime f a :
  Pev (EvCacheLastSync f a) -> respects R (cache_getLastSyncTime wget wset f a).
Proof.
  intros He. unfold cache_getLastSyncTime.
  apply respects_bind; [by apply respects_emit|intros _].
  apply respects_bind; [apply respects_get_state|intros s; apply respects_ret].
Qed.

Lemma respects_getFolderMetadata f a :
  Pev (EvCacheMeta f a) -> respects R (cache_getFolderMetadata wget wset f a).
Proof.
  intros He. unfold cache_getFolderMetadata.
  apply respects_bind; [by apply respects_emit|intros _].
  apply respects_bind; [apply respects_get_state|intros s; apply respects_ret].
Qed.

Lemma respects_updateMessages msgs f a :
  Pev (EvCacheWrite f a (length msgs)) ->
  (forall now, Pf (CacheService.updateMessages now msgs f a)) ->
  respects R (cache_updateMessages wget wset env msgs f a).
Proof.
  intros He Hf. unfold cache_updateMessages.
  apply respects_bind; [by apply respects_emit|intros _].
  apply respects_bind; [apply respects_get_state|intros s].
  destruct (CacheService.db _); [|apply respects_ret].
  apply respects_bind; [apply respects_Date_now|intros now].
  by apply respects_update_store.
Qed.

Lemma respects_updateFolderMetadata f a t u :
  Pev (EvCacheMetaWrite f a t u) ->
  (forall now, Pf (CacheService.updateFolderMetadata now f a t u)) ->
  respects R (cache_updateFolderMetadata wget wset env f a t u).
Proof.
  intros He Hf. unfold cache_updateFolderMetadata.
  apply respects_bind; [by apply respects_emit|intros _].
  apply respects_bind; [apply respects_get_state|intros s].
  destruct (CacheService.db _); [|apply respects_ret].
  apply respects_bind; [apply respects_Date_now|intros now].
  by apply respects_update_store.
Qed.

Lemma respects_getFolders a :
  Pev (EvFolders a) -> respects R (remote_getFolders wget wset env a).
Proof.
  intros He. unfold remote_getFolders.
  apply respects_bind; [by apply respects_emit|intros _; apply respects_settle].
Qed.

Lemma respects_getFolderStatus a f :
  Pev (EvStatus a f) -> respects R (remote_getFolderStatus wget wset env a f).
Proof.
  intros He. unfold remote_getFolderStatus.
  apply respects_bind; [by apply respects_emit|intros _; apply respects_settle].
Qed.

Lemma respects_getMessages a f l s e :
  Pev (EvFetch a f l s e) -> respects R (remote_getMessages wget wset env a f l s e).
Proof.
  intros He. unfold remote_getMessages.
  apply respects_bind; [by apply respects_emit|intros _; apply respects_settle].
Qed.
End Respects.

(** Walks through the body of a handler, leaving the side conditions on
    events, store updates and state setters. *)
Ltac respects_step :=
  match goal with
  | |- Reflexive _ => typeclasses eauto
  | |- Transitive _ => typeclasses eauto
  | |- forall _, respects _ _ => intros ?
  | |- respects _ (bind (ret _) _) => eapply respects_bind_ret
  | |- respects _ (bind _ _) => eapply respects_bind
  | |- respects _ (ret _) => eapply respects_ret
  | |- respects _ (throw _) => eapply respects_throw
  | |- respects _ (settle _) => eapply respects_settle
  | |- respects _ get_state => eapply respects_get_state
  | |- respects _ (try_catch _ _) => eapply respects_try_catch
  | |- respects _ (finally _ _) => eapply respects_finally
  | |- respects _ (modify _) => eapply respects_modify; intros ?
  | |- respects _ (emit _ _ _) => eapply respects_emit
  | |- respects _ (Date_now _ _ _) => eapply respects_Date_now
  | |- respects _ (cache_getCachedMessages _ _ _ _ _ _) => eapply respects_getCachedMessages
  | |- respects _ (cache_getLastSyncTime _ _ _ _) => eapply respects_getLastSyncTime
  | |- respects _ (cache_getFolderMetadata _ _ _ _) => eapply respects_getFolderMetadata
  | |- respects _ (cache_updateMessages _ _ _ _ _ _) => eapply respects_updateMessages
  | |- respects _ (cache_updateFolderMetadata _ _ _ _ _ _ _) =>
      eapply respects_updateFolderMetadata
  | |- respects _ (remote_getFolders _ _ _ _) => eapply respects_getFolders
  | |- respects _ (remote_getFolderStatus _ _ _ _ _) => eapply respects_getFolderStatus
  | |- respects _ (remote_getMessages _ _ _ _ _ _ _ _) => eapply respects_getMessages
  | |- respects _ (if ?c then _ else _) => destruct c eqn:?
  | |- respects _ (match ?x with _ => _ end) => destruct x eqn:?
  | |- respects _ (let _ := _ in _) => cbv zeta
  end.

Ltac respects_with Hl Ht Hs :=
  repeat (first [exact Hl | exact Ht | exact Hs | respects_step]).

(** ** The range guard of the page load *)

(** C6. When the clamped bounds give [startSeq > endSeq] the page load logs
    the range error, shows an empty list and returns normally, without a fetch
    and without touching the store. With a page size of at least one the
    clamps always give [1 <= startSeq <= endSeq] (for every total and page),
    so the load never takes that branch. *)
Theorem range_guard_unreachable
    (p : MessageList.Props) (env : Env) (st0 st : MessageList.State)
    (account : string) (ea : EmailAccount) (folders : list string)
    (total unseen : Z) :
  let pageSize := MessageList.p_messagesPerPage p in
  let page := MessageList.st_currentPage st0 in
  let actual := MessageList.actualFolderName folders (MessageList.p_folder p) in
  let e := MessageList.endSeq total page pageSize in
  let s := MessageList.startSeq e pageSize in
  find_account (MessageList.p_emailAccounts p) account = Some ea ->
  EmailService.getFolders (emailService env) (acc_id ea) = Ok folders ->
  EmailService.getFolderStatus (emailService env) (acc_id ea) actual = Ok (total, unseen) ->
  total <> 0 ->
  let r := MessageList.loadFromImap p env st0 account st in
  let w := MessageList.st_world st in
  let w' := MessageList.st_world (snd r) in
  (e < s ->
     fst r = Ok tt
     /\ MessageList.st_messages (snd r) = []
     /\ log w' = (log w ++ [EvFolders (acc_id ea); EvStatus (acc_id ea) actual;
                            EvRangeError s e])%list
     /\ store w' = store w)
  /\ (1 <= pageSize ->
        1 <= s <= e
        /\ exists evs, log w' = (log w ++ evs)%list /\ Forall not_range_error evs).
Proof.
  intros pageSize page actual e s Hacc Hf Hst Ht r w w'.
  subst r w w'. unfold MessageList.loadFromImap, MessageList.find_or_throw.
  rewrite Hacc. subst pageSize page actual.
  run_step. rewrite Hf. run_step. rewrite Hst. run_step.
  destruct (Z.eqb_spec total 0) as [|_]; [lia|].
  fold e. fold s. split.
  - intros Hlt. destruct (Z.ltb_spec e s) as [_|]; [|lia]. run_step.
    repeat split; by rewrite <- ?app_assoc.
  - intros Hps.
    pose proof (window_in_order total (MessageList.st_currentPage st0) _ Hps) as Hwin.
    cbv zeta in Hwin. fold e in Hwin. fold s in Hwin. split; [exact Hwin|].
    destruct (Z.ltb_spec e s) as [|_]; [lia|].
    destruct (EmailService.getMessages _ _ _ _ _ _) as [pageMessages|err]; run_step.
    + destruct (MessageList.slice0 _ pageMessages) as [|m ms]; run_step.
      * eexists. rewrite <- !app_assoc. split; [reflexivity|]. by repeat constructor.
      * destruct (CacheService.db (store (MessageList.st_world st))) eqn:Hdb; run_step.
        -- unfold CacheService.updateMessages at 1. rewrite Hdb. cbn [CacheService.db]. run_step.
           eexists. rewrite <- !app_assoc. split; [reflexivity|]. by repeat constructor.
        -- rewrite Hdb. run_step.
           eexists. rewrite <- !app_assoc. split; [reflexivity|]. by repeat constructor.
    + eexists. rewrite <- !app_assoc. split; [reflexivity|]. by repeat constructor.
Qed.

(** ** A store that failed to initialise *)

(** The remote part of the page load never raises: every error ends in the
    error state of the list. *)
Lemma loadRemote_no_raise (p : MessageList.Props) (env : Env)
    (st0 st : MessageList.State) (account : string) :
  fst (MessageList.loadRemote p env st0 account st) = Ok tt.
Proof.
  unfold MessageList.loadRemote. run_step.
  destruct (MessageList.loadFromImap p env st0 account _) as [[[]|err] s']; reflexivity.
Qed.

(** The remote part of the page load leaves a store without a database as it
    is. *)
#[local] Instance keeps_failed_store_refl : Reflexive keeps_failed_store.
Proof. by intros s H. Qed.

#[local] Instance keeps_failed_store_trans : Transitive keeps_failed_store.
Proof.
  intros s1 s2 s3 H12 H23 H. unfold keeps_failed_store in *.
  rewrite H23, H12; auto. by rewrite H12.
Qed.

#[local] Instance keeps_isFromCache_refl : Reflexive keeps_isFromCache.
Proof. by intros s. Qed.

#[local] Instance keeps_isFromCache_trans : Transitive keeps_isFromCache.
Proof. intros s1 s2 s3 H12 H23. unfold keeps_isFromCache in *. congruence. Qed.

Lemma loadFromImap_keeps_failed_store (p : MessageList.Props) (env : Env)
    (st0 : MessageList.State) (account : string) :
  respects keeps_failed_store (MessageList.loadFromImap p env st0 account).
Proof.
  assert (Hl : forall s e, True ->
    keeps_failed_store s (MessageList.setWorld
      (mkWorld (store (MessageList.st_world s)) (log (MessageList.st_world s) ++ [e])
               (ticks (MessageList.st_world s))) s)) by (by intros s e _ H).
  assert (Ht : forall s,
    keeps_failed_store s (MessageList.setWorld
      (mkWorld (store (MessageList.st_world s)) (log (MessageList.st_world s))
               (S (ticks (MessageList.st_world s)))) s)) by (by intros s H).
  assert (Hs : forall s f, noop_without_db f ->
    keeps_failed_store s (MessageList.setWorld
      (mkWorld (f (store (MessageList.st_world s))) (log (MessageList.st_world s))
               (ticks (MessageList.st_world s))) s)).
  { intros s f Hf H. cbn. by apply Hf. }
  unfold MessageList.loadFromImap, MessageList.find_or_throw.
  respects_with Hl Ht Hs; try done.
  - intros now cs H. by apply updateMessages_no_db.
  - intros now cs H. by apply updateFolderMetadata_no_db.
Qed.

Lemma loadFromImap_keeps_isFromCache (p : MessageList.Props) (env : Env)
    (st0 : MessageList.State) (account : string) :
  respects keeps_isFromCache (MessageList.loadFromImap p env st0 account).
Proof.
  assert (Hl : forall s e, True ->
    keeps_isFromCache s (MessageList.setWorld
      (mkWorld (store (MessageList.st_world s)) (log (MessageList.st_world s) ++ [e])
               (ticks (MessageList.st_world s))) s)) by done.
  assert (Ht : forall s,
    keeps_isFromCache s (MessageList.setWorld
      (mkWorld (store (MessageList.st_world s)) (log (MessageList.st_world s))
               (S (ticks (MessageList.st_world s)))) s)) by done.
  assert (Hs : forall s (f : CacheService.t -> CacheService.t), True ->
    keeps_isFromCache s (MessageList.setWorld
      (mkWorld (f (store (MessageList.st_world s))) (log (MessageList.st_world s))
               (ticks (MessageList.st_world s))) s)) by done.
  unfold MessageList.loadFromImap, MessageList.find_or_throw.
  respects_with Hl Ht Hs; done.
Qed.

Lemma loadRemote_no_db (p : MessageList.Props) (env : Env)
    (st0 st : MessageList.State) (account : string) :
  CacheService.db (store (MessageList.st_world st)) = None ->
  store (MessageList.st_world (snd (MessageList.loadRemote p env st0 account st)))
  = store (MessageList.st_world st).
Proof.
  revert st. change (respects keeps_failed_store (MessageList.loadRemote p env st0 account)).
  unfold MessageList.loadRemote.
  repeat respects_step; try done.
  apply loadFromImap_keeps_failed_store.
Qed.

Lemma loadRemote_not_from_cache (p : MessageList.Props) (env : Env)
    (st0 st : MessageList.State) (account : string) :
  MessageList.st_isFromCache (snd (MessageList.loadRemote p env st0 account st)) = false.
Proof.
  unfold MessageList.loadRemote. run_step.
  pose proof (loadFromImap_keeps_isFromCache p env st0 account
    (MessageList.setIsFromCache false
       (MessageList.setError None (MessageList.setLoading true st)))) as H.
  unfold keeps_isFromCache in H.
  destruct (MessageList.loadFromImap _ _ _ _ _) as [[[]|err] s']; run_step; exact H.
Qed.

(** The page load on a store without a database, when the server answers:
    the log it leaves and what it shows. *)
Lemma failed_store_page_load (p : MessageList.Props) (env : Env) (st : MessageList.State)
    (c : ascii) (account' : string) (ea : EmailAccount) (folders : list string)
    (total unseen : Z) (pageMessages : list EmailMessage) :
  let account := String c account' in
  let folder := MessageList.p_folder p in
  let pageSize := MessageList.p_messagesPerPage p in
  let page := MessageList.st_currentPage st in
  let actual := MessageList.actualFolderName folders folder in
  let endSeq := MessageList.endSeq total page pageSize in
  let startSeq := MessageList.startSeq endSeq pageSize in
  CacheService.db (store (MessageList.st_world st)) = None ->
  MessageList.p_account p = Some account ->
  folder <> "" ->
  find_account (MessageList.p_emailAccounts p) account = Some ea ->
  EmailService.getFolders (emailService env) (acc_id ea) = Ok folders ->
  EmailService.getFolderStatus (emailService env) (acc_id ea) actual = Ok (total, unseen) ->
  total <> 0 -> 1 <= pageSize ->
  EmailService.getMessages (emailService env) (acc_id ea) actual pageSize startSeq endSeq
  = Ok pageMessages ->
  let r := MessageList.loadMessages p env st in
  let shown := firstn (Z.to_nat pageSize) pageMessages in
  MessageList.st_messages (snd r) = shown
  /\ MessageList.st_error (snd r) = None
  /\ MessageList.st_loading (snd r) = false
  /\ MessageList.st_totalMessages (snd r) = total
  /\ log (MessageList.st_world (snd r))
     = (log (MessageList.st_world st)
        ++ (if (page =? 1) && negb (MessageList.st_isChangingPage st)
               && MessageList.p_onRefreshRequest p && MessageList.p_autoRefreshEnabled p
            then EvCacheLastSync folder (acc_id ea)
                 :: (if MessageList.p_isRefreshing p then [] else [EvRefreshRequest])
            else [])
        ++ [EvCacheRead folder (acc_id ea) pageSize ((page - 1) * pageSize);
            EvFolders (acc_id ea); EvStatus (acc_id ea) actual;
            EvFetch (acc_id ea) actual pageSize startSeq endSeq]
        ++ match shown with
           | [] => []
           | _ :: _ => [EvCacheWrite actual (acc_id ea) (length shown);
                        EvCacheMetaWrite actual (acc_id ea) total 0]
           end)%list.
Proof.
  intros account folder pageSize page actual endSeq startSeq Hdb Hacc Hfolder Hfind Hf Hst
    Ht Hps Hm r shown.
  pose proof (window_in_order total page pageSize Hps) as Hwin. cbv zeta in Hwin.
  fold endSeq in Hwin. fold startSeq in Hwin.
  assert (Hcs : store (MessageList.st_world st) = CacheService.mk None).
  { destruct (store (MessageList.st_world st)) as [d]. cbn in Hdb. by subst d. }
  subst r account. unfold MessageList.loadMessages. rewrite Hacc.
  subst folder. destruct (MessageList.p_folder p) as [|c' folder'] eqn:Hfd; [done|].
  unfold MessageList.initialAutoRefresh, MessageList.loadFromCache, MessageList.loadRemote,
    MessageList.loadFromImap, MessageList.find_or_throw.
  rewrite Hfind. rewrite Hfd. subst shown pageSize page actual endSeq startSeq.
  run_step.
  destruct (_ && _ && _ && _); run_step.
  - rewrite Hcs. cbn [CacheService.getLastSyncTime CacheService.db]. run_step.
    destruct (MessageList.p_isRefreshing p); run_step.
    all: rewrite ?Hcs; cbn [CacheService.getCachedMessages CacheService.db]; run_step.
    all: rewrite Hf; run_step; rewrite Hst; run_step.
    all: destruct (Z.eqb_spec total 0) as [|_]; [done|].
    all: match goal with
         | |- context [?a <? ?b] => destruct (Z.ltb_spec a b) as [|_]; [lia|]
         end.
    all: rewrite Hm, slice0_firstn by lia.
    all: destruct (firstn _ pageMessages) as [|m ms] eqn:Hshown; run_step.
    all: rewrite ?Hcs; cbn [CacheService.db]; run_step.
    all: repeat split; by rewrite <- ?app_assoc.
  - rewrite ?Hcs; cbn [CacheService.getCachedMessages CacheService.db]; run_step.
    rewrite Hf; run_step; rewrite Hst; run_step.
    destruct (Z.eqb_spec total 0) as [|_]; [done|].
    match goal with
    | |- context [?a <? ?b] => destruct (Z.ltb_spec a b) as [|_]; [lia|]
    end.
    rewrite Hm, slice0_firstn by lia.
    destruct (firstn _ pageMessages) as [|m ms] eqn:Hshown; run_step.
    all: rewrite ?Hcs; cbn [CacheService.db]; run_step.
    all: repeat split; by rewrite <- ?app_assoc.
Qed.

(** C5. When [initializeDatabase] fails the service has no database, and from
    then on every read answers empty ([getCachedMessages] gives [[]], the
    metadata and last-sync reads give [null], the statistics are zero), every
    mutator returns the service unchanged (so it stays without a database),
    and a page load is never served from the cache: [loadMessages] is the
    remote part [loadRemote] run after the empty cache read, it does not
    raise, and the store is still the same afterwards. When the server lists
    the folders, reports a non-zero total and answers the fetch, the load
    issues, after the empty cache read, the folder listing, the status
    request and the fetch of the page window, shows the first [pageSize]
    fetched messages without an error, and its two cache writes are issued
    and dropped. *)
Theorem failed_store_is_noop (cs : CacheService.t) :
  CacheService.db cs = None ->
  CacheService.initializeDatabase None = cs
  /\ (forall f a l o, CacheService.getCachedMessages cs f a l o = [])
  /\ (forall f a, CacheService.getLastSyncTime cs f a = None)
  /\ (forall f a, CacheService.getFolderMetadata cs f a = None)
  /\ CacheService.getCacheStats cs = (0, None)
  /\ (forall now msgs f a, CacheService.updateMessages now msgs f a cs = cs)
  /\ (forall now f a t u, CacheService.updateFolderMetadata now f a t u cs = cs)
  /\ (forall u f a fl, CacheService.updateMessageFlags u f a fl cs = cs)
  /\ (forall f a, CacheService.clearFolder f a cs = cs)
  /\ CacheService.clearAllCache cs = cs
  /\ (forall (p : MessageList.Props) (env : Env) (st : MessageList.State)
             (c : ascii) (account' : string),
        store (MessageList.st_world st) = cs ->
        MessageList.p_account p = Some (String c account') ->
        MessageList.p_folder p <> "" ->
        let account := String c account' in
        let r := MessageList.loadMessages p env st in
        fst r = Ok tt
        /\ store (MessageList.st_world (snd r)) = cs
        /\ MessageList.st_isFromCache (snd r) = false
        /\ (exists st1,
             r = MessageList.loadRemote p env st account st1
             /\ MessageList.st_messages st1 = MessageList.st_messages st
             /\ store (MessageList.st_world st1) = cs)
        /\ (forall (ea : EmailAccount) (folders : list string) (total unseen : Z)
                   (pageMessages : list EmailMessage),
              let folder := MessageList.p_folder p in
              let pageSize := MessageList.p_messagesPerPage p in
              let page := MessageList.st_currentPage st in
              let actual := MessageList.actualFolderName folders folder in
              let endSeq := MessageList.endSeq total page pageSize in
              let startSeq := MessageList.startSeq endSeq pageSize in
              find_account (MessageList.p_emailAccounts p) account = Some ea ->
              EmailService.getFolders (emailService env) (acc_id ea) = Ok folders ->
              EmailService.getFolderStatus (emailService env) (acc_id ea) actual
              = Ok (total, unseen) ->
              total <> 0 -> 1 <= pageSize ->
              EmailService.getMessages (emailService env) (acc_id ea) actual pageSize
                startSeq endSeq = Ok pageMessages ->
              let shown := firstn (Z.to_nat pageSize) pageMessages in
              MessageList.st_messages (snd r) = shown
              /\ MessageList.st_error (snd r) = None
              /\ MessageList.st_loading (snd r) = false
              /\ MessageList.st_totalMessages (snd r) = total
              /\ log (MessageList.st_world (snd r))
                 = (log (MessageList.st_world st)
                    ++ (if (page =? 1) && negb (MessageList.st_isChangingPage st)
                           && MessageList.p_onRefreshRequest p
                           && MessageList.p_autoRefreshEnabled p
                        then EvCacheLastSync folder (acc_id ea)
                             :: (if MessageList.p_isRefreshing p then []
                                 else [EvRefreshRequest])
                        else [])
                    ++ [EvCacheRead folder (acc_id ea) pageSize ((page - 1) * pageSize);
                        EvFolders (acc_id ea); EvStatus (acc_id ea) actual;
                        EvFetch (acc_id ea) actual pageSize startSeq endSeq]
                    ++ match shown with
                       | [] => []
                       | _ :: _ => [EvCacheWrite actual (acc_id ea) (length shown);
                                    EvCacheMetaWrite actual (acc_id ea) total 0]
                       end)%list)).
Proof.
  intros Hdb. destruct cs as [d]. cbn in Hdb. subst d.
  do 10 (split; [reflexivity|]).
  intros p env st c account' Hst Hacc Hfolder account r.
  assert (Hr : exists st1,
             r = MessageList.loadRemote p env st account st1
             /\ MessageList.st_messages st1 = MessageList.st_messages st
             /\ store (MessageList.st_world st1) = CacheService.mk None).
  { subst r. unfold MessageList.loadMessages. rewrite Hacc.
    destruct (MessageList.p_folder p) as [|c' folder'] eqn:Hf; [done|].
    fold account.
    unfold MessageList.initialAutoRefresh, MessageList.loadFromCache,
      MessageList.find_or_throw.
    run_step.
    destruct (_ && _ && _ && _); run_step.
    - destruct (find_account _ account) as [ea|]; run_step.
      + rewrite Hst. cbn [CacheService.getLastSyncTime CacheService.db]. run_step.
        destruct (negb (MessageList.p_isRefreshing p)); run_step.
        all: rewrite ?Hst; cbn [CacheService.getCachedMessages CacheService.db]; run_step.
        all: eexists; (split; [reflexivity|]); run_step; by rewrite ?Hst.
      + eexists; (split; [reflexivity|]); run_step; by rewrite ?Hst.
    - destruct (find_account _ account) as [ea|]; run_step.
      + rewrite ?Hst; cbn [CacheService.getCachedMessages CacheService.db]; run_step.
        eexists; (split; [reflexivity|]); run_step; by rewrite ?Hst.
      + eexists; (split; [reflexivity|]); run_step; by rewrite ?Hst. }
  destruct Hr as (st1 & Hr & Hm & Hs).
  split; [rewrite Hr; apply loadRemote_no_raise|].
  split; [rewrite Hr, loadRemote_no_db; by rewrite Hs|].
  split; [rewrite Hr; apply loadRemote_not_from_cache|].
  split; [exists st1; auto|].
  intros ea folders total unseen pageMessages folder pageSize page actual endSeq startSeq
    Hfind Hfs Hstatus Ht Hps Hfetch shown.
  apply (failed_store_page_load p env st c account' ea folders total unseen pageMessages);
    try done.
  by rewrite Hst.
Qed.

(** ** Clearing a folder *)

Lemma in_filter_iff {A} (f : A -> bool) (x : A) (l : list A) :
  x ∈ List.filter f l <-> x ∈ l /\ f x = true.
Proof. rewrite !list_elem_of_In. apply filter_In. Qed.

(** C9 (as amended). [clearFolder] removes the message rows of the given
    folder and account and leaves every other message row and the whole
    [folders] table as they were, so [getFolderMetadata] answers as before.
    The attachment rows follow the schema: with foreign keys enforced the
    rows whose parent message was deleted are deleted with it (ON DELETE
    CASCADE) and all others stay; without enforcement the table is unchanged.
    Attachment rows of other folders or accounts always stay. *)
Theorem clearFolder_frame (cs : CacheService.t) (folderId accountId : string) :
  (forall f a, CacheService.getFolderMetadata (CacheService.clearFolder folderId accountId cs) f a
               = CacheService.getFolderMetadata cs f a)
  /\ match CacheService.db cs, CacheService.db (CacheService.clearFolder folderId accountId cs) with
     | None, None => True
     | Some d, Some d' =>
         CacheService.folders d' = CacheService.folders d
         /\ (forall r, r ∈ CacheService.messages d' <->
                       r ∈ CacheService.messages d
                       /\ CacheService.in_folder folderId accountId r = false)
         /\ (CacheService.foreign_keys d = false ->
             CacheService.attachments_tbl d' = CacheService.attachments_tbl d)
         /\ (CacheService.foreign_keys d = true ->
             forall a, a ∈ CacheService.attachments_tbl d' <->
                       a ∈ CacheService.attachments_tbl d
                       /\ ~ exists r, r ∈ CacheService.messages d
                            /\ CacheService.in_folder folderId accountId r = true
                            /\ CacheService.att_of (CacheService.row_uid r) folderId accountId a = true)
         /\ (forall a, a ∈ CacheService.attachments_tbl d ->
                       CacheService.arow_folder_id a <> folderId
                       \/ CacheService.arow_account_id a <> accountId ->
                       a ∈ CacheService.attachments_tbl d')
     | _, _ => False
     end.
Proof.
  destruct cs as [[d|]]; cbn; [|done].
  assert (Hcascade : forall a,
    CacheService.references_one_of
      (List.filter (CacheService.in_folder folderId accountId) (CacheService.messages d)) a = true
    <-> exists r, r ∈ CacheService.messages d
          /\ CacheService.in_folder folderId accountId r = true
          /\ CacheService.att_of (CacheService.row_uid r) folderId accountId a = true).
  { intros a. unfold CacheService.references_one_of. rewrite existsb_exists. split.
    - intros (r & Hr & Ha). apply filter_In in Hr as [Hr Hin].
      exists r. rewrite list_elem_of_In. repeat split; [done..|].
      unfold CacheService.in_folder in Hin.
      apply andb_true_iff in Hin as [Hf Hacc].
      apply String.eqb_eq in Hf, Hacc. by rewrite <- Hf, <- Hacc.
    - intros (r & Hr & Hin & Ha). exists r. rewrite filter_In, <- list_elem_of_In.
      repeat split; [done..|].
      unfold CacheService.in_folder in Hin.
      apply andb_true_iff in Hin as [Hf Hacc].
      apply String.eqb_eq in Hf, Hacc. by rewrite Hf, Hacc. }
  split; [done|]. split; [done|]. split.
  { intros r. rewrite in_filter_iff, negb_true_iff. done. }
  split.
  { intros Hfk. by rewrite Hfk. }
  split.
  { intros Hfk a. rewrite Hfk. cbn. rewrite in_filter_iff, negb_true_iff, <- Hcascade.
    destruct (CacheService.references_one_of _ a); split; intros [? ?]; split; auto; congruence. }
  intros a Ha Hother. unfold CacheService.cascade.
  destruct (CacheService.foreign_keys d); [|done].
  rewrite in_filter_iff, negb_true_iff. split; [done|].
  destruct (CacheService.references_one_of _ a) eqn:Href; [|done].
  apply Hcascade in Href as (r & _ & _ & Hatt).
  unfold CacheService.att_of in Hatt.
  rewrite !andb_true_iff in Hatt. destruct Hatt as [[_ Hf] Hacc].
  apply String.eqb_eq in Hf, Hacc. destruct Hother; congruence.
Qed.

(** Counterexample to C9 as stated: the store holds one message with one
    attachment; after [clearFolder] of its folder the attachment row is gone
    (the metadata row is still there). *)
Lemma clearFolder_drops_attachments :
  let cs := Sample.store_with_attachment in
  let cs' := CacheService.clearFolder "INBOX" "acc1" cs in
  option_map (fun d => length (CacheService.attachments_tbl d)) (CacheService.db cs) = Some 1%nat
  /\ option_map CacheService.attachments_tbl (CacheService.db cs') = Some []
  /\ option_map CacheService.attachments_tbl (CacheService.db cs')
     <> option_map CacheService.attachments_tbl (CacheService.db cs)
  /\ CacheService.getFolderMetadata cs' "INBOX" "acc1" = Some (1, 0).
Proof. vm_compute. repeat split; congruence. Qed.

(** ** The flags column *)

Lemma split_comma_nonempty (s : string) : JS.split_comma s <> [].
Proof.
  induction s as [|c s IH]; simpl; [done|].
  destruct (Ascii.eqb c ","); [done|]. by destruct (JS.split_comma s).
Qed.

Lemma split_comma_app (x s : string) :
  comma_free x = true ->
  JS.split_comma (x ++ String "," s) = x :: JS.split_comma s.
Proof.
  induction x as [|c x IH]; simpl; [done|].
  unfold comma_free. simpl. rewrite andb_true_iff, negb_true_iff.
  intros [Hc Hx]. rewrite Hc. fold (comma_free x) in Hx. by rewrite (IH Hx).
Qed.

Lemma split_comma_single (x : string) :
  comma_free x = true -> JS.split_comma x = [x].
Proof.
  induction x as [|c x IH]; simpl; [done|].
  unfold comma_free. simpl. rewrite andb_true_iff, negb_true_iff.
  intros [Hc Hx]. rewrite Hc. fold (comma_free x) in Hx. by rewrite (IH Hx).
Qed.

Lemma join_comma_cons (x y : string) (l : list string) :
  JS.join_comma (x :: y :: l) = x ++ String "," (JS.join_comma (y :: l)).
Proof. reflexivity. Qed.

Lemma split_join_comma (l : list string) :
  l <> [] -> Forall (fun f => comma_free f = true) l ->
  JS.split_comma (JS.join_comma l) = l.
Proof.
  induction l as [|x l IH]; [done|].
  intros _ Hall. inversion Hall as [|? ? Hx Hl]; subst.
  destruct l as [|y l].
  - by apply split_comma_single.
  - rewrite join_comma_cons, split_comma_app by done. f_equal. by apply IH.
Qed.

(** Plain flags come back from the column as they were written. *)
Lemma stored_flags_plain (fl : list string) :
  Forall (fun f => plain_flag f = true) fl -> stored_flags fl = fl.
Proof.
  intros Hall. unfold stored_flags.
  destruct fl as [|x l]; [done|].
  assert (Hcf : Forall (fun f => comma_free f = true) (x :: l)).
  { eapply Forall_impl; [exact Hall|]. intros f Hf. unfold plain_flag in Hf.
    by apply andb_true_iff in Hf as [_ ?]. }
  pose proof (split_join_comma (x :: l) ltac:(done) Hcf) as Hsj.
  destruct (JS.join_comma (x :: l)) eqn:Hj; [|done].
  inversion Hall as [|? ? Hx _]; subst. unfold plain_flag in Hx.
  apply andb_true_iff in Hx as [Hne _]. apply negb_true_iff in Hne.
  unfold JS.join_comma in Hj. simpl in Hj.
  destruct x; [done|]. by destruct l.
Qed.

(** The column keeps its value when a message read from the cache is
    written back. *)
Lemma join_split_comma (s : string) : JS.join_comma (JS.split_comma s) = s.
Proof.
  induction s as [|c s IH]; simpl; [done|].
  pose proof (split_comma_nonempty s) as Hne.
  destruct (JS.split_comma s) as [|w ws]; [done|].
  destruct (Ascii.eqb_spec c ","%char) as [->|Hc].
  - rewrite join_comma_cons, IH. reflexivity.
  - destruct ws as [|w' ws].
    + cbn in *. by rewrite IH.
    + rewrite join_comma_cons in *. rewrite <- IH. reflexivity.
Qed.

(** ** Writing messages and reading pages *)

Lemma messages_delete_attachments u f a d :
  CacheService.messages (CacheService.delete_attachments u f a d) = CacheService.messages d.
Proof. done. Qed.

Lemma messages_insert_attachments u f a (atts : list Attachment) d :
  CacheService.messages
    (fold_left (fun d' att => CacheService.insert_attachment u f a att d') atts d)
  = CacheService.messages d.
Proof. revert d. induction atts as [|x l IH]; intros d; simpl; [done|]. by rewrite IH. Qed.

Lemma messages_upsert_one now f a d msg :
  CacheService.messages (CacheService.upsert_one now f a d msg)
  = (List.filter (fun r => negb (CacheService.has_key (uid msg) f a r)) (CacheService.messages d)
     ++ [written_row (CacheService.next_rowid CacheService.row_id (CacheService.messages d)
                        (CacheService.messages_seq d)) now f a msg])%list.
Proof.
  unfold CacheService.upsert_one.
  destruct (attachments msg) as [[|x l]|];
    rewrite ?messages_insert_attachments, ?messages_delete_attachments; done.
Qed.

(** A row survives the writing of messages with other UIDs. *)
Lemma transaction_keeps_row now f a msgs d r :
  r ∈ CacheService.messages d ->
  (CacheService.in_folder f a r = true -> CacheService.row_uid r ∉ uids msgs) ->
  r ∈ CacheService.messages (CacheService.transaction now f a msgs d).
Proof.
  unfold CacheService.transaction. revert d.
  induction msgs as [|m msgs IH]; intros d Hr Hu; simpl; [done|].
  apply IH.
  - rewrite messages_upsert_one. apply elem_of_app. left.
    rewrite in_filter_iff, negb_true_iff. split; [done|].
    unfold CacheService.has_key.
    destruct (CacheService.in_folder f a r) eqn:Hin; [|by rewrite andb_false_r].
    rewrite andb_true_r. apply Z.eqb_neq. intros Heq.
    apply (Hu eq_refl). unfold uids. simpl. rewrite Heq. apply elem_of_cons. by left.
  - intros Hin Hel. apply (Hu Hin). unfold uids. simpl. apply elem_of_cons. by right.
Qed.

(** Every message of a duplicate-free batch has its row in the table after
    the write. *)
Lemma transaction_writes_row now f a msgs d m :
  m ∈ msgs -> NoDup (uids msgs) ->
  exists rid, written_row rid now f a m
              ∈ CacheService.messages (CacheService.transaction now f a msgs d).
Proof.
  unfold CacheService.transaction. revert d.
  induction msgs as [|x msgs IH]; intros d Hm Hnd; [by apply elem_of_nil in Hm|].
  unfold uids in Hnd. simpl in Hnd. apply NoDup_cons in Hnd as [Hx Hnd].
  apply elem_of_cons in Hm as [->|Hm]; simpl.
  - eexists. apply transaction_keeps_row.
    + rewrite messages_upsert_one. apply elem_of_app. right. apply list_elem_of_singleton.
      reflexivity.
    + intros _. exact Hx.
  - by apply IH.
Qed.

Lemma limit_offset_lookup {A} (limit offset : Z) (l : list A) (i : nat) :
  (Z.to_nat offset <= i)%nat ->
  limit < 0 \/ (i < Z.to_nat offset + Z.to_nat limit)%nat ->
  CacheService.limit_offset limit offset l !! (i - Z.to_nat offset)%nat = l !! i.
Proof.
  intros Ho Hl. unfold CacheService.limit_offset.
  destruct (Z.ltb_spec limit 0) as [Hneg|Hpos].
  - rewrite lookup_drop. f_equal. lia.
  - destruct Hl as [|Hl]; [lia|].
    rewrite lookup_take_lt by lia. rewrite lookup_drop. f_equal. lia.
Qed.

(** C4 (as amended). A message of a duplicate-free batch written with
    [updateMessages] has a position in the date-ordered listing of its folder,
    and every page whose window covers that position returns a record with
    the same uid and date; the subject is the same unless it was empty, in
    which case it reads "(No subject)"; the flags are the written flags joined
    with commas and split again, which is the same list when every flag is
    non-empty and has no comma. *)
Theorem cache_round_trip (d : CacheService.Database) (now : Z)
    (msgs : list EmailMessage) (folderId accountId : string) (m : EmailMessage) :
  m ∈ msgs -> NoDup (uids msgs) ->
  let cs' := CacheService.updateMessages now msgs folderId accountId
               (CacheService.mk (Some d)) in
  exists i : nat, forall limit offset,
    (Z.to_nat offset <= i)%nat ->
    limit < 0 \/ (i < Z.to_nat offset + Z.to_nat limit)%nat ->
    exists r,
      CacheService.getCachedMessages cs' folderId accountId limit offset
        !! (i - Z.to_nat offset)%nat = Some r
      /\ uid r = uid m
      /\ date r = date m
      /\ subject r = JS.or_str (subject m) "(No subject)"
      /\ (subject m <> "" -> subject r = subject m)
      /\ flags r = stored_flags (flags m)
      /\ (Forall (fun f => plain_flag f = true) (flags m) -> flags r = flags m).
Proof.
  intros Hm Hnd cs'. subst cs'. cbn.
  destruct (transaction_writes_row now folderId accountId msgs d m Hm Hnd) as [rid Hrow].
  set (d' := CacheService.transaction now folderId accountId msgs d) in *.
  set (row := written_row rid now folderId accountId m) in *.
  assert (Hin : row ∈ JS.sort_desc CacheService.row_date
                  (List.filter (CacheService.in_folder folderId accountId)
                     (CacheService.messages d'))).
  { rewrite sort_desc_perm. apply in_filter_iff. split; [done|].
    unfold CacheService.in_folder, row, written_row. cbn.
    by rewrite !String.eqb_refl. }
  apply list_elem_of_lookup in Hin as [i Hi].
  exists i. intros limit offset Ho Hl.
  unfold CacheService.select_messages.
  rewrite list_lookup_fmap, limit_offset_lookup, Hi by done. cbn.
  eexists. split; [reflexivity|]. cbn.
  repeat split.
  - intros Hs. by destruct (subject m).
  - intros Hplain. by apply stored_flags_plain.
Qed.

(** Counterexample to C4 as stated: a fetched message without a subject and
    with the keyword flag [a,b] is written to an empty store and read back
    with the first page; its subject and its flags are not the ones written. *)
Lemma round_trip_changes_subject_and_flags :
  let m := Sample.message 7 50 "" ["a,b"] in
  let cs' := CacheService.updateMessages 1000 [m] "INBOX" "acc1" Sample.empty_store in
  exists r,
    CacheService.getCachedMessages cs' "INBOX" "acc1" 50 0 = [r]
    /\ uid r = uid m
    /\ subject r = "(No subject)" /\ subject r <> subject m
    /\ flags r = ["a"; "b"] /\ flags r <> flags m.
Proof. eexists. vm_compute. repeat split; congruence. Qed.

(** ** The merge by UID *)

Lemma map_set_elem (k : Z) (v : EmailMessage) (m : list (Z * EmailMessage)) (kv : Z * EmailMessage) :
  NoDup (map fst m) ->
  kv ∈ App.map_set k v m <-> kv = (k, v) \/ (fst kv <> k /\ kv ∈ m).
Proof.
  induction m as [|[k' v'] m IH]; intros Hnd; simpl.
  - rewrite list_elem_of_singleton. split; [auto|]. intros [?|[_ H]]; [done|].
    by apply elem_of_nil in H.
  - simpl in Hnd. apply NoDup_cons in Hnd as [Hk' Hnd].
    destruct (Z.eqb_spec k' k) as [->|Hne].
    + rewrite !elem_of_cons.
      assert (Hfresh : kv ∈ m -> fst kv <> k).
      { intros Hin Heq. apply Hk'. rewrite <- Heq. apply list_elem_of_fmap. by exists kv. }
      destruct kv as [k1 v1]. simpl in *. naive_solver.
    + rewrite !elem_of_cons, IH by done.
      destruct kv as [k1 v1]. simpl in *. naive_solver.
Qed.

Lemma map_set_keys_NoDup (k : Z) (v : EmailMessage) (m : list (Z * EmailMessage)) :
  NoDup (map fst m) -> NoDup (map fst (App.map_set k v m)).
Proof.
  induction m as [|[k' v'] m IH]; intros Hnd; simpl.
  - apply NoDup_singleton.
  - simpl in Hnd. apply NoDup_cons in Hnd as [Hk' Hnd].
    destruct (Z.eqb_spec k' k) as [->|Hne]; simpl.
    + by apply NoDup_cons.
    + apply NoDup_cons. split; [|by apply IH].
      intros Hin. apply list_elem_of_fmap in Hin as [[k2 v2] [Hk2 Hin]]. simpl in Hk2. subst k2.
      apply map_set_elem in Hin as [[= -> ->]|[_ Hin]]; [done| |done].
      apply Hk'. apply list_elem_of_fmap. by exists (k', v2).
Qed.

Lemma set_all_keys_NoDup (msgs : list EmailMessage) (m : list (Z * EmailMessage)) :
  NoDup (map fst m) -> NoDup (map fst (App.set_all msgs m)).
Proof.
  unfold App.set_all. revert m. induction msgs as [|x msgs IH]; intros m Hnd; simpl; [done|].
  apply IH. destruct (uid x =? 0); [done|]. by apply map_set_keys_NoDup.
Qed.

(** After entering a duplicate-free list of messages that all have a UID,
    the map holds exactly these messages under their UIDs and the old entries
    whose key was not entered. *)
Lemma set_all_elem (msgs : list EmailMessage) (m : list (Z * EmailMessage)) (kv : Z * EmailMessage) :
  NoDup (map fst m) -> NoDup (uids msgs) -> Forall (fun x => uid x <> 0) msgs ->
  kv ∈ App.set_all msgs m <->
  (snd kv ∈ msgs /\ fst kv = uid (snd kv)) \/ (kv ∈ m /\ fst kv ∉ uids msgs).
Proof.
  unfold App.set_all. revert m.
  induction msgs as [|x msgs IH]; intros m Hm Hnd Hnz; simpl.
  - split; [intros H; right; split; [done|apply not_elem_of_nil]|].
    intros [[H _]|[H _]]; [by apply elem_of_nil in H|done].
  - unfold uids in Hnd. simpl in Hnd. apply NoDup_cons in Hnd as [Hx Hnd].
    inversion Hnz as [|? ? Hx0 Hnz']; subst.
    destruct (Z.eqb_spec (uid x) 0) as [|_]; [done|].
    rewrite IH by (auto using map_set_keys_NoDup).
    rewrite map_set_elem by done. unfold uids. simpl.
    rewrite !elem_of_cons. destruct kv as [k v]. simpl. split.
    + intros [[Hv Hk]|[[[= -> ->]|[Hk Hin]] Hnot]].
      * left. split; [by right|done].
      * left. split; [by left|done].
      * right. split; [done|]. intros [?|?]; done.
    + intros [[[->|Hv] Hk]|[Hin Hnot]].
      * right. split; [left; by rewrite Hk|]. by rewrite Hk.
      * left. by split.
      * right. split; [right; split; [|done]|]; intros ?; apply Hnot; auto.
Qed.

(** Entries of the map carry the UID of their message as key. *)
Lemma uidMap_keys (cached fetched : list EmailMessage) :
  NoDup (uids cached) -> NoDup (uids fetched) ->
  Forall (fun x => uid x <> 0) cached -> Forall (fun x => uid x <> 0) fetched ->
  map fst (App.uidMap cached fetched) = uids (map snd (App.uidMap cached fetched)).
Proof.
  intros Hc Hf Hcz Hfz. unfold uids. rewrite map_map.
  apply map_ext_in. intros [k v] Hin. simpl.
  apply list_elem_of_In in Hin. unfold App.uidMap in Hin.
  apply set_all_elem in Hin; [|by apply set_all_keys_NoDup; constructor|done..].
  destruct Hin as [[_ ?]|[Hin _]]; [done|].
  apply set_all_elem in Hin; [|constructor|done..].
  destruct Hin as [[_ ?]|[Hin _]]; [done|]. by apply elem_of_nil in Hin.
Qed.

(** What the merged map holds: every fetched message, and the cached
    messages whose UID was not fetched. *)
Lemma uidMap_values (cached fetched : list EmailMessage) (v : EmailMessage) :
  NoDup (uids cached) -> NoDup (uids fetched) ->
  Forall (fun x => uid x <> 0) cached -> Forall (fun x => uid x <> 0) fetched ->
  v ∈ map snd (App.uidMap cached fetched) <->
  v ∈ fetched \/ (v ∈ cached /\ uid v ∉ uids fetched).
Proof.
  intros Hc Hf Hcz Hfz. unfold App.uidMap. rewrite list_elem_of_fmap. split.
  - intros [[k v'] [-> Hin]]. simpl.
    apply set_all_elem in Hin; [|by apply set_all_keys_NoDup; constructor|done..].
    simpl in Hin. destruct Hin as [[? _]|[Hin Hk]]; [by left|].
    apply set_all_elem in Hin; [|constructor|done..]. simpl in Hin.
    destruct Hin as [[? ->]|[Hin _]]; [by right|by apply elem_of_nil in Hin].
  - intros [Hv|[Hv Hu]]; exists (uid v, v); (split; [done|]).
    + apply set_all_elem; [by apply set_all_keys_NoDup; constructor|done..|]. by left.
    + apply set_all_elem; [by apply set_all_keys_NoDup; constructor|done..|].
      right. split; [|done]. apply set_all_elem; [constructor|done..|]. by left.
Qed.

Lemma newMessages_uids (cached fetched : list EmailMessage) :
  Forall (fun x => uid x <> 0) fetched ->
  uids (App.newMessages cached fetched)
  = List.filter (fun u => negb (bool_decide (u ∈ App.existingUIDs cached))) (uids fetched).
Proof.
  unfold App.newMessages, uids. induction 1 as [|x l Hx Hl IH]; simpl; [done|].
  destruct (Z.eqb_spec (uid x) 0) as [|_]; [done|]. simpl.
  destruct (negb _); simpl; by rewrite IH.
Qed.

Lemma NoDup_filter_bool {A} (f : A -> bool) (l : list A) :
  NoDup l -> NoDup (List.filter f l).
Proof.
  induction 1 as [|x l Hx Hl IH]; simpl; [constructor|].
  destruct (f x); [|done]. constructor; [|done].
  rewrite in_filter_iff. by intros [? _].
Qed.

(** The messages reported as new are as many as the fetched UIDs that are
    not cached. *)
Lemma newMessages_count (cached fetched : list EmailMessage) :
  NoDup (uids fetched) -> Forall (fun x => uid x <> 0) fetched ->
  length (App.newMessages cached fetched)
  = size ((list_to_set (uids fetched) : gset Z) ∖ App.existingUIDs cached).
Proof.
  intros Hnd Hnz.
  transitivity (length (uids (App.newMessages cached fetched))).
  { unfold uids. by rewrite length_map. }
  rewrite newMessages_uids by done.
  rewrite <- (size_list_to_set (C := gset Z)) by (by apply NoDup_filter_bool).
  f_equal. apply set_eq. intros u.
  rewrite elem_of_list_to_set, in_filter_iff, elem_of_difference, elem_of_list_to_set.
  rewrite negb_true_iff, bool_decide_eq_false. done.
Qed.

Lemma subseteq_no_new (cached fetched : list EmailMessage) :
  Forall (fun x => uid x <> 0) fetched ->
  App.newMessages cached fetched = [] ->
  (list_to_set (uids fetched) : gset Z) ⊆ App.existingUIDs cached.
Proof.
  intros Hnz Hnew u Hu. apply elem_of_list_to_set in Hu.
  unfold uids in Hu. apply list_elem_of_fmap in Hu as [x [-> Hx]].
  rewrite Forall_forall in Hnz. specialize (Hnz x Hx).
  destruct (decide (uid x ∈ App.existingUIDs cached)) as [|Hnot]; [done|].
  assert (Hin : x ∈ App.newMessages cached fetched).
  { unfold App.newMessages. apply in_filter_iff. split; [done|].
    rewrite andb_true_iff, !negb_true_iff, bool_decide_eq_false.
    split; [by apply Z.eqb_neq|done]. }
  rewrite Hnew in Hin. by apply elem_of_nil in Hin.
Qed.

(** The merge of a refresh, for a cache that is not empty and cached and
    fetched messages that carry pairwise distinct, non-zero UIDs: the merged
    list has exactly the UIDs [S ∪ S'], each once; a cached record is missing
    from it only if its UID was fetched again; every record of the result is
    a cached or a fetched one, and when there are new messages the result is
    the fetched records plus the cached records without collision;
    [|S' \ S|] messages are new. [regularRefresh] returns this list, and the
    tracker of the list view counts [|current \ last|] when that is
    positive. *)
Lemma merge_by_uid (cached fetched : list EmailMessage) :
  cached <> [] ->
  NoDup (uids cached) -> NoDup (uids fetched) ->
  Forall (fun x => uid x <> 0) cached -> Forall (fun x => uid x <> 0) fetched ->
  let S : gset Z := App.existingUIDs cached in
  let S' : gset Z := list_to_set (uids fetched) in
  let merged := App.mergedMessages cached fetched in
  list_to_set (uids merged) = S ∪ S'
  /\ NoDup (uids merged)
  /\ (forall c, c ∈ cached -> c ∉ merged -> uid c ∈ S')
  /\ (forall c, c ∈ cached -> uid c ∉ S' -> c ∈ merged)
  /\ (forall v, v ∈ merged -> v ∈ cached \/ v ∈ fetched)
  /\ (App.newMessages cached fetched <> [] ->
      forall v, v ∈ merged <-> v ∈ fetched \/ (v ∈ cached /\ uid v ∉ S'))
  /\ length (App.newMessages cached fetched) = size (S' ∖ S)
  /\ (forall env accountId folderName total st,
        EmailService.getMessages (emailService env) accountId folderName
          App.messagesToCheck (Z.max 1 (total - App.messagesToCheck + 1)) total = Ok fetched ->
        fst (App.regularRefresh env accountId folderName App.messagesToCheck total cached st)
        = Ok merged)
  /\ (forall (p : MessageList.Props) (st : MessageList.State),
        0 < MessageList.p_refreshTrigger p ->
        MessageList.st_messages st <> [] ->
        MessageList.st_lastMessageUIDs st <> ∅ ->
        let current : gset Z := list_to_set (uids (MessageList.st_messages st)) in
        let n := size (current ∖ MessageList.st_lastMessageUIDs st) in
        let st' := MessageList.trackNewMessages p st in
        MessageList.st_lastMessageUIDs st' = current
        /\ MessageList.st_newMessageCount st'
           = if Nat.eqb n 0 then MessageList.st_newMessageCount st else Z.of_nat n).
Proof.
  intros Hne Hc Hf Hcz Hfz S S' merged.
  assert (Hmem : forall v, v ∈ map snd (App.uidMap cached fetched) <->
                          v ∈ fetched \/ (v ∈ cached /\ uid v ∉ S')).
  { intros v. rewrite uidMap_values by done. unfold S'.
    by rewrite elem_of_list_to_set. }
  assert (Huid : forall (l : list EmailMessage) (x : EmailMessage), x ∈ l -> uid x ∈ uids l).
  { intros l x Hx. unfold uids. apply list_elem_of_fmap. by exists x. }
  assert (Hcases : (App.newMessages cached fetched = [] /\ merged = cached /\ S' ⊆ S)
                   \/ (App.newMessages cached fetched <> []
                       /\ merged = map snd (App.uidMap cached fetched))).
  { unfold merged, App.mergedMessages.
    destruct (App.newMessages cached fetched) eqn:Hnew.
    - left. repeat split. by apply subseteq_no_new.
    - right. by split. }
  split; [|split; [|split; [|split; [|split; [|split; [|split; [|split]]]]]]].
  - destruct Hcases as [(_ & -> & Hsub)|(_ & ->)].
    + fold S. set_solver.
    + apply set_eq. intros u. rewrite elem_of_list_to_set, elem_of_union.
      unfold S, S', App.existingUIDs. rewrite !elem_of_list_to_set.
      unfold uids at 1. rewrite list_elem_of_fmap. split.
      * intros [v [-> Hv]]. apply uidMap_values in Hv; [|done..].
        destruct Hv as [Hv|[Hv _]]; [right|left]; by apply Huid.
      * intros Hu.
        destruct (decide (u ∈ uids fetched)) as [Hin|Hnot].
        -- unfold uids in Hin. apply list_elem_of_fmap in Hin as [v [-> Hv]].
           exists v. split; [done|]. apply uidMap_values; auto.
        -- destruct Hu as [Hu|Hu]; [|done].
           unfold uids in Hu. apply list_elem_of_fmap in Hu as [v [-> Hv]].
           exists v. split; [done|]. apply uidMap_values; auto.
  - destruct Hcases as [(_ & -> & _)|(_ & ->)]; [done|].
    rewrite <- uidMap_keys by done.
    unfold App.uidMap. apply set_all_keys_NoDup, set_all_keys_NoDup. constructor.
  - intros c Hcin Hnot.
    destruct Hcases as [(_ & Hm & _)|(_ & Hm)]; rewrite Hm in Hnot; [done|].
    destruct (decide (uid c ∈ S')) as [|Hn]; [done|].
    exfalso. apply Hnot, Hmem. by right.
  - intros c Hcin Hnot.
    destruct Hcases as [(_ & -> & _)|(_ & ->)]; [done|]. apply Hmem. by right.
  - intros v Hv.
    destruct Hcases as [(_ & Hm & _)|(_ & Hm)]; rewrite Hm in Hv; [by left|].
    apply Hmem in Hv as [?|[? _]]; auto.
  - intros Hnew v.
    destruct Hcases as [(? & _)|(_ & ->)]; [done|]. apply Hmem.
  - by apply newMessages_count.
  - intros env accountId folderName total st Hfetch.
    unfold App.regularRefresh. run_step. rewrite Hfetch. reflexivity.
  - intros p st Htrig Hmsgs Hlast current n st'.
    subst st'. unfold MessageList.trackNewMessages.
    destruct (Z.ltb_spec 0 (MessageList.p_refreshTrigger p)) as [_|]; [|lia].
    destruct (MessageList.st_messages st) as [|x l] eqn:Hl; [done|].
    cbn [length Nat.eqb negb andb].
    assert (Hsz : size (MessageList.st_lastMessageUIDs st) <> 0%nat).
    { intros H0. by apply size_empty_inv, leibniz_equiv in H0. }
    destruct (Nat.eqb_spec (size (MessageList.st_lastMessageUIDs st)) 0) as [|_]; [done|].
    cbn [negb].
    assert (Hn : length (List.filter
                  (fun u => negb (bool_decide (u ∈ MessageList.st_lastMessageUIDs st)))
                  (elements (list_to_set (uids (x :: l)) : gset Z))) = n).
    { unfold n, current.
      rewrite <- (size_list_to_set (C := gset Z))
        by (apply NoDup_filter_bool, NoDup_elements).
      f_equal. apply set_eq. intros u.
      rewrite elem_of_list_to_set, in_filter_iff, elem_of_elements, elem_of_difference.
      by rewrite negb_true_iff, bool_decide_eq_false. }
    rewrite Hn. destruct (Nat.eqb n 0); done.
Qed.

(** ** Folder names *)

Lemma folder_matches_alias (requested f : string) :
  MessageList.folder_matches requested f = true <-> is_alias requested (JS.toUpperCase f).
Proof.
  unfold MessageList.folder_matches, is_alias.
  rewrite !orb_true_iff, !andb_true_iff, !orb_true_iff, !String.eqb_eq.
  naive_solver.
Qed.

Lemma find_split {A} (f : A -> bool) (l : list A) :
  match List.find f l with
  | Some x => exists pre post, l = (pre ++ x :: post)%list /\ f x = true
                               /\ Forall (fun y => f y = false) pre
  | None => Forall (fun y => f y = false) l
  end.
Proof.
  induction l as [|y l IH]; simpl; [constructor|].
  destruct (f y) eqn:Hy.
  - exists [], l. repeat split; [done|constructor].
  - destruct (List.find f l) as [x|].
    + destruct IH as (pre & post & -> & Hx & Hpre).
      exists (y :: pre), post. repeat split; [done|by constructor].
    + by constructor.
Qed.

#[local] Instance logs_only_refl P : Reflexive (logs_only P).
Proof. intros s. exists []. by rewrite app_nil_r. Qed.

#[local] Instance logs_only_trans P : Transitive (logs_only P).
Proof.
  intros s1 s2 s3 (e1 & H1 & HP1) (e2 & H2 & HP2).
  exists (e1 ++ e2)%list. rewrite H2, H1, app_assoc. split; [done|].
  by apply Forall_app.
Qed.

(** Binding the folder list: the continuation only has to be considered for
    the list the server returns. *)
Lemma respects_bind_getFolders {S B} (R : S -> S -> Prop) `{!Transitive R}
    (wget : S -> World) (wset : World -> S -> S) (env : Env) (a : string)
    (k : list string -> M S B) :
  respects R (remote_getFolders wget wset env a) ->
  (forall folders, EmailService.getFolders (emailService env) a = Ok folders ->
                   respects R (k folders)) ->
  respects R (bind (remote_getFolders wget wset env a) k).
Proof.
  intros Hm Hk s. specialize (Hm s). unfold bind.
  destruct (remote_getFolders wget wset env a s) as [[folders|e] s'] eqn:Hrun; [|done].
  cbn in Hm. etransitivity; [exact Hm|]. apply Hk.
  unfold remote_getFolders, bind, emit, modify, settle in Hrun.
  by injection Hrun as -> _.
Qed.


Ltac folders_step Hl Ht Hs Hf :=
  first
    [ exact Hl | exact Ht | exact Hs
    | match goal with
      | |- respects _ (bind (remote_getFolders _ _ _ _) _) =>
          eapply respects_bind_getFolders;
          [typeclasses eauto | |
           let fs := fresh "fs" in let Hfs := fresh "Hfs" in
           intros fs Hfs; rewrite Hf in Hfs; injection Hfs as <-]
      end
    | respects_step ].

Lemma loadMessages_uses_resolved_key (p : MessageList.Props) (env : Env)
    (account : string) (ea : EmailAccount) (folders : list string) :
  find_account (MessageList.p_emailAccounts p) account = Some ea ->
  EmailService.getFolders (emailService env) (acc_id ea) = Ok folders ->
  forall st0,
  let requested := MessageList.p_folder p in
  let key := MessageList.actualFolderName folders requested in
  respects (logs_only (uses_folder_names requested key)) (MessageList.initialAutoRefresh p env st0 account)
  /\ respects (logs_only (uses_folder_names requested key)) (MessageList.loadFromCache p env st0 account)
  /\ respects (logs_only (uses_folder_names requested key)) (MessageList.loadRemote p env st0 account).
Proof.
  intros Hacc Hf st0 requested key.
  assert (Hl : forall s e, uses_folder_names requested key e ->
    logs_only (uses_folder_names requested key) s (MessageList.setWorld
      (mkWorld (store (MessageList.st_world s)) (log (MessageList.st_world s) ++ [e])
               (ticks (MessageList.st_world s))) s)).
  { intros s e He. exists [e]. split; [done|]. by constructor. }
  assert (Ht : forall s,
    logs_only (uses_folder_names requested key) s (MessageList.setWorld
      (mkWorld (store (MessageList.st_world s)) (log (MessageList.st_world s))
               (S (ticks (MessageList.st_world s)))) s)).
  { intros s. exists []. by rewrite app_nil_r. }
  assert (Hs : forall s (f : CacheService.t -> CacheService.t), True ->
    logs_only (uses_folder_names requested key) s (MessageList.setWorld
      (mkWorld (f (store (MessageList.st_world s))) (log (MessageList.st_world s))
               (ticks (MessageList.st_world s))) s)).
  { intros s f _. exists []. by rewrite app_nil_r. }
  assert (Hset : forall (f : MessageList.State -> MessageList.State),
    (forall s, MessageList.st_world (f s) = MessageList.st_world s) ->
    forall s, logs_only (uses_folder_names requested key) s (f s)).
  { intros f Hw s. exists []. by rewrite Hw, app_nil_r. }
  unfold MessageList.initialAutoRefresh, MessageList.loadFromCache, MessageList.loadRemote,
    MessageList.loadFromImap, MessageList.find_or_throw, MessageList.onRefreshRequest.
  rewrite Hacc.
  repeat split.
  all: repeat folders_step Hl Ht Hs Hf.
  all: try (apply Hset; done).
  all: try done.
Qed.

(** The page load resolves the requested folder name against the account's
    folder list: the result is the first listed folder whose upper-cased name
    is the upper-cased request or one of its synonyms in the table, and the
    requested name itself when no listed folder matches. The reads of the
    cached page and of the last sync time carry the requested name; the
    folder-metadata lookup, the remote status and fetch and the cache writes
    carry the resolved name. *)
Lemma page_load_folder_names (p : MessageList.Props) (env : Env)
    (st : MessageList.State) (c : ascii) (account' : string) (ea : EmailAccount)
    (folders : list string) :
  MessageList.p_account p = Some (String c account') ->
  find_account (MessageList.p_emailAccounts p) (String c account') = Some ea ->
  EmailService.getFolders (emailService env) (acc_id ea) = Ok folders ->
  let requested := MessageList.p_folder p in
  let key := MessageList.actualFolderName folders requested in
  let listed f := is_alias (JS.toUpperCase requested) (JS.toUpperCase f) in
  ((key = requested /\ Forall (fun f => ~ listed f) folders)
   \/ (exists pre post, folders = (pre ++ key :: post)%list /\ listed key
                        /\ Forall (fun f => ~ listed f) pre))
  /\ logs_only (uses_folder_names requested key) st (snd (MessageList.loadMessages p env st)).
Proof.
  intros Hp Hacc Hf requested key listed. split.
  - subst key. unfold MessageList.actualFolderName.
    pose proof (find_split (MessageList.folder_matches (JS.toUpperCase requested)) folders) as H.
    destruct (List.find _ folders) as [f|].
    + right. destruct H as (pre & post & -> & Hm & Hpre). exists pre, post.
      split; [done|]. split; [by apply folder_matches_alias|].
      eapply Forall_impl; [exact Hpre|]. intros y Hy Hl.
      apply folder_matches_alias in Hl. congruence.
    + left. split; [done|].
      eapply Forall_impl; [exact H|]. intros y Hy Hl.
      apply folder_matches_alias in Hl. congruence.
  - revert st. change (respects (logs_only (uses_folder_names requested key)) (MessageList.loadMessages p env)).
    unfold MessageList.loadMessages. rewrite Hp. fold requested.
    assert (Hset : forall l s, logs_only (uses_folder_names requested key) s (MessageList.setMessages l s)).
    { intros l s. exists []. by rewrite app_nil_r. }
    destruct requested eqn:Hreq; [apply respects_modify, Hset|].
    eapply respects_bind; [typeclasses eauto | repeat respects_step | intros st0].
    destruct (loadMessages_uses_resolved_key p env _ ea folders Hacc Hf st0) as (H1 & H2 & H3).
    fold requested in H1, H2, H3. rewrite Hreq in H1, H2, H3. fold key in H1, H2, H3.
    eapply respects_bind; [typeclasses eauto | exact H1 | intros _].
    eapply respects_bind; [typeclasses eauto | | intros [|]].
    + eapply respects_try_catch; [typeclasses eauto | exact H2 | intros _; repeat respects_step].
    + repeat respects_step.
    + exact H3.
Qed.


(** ** The initial load *)

(** C7 at concrete folders. For 523 messages the first request is [474:523]
    with a limit of 50, written to the store at once, and the walk back
    fetches [1:473]. For 2523 messages the walk back fetches five windows of
    500 down to sequence 1 and accumulates 550, 1050, 1550, 2050 and 2523
    messages, but nothing is written between the first batch and the end of
    the walk: the running count [50 + 500 k] is never a multiple of 1000.
    The guard of the flush holds only when the last, shorter batch brings the
    count to a multiple of 1000, as for 1000 messages, and then the flush
    writes what the final write repeats. *)
Theorem initial_load_never_flushes_midway :
  log (App.st_world (snd
    (App.handleRefresh (Sample.env ["INBOX"] 523) App.Current
       (Sample.app_state "INBOX" Sample.empty_store))))
  = [EvCacheRead "INBOX" "acc1" 10000 0; EvStatus "acc1" "INBOX";
     EvFetch "acc1" "INBOX" 50 474 523; EvCacheWrite "INBOX" "acc1" 50;
     EvFetch "acc1" "INBOX" 500 1 473;
     EvCacheWrite "INBOX" "acc1" 523; EvCacheMetaWrite "INBOX" "acc1" 523 0]
  /\ log (App.st_world (snd
       (App.handleRefresh (Sample.env ["INBOX"] 2523) App.Current
          (Sample.app_state "INBOX" Sample.empty_store))))
     = [EvCacheRead "INBOX" "acc1" 10000 0; EvStatus "acc1" "INBOX";
        EvFetch "acc1" "INBOX" 50 2474 2523; EvCacheWrite "INBOX" "acc1" 50;
        EvFetch "acc1" "INBOX" 500 1974 2473; EvFetch "acc1" "INBOX" 500 1474 1973;
        EvFetch "acc1" "INBOX" 500 974 1473; EvFetch "acc1" "INBOX" 500 474 973;
        EvFetch "acc1" "INBOX" 500 1 473;
        EvCacheWrite "INBOX" "acc1" 2523; EvCacheMetaWrite "INBOX" "acc1" 2523 0]
  /\ log (App.st_world (snd
       (App.handleRefresh (Sample.env ["INBOX"] 1000) App.Current
          (Sample.app_state "INBOX" Sample.empty_store))))
     = [EvCacheRead "INBOX" "acc1" 10000 0; EvStatus "acc1" "INBOX";
        EvFetch "acc1" "INBOX" 50 951 1000; EvCacheWrite "INBOX" "acc1" 50;
        EvFetch "acc1" "INBOX" 500 451 950; EvFetch "acc1" "INBOX" 500 1 450;
        EvCacheWrite "INBOX" "acc1" 1000;
        EvCacheWrite "INBOX" "acc1" 1000; EvCacheMetaWrite "INBOX" "acc1" 1000 0]
  /\ forall k, 0 <= k -> (App.firstBatchSize + k * App.regularBatchSize) mod 1000 <> 0.
Proof.
  split; [lazy; reflexivity|]. split; [lazy; reflexivity|]. split; [lazy; reflexivity|].
  intros k Hk. unfold App.firstBatchSize, App.regularBatchSize.
  intros H. apply Z.mod_divide in H; [|lia]. destruct H as [q Hq]. lia.
Qed.

(** ** The content of the store under writes and reads *)

Lemma filter_map_comm {A B} (f : B -> bool) (g : A -> B) (l : list A) :
  List.filter f (map g l) = map g (List.filter (fun x => f (g x)) l).
Proof.
  induction l as [|x l IH]; simpl; [done|].
  destruct (f (g x)); simpl; by rewrite IH.
Qed.

Lemma filter_filter_bool {A} (p q : A -> bool) (l : list A) :
  List.filter p (List.filter q l) = List.filter (fun x => q x && p x) l.
Proof.
  induction l as [|x l IH]; simpl; [done|].
  destruct (q x); simpl; [destruct (p x); simpl|]; by rewrite IH.
Qed.

Lemma filter_all {A} (p : A -> bool) (l : list A) :
  Forall (fun x => p x = true) l -> List.filter p l = l.
Proof. induction 1 as [|x l Hx Hl IH]; simpl; [done|]. by rewrite Hx, IH. Qed.

Lemma filter_none {A} (p : A -> bool) (l : list A) :
  Forall (fun x => p x = false) l -> List.filter p l = [].
Proof. induction 1 as [|x l Hx Hl IH]; simpl; [done|]. by rewrite Hx, IH. Qed.

Lemma filter_ext_Forall {A} (p q : A -> bool) (l : list A) :
  Forall (fun x => p x = q x) l -> List.filter p l = List.filter q l.
Proof. induction 1 as [|x l Hx Hl IH]; simpl; [done|]. by rewrite Hx, IH. Qed.

Lemma sort_desc_map {A B} (key : B -> Z) (g : A -> B) (l : list A) :
  JS.sort_desc key (map g l) = map g (JS.sort_desc (fun x => key (g x)) l).
Proof.
  induction l as [|x l IH]; simpl; [done|]. rewrite IH.
  generalize (JS.sort_desc (fun x => key (g x)) l). intros s.
  induction s as [|y s IHs]; simpl; [done|].
  destruct (key (g y) <=? key (g x)); simpl; [done|]. by rewrite IHs.
Qed.

Lemma limit_offset_map {A B} (g : A -> B) (limit offset : Z) (l : list A) :
  CacheService.limit_offset limit offset (map g l)
  = map g (CacheService.limit_offset limit offset l).
Proof.
  unfold CacheService.limit_offset. destruct (limit <? 0).
  - by rewrite skipn_map.
  - by rewrite skipn_map, firstn_map.
Qed.

Lemma limit_offset_all {A} (limit : Z) (l : list A) :
  (length l <= Z.to_nat limit)%nat -> CacheService.limit_offset limit 0 l = l.
Proof.
  intros H. unfold CacheService.limit_offset. simpl.
  destruct (limit <? 0); [done|]. by apply firstn_all2.
Qed.

(** *** Erasure commutes with the predicates and conversions of the store *)

Lemma in_folder_erase f a r :
  CacheService.in_folder f a (erase_row r) = CacheService.in_folder f a r.
Proof. done. Qed.

Lemma has_key_erase u f a r :
  CacheService.has_key u f a (erase_row r) = CacheService.has_key u f a r.
Proof. done. Qed.

Lemma att_of_erase u f a x :
  CacheService.att_of u f a (erase_att x) = CacheService.att_of u f a x.
Proof. done. Qed.

Lemma toEmail_erase r atts :
  CacheService.cachedMessageToEmailMessage (erase_row r) (map erase_att atts)
  = CacheService.cachedMessageToEmailMessage r atts.
Proof.
  unfold CacheService.cachedMessageToEmailMessage. cbn.
  destruct atts as [|x l]; [done|]. cbn. rewrite map_map. done.
Qed.

(** Reading a page only depends on the content. *)
Lemma getCachedMessages_content d f a limit offset :
  CacheService.getCachedMessages (CacheService.mk (Some d)) f a limit offset
  = read_page (map erase_row (CacheService.messages d))
              (map erase_att (CacheService.attachments_tbl d)) f a limit offset.
Proof.
  unfold read_page, CacheService.getCachedMessages, CacheService.select_messages,
    CacheService.select_attachments. cbn.
  rewrite filter_map_comm, sort_desc_map, limit_offset_map, map_map.
  apply map_ext. intros r. rewrite filter_map_comm. symmetry. apply toEmail_erase.
Qed.

(** *** Closed form of a write *)

Lemma erase_written_row rid now f a msg :
  erase_row (written_row rid now f a msg) = written_row 0 0 f a msg.
Proof. done. Qed.

Lemma row_in_batch_nil f a r : row_in_batch [] f a r = false.
Proof. unfold row_in_batch. cbn. by rewrite andb_false_r. Qed.

Lemma row_in_batch_cons x msgs f a r :
  negb (row_in_batch (x :: msgs) f a r)
  = negb (CacheService.has_key (uid x) f a r) && negb (row_in_batch msgs f a r).
Proof.
  unfold row_in_batch, CacheService.has_key. cbn.
  destruct (CacheService.in_folder f a r); cbn; [|by rewrite andb_false_r].
  rewrite andb_true_r. by destruct (CacheService.row_uid r =? uid x).
Qed.

Lemma existsb_uids_fresh (u : Z) (msgs : list EmailMessage) :
  u ∉ uids msgs -> existsb (Z.eqb u) (uids msgs) = false.
Proof.
  intros Hu. destruct (existsb _ _) eqn:He; [|done].
  apply existsb_exists in He as (v & Hv & Heq). apply Z.eqb_eq in Heq. subst v.
  by apply list_elem_of_In in Hv.
Qed.

Lemma transaction_messages now f a msgs d :
  NoDup (uids msgs) ->
  map erase_row (CacheService.messages (CacheService.transaction now f a msgs d))
  = (List.filter (fun r => negb (row_in_batch msgs f a r))
       (map erase_row (CacheService.messages d))
     ++ map (written_row 0 0 f a) msgs)%list.
Proof.
  unfold CacheService.transaction. revert d.
  induction msgs as [|x msgs IH]; intros d Hnd; simpl.
  - rewrite app_nil_r. symmetry. apply filter_all, Forall_forall.
    intros r _. by rewrite row_in_batch_nil.
  - unfold uids in Hnd. simpl in Hnd. apply NoDup_cons in Hnd as [Hx Hnd].
    rewrite IH by done. rewrite messages_upsert_one, map_app, List.filter_app. cbn [map].
    rewrite erase_written_row. cbn [List.filter].
    assert (Hw : row_in_batch msgs f a (written_row 0 0 f a x) = false).
    { unfold row_in_batch. cbn. by rewrite existsb_uids_fresh, andb_false_r. }
    rewrite Hw. cbn [negb]. rewrite <- app_assoc. cbn [app]. f_equal.
    rewrite !filter_map_comm, filter_filter_bool. f_equal.
    apply filter_ext_Forall, Forall_forall. intros r _.
    by rewrite row_in_batch_cons, has_key_erase.
Qed.

Lemma attachments_insert_fold u f a (l : list Attachment) d :
  map erase_att (CacheService.attachments_tbl
    (fold_left (fun d' att => CacheService.insert_attachment u f a att d') l d))
  = (map erase_att (CacheService.attachments_tbl d) ++ map (written_att 0 u f a) l)%list.
Proof.
  revert d. induction l as [|x l IH]; intros d; simpl; [by rewrite app_nil_r|].
  rewrite IH. cbn. rewrite map_app, <- app_assoc. done.
Qed.

(** The cascade of the replaced row only removes attachment rows that the
    write deletes anyway. *)
Lemma filter_cascade u f a fk (deleted : list CacheService.CachedMessage) atts :
  Forall (fun r => CacheService.has_key u f a r = true) deleted ->
  List.filter (fun x => negb (CacheService.att_of u f a x)) (CacheService.cascade fk deleted atts)
  = List.filter (fun x => negb (CacheService.att_of u f a x)) atts.
Proof.
  intros Hdel. unfold CacheService.cascade. destruct fk; [|done].
  rewrite filter_filter_bool. apply filter_ext_Forall, Forall_forall. intros x _.
  destruct (CacheService.references_one_of deleted x) eqn:Href; [|done]. cbn.
  symmetry. apply negb_false_iff.
  unfold CacheService.references_one_of in Href.
  apply existsb_exists in Href as (r & Hr & Hatt).
  rewrite Forall_forall in Hdel. apply list_elem_of_In in Hr. specialize (Hdel r Hr).
  unfold CacheService.has_key, CacheService.in_folder in Hdel.
  rewrite !andb_true_iff in Hdel. destruct Hdel as (Hu & Hf & Ha).
  apply Z.eqb_eq in Hu. apply String.eqb_eq in Hf, Ha. by rewrite Hu, Hf, Ha in Hatt.
Qed.

Lemma attachments_upsert_one now f a d msg :
  map erase_att (CacheService.attachments_tbl (CacheService.upsert_one now f a d msg))
  = (List.filter (fun x => negb (CacheService.att_of (uid msg) f a x))
       (map erase_att (CacheService.attachments_tbl d))
     ++ written_atts f a msg)%list.
Proof.
  assert (Hbase :
    map erase_att (CacheService.attachments_tbl
      (CacheService.delete_attachments (uid msg) f a
         (CacheService.insert_or_replace_message now f a msg d)))
    = List.filter (fun x => negb (CacheService.att_of (uid msg) f a x))
        (map erase_att (CacheService.attachments_tbl d))).
  { cbn. rewrite filter_cascade.
    - rewrite filter_map_comm. f_equal.
    - apply Forall_forall. intros r Hr. by apply in_filter_iff in Hr as [_ ?]. }
  unfold CacheService.upsert_one, written_atts.
  destruct (attachments msg) as [[|x l]|].
  - rewrite Hbase. by rewrite app_nil_r.
  - rewrite attachments_insert_fold, Hbase. done.
  - rewrite Hbase. by rewrite app_nil_r.
Qed.

Lemma att_in_batch_cons x msgs f a y :
  negb (att_in_batch (x :: msgs) f a y)
  = negb (CacheService.att_of (uid x) f a y) && negb (att_in_batch msgs f a y).
Proof. unfold att_in_batch. cbn. by destruct (CacheService.att_of (uid x) f a y). Qed.

Lemma written_atts_uid f a msg y :
  y ∈ written_atts f a msg ->
  CacheService.arow_message_uid y = uid msg
  /\ CacheService.arow_folder_id y = f /\ CacheService.arow_account_id y = a.
Proof.
  unfold written_atts. destruct (attachments msg) as [l|]; [|by intros ?%elem_of_nil].
  intros Hy. apply list_elem_of_fmap in Hy as [z [-> _]]. done.
Qed.

Lemma written_atts_not_in_batch f a x msgs :
  uid x ∉ uids msgs ->
  List.filter (fun y => negb (att_in_batch msgs f a y)) (written_atts f a x)
  = written_atts f a x.
Proof.
  intros Hx. apply filter_all, Forall_forall. intros y Hy.
  apply written_atts_uid in Hy as (Hu & _ & _).
  apply negb_true_iff. unfold att_in_batch.
  destruct (existsb _ _) eqn:He; [|done].
  apply existsb_exists in He as (v & Hv & Hatt).
  unfold CacheService.att_of in Hatt. rewrite !andb_true_iff in Hatt.
  destruct Hatt as [[Heq _] _]. apply Z.eqb_eq in Heq.
  apply list_elem_of_In in Hv. congruence.
Qed.

Lemma transaction_attachments now f a msgs d :
  NoDup (uids msgs) ->
  map erase_att (CacheService.attachments_tbl (CacheService.transaction now f a msgs d))
  = (List.filter (fun y => negb (att_in_batch msgs f a y))
       (map erase_att (CacheService.attachments_tbl d))
     ++ concat (map (written_atts f a) msgs))%list.
Proof.
  unfold CacheService.transaction. revert d.
  induction msgs as [|x msgs IH]; intros d Hnd; simpl.
  - rewrite app_nil_r. symmetry. by apply filter_all, Forall_forall.
  - unfold uids in Hnd. simpl in Hnd. apply NoDup_cons in Hnd as [Hx Hnd].
    rewrite IH by done. rewrite attachments_upsert_one, List.filter_app.
    rewrite written_atts_not_in_batch by done.
    rewrite <- app_assoc. f_equal.
    rewrite filter_filter_bool. apply filter_ext_Forall, Forall_forall. intros y _.
    by rewrite att_in_batch_cons.
Qed.

Lemma folders_upsert_one now f a d msg :
  CacheService.folders (CacheService.upsert_one now f a d msg) = CacheService.folders d.
Proof.
  unfold CacheService.upsert_one.
  assert (Hfold : forall l d',
    CacheService.folders
      (fold_left (fun d'' att => CacheService.insert_attachment (uid msg) f a att d'') l d')
    = CacheService.folders d').
  { induction l as [|x l IH]; intros d'; simpl; [done|]. by rewrite IH. }
  destruct (attachments msg) as [[|x l]|]; rewrite ?Hfold; done.
Qed.

Lemma transaction_folders now f a msgs d :
  CacheService.folders (CacheService.transaction now f a msgs d) = CacheService.folders d.
Proof.
  unfold CacheService.transaction. revert d.
  induction msgs as [|x msgs IH]; intros d; simpl; [done|].
  by rewrite IH, folders_upsert_one.
Qed.

(** ** Writing the cache back to itself *)

(** *** The preview column *)

Lemma substring0_short (n : nat) (s : string) :
  (String.length s <= n)%nat -> JS.substring0 n s = s.
Proof.
  revert n. induction s as [|c s IH]; intros [|n] H; simpl in *; try done; try lia.
  rewrite IH; [done|lia].
Qed.

Lemma substring0_length (n : nat) (s : string) :
  (String.length (JS.substring0 n s) <= n)%nat.
Proof.
  revert n. induction s as [|c s IH]; intros [|n]; simpl; try lia.
  specialize (IH n). lia.
Qed.

Lemma replace_newlines_length (s : string) :
  String.length (JS.replace_newlines s) = String.length s.
Proof. induction s as [|c s IH]; simpl; [done|]. by rewrite IH. Qed.

Lemma replace_newlines_clean (s : string) : no_newline (JS.replace_newlines s) = true.
Proof.
  induction s as [|c s IH]; simpl; [done|]. rewrite IH, andb_true_r.
  destruct (Ascii.eqb_spec c "010"%char) as [->|Hc]; [done|].
  apply negb_true_iff. by apply Ascii.eqb_neq.
Qed.

Lemma replace_newlines_id (s : string) :
  no_newline s = true -> JS.replace_newlines s = s.
Proof.
  induction s as [|c s IH]; simpl; [done|]. rewrite andb_true_iff, negb_true_iff.
  intros [Hc Hs]. by rewrite Hc, IH.
Qed.

Lemma trim_start_length (s : string) :
  (String.length (JS.trim_start s) <= String.length s)%nat.
Proof. induction s as [|c s IH]; simpl; [done|]. destruct (JS.is_space c); simpl; lia. Qed.

Lemma trim_end_length (s : string) :
  (String.length (JS.trim_end s) <= String.length s)%nat.
Proof.
  induction s as [|c s IH]; simpl; [done|].
  destruct (JS.trim_end s); [destruct (JS.is_space c)|]; simpl in *; lia.
Qed.

Lemma trim_start_clean (s : string) :
  no_newline s = true -> no_newline (JS.trim_start s) = true.
Proof.
  induction s as [|c s IH]; simpl; [done|]. rewrite andb_true_iff. intros [Hc Hs].
  destruct (JS.is_space c); [by apply IH|]. simpl. by rewrite Hc, Hs.
Qed.

Lemma trim_end_clean (s : string) :
  no_newline s = true -> no_newline (JS.trim_end s) = true.
Proof.
  induction s as [|c s IH]; simpl; [done|]. rewrite andb_true_iff. intros [Hc Hs].
  specialize (IH Hs).
  destruct (JS.trim_end s); [destruct (JS.is_space c)|]; simpl in *; [done|by rewrite Hc|].
  by rewrite Hc, IH.
Qed.

Lemma trim_end_idem (s : string) : JS.trim_end (JS.trim_end s) = JS.trim_end s.
Proof.
  induction s as [|c s IH]; simpl; [done|].
  destruct (JS.trim_end s) as [|c' t] eqn:Ht.
  - destruct (JS.is_space c) eqn:Hc; simpl; [done|]. by rewrite Hc.
  - simpl. simpl in IH. by rewrite IH.
Qed.

(** The first character of a string trimmed at the end and not blank at the
    start is still not blank. *)
Lemma trim_end_first (c : ascii) (s : string) :
  JS.is_space c = false ->
  exists t, JS.trim_end (String c s) = String c t.
Proof.
  intros Hc. simpl. destruct (JS.trim_end s); [rewrite Hc|]; eauto.
Qed.

Lemma trim_start_not_blank (s : string) :
  match JS.trim_start s with
  | EmptyString => True
  | String c _ => JS.is_space c = false
  end.
Proof.
  induction s as [|c s IH]; simpl; [done|].
  destruct (JS.is_space c) eqn:Hc; [done|]. by simpl.
Qed.

Lemma trim_idem (s : string) : JS.trim (JS.trim s) = JS.trim s.
Proof.
  unfold JS.trim.
  pose proof (trim_start_not_blank s) as Hs.
  destruct (JS.trim_start s) as [|c t] eqn:Ht; [done|].
  destruct (trim_end_first c t Hs) as [t' Ht']. rewrite Ht'.
  assert (Hstart : JS.trim_start (String c t') = String c t') by (simpl; by rewrite Hs).
  rewrite Hstart, <- Ht'. apply trim_end_idem.
Qed.

Lemma trim_length (s : string) : (String.length (JS.trim s) <= String.length s)%nat.
Proof.
  unfold JS.trim. pose proof (trim_end_length (JS.trim_start s)).
  pose proof (trim_start_length s). lia.
Qed.

Lemma trim_clean (s : string) : no_newline s = true -> no_newline (JS.trim s) = true.
Proof. intros H. unfold JS.trim. by apply trim_end_clean, trim_start_clean. Qed.

(** The preview of a preview is the preview. *)
Lemma preview_of_idem (text : option string) :
  CacheService.preview_of (Some (CacheService.preview_of text)) = CacheService.preview_of text.
Proof.
  unfold CacheService.preview_of at 2.
  destruct text as [[|c s]|]; [done| |done].
  set (q := JS.trim (JS.replace_newlines (JS.substring0 200 (String c s)))).
  assert (Hlen : (String.length q <= 200)%nat).
  { unfold q. pose proof (trim_length (JS.replace_newlines (JS.substring0 200 (String c s)))).
    rewrite replace_newlines_length in *.
    pose proof (substring0_length 200 (String c s)). lia. }
  assert (Hclean : no_newline q = true) by apply trim_clean, replace_newlines_clean.
  unfold CacheService.preview_of. destruct q as [|c' q'] eqn:Hq; [done|].
  rewrite <- Hq in *. rewrite substring0_short, replace_newlines_id by done.
  unfold q. apply trim_idem.
Qed.

(** *** One row written back *)

Lemma or_str_idem (s d : string) : d <> "" -> JS.or_str (JS.or_str s d) d = JS.or_str s d.
Proof. intros Hd. destruct s; simpl; [by destruct d|done]. Qed.

Lemma written_att_idem u f a (x : Attachment) :
  written_att 0 u f a (CacheService.attachmentToEmail (written_att 0 u f a x))
  = written_att 0 u f a x.
Proof.
  unfold written_att, CacheService.attachmentToEmail. cbn.
  rewrite !or_str_idem by done. f_equal.
  by destruct (att_contentId x) as [[|]|].
Qed.

Lemma written_atts_toEmail f a r rid now (X : list CacheService.CachedAttachment) :
  let m0 := CacheService.cachedMessageToEmailMessage r X in
  let X1 := written_atts f a m0 in
  written_atts f a (CacheService.cachedMessageToEmailMessage (written_row rid now f a m0) X1)
  = X1.
Proof.
  intros m0 X1. subst X1 m0. unfold written_atts. cbn.
  destruct X as [|x X]; [done|]. cbn. f_equal.
  - apply written_att_idem.
  - rewrite !map_map. apply map_ext. intros y. apply written_att_idem.
Qed.

Lemma join_stored (s : string) :
  JS.join_comma (match s with
                 | EmptyString => []
                 | String c s' => JS.split_comma (String c s')
                 end) = s.
Proof. destruct s; [done|apply join_split_comma]. Qed.

(** Projections of the records that a row conversion goes through. *)
Ltac row_fields :=
  cbn [uid subject from date flags body_text attachments references id accountId
       folder messageId head addr_name addr_address
       CacheService.row_id CacheService.row_uid CacheService.row_folder_id
       CacheService.row_account_id CacheService.row_subject CacheService.row_from_name
       CacheService.row_from_address CacheService.row_date CacheService.row_flags
       CacheService.row_preview CacheService.row_has_attachments
       CacheService.row_thread_count CacheService.row_last_fetched].

Lemma written_row_toEmail f a r (X : list CacheService.CachedAttachment) :
  let m0 := CacheService.cachedMessageToEmailMessage r X in
  let X1 := written_atts f a m0 in
  written_row 0 0 f a
    (CacheService.cachedMessageToEmailMessage (written_row 0 0 f a m0) X1)
  = written_row 0 0 f a m0.
Proof.
  intros m0 X1. subst X1 m0.
  unfold written_row, CacheService.cachedMessageToEmailMessage. row_fields.
  f_equal.
  - by apply or_str_idem.
  - by destruct (CacheService.row_from_name r).
  - by rewrite !join_stored.
  - apply preview_of_idem.
  - unfold written_atts. row_fields. by destruct X.
  - by destruct (0 <? CacheService.row_thread_count r), (0 <? 0).
Qed.

Lemma flags_written_row f a r (X X' : list CacheService.CachedAttachment) :
  flags (CacheService.cachedMessageToEmailMessage
           (written_row 0 0 f a (CacheService.cachedMessageToEmailMessage r X)) X')
  = flags (CacheService.cachedMessageToEmailMessage r X).
Proof.
  unfold written_row, CacheService.cachedMessageToEmailMessage. row_fields.
  by rewrite join_stored.
Qed.

(** *** The whole folder written back *)
Section WriteBack.
Context (f a : string) (M : list CacheService.CachedMessage)
  (T : list CacheService.CachedAttachment).
Hypothesis M_unique : NoDup (map row_key M).
Hypothesis M_small :
  (length (List.filter (CacheService.in_folder f a) M) <= Z.to_nat 10000)%nat.

Lemma read_page_all :
  read_page M T f a 10000 0 = map (read_row T f a) (folder_rows M f a).
Proof.
  unfold read_page, CacheService.getCachedMessages, CacheService.select_messages,
    CacheService.select_attachments, folder_rows. cbn [CacheService.db CacheService.messages
    CacheService.attachments_tbl].
  rewrite limit_offset_all; [done|].
  rewrite sort_desc_length. exact M_small.
Qed.

Lemma in_folder_rows r :
  r ∈ folder_rows M f a <-> r ∈ M /\ CacheService.in_folder f a r = true.
Proof. unfold folder_rows. by rewrite sort_desc_perm, in_filter_iff. Qed.

Lemma in_folder_key r :
  CacheService.in_folder f a r = true ->
  row_key r = (CacheService.row_uid r, f, a).
Proof.
  unfold CacheService.in_folder, row_key. rewrite andb_true_iff, !String.eqb_eq.
  by intros [-> ->].
Qed.

Lemma folder_rows_uids_NoDup : NoDup (map CacheService.row_uid (folder_rows M f a)).
Proof.
  unfold folder_rows. rewrite sort_desc_perm.
  clear M_small. induction M as [|r l IH]; simpl; [constructor|].
  simpl in M_unique. apply NoDup_cons in M_unique as [Hr Hl].
  destruct (CacheService.in_folder f a r) eqn:Hin; [|by apply IH].
  simpl. apply NoDup_cons. split; [|by apply IH].
  intros Hu. apply Hr. apply list_elem_of_fmap in Hu as [r' [Heq Hr']].
  apply in_filter_iff in Hr' as [Hr' Hin'].
  apply list_elem_of_fmap. exists r'. split; [|done].
  by rewrite (in_folder_key _ Hin), (in_folder_key _ Hin'), Heq.
Qed.

Lemma uids_read_rows (X : list CacheService.CachedAttachment)
    (l : list CacheService.CachedMessage) :
  uids (map (read_row X f a) l) = map CacheService.row_uid l.
Proof. unfold uids. rewrite map_map. done. Qed.

Lemma cached_uids_NoDup : NoDup (uids (read_page M T f a 10000 0)).
Proof. rewrite read_page_all, uids_read_rows. apply folder_rows_uids_NoDup. Qed.

(** A row of the table belongs to the batch read from the folder exactly when
    it is in the folder. *)
Lemma row_in_batch_folder r :
  r ∈ M ->
  row_in_batch (read_page M T f a 10000 0) f a r = CacheService.in_folder f a r.
Proof.
  intros Hr. unfold row_in_batch. rewrite read_page_all, uids_read_rows.
  destruct (CacheService.in_folder f a r) eqn:Hin; [|done]. cbn.
  apply existsb_exists. exists (CacheService.row_uid r). split; [|by apply Z.eqb_eq].
  apply list_elem_of_In, list_elem_of_fmap. exists r. split; [done|].
  by apply in_folder_rows.
Qed.

Lemma writeback_rows_eq :
  writeback_rows M T f a
  = (List.filter (fun r => negb (CacheService.in_folder f a r)) M
     ++ map (fun r => written_row 0 0 f a (read_row T f a r)) (folder_rows M f a))%list.
Proof.
  unfold writeback_rows. cbv zeta. f_equal.
  - apply filter_ext_Forall, Forall_forall. intros r Hr. by rewrite row_in_batch_folder.
  - by rewrite read_page_all, map_map.
Qed.

Lemma writeback_atts_eq :
  writeback_atts M T f a
  = (List.filter (fun y => negb (att_in_batch (read_page M T f a 10000 0) f a y)) T
     ++ concat (map (fun r => written_atts f a (read_row T f a r)) (folder_rows M f a)))%list.
Proof.
  unfold writeback_atts. cbv zeta. f_equal. by rewrite read_page_all, map_map.
Qed.

Lemma written_row_in_folder (m : EmailMessage) :
  CacheService.in_folder f a (written_row 0 0 f a m) = true.
Proof. unfold CacheService.in_folder. cbn. by rewrite !String.eqb_refl. Qed.

Lemma sorted_map_key {A} (key : A -> Z) (g : A -> A) (l : list A) :
  (forall x, key (g x) = key x) ->
  StronglySorted (JS.desc key) l -> StronglySorted (JS.desc key) (map g l).
Proof.
  intros Hg. induction 1 as [|x l Hs IH Hall]; simpl; constructor; [done|].
  rewrite Forall_forall in *. intros y Hy.
  apply list_elem_of_fmap in Hy as [z [-> Hz]]. unfold JS.desc. rewrite !Hg.
  by apply Hall.
Qed.

(** After the write-back the folder holds the rewritten rows, in the same
    order. *)
Lemma folder_rows_writeback :
  folder_rows (writeback_rows M T f a) f a
  = map (fun r => written_row 0 0 f a (read_row T f a r)) (folder_rows M f a).
Proof.
  rewrite writeback_rows_eq. unfold folder_rows at 1.
  rewrite List.filter_app, filter_filter_bool.
  rewrite (filter_none (fun x => negb (CacheService.in_folder f a x) && _)).
  2: { apply Forall_forall. intros r _. by destruct (CacheService.in_folder f a r). }
  rewrite filter_all.
  2: { apply Forall_forall. intros r Hr.
       apply list_elem_of_fmap in Hr as [r' [-> _]]. apply written_row_in_folder. }
  cbn [app]. apply sort_desc_id, sorted_map_key; [done|].
  unfold folder_rows. apply sort_desc_sorted.
Qed.

Lemma att_of_written (u : Z) (m : EmailMessage) y :
  y ∈ written_atts f a m -> CacheService.att_of u f a y = (uid m =? u).
Proof.
  intros Hy. apply written_atts_uid in Hy as (Hu & Hf & Ha).
  unfold CacheService.att_of. by rewrite Hu, Hf, Ha, !String.eqb_refl, !andb_true_r.
Qed.

(** The attachment rows written for the rows of a folder are found again
    under the UID of their row. *)
Lemma filter_written_atts (l : list CacheService.CachedMessage) r :
  NoDup (map CacheService.row_uid l) -> r ∈ l ->
  List.filter (CacheService.att_of (CacheService.row_uid r) f a)
    (concat (map (fun r' => written_atts f a (read_row T f a r')) l))
  = written_atts f a (read_row T f a r).
Proof.
  induction l as [|x l IH]; intros Hnd Hr; [by apply elem_of_nil in Hr|].
  simpl in *. apply NoDup_cons in Hnd as [Hx Hnd]. rewrite List.filter_app.
  assert (Hsame : forall r', List.filter (CacheService.att_of (CacheService.row_uid r') f a)
                    (written_atts f a (read_row T f a r')) = written_atts f a (read_row T f a r')).
  { intros r'. apply filter_all, Forall_forall. intros y Hy.
    rewrite (att_of_written _ _ _ Hy). by apply Z.eqb_eq. }
  assert (Hother : forall r' r'', CacheService.row_uid r' <> CacheService.row_uid r'' ->
            List.filter (CacheService.att_of (CacheService.row_uid r'') f a)
              (written_atts f a (read_row T f a r')) = []).
  { intros r' r'' Hne. apply filter_none, Forall_forall. intros y Hy.
    rewrite (att_of_written _ _ _ Hy). by apply Z.eqb_neq. }
  apply elem_of_cons in Hr as [->|Hr].
  - rewrite Hsame. rewrite <- (app_nil_r (written_atts _ _ _)) at 2. f_equal.
    apply filter_none, Forall_forall. intros y Hy.
    apply list_elem_of_In, in_concat in Hy as (ys & Hys & Hy).
    apply in_map_iff in Hys as (r' & <- & Hr').
    rewrite (att_of_written _ _ _ (proj2 (list_elem_of_In _ _) Hy)).
    apply Z.eqb_neq. intros Heq. apply Hx.
    apply list_elem_of_fmap. exists r'. split; [done|by apply list_elem_of_In].
  - rewrite Hother, IH by (try done; intros Heq; apply Hx; rewrite Heq;
                           apply list_elem_of_fmap; by exists r).
    done.
Qed.

(** In the rewritten tables a row of the folder reads its own rewritten
    attachment rows. *)
Lemma filter_writeback_atts r :
  r ∈ folder_rows M f a ->
  List.filter (CacheService.att_of (CacheService.row_uid r) f a) (writeback_atts M T f a)
  = written_atts f a (read_row T f a r).
Proof.
  intros Hr. rewrite writeback_atts_eq, List.filter_app, filter_filter_bool.
  rewrite filter_none.
  - cbn [app]. apply filter_written_atts; [apply folder_rows_uids_NoDup|done].
  - apply Forall_forall. intros y _.
    destruct (CacheService.att_of (CacheService.row_uid r) f a y) eqn:Hatt;
      [|by rewrite andb_false_r].
    rewrite andb_true_r. apply negb_false_iff. unfold att_in_batch.
    apply existsb_exists. exists (CacheService.row_uid r). split; [|done].
    rewrite read_page_all, uids_read_rows.
    apply list_elem_of_In, list_elem_of_fmap. by exists r.
Qed.
End WriteBack.

Lemma folder_rows_length M f a :
  length (folder_rows M f a) = length (List.filter (CacheService.in_folder f a) M).
Proof. unfold folder_rows. apply sort_desc_length. Qed.

(** The page read after the write-back: every row of the folder, rewritten,
    with its rewritten attachment rows. *)
Lemma read_page_writeback f a M T :
  NoDup (map row_key M) ->
  (length (List.filter (CacheService.in_folder f a) M) <= Z.to_nat 10000)%nat ->
  read_page (writeback_rows M T f a) (writeback_atts M T f a) f a 10000 0
  = map (fun r => CacheService.cachedMessageToEmailMessage
                    (written_row 0 0 f a (read_row T f a r))
                    (written_atts f a (read_row T f a r)))
        (folder_rows M f a).
Proof.
  intros Hu Hs.
  rewrite read_page_all.
  2: { rewrite <- folder_rows_length, folder_rows_writeback by done.
       by rewrite length_map, folder_rows_length. }
  rewrite folder_rows_writeback, map_map by done.
  apply map_ext_in. intros r Hr. apply list_elem_of_In in Hr.
  unfold read_row at 1. f_equal.
  change (CacheService.row_uid (written_row 0 0 f a (read_row T f a r)))
    with (CacheService.row_uid r).
  by apply filter_writeback_atts.
Qed.

(** Writing the cached messages of a folder back a second time changes
    nothing in the content, and the second read has the same UIDs and flags
    as the first. *)
Lemma writeback_idem f a M T :
  NoDup (map row_key M) ->
  (length (List.filter (CacheService.in_folder f a) M) <= Z.to_nat 10000)%nat ->
  let M1 := writeback_rows M T f a in
  let T1 := writeback_atts M T f a in
  let cached := read_page M T f a 10000 0 in
  let cached1 := read_page M1 T1 f a 10000 0 in
  uids cached1 = uids cached
  /\ map flags cached1 = map flags cached
  /\ writeback_rows M1 T1 f a = M1
  /\ writeback_atts M1 T1 f a = T1.
Proof.
  intros Hu Hs M1 T1 cached cached1.
  assert (Hs1 : (length (List.filter (CacheService.in_folder f a) M1) <= Z.to_nat 10000)%nat).
  { unfold M1. rewrite <- folder_rows_length, folder_rows_writeback by done.
    by rewrite length_map, folder_rows_length. }
  assert (Hc : cached = map (read_row T f a) (folder_rows M f a)) by by apply read_page_all.
  assert (Hc1 : cached1 = map (fun r => CacheService.cachedMessageToEmailMessage
                    (written_row 0 0 f a (read_row T f a r))
                    (written_atts f a (read_row T f a r))) (folder_rows M f a))
    by by apply read_page_writeback.
  assert (Huids : uids cached1 = uids cached).
  { rewrite Hc, Hc1. unfold uids. by rewrite !map_map. }
  split; [done|]. split.
  { rewrite Hc, Hc1, !map_map. apply map_ext. intros r. apply flags_written_row. }
  split.
  - rewrite (writeback_rows_eq f a M1 T1 Hs1). unfold M1 at 3.
    rewrite (writeback_rows_eq f a M T Hs).
    unfold M1. rewrite folder_rows_writeback by done.
    rewrite (writeback_rows_eq f a M T Hs) at 1.
    rewrite List.filter_app, filter_filter_bool.
    rewrite (filter_none _ (map _ _)).
    2: { apply Forall_forall. intros r Hr. apply list_elem_of_fmap in Hr as [r' [-> _]].
         by rewrite written_row_in_folder. }
    rewrite app_nil_r. f_equal.
    + apply filter_ext_Forall, Forall_forall. intros r _.
      by destruct (CacheService.in_folder f a r).
    + rewrite map_map. apply map_ext_in. intros r Hr. apply list_elem_of_In in Hr.
      unfold read_row at 1.
      change (CacheService.row_uid (written_row 0 0 f a (read_row T f a r)))
        with (CacheService.row_uid r).
      unfold T1. rewrite filter_writeback_atts by done.
      apply written_row_toEmail.
  - unfold writeback_atts at 1. cbv zeta. fold cached1.
    assert (Hbatch : forall y, att_in_batch cached1 f a y = att_in_batch cached f a y).
    { intros y. unfold att_in_batch. by rewrite Huids. }
    unfold T1 at 2. unfold writeback_atts. cbv zeta. fold cached. fold T1.
    f_equal.
    + unfold T1, writeback_atts. cbv zeta. fold cached.
      rewrite List.filter_app, filter_filter_bool.
      rewrite (filter_none _ (concat _)).
      2: { apply Forall_forall. intros y Hy.
           apply list_elem_of_In, in_concat in Hy as (ys & Hys & Hy).
           apply in_map_iff in Hys as (m & <- & Hm).
           apply negb_false_iff. rewrite Hbatch. unfold att_in_batch.
           apply existsb_exists. exists (uid m). split.
           - apply list_elem_of_In. unfold uids. apply list_elem_of_fmap. exists m.
             split; [done|by apply list_elem_of_In].
           - rewrite (att_of_written f a (uid m) m y) by by apply list_elem_of_In.
             by apply Z.eqb_eq. }
      rewrite app_nil_r. apply filter_ext_Forall, Forall_forall. intros y _.
      rewrite Hbatch. by destruct (att_in_batch cached f a y).
    + f_equal. rewrite Hc, Hc1, !map_map. apply map_ext. intros r.
      apply written_atts_toEmail.
Qed.

(** ** The steady-state refresh run twice *)

Lemma content_updateMessages now msgs f a d :
  NoDup (uids msgs) ->
  content (CacheService.updateMessages now msgs f a (CacheService.mk (Some d)))
  = Some ((List.filter (fun r => negb (row_in_batch msgs f a r))
             (map erase_row (CacheService.messages d))
           ++ map (written_row 0 0 f a) msgs)%list,
          (List.filter (fun y => negb (att_in_batch msgs f a y))
             (map erase_att (CacheService.attachments_tbl d))
           ++ concat (map (written_atts f a) msgs))%list,
          map erase_folder (CacheService.folders d)).
Proof.
  intros Hnd. unfold content. cbn.
  by rewrite transaction_messages, transaction_attachments, transaction_folders.
Qed.

Lemma content_updateFolderMetadata now f a t u cs :
  content (CacheService.updateFolderMetadata now f a t u cs)
  = match content cs with
    | None => None
    | Some (M, T, F) =>
        Some (M, T,
              (List.filter (fun x => negb (String.eqb (CacheService.frow_id x)
                                             (CacheService.folder_key a f))) F
               ++ [CacheService.mkCachedFolder (CacheService.folder_key a f) a f 0 t u])%list)
    end.
Proof.
  unfold content, CacheService.updateFolderMetadata.
  destruct cs as [[d|]]; [|done]. cbn.
  rewrite map_app, filter_map_comm. done.
Qed.

Lemma unreadCount_flags (l l' : list EmailMessage) :
  map flags l = map flags l' -> App.unreadCount l = App.unreadCount l'.
Proof.
  unfold App.unreadCount. intros H. f_equal.
  revert l' H. induction l as [|x l IH]; intros [|y l'] H; try done.
  simpl in H. injection H as Hxy Hl. simpl. rewrite Hxy.
  destruct (negb _); simpl; by rewrite (IH l').
Qed.

Lemma length_uids (l l' : list EmailMessage) : uids l = uids l' -> length l = length l'.
Proof. unfold uids. intros H. by rewrite <- (length_map uid l), H, length_map. Qed.

(** Writing the cache back twice gives the content of writing it back once. *)
Lemma written_back_twice now1 now2 now3 now4 f a d :
  unique_keys d ->
  (length (List.filter (CacheService.in_folder f a) (CacheService.messages d))
   <= Z.to_nat 10000)%nat ->
  let cs := CacheService.mk (Some d) in
  let cs1 := written_back now1 now2 f a cs in
  let cs2 := written_back now3 now4 f a cs1 in
  content cs2 = content cs1
  /\ uids (CacheService.getCachedMessages cs1 f a 10000 0)
     = uids (CacheService.getCachedMessages cs f a 10000 0)
  /\ exists d1, CacheService.db cs1 = Some d1.
Proof.
  intros Hu Hs cs cs1 cs2.
  set (M := map erase_row (CacheService.messages d)).
  set (T := map erase_att (CacheService.attachments_tbl d)).
  assert (HuM : NoDup (map row_key M)).
  { unfold M. rewrite map_map. exact Hu. }
  assert (HsM : (length (List.filter (CacheService.in_folder f a) M) <= Z.to_nat 10000)%nat).
  { unfold M. rewrite filter_map_comm, length_map. exact Hs. }
  assert (Hread : CacheService.getCachedMessages cs f a 10000 0 = read_page M T f a 10000 0)
    by apply getCachedMessages_content.
  destruct (CacheService.db cs1) as [d1|] eqn:Hd1; [|done].
  assert (Hcs1 : cs1 = CacheService.mk (Some d1)) by (destruct cs1; cbn in *; congruence).
  assert (Hc1 : content cs1
    = Some (writeback_rows M T f a, writeback_atts M T f a,
            (List.filter (fun x => negb (String.eqb (CacheService.frow_id x)
                                           (CacheService.folder_key a f)))
               (map erase_folder (CacheService.folders d))
             ++ [CacheService.mkCachedFolder (CacheService.folder_key a f) a f 0
                   (Z.of_nat (length (read_page M T f a 10000 0)))
                   (App.unreadCount (read_page M T f a 10000 0))])%list)).
  { unfold cs1, written_back. cbv zeta. rewrite content_updateFolderMetadata.
    rewrite Hread. unfold cs. rewrite content_updateMessages by by apply cached_uids_NoDup.
    done. }
  assert (Hd1M : map erase_row (CacheService.messages d1) = writeback_rows M T f a
                 /\ map erase_att (CacheService.attachments_tbl d1) = writeback_atts M T f a).
  { rewrite Hcs1 in Hc1. unfold content in Hc1. cbn in Hc1. by injection Hc1 as -> -> _. }
  destruct Hd1M as [HM1 HT1].
  assert (Hread1 : CacheService.getCachedMessages cs1 f a 10000 0
                   = read_page (writeback_rows M T f a) (writeback_atts M T f a) f a 10000 0).
  { rewrite Hcs1, getCachedMessages_content. by rewrite HM1, HT1. }
  destruct (writeback_idem f a M T HuM HsM) as (Huids & Hflags & Hrows & Hatts).
  split; [|split; [by rewrite Hread1, Hread|by exists d1]].
  unfold cs2, written_back. cbv zeta. rewrite content_updateFolderMetadata.
  rewrite Hread1, Hcs1.
  rewrite content_updateMessages by (rewrite Huids; by apply cached_uids_NoDup).
  rewrite HM1, HT1. fold (writeback_rows (writeback_rows M T f a) (writeback_atts M T f a) f a).
  fold (writeback_atts (writeback_rows M T f a) (writeback_atts M T f a) f a).
  rewrite Hrows, Hatts. rewrite <- Hcs1, Hc1. do 2 f_equal.
  assert (Hfold : map erase_folder (CacheService.folders d1)
    = (List.filter (fun x => negb (String.eqb (CacheService.frow_id x)
                                    (CacheService.folder_key a f)))
         (map erase_folder (CacheService.folders d))
       ++ [CacheService.mkCachedFolder (CacheService.folder_key a f) a f 0
             (Z.of_nat (length (read_page M T f a 10000 0)))
             (App.unreadCount (read_page M T f a 10000 0))])%list).
  { rewrite Hcs1 in Hc1. unfold content in Hc1. cbn in Hc1. by injection Hc1. }
  rewrite Hfold, List.filter_app, filter_filter_bool. cbn [List.filter CacheService.frow_id].
  rewrite String.eqb_refl. cbn [negb]. rewrite app_nil_r. f_equal.
  - apply filter_ext_Forall, Forall_forall. intros x _. by destruct (negb _).
  - by rewrite (length_uids _ _ Huids), (unreadCount_flags _ _ Hflags).
Qed.

(** One steady-state refresh without new messages writes the cache back. *)
Lemma handleRefresh_steady (env : Env) (s : App.State) (c : ascii) (acc' : string)
    (account : EmailAccount) (c' : ascii) (F' : string) (total unseen : Z)
    (fetched : list EmailMessage) :
  let F := String c' F' in
  let cached := CacheService.getCachedMessages (store (App.st_world s)) F (acc_id account) 10000 0 in
  App.st_isRefreshing s = false ->
  App.st_selectedAccount s = Some (String c acc') ->
  App.st_selectedFolder s = F ->
  find_account (App.st_emailAccounts s) (String c acc') = Some account ->
  CacheService.db (store (App.st_world s)) <> None ->
  cached <> [] ->
  EmailService.getFolderStatus (emailService env) (acc_id account) F = Ok (total, unseen) ->
  0 < total ->
  EmailService.getMessages (emailService env) (acc_id account) F App.messagesToCheck
    (Z.max 1 (total - App.messagesToCheck + 1)) total = Ok fetched ->
  App.newMessages cached fetched = [] ->
  let s1 := snd (App.handleRefresh env App.Current s) in
  let t := ticks (App.st_world s) in
  store (App.st_world s1)
  = written_back (clock env t) (clock env (S t)) F (acc_id account) (store (App.st_world s))
  /\ App.st_isRefreshing s1 = false
  /\ App.st_selectedAccount s1 = App.st_selectedAccount s
  /\ App.st_selectedFolder s1 = App.st_selectedFolder s
  /\ App.st_emailAccounts s1 = App.st_emailAccounts s.
Proof.
  intros F cached Hidle Hsel Hfolder Hacc Hdb Hne Hstatus Htotal Hfetch Hnew s1 t.
  subst s1 F. unfold App.handleRefresh. run_step.
  rewrite Hidle, Hsel, Hfolder. run_step. rewrite Hacc.
  unfold App.refreshCurrent, App.regularRefresh. run_step.
  fold cached. rewrite Hstatus. run_step.
  destruct (Z.ltb_spec 0 total) as [_|]; [|lia].
  destruct cached as [|m ms] eqn:Hc; [done|]. rewrite <- Hc in *.
  assert (Hlen : Nat.eqb (length cached) 0 = false) by (rewrite Hc; done).
  rewrite Hlen. run_step. rewrite Hfetch. run_step.
  unfold App.mergedMessages. rewrite Hnew.
  destruct (CacheService.db (store (App.st_world s))) as [d|] eqn:Hd; [|done].
  run_step.
  assert (Hum : forall now, CacheService.db
            (CacheService.updateMessages now cached (String c' F') (acc_id account)
               (store (App.st_world s)))
          = Some (CacheService.transaction now (String c' F') (acc_id account) cached d)).
  { intros now. unfold CacheService.updateMessages. by rewrite Hd. }
  rewrite !Hum. run_step.
  unfold written_back. cbv zeta. fold cached. done.
Qed.

Lemma newMessages_same_uids (cached cached' fetched : list EmailMessage) :
  uids cached' = uids cached ->
  App.newMessages cached' fetched = App.newMessages cached fetched.
Proof. intros H. unfold App.newMessages, App.existingUIDs. by rewrite H. Qed.

(** C3 (as amended). A steady-state refresh that finds no new messages, run
    twice in a row on a folder whose cache holds at most the 10000 messages
    the refresh reads, leaves after the second run the content of the store
    as it was after the first: the same message, attachment and folder rows
    in the same order, up to the rowids and the [last_fetched] and
    [last_sync] times, which every run renews. *)
Theorem refresh_twice_same_content (env : Env) (s : App.State) (c : ascii) (acc' : string)
    (account : EmailAccount) (c' : ascii) (F' : string) (d : CacheService.Database)
    (total unseen : Z) (fetched : list EmailMessage) :
  let F := String c' F' in
  let cached := CacheService.getCachedMessages (store (App.st_world s)) F (acc_id account) 10000 0 in
  App.st_isRefreshing s = false ->
  App.st_selectedAccount s = Some (String c acc') ->
  App.st_selectedFolder s = F ->
  find_account (App.st_emailAccounts s) (String c acc') = Some account ->
  CacheService.db (store (App.st_world s)) = Some d ->
  unique_keys d ->
  (length (List.filter (CacheService.in_folder F (acc_id account)) (CacheService.messages d))
   <= Z.to_nat 10000)%nat ->
  cached <> [] ->
  EmailService.getFolderStatus (emailService env) (acc_id account) F = Ok (total, unseen) ->
  0 < total ->
  EmailService.getMessages (emailService env) (acc_id account) F App.messagesToCheck
    (Z.max 1 (total - App.messagesToCheck + 1)) total = Ok fetched ->
  App.newMessages cached fetched = [] ->
  let s1 := snd (App.handleRefresh env App.Current s) in
  let s2 := snd (App.handleRefresh env App.Current s1) in
  content (store (App.st_world s2)) = content (store (App.st_world s1))
  /\ content (store (App.st_world s1)) <> None.
Proof.
  intros F cached Hidle Hsel Hfolder Hacc Hd Hu Hs Hne Hstatus Htotal Hfetch Hnew s1 s2.
  assert (Hdb : CacheService.db (store (App.st_world s)) <> None) by (by rewrite Hd).
  destruct (handleRefresh_steady env s c acc' account c' F' total unseen fetched
              Hidle Hsel Hfolder Hacc Hdb Hne Hstatus Htotal Hfetch Hnew)
    as (Hst1 & Hidle1 & Hsel1 & Hfolder1 & Hacc1).
  fold s1 in Hst1, Hidle1, Hsel1, Hfolder1, Hacc1. fold F in Hst1.
  assert (Hcs : store (App.st_world s) = CacheService.mk (Some d)).
  { destruct (store (App.st_world s)). cbn in Hd. by rewrite Hd. }
  pose proof (written_back_twice
    (clock env (ticks (App.st_world s))) (clock env (S (ticks (App.st_world s))))
    (clock env (ticks (App.st_world s1))) (clock env (S (ticks (App.st_world s1))))
    F (acc_id account) d Hu Hs) as Htwice.
  cbv zeta in Htwice. rewrite <- Hcs, <- Hst1 in Htwice.
  destruct Htwice as (Hcontent & Huids & d1 & Hd1).
  assert (Hcached1 : CacheService.getCachedMessages (store (App.st_world s1)) F
                       (acc_id account) 10000 0 <> []).
  { intros Hnil. apply Hne. apply length_uids in Huids. rewrite Hnil in Huids.
    fold cached in Huids. by destruct cached. }
  assert (Hdb1 : CacheService.db (store (App.st_world s1)) <> None) by (by rewrite Hd1).
  destruct (handleRefresh_steady env s1 c acc' account c' F' total unseen fetched)
    as (Hst2 & _); try done.
  - by rewrite Hsel1.
  - by rewrite Hfolder1.
  - by rewrite Hacc1.
  - fold F. rewrite (newMessages_same_uids cached) by done. exact Hnew.
  - fold s2 in Hst2. fold F in Hst2. rewrite Hst2, Hcontent. split; [done|].
    unfold content. by rewrite Hd1.
Qed.

(** Counterexample to C3 as stated: the cache holds the only message of the
    mailbox; two refreshes in a row both find nothing new, yet the second one
    stamps the message row and the folder row with new times, so the store is
    not what it was after the first. *)
Lemma second_refresh_renews_timestamps :
  let env := Sample.env ["INBOX"] 1 in
  let s1 := snd (App.handleRefresh env App.Current
                   (Sample.app_state "INBOX" Sample.store_in_sync)) in
  let s2 := snd (App.handleRefresh env App.Current s1) in
  let times cs :=
    option_map (fun d => (map CacheService.row_last_fetched (CacheService.messages d),
                          map CacheService.frow_last_sync (CacheService.folders d)))
               (CacheService.db cs) in
  App.st_status s1 = App.Refreshed "INBOX" 1
  /\ App.st_status s2 = App.Refreshed "INBOX" 1
  /\ times (store (App.st_world s1)) = Some ([1000], [2000])
  /\ times (store (App.st_world s2)) = Some ([3000], [4000])
  /\ store (App.st_world s2) <> store (App.st_world s1).
Proof. vm_compute. repeat split; congruence. Qed.

(** ** The theorems at concrete mailboxes *)

(** C1 at a folder of 523 messages, page 1 of size 20: the window is
    [494:523] and the 20 newest messages are shown and cached. *)
Lemma remote_page_fetch_window_witness :
  let r := MessageList.loadFromImap (Sample.props "INBOX" 20) (Sample.env ["INBOX"] 523)
             (Sample.list_state 1 Sample.empty_store) "ann@example.org"
             (Sample.list_state 1 Sample.empty_store) in
  fst r = Ok tt
  /\ log (MessageList.st_world (snd r))
     = [EvFolders "acc1"; EvStatus "acc1" "INBOX"; EvFetch "acc1" "INBOX" 20 494 523;
        EvCacheWrite "INBOX" "acc1" 20; EvCacheMetaWrite "INBOX" "acc1" 523 0]
  /\ length (MessageList.st_messages (snd r)) = 20%nat.
Proof.
  pose proof (remote_page_fetch_window (Sample.props "INBOX" 20) (Sample.env ["INBOX"] 523)
    (Sample.list_state 1 Sample.empty_store) (Sample.list_state 1 Sample.empty_store)
    "ann@example.org" Sample.account ["INBOX"] 523 0
    (map (EmailService.set_origin "acc1" "INBOX")
       (JS.sort_desc date (Sample.mailbox_fetch 523 494 523)))) as H.
  cbv zeta in H.
  destruct H as (H1 & H2 & H3 & _); [vm_compute; congruence.. | reflexivity | reflexivity
    | vm_compute; reflexivity | vm_compute; reflexivity |].
  cbv zeta. split; [exact H1|]. split.
  - rewrite H2. vm_compute. reflexivity.
  - rewrite H3. vm_compute. reflexivity.
Defined.

(** C3 at a one-message mailbox that is fully cached. *)
Lemma refresh_twice_same_content_witness :
  let env := Sample.env ["INBOX"] 1 in
  let s1 := snd (App.handleRefresh env App.Current
                   (Sample.app_state "INBOX" Sample.store_in_sync)) in
  let s2 := snd (App.handleRefresh env App.Current s1) in
  content (store (App.st_world s2)) = content (store (App.st_world s1))
  /\ content (store (App.st_world s1)) <> None.
Proof.
  cbv zeta.
  apply (refresh_twice_same_content (Sample.env ["INBOX"] 1)
           (Sample.app_state "INBOX" Sample.store_in_sync)
           "a"%char "nn@example.org" Sample.account "I"%char "NBOX" Sample.db_in_sync 1 0
           (map (EmailService.set_origin "acc1" "INBOX")
              (JS.sort_desc date (Sample.mailbox_fetch 1 1 1)))).
  - reflexivity.
  - reflexivity.
  - reflexivity.
  - reflexivity.
  - reflexivity.
  - apply (bool_decide_unpack _). vm_compute. exact I.
  - apply Nat.leb_le. vm_compute. reflexivity.
  - vm_compute. discriminate.
  - vm_compute. reflexivity.
  - lia.
  - vm_compute. reflexivity.
  - vm_compute. reflexivity.
Defined.

(** C4 for a message with a subject and a system flag written to an empty
    store: the first page returns it unchanged. *)
Lemma cache_round_trip_witness :
  let m := Sample.message 7 50 "Hi" ["\Seen"] in
  let cs' := CacheService.updateMessages 1000 [m] "INBOX" "acc1" Sample.empty_store in
  exists i : nat, forall limit offset,
    (Z.to_nat offset <= i)%nat ->
    limit < 0 \/ (i < Z.to_nat offset + Z.to_nat limit)%nat ->
    exists r,
      CacheService.getCachedMessages cs' "INBOX" "acc1" limit offset
        !! (i - Z.to_nat offset)%nat = Some r
      /\ uid r = uid m
      /\ date r = date m
      /\ subject r = JS.or_str (subject m) "(No subject)"
      /\ (subject m <> "" -> subject r = subject m)
      /\ flags r = stored_flags (flags m)
      /\ (Forall (fun f => plain_flag f = true) (flags m) -> flags r = flags m).
Proof.
  cbv zeta.
  apply (cache_round_trip (CacheService.createTables true) 1000
           [Sample.message 7 50 "Hi" ["\Seen"]] "INBOX" "acc1"
           (Sample.message 7 50 "Hi" ["\Seen"])).
  - apply list_elem_of_here.
  - apply (bool_decide_unpack _). vm_compute. exact I.
Defined.

(** C5 at the store of a failed initialisation: reads are empty, a write is
    dropped, and the page load of INBOX at a mailbox of 523 messages reads
    the cache, finds nothing, fetches the window 494:523 from the server and
    shows 20 messages; the store is as it was. *)
Lemma failed_store_is_noop_witness :
  let r := MessageList.loadMessages (Sample.props "INBOX" 20) (Sample.env ["INBOX"] 523)
             (Sample.list_state 1 Sample.no_store) in
  (forall f a l o, CacheService.getCachedMessages Sample.no_store f a l o = [])
  /\ (forall now msgs f a,
        CacheService.updateMessages now msgs f a Sample.no_store = Sample.no_store)
  /\ fst r = Ok tt
  /\ store (MessageList.st_world (snd r)) = Sample.no_store
  /\ length (MessageList.st_messages (snd r)) = 20%nat
  /\ log (MessageList.st_world (snd r))
     = [EvCacheRead "INBOX" "acc1" 20 0; EvFolders "acc1"; EvStatus "acc1" "INBOX";
        EvFetch "acc1" "INBOX" 20 494 523; EvCacheWrite "INBOX" "acc1" 20;
        EvCacheMetaWrite "INBOX" "acc1" 523 0].
Proof.
  pose proof (failed_store_is_noop Sample.no_store eq_refl) as H.
  destruct H as (_ & H1 & _ & _ & _ & H2 & _ & _ & _ & _ & H3).
  specialize (H3 (Sample.props "INBOX" 20) (Sample.env ["INBOX"] 523)
                (Sample.list_state 1 Sample.no_store) "a"%char "nn@example.org"
                eq_refl eq_refl ltac:(discriminate)).
  cbv zeta in H3. destruct H3 as (Hok & Hstore & _ & _ & H4).
  destruct (H4 Sample.account ["INBOX"] 523 0
              (map (EmailService.set_origin "acc1" "INBOX")
                 (JS.sort_desc date (Sample.mailbox_fetch 523 494 523))))
    as (Hshown & _ & _ & _ & Hlog);
    [reflexivity | reflexivity | vm_compute; reflexivity | lia | vm_compute; congruence
     | vm_compute; reflexivity |].
  cbv zeta. split; [exact H1|]. split; [exact H2|]. split; [exact Hok|].
  split; [exact Hstore|]. split.
  - rewrite Hshown. vm_compute. reflexivity.
  - rewrite Hlog. vm_compute. reflexivity.
Defined.

(** C6 at a page size of zero, the one setting where the clamps cross, and at
    a page size of 20, where they cannot. *)
Lemma range_guard_unreachable_witness :
  (let r := MessageList.loadFromImap (Sample.props "INBOX" 0) (Sample.env ["INBOX"] 5)
              (Sample.list_state 1 Sample.empty_store) "ann@example.org"
              (Sample.list_state 1 Sample.empty_store) in
   fst r = Ok tt
   /\ MessageList.st_messages (snd r) = []
   /\ log (MessageList.st_world (snd r))
      = [EvFolders "acc1"; EvStatus "acc1" "INBOX"; EvRangeError 6 5])
  /\ 1 <= MessageList.startSeq (MessageList.endSeq 523 1 20) 20
       <= MessageList.endSeq 523 1 20.
Proof.
  split.
  - pose proof (range_guard_unreachable (Sample.props "INBOX" 0) (Sample.env ["INBOX"] 5)
      (Sample.list_state 1 Sample.empty_store) (Sample.list_state 1 Sample.empty_store)
      "ann@example.org" Sample.account ["INBOX"] 5 0) as H.
    cbv zeta in H.
    destruct H as (H & _); [reflexivity | reflexivity | vm_compute; reflexivity | lia |].
    destruct H as (H1 & H2 & H3 & _); [vm_compute; reflexivity|].
    cbv zeta. split; [exact H1|]. split; [exact H2|]. rewrite H3. vm_compute. reflexivity.
  - pose proof (range_guard_unreachable (Sample.props "INBOX" 20) (Sample.env ["INBOX"] 523)
      (Sample.list_state 1 Sample.empty_store) (Sample.list_state 1 Sample.empty_store)
      "ann@example.org" Sample.account ["INBOX"] 523 0) as H.
    cbv zeta in H.
    destruct H as (_ & H); [reflexivity | reflexivity | vm_compute; reflexivity | lia |].
    destruct H as (H & _); [vm_compute; congruence|]. exact H.
Defined.

(** C10 at a box that reports 523 messages, 2 of them new: when the search
    for all messages fails the status is (523, 2); when only the search for
    unseen messages fails, after five messages were counted, it is (5, 2). *)
Lemma getFolderStatus_never_fails_on_search_witness :
  ImapService.getFolderStatus
    (ImapService.mk (Some Scenario.connection_search_fails)) "INBOX" = Ok (523, 2)
  /\ ImapService.getFolderStatus
       (ImapService.mk (Some Scenario.connection_unseen_search_fails)) "INBOX" = Ok (5, 2).
Proof.
  split.
  - pose proof (getFolderStatus_never_fails_on_search
                  (ImapService.mk (Some Scenario.connection_search_fails)) "INBOX") as H.
    destruct (ImapService.getFolderStatus _ _) as [[total unseen]|e].
    + destruct H as (c & box & Hc & Hbox & H). injection Hc as <-. injection Hbox as <-.
      cbn in H. destruct H as [-> ->]. reflexivity.
    + destruct H as [[H _]|(c & Hc & Hbox)]; [discriminate H|].
      injection Hc as <-. discriminate Hbox.
  - pose proof (getFolderStatus_never_fails_on_search
                  (ImapService.mk (Some Scenario.connection_unseen_search_fails)) "INBOX") as H.
    destruct (ImapService.getFolderStatus _ _) as [[total unseen]|e].
    + destruct H as (c & box & Hc & Hbox & H). injection Hc as <-. injection Hbox as <-.
      cbn in H. destruct H as [-> ->]. reflexivity.
    + destruct H as [[H _]|(c & Hc & Hbox)]; [discriminate H|].
      injection Hc as <-. discriminate Hbox.
Defined.

(** * Further properties *)

(** ** Further properties of the store *)

(** ** Lists *)

Lemma find_app_split {A} (p : A -> bool) (l l' : list A) :
  List.find p (l ++ l')
  = match List.find p l with Some x => Some x | None => List.find p l' end.
Proof.
  induction l as [|x l IH]; simpl; [done|]. by destruct (p x).
Qed.

Lemma find_filter_other {A} (p q : A -> bool) (l : list A) :
  (forall x, p x = true -> q x = true) ->
  List.find p (List.filter q l) = List.find p l.
Proof.
  intros H. induction l as [|x l IH]; simpl; [done|].
  destruct (q x) eqn:Hq; simpl.
  - by rewrite IH.
  - destruct (p x) eqn:Hp; [|done]. apply H in Hp. congruence.
Qed.

Lemma find_filter_none {A} (p q : A -> bool) (l : list A) :
  (forall x, p x = true -> q x = false) ->
  List.find p (List.filter q l) = None.
Proof.
  intros H. induction l as [|x l IH]; simpl; [done|].
  destruct (q x) eqn:Hq; simpl; [|done].
  destruct (p x) eqn:Hp; [|done]. apply H in Hp. congruence.
Qed.

Lemma filter_filter_same {A} (p q : A -> bool) (l : list A) :
  (forall x, p x = true -> q x = true) ->
  List.filter p (List.filter q l) = List.filter p l.
Proof.
  intros H. rewrite filter_filter_bool. apply List.filter_ext. intros x.
  destruct (p x) eqn:Hp; [by rewrite (H x Hp)|by rewrite andb_false_r].
Qed.

Lemma filter_filter_none {A} (p q : A -> bool) (l : list A) :
  (forall x, p x = true -> q x = false) ->
  List.filter p (List.filter q l) = [].
Proof.
  intros H. rewrite filter_filter_bool. apply filter_none, Forall_forall. intros x _.
  destruct (p x) eqn:Hp; [by rewrite (H x Hp)|by rewrite andb_false_r].
Qed.

(** ** The keys of the folder table *)

Lemma colon_free_cons (c : ascii) (s : string) :
  colon_free (String c s) = negb (Ascii.eqb c ":"%char) && colon_free s.
Proof. done. Qed.

Lemma append_nil_l (s : string) : "" ++ s = s.
Proof. reflexivity. Qed.

Lemma append_cons_l (c : ascii) (s t : string) : String c s ++ t = String c (s ++ t).
Proof. reflexivity. Qed.

Lemma folder_key_inj (a f a' f' : string) :
  colon_free a = true -> colon_free a' = true ->
  CacheService.folder_key a f = CacheService.folder_key a' f' -> a = a' /\ f = f'.
Proof.
  unfold CacheService.folder_key. revert a'.
  induction a as [|c a IH]; intros [|c' a'] Ha Ha' Heq;
    rewrite ?append_cons_l, ?append_nil_l in Heq.
  - by injection Heq as ->.
  - injection Heq as <- _. by rewrite colon_free_cons in Ha'.
  - injection Heq as -> _. by rewrite colon_free_cons in Ha.
  - injection Heq as -> Heq. rewrite colon_free_cons in Ha, Ha'.
    apply andb_true_iff in Ha as [_ Ha]. apply andb_true_iff in Ha' as [_ Ha'].
    destruct (IH a' Ha Ha' Heq) as [-> ->]. done.
Qed.

Lemma folder_key_shift (x y z : string) :
  CacheService.folder_key (x ++ ":" ++ y) z = CacheService.folder_key x (y ++ ":" ++ z).
Proof.
  unfold CacheService.folder_key.
  induction x as [|c x IH]; rewrite ?append_cons_l, ?append_nil_l.
  - reflexivity.
  - by f_equal.
Qed.

Lemma getFolderMetadata_updated now f a t u d :
  CacheService.getFolderMetadata
    (CacheService.updateFolderMetadata now f a t u (CacheService.mk (Some d))) f a
  = Some (t, u).
Proof.
  unfold CacheService.getFolderMetadata, CacheService.updateFolderMetadata. cbn.
  rewrite find_app_split, find_filter_none.
  - cbn. by rewrite String.eqb_refl.
  - intros x Hx. by rewrite Hx.
Qed.

Lemma getFolderMetadata_other now f a t u d f' a' :
  CacheService.folder_key a' f' <> CacheService.folder_key a f ->
  CacheService.getFolderMetadata
    (CacheService.updateFolderMetadata now f a t u (CacheService.mk (Some d))) f' a'
  = CacheService.getFolderMetadata (CacheService.mk (Some d)) f' a'.
Proof.
  intros Hk.
  unfold CacheService.getFolderMetadata, CacheService.updateFolderMetadata. cbn.
  rewrite find_app_split, find_filter_other.
  - destruct (List.find _ (CacheService.folders d)); [done|]. cbn.
    destruct (String.eqb_spec (CacheService.folder_key a f) (CacheService.folder_key a' f'));
      [congruence|done].
  - intros x Hx. apply String.eqb_eq in Hx. rewrite Hx.
    apply negb_true_iff. by apply String.eqb_neq.
Qed.

(** X1. What [updateFolderMetadata] writes for a folder of an account is what
    [getFolderMetadata] returns for it, and no cached page changes. The row
    is keyed by the text [account:folder]: the metadata of every folder with
    another key is untouched, which covers every other folder and account
    when the account identifiers hold no colon, while an account [x:y] with
    folder [z] and an account [x] with folder [y:z] share one row. *)
Theorem folder_metadata_round_trip (now : Z) (f a : string) (t u : Z)
    (cs : CacheService.t) :
  CacheService.db cs <> None ->
  let cs' := CacheService.updateFolderMetadata now f a t u cs in
  CacheService.getFolderMetadata cs' f a = Some (t, u)
  /\ (forall f' a',
        CacheService.folder_key a' f' <> CacheService.folder_key a f ->
        CacheService.getFolderMetadata cs' f' a' = CacheService.getFolderMetadata cs f' a')
  /\ (forall f' a',
        colon_free a = true -> colon_free a' = true -> (f', a') <> (f, a) ->
        CacheService.getFolderMetadata cs' f' a' = CacheService.getFolderMetadata cs f' a')
  /\ (forall x y z,
        a = x ++ ":" ++ y -> f = z ->
        CacheService.getFolderMetadata cs' (y ++ ":" ++ z) x = Some (t, u))
  /\ (forall f' a' limit offset,
        CacheService.getCachedMessages cs' f' a' limit offset
        = CacheService.getCachedMessages cs f' a' limit offset).
Proof.
  destruct cs as [[d|]]; [intros _|done]. cbv zeta.
  split; [apply getFolderMetadata_updated|].
  split; [intros; by apply getFolderMetadata_other|].
  split.
  - intros f' a' Ha Ha' Hne. apply getFolderMetadata_other. intros Hk.
    apply folder_key_inj in Hk as [-> ->]; done.
  - split; [|done].
    intros x y z -> ->.
    unfold CacheService.getFolderMetadata, CacheService.updateFolderMetadata. cbn.
    rewrite <- folder_key_shift.
    rewrite find_app_split, find_filter_none.
    + cbn. by rewrite String.eqb_refl.
    + intros r Hr. by rewrite Hr.
Qed.

(** ** Rows and attachments of other folders *)

Lemma in_folder_both f a f' a' r :
  CacheService.in_folder f a r = true -> CacheService.in_folder f' a' r = true ->
  (f', a') = (f, a).
Proof.
  unfold CacheService.in_folder. rewrite !andb_true_iff, !String.eqb_eq.
  intros [<- <-] [<- <-]. done.
Qed.

Lemma has_key_in_folder u f a r :
  CacheService.has_key u f a r = true -> CacheService.in_folder f a r = true.
Proof. unfold CacheService.has_key. rewrite andb_true_iff. tauto. Qed.

Lemma written_row_other_folder rid now f a m f' a' :
  (f', a') <> (f, a) ->
  CacheService.in_folder f' a' (written_row rid now f a m) = false.
Proof.
  intros Hne. unfold CacheService.in_folder, written_row. cbn.
  destruct (String.eqb_spec f f'), (String.eqb_spec a a'); subst; done.
Qed.

Lemma att_of_both u f a u' f' a' x :
  CacheService.att_of u f a x = true -> CacheService.att_of u' f' a' x = true ->
  (f', a') = (f, a) /\ u' = u.
Proof.
  unfold CacheService.att_of. rewrite !andb_true_iff, !String.eqb_eq, !Z.eqb_eq.
  intros [[<- <-] <-] [[<- <-] <-]. done.
Qed.

Lemma upsert_other_rows now f a d msg f' a' :
  (f', a') <> (f, a) ->
  List.filter (CacheService.in_folder f' a')
    (CacheService.messages (CacheService.upsert_one now f a d msg))
  = List.filter (CacheService.in_folder f' a') (CacheService.messages d).
Proof.
  intros Hne. rewrite messages_upsert_one, List.filter_app. cbn.
  rewrite written_row_other_folder by done. rewrite app_nil_r.
  apply filter_filter_same. intros r Hr. apply negb_true_iff.
  destruct (CacheService.has_key (uid msg) f a r) eqn:Hk; [|done].
  apply has_key_in_folder in Hk. destruct Hne. by eapply in_folder_both.
Qed.

Lemma transaction_other_rows now f a msgs d f' a' :
  (f', a') <> (f, a) ->
  List.filter (CacheService.in_folder f' a')
    (CacheService.messages (CacheService.transaction now f a msgs d))
  = List.filter (CacheService.in_folder f' a') (CacheService.messages d).
Proof.
  intros Hne. unfold CacheService.transaction. revert d.
  induction msgs as [|m msgs IH]; intros d; simpl; [done|].
  by rewrite IH, upsert_other_rows.
Qed.

Lemma upsert_other_atts now f a d msg u f' a' :
  (f', a') <> (f, a) ->
  List.filter (CacheService.att_of u f' a')
    (map erase_att (CacheService.attachments_tbl (CacheService.upsert_one now f a d msg)))
  = List.filter (CacheService.att_of u f' a')
      (map erase_att (CacheService.attachments_tbl d)).
Proof.
  intros Hne. rewrite attachments_upsert_one, List.filter_app.
  rewrite (filter_none _ (written_atts f a msg)).
  - rewrite app_nil_r. apply filter_filter_same. intros x Hx. apply negb_true_iff.
    destruct (CacheService.att_of (uid msg) f a x) eqn:Hk; [|done].
    destruct Hne. by destruct (att_of_both _ _ _ _ _ _ _ Hk Hx).
  - apply Forall_forall. intros y Hy.
    apply written_atts_uid in Hy as (_ & Hf & Ha).
    unfold CacheService.att_of. rewrite Hf, Ha.
    destruct (String.eqb_spec f f'), (String.eqb_spec a a'); subst;
      rewrite ?andb_false_r; done.
Qed.

Lemma transaction_other_atts now f a msgs d u f' a' :
  (f', a') <> (f, a) ->
  List.filter (CacheService.att_of u f' a')
    (map erase_att (CacheService.attachments_tbl (CacheService.transaction now f a msgs d)))
  = List.filter (CacheService.att_of u f' a')
      (map erase_att (CacheService.attachments_tbl d)).
Proof.
  intros Hne. unfold CacheService.transaction. revert d.
  induction msgs as [|m msgs IH]; intros d; simpl; [done|].
  by rewrite IH, upsert_other_atts.
Qed.

Lemma read_page_rows M T f a limit offset :
  read_page M T f a limit offset
  = map (read_row T f a) (CacheService.limit_offset limit offset (folder_rows M f a)).
Proof. reflexivity. Qed.

Lemma folder_rows_erase M f a :
  folder_rows (map erase_row M) f a = map erase_row (folder_rows M f a).
Proof.
  unfold folder_rows. rewrite filter_map_comm, sort_desc_map. reflexivity.
Qed.

(** Two stores whose tables agree on a folder give the same pages of it. *)
Lemma read_page_agree M T M' T' f a limit offset :
  List.filter (CacheService.in_folder f a) M' = List.filter (CacheService.in_folder f a) M ->
  (forall u, List.filter (CacheService.att_of u f a) T'
             = List.filter (CacheService.att_of u f a) T) ->
  read_page M' T' f a limit offset = read_page M T f a limit offset.
Proof.
  intros HM HT. rewrite !read_page_rows. unfold folder_rows. rewrite HM.
  apply map_ext. intros r. unfold read_row. by rewrite HT.
Qed.

(** X2. Writing the messages of one folder leaves every other folder and
    account as it was. *)
Theorem updateMessages_leaves_other_folders (now : Z) (msgs : list EmailMessage)
    (f a f' a' : string) (cs : CacheService.t) :
  (f', a') <> (f, a) ->
  let cs' := CacheService.updateMessages now msgs f a cs in
  (forall limit offset,
     CacheService.getCachedMessages cs' f' a' limit offset
     = CacheService.getCachedMessages cs f' a' limit offset)
  /\ CacheService.getLastSyncTime cs' f' a' = CacheService.getLastSyncTime cs f' a'
  /\ cached_count cs' f' a' = cached_count cs f' a'
  /\ (forall f'' a'',
        CacheService.getFolderMetadata cs' f'' a'' = CacheService.getFolderMetadata cs f'' a'').
Proof.
  intros Hne. destruct cs as [[d|]]; [|done]. cbv zeta.
  unfold CacheService.updateMessages. cbn [CacheService.db].
  split; [|split; [|split]].
  - intros limit offset. rewrite !getCachedMessages_content.
    apply read_page_agree.
    + rewrite !filter_map_comm. f_equal.
      exact (transaction_other_rows now f a msgs d f' a' Hne).
    + intros u. by apply transaction_other_atts.
  - unfold CacheService.getLastSyncTime. cbn [CacheService.db].
    by rewrite transaction_other_rows.
  - unfold cached_count. cbn [CacheService.db]. by rewrite transaction_other_rows.
  - intros f'' a''. unfold CacheService.getFolderMetadata. cbn [CacheService.db].
    by rewrite transaction_folders.
Qed.

(** ** What a written message reads back as *)

Lemma stored_message_eq f a m :
  CacheService.cachedMessageToEmailMessage (written_row 0 0 f a m) (written_atts f a m)
  = stored_message f a m.
Proof.
  unfold CacheService.cachedMessageToEmailMessage, stored_message, written_row,
    written_atts, stored_flags.
  row_fields.
  f_equal.
  - destruct (head (from m)) as [x|]; [|done].
    by destruct (addr_name x) as [[|c n]|].
  - destruct (attachments m) as [[|x l]|]; [done| |done].
    cbn [map]. f_equal. f_equal.
    + unfold CacheService.attachmentToEmail, written_att, stored_attachment. cbn.
      f_equal. by destruct (att_contentId x) as [[|c s]|].
    + rewrite map_map. apply map_ext. intros y.
      unfold CacheService.attachmentToEmail, written_att, stored_attachment. cbn.
      f_equal. by destruct (att_contentId y) as [[|c s]|].
  - destruct (references m) as [[|x l]|]; done.
Qed.

Lemma att_in_batch_elem msgs f a m y :
  m ∈ msgs -> CacheService.att_of (uid m) f a y = true -> att_in_batch msgs f a y = true.
Proof.
  intros Hm Hy. unfold att_in_batch. apply existsb_exists.
  exists (uid m). split; [|done].
  apply list_elem_of_In. unfold uids. apply list_elem_of_fmap. by exists m.
Qed.

Lemma filter_concat_written_atts f a msgs m :
  NoDup (uids msgs) -> m ∈ msgs ->
  List.filter (CacheService.att_of (uid m) f a) (concat (map (written_atts f a) msgs))
  = written_atts f a m.
Proof.
  induction msgs as [|x msgs IH]; intros Hnd Hm; [by apply elem_of_nil in Hm|].
  unfold uids in Hnd. cbn in Hnd. apply NoDup_cons in Hnd as [Hx Hnd].
  cbn [map concat]. rewrite List.filter_app.
  apply elem_of_cons in Hm as [->|Hm].
  - rewrite filter_all.
    + rewrite (filter_none _ (concat _)); [by rewrite app_nil_r|].
      apply Forall_forall. intros y Hy.
      apply list_elem_of_In, in_concat in Hy as (l & Hl & Hy).
      apply in_map_iff in Hl as (m' & <- & Hm').
      apply list_elem_of_In in Hy, Hm'.
      rewrite (att_of_written f a (uid x) m' y Hy).
      apply Z.eqb_neq. intros Heq. apply Hx. unfold uids.
      apply list_elem_of_fmap. exists m'. by rewrite Heq.
    + apply Forall_forall. intros y Hy.
      rewrite (att_of_written f a (uid x) x y Hy). apply Z.eqb_refl.
  - rewrite filter_none.
    + by rewrite IH.
    + apply Forall_forall. intros y Hy.
      rewrite (att_of_written f a (uid m) x y Hy).
      apply Z.eqb_neq. intros Heq. apply Hx. unfold uids.
      apply list_elem_of_fmap. exists m. by rewrite Heq.
Qed.

(** The attachment rows of a written message are the ones just written. *)
Lemma transaction_attachments_of now f a msgs d m :
  NoDup (uids msgs) -> m ∈ msgs ->
  List.filter (CacheService.att_of (uid m) f a)
    (map erase_att (CacheService.attachments_tbl (CacheService.transaction now f a msgs d)))
  = written_atts f a m.
Proof.
  intros Hnd Hm. rewrite transaction_attachments by done.
  rewrite List.filter_app, filter_concat_written_atts by done.
  rewrite filter_filter_none; [done|].
  intros y Hy. apply negb_false_iff. by eapply att_in_batch_elem.
Qed.

(** The position at which a written message is read back. *)
Lemma written_message_lookup (d : CacheService.Database) (now : Z)
    (msgs : list EmailMessage) (f a : string) (m : EmailMessage) :
  m ∈ msgs -> NoDup (uids msgs) ->
  let cs' := CacheService.updateMessages now msgs f a (CacheService.mk (Some d)) in
  exists i : nat, forall limit offset,
    (Z.to_nat offset <= i)%nat ->
    limit < 0 \/ (i < Z.to_nat offset + Z.to_nat limit)%nat ->
    CacheService.getCachedMessages cs' f a limit offset !! (i - Z.to_nat offset)%nat
    = Some (stored_message f a m).
Proof.
  intros Hm Hnd cs'. subst cs'. unfold CacheService.updateMessages. cbn [CacheService.db].
  destruct (transaction_writes_row now f a msgs d m Hm Hnd) as [rid Hrow].
  set (d' := CacheService.transaction now f a msgs d) in *.
  set (row := written_row rid now f a m) in *.
  assert (Hin : row ∈ JS.sort_desc CacheService.row_date
                  (List.filter (CacheService.in_folder f a) (CacheService.messages d'))).
  { rewrite sort_desc_perm. apply in_filter_iff. split; [done|].
    unfold CacheService.in_folder, row, written_row. cbn.
    by rewrite !String.eqb_refl. }
  apply list_elem_of_lookup in Hin as [i Hi].
  exists i. intros limit offset Ho Hl.
  unfold CacheService.getCachedMessages. cbn [CacheService.db].
  unfold CacheService.select_messages.
  rewrite list_lookup_fmap, limit_offset_lookup, Hi by done. cbn [fmap option_fmap option_map].
  f_equal. rewrite <- stored_message_eq.
  rewrite <- (toEmail_erase row). unfold row. rewrite erase_written_row. f_equal.
  unfold CacheService.select_attachments.
  rewrite <- (transaction_attachments_of now f a msgs d m Hnd Hm).
  rewrite filter_map_comm. reflexivity.
Qed.

(** X3. A written message reads back in its stored form: every message of
    a batch with pairwise distinct uids is returned by every page whose
    window covers its position, with the subject, preview and flags as the
    columns keep them and with the attachment descriptors just written. *)
Theorem written_message_reads_back (d : CacheService.Database) (now : Z)
    (msgs : list EmailMessage) (f a : string) (m : EmailMessage) :
  m ∈ msgs -> NoDup (uids msgs) ->
  let cs' := CacheService.updateMessages now msgs f a (CacheService.mk (Some d)) in
  exists i : nat, forall limit offset,
    (Z.to_nat offset <= i)%nat ->
    limit < 0 \/ (i < Z.to_nat offset + Z.to_nat limit)%nat ->
    CacheService.getCachedMessages cs' f a limit offset !! (i - Z.to_nat offset)%nat
    = Some (stored_message f a m).
Proof. apply written_message_lookup. Qed.

(** ** The pages of a folder *)

Lemma getCachedMessages_rows d f a limit offset :
  CacheService.getCachedMessages (CacheService.mk (Some d)) f a limit offset
  = map (read_row (CacheService.attachments_tbl d) f a)
        (CacheService.limit_offset limit offset (folder_rows (CacheService.messages d) f a)).
Proof. reflexivity. Qed.

Lemma limit_offset_take_drop {A} (limit offset : Z) (l : list A) :
  0 <= limit ->
  CacheService.limit_offset limit offset l
  = take (Z.to_nat limit) (drop (Z.to_nat offset) l).
Proof.
  intros H. unfold CacheService.limit_offset.
  destruct (Z.ltb_spec limit 0); [lia|done].
Qed.

Lemma limit_offset_sublist {A} (limit offset : Z) (l : list A) :
  CacheService.limit_offset limit offset l `sublist_of` l.
Proof.
  unfold CacheService.limit_offset. destruct (limit <? 0).
  - apply sublist_drop.
  - etransitivity; [apply sublist_take | apply sublist_drop].
Qed.

Lemma sorted_drop {A} (key : A -> Z) (n : nat) (l : list A) :
  StronglySorted (JS.desc key) l -> StronglySorted (JS.desc key) (drop n l).
Proof.
  intros H. revert n. induction H as [|x l Hs IH Hall]; intros [|n]; simpl;
    try constructor; auto.
Qed.

Lemma sorted_limit_offset {A} (key : A -> Z) (limit offset : Z) (l : list A) :
  StronglySorted (JS.desc key) l ->
  StronglySorted (JS.desc key) (CacheService.limit_offset limit offset l).
Proof.
  intros H. unfold CacheService.limit_offset. destruct (limit <? 0).
  - by apply sorted_drop.
  - by apply sorted_firstn, sorted_drop.
Qed.

Lemma sorted_map_keys {A B} (key : A -> Z) (key' : B -> Z) (g : A -> B) (l : list A) :
  (forall x, key' (g x) = key x) ->
  StronglySorted (JS.desc key) l -> StronglySorted (JS.desc key') (map g l).
Proof.
  intros Hk. induction 1 as [|x l Hs IH Hall]; simpl; constructor; [done|].
  apply Forall_fmap. eapply Forall_impl; [exact Hall|].
  intros y Hy. unfold JS.desc in *. cbn. by rewrite !Hk.
Qed.

Lemma folder_rows_in_folder M f a :
  Forall (fun r => CacheService.in_folder f a r = true) (folder_rows M f a).
Proof.
  apply Forall_forall. intros r Hr. unfold folder_rows in Hr.
  rewrite sort_desc_perm in Hr. by apply in_filter_iff in Hr as [_ Hr].
Qed.

Lemma cached_count_rows d f a :
  cached_count (CacheService.mk (Some d)) f a
  = Z.of_nat (length (folder_rows (CacheService.messages d) f a)).
Proof. unfold cached_count, folder_rows. cbn. by rewrite sort_desc_length. Qed.

(** X4. A page read from the cache with a limit and an offset (both at least
    zero) holds min(limit, max(0, N - offset)) messages when the folder has N
    cached rows; they are ordered newest first and all carry the folder and
    the account that were asked for; when the keys of the store are unique no
    uid occurs twice in the page. *)
Theorem cached_page_shape (cs : CacheService.t) (f a : string) (limit offset : Z) :
  0 <= limit -> 0 <= offset ->
  let page := CacheService.getCachedMessages cs f a limit offset in
  Z.of_nat (length page) = Z.min limit (Z.max 0 (cached_count cs f a - offset))
  /\ StronglySorted (JS.desc date) page
  /\ Forall (fun m => folder m = f /\ accountId m = a) page
  /\ (forall d, CacheService.db cs = Some d -> unique_keys d -> NoDup (uids page)).
Proof.
  intros Hl Ho. destruct cs as [[d|]]; cbv zeta.
  2:{ cbn. split; [lia|]. split; [constructor|]. split; [constructor|]. done. }
  rewrite getCachedMessages_rows, cached_count_rows.
  set (L := folder_rows (CacheService.messages d) f a).
  split; [|split; [|split]].
  - rewrite length_map, limit_offset_take_drop, length_take, length_drop by done. lia.
  - apply (sorted_map_keys CacheService.row_date); [done|].
    apply sorted_limit_offset. apply sort_desc_sorted.
  - apply Forall_fmap, Forall_forall. intros r Hr.
    eapply elem_of_sublist in Hr; [|apply limit_offset_sublist].
    pose proof (folder_rows_in_folder (CacheService.messages d) f a) as Hall.
    rewrite Forall_forall in Hall. apply Hall in Hr.
    cbn. unfold CacheService.in_folder in Hr.
    apply andb_true_iff in Hr as [Hf Ha]. by apply String.eqb_eq in Hf, Ha.
  - intros d' [= <-] Hu. rewrite uids_read_rows.
    eapply sublist_NoDup; [by apply (folder_rows_uids_NoDup f a)|].
    apply fmap_sublist, limit_offset_sublist.
Qed.

(** X5. Consecutive pages make up the longer page: the page of [l1] messages
    at an offset followed by the page of [l2] messages at [offset + l1] is
    the page of [l1 + l2] messages at the offset. *)
Theorem cached_pages_compose (cs : CacheService.t) (f a : string) (l1 l2 offset : Z) :
  0 <= l1 -> 0 <= l2 -> 0 <= offset ->
  (CacheService.getCachedMessages cs f a l1 offset
   ++ CacheService.getCachedMessages cs f a l2 (offset + l1))%list
  = CacheService.getCachedMessages cs f a (l1 + l2) offset.
Proof.
  intros H1 H2 Ho. destruct cs as [[d|]]; [|done].
  rewrite !getCachedMessages_rows, <- map_app. f_equal.
  rewrite !limit_offset_take_drop by lia.
  rewrite Z2Nat.inj_add by lia. rewrite <- drop_drop.
  rewrite Z2Nat.inj_add by lia. apply take_take_drop.
Qed.

(** ** Clearing *)

Lemma cascade_other_atts fk (deleted : list CacheService.CachedMessage) atts u f a f' a' :
  Forall (fun r => CacheService.in_folder f a r = true) deleted ->
  (f', a') <> (f, a) ->
  List.filter (CacheService.att_of u f' a') (CacheService.cascade fk deleted atts)
  = List.filter (CacheService.att_of u f' a') atts.
Proof.
  intros Hdel Hne. unfold CacheService.cascade. destruct fk; [|done].
  apply filter_filter_same. intros x Hx. apply negb_true_iff.
  unfold CacheService.references_one_of.
  destruct (existsb _ deleted) eqn:He; [|done].
  apply existsb_exists in He as (r & Hr & Hatt).
  rewrite Forall_forall in Hdel. apply list_elem_of_In, Hdel in Hr.
  unfold CacheService.in_folder in Hr. apply andb_true_iff in Hr as [Hf Ha].
  apply String.eqb_eq in Hf, Ha. rewrite Hf, Ha in Hatt.
  destruct Hne. by destruct (att_of_both _ _ _ _ _ _ _ Hatt Hx).
Qed.

Lemma filter_in_folder_all f a (M : list CacheService.CachedMessage) :
  Forall (fun r => CacheService.in_folder f a r = true)
         (List.filter (CacheService.in_folder f a) M).
Proof. apply Forall_forall. intros r Hr. by apply in_filter_iff in Hr as [_ Hr]. Qed.

Lemma limit_offset_nil {A} (limit offset : Z) :
  CacheService.limit_offset limit offset (@nil A) = [].
Proof.
  unfold CacheService.limit_offset. rewrite drop_nil, take_nil. by destruct (limit <? 0).
Qed.

(** X6. After [clearFolder] the folder reads empty and every other folder
    reads as before. *)
Theorem clearFolder_then_read (f a f' a' : string) (cs : CacheService.t) :
  (f', a') <> (f, a) ->
  let cs' := CacheService.clearFolder f a cs in
  (forall limit offset, CacheService.getCachedMessages cs' f a limit offset = [])
  /\ CacheService.getLastSyncTime cs' f a = None
  /\ cached_count cs' f a = 0
  /\ (forall limit offset,
        CacheService.getCachedMessages cs' f' a' limit offset
        = CacheService.getCachedMessages cs f' a' limit offset)
  /\ CacheService.getLastSyncTime cs' f' a' = CacheService.getLastSyncTime cs f' a'
  /\ cached_count cs' f' a' = cached_count cs f' a'.
Proof.
  intros Hne. destruct cs as [[d|]]; [|done]. cbv zeta.
  unfold CacheService.clearFolder. cbn [CacheService.db].
  assert (Hgone : List.filter (CacheService.in_folder f a)
            (List.filter (fun r => negb (CacheService.in_folder f a r))
               (CacheService.messages d)) = []).
  { apply filter_filter_none. intros r Hr. by rewrite Hr. }
  assert (Hkeep : List.filter (CacheService.in_folder f' a')
            (List.filter (fun r => negb (CacheService.in_folder f a r))
               (CacheService.messages d))
          = List.filter (CacheService.in_folder f' a') (CacheService.messages d)).
  { apply filter_filter_same. intros r Hr. apply negb_true_iff.
    destruct (CacheService.in_folder f a r) eqn:Hin; [|done].
    destruct Hne. by eapply in_folder_both. }
  split; [|split; [|split; [|split; [|split]]]].
  - intros limit offset. rewrite getCachedMessages_rows. unfold folder_rows.
    cbn [CacheService.messages]. rewrite Hgone. cbn [JS.sort_desc].
    by rewrite limit_offset_nil.
  - unfold CacheService.getLastSyncTime. cbn [CacheService.db CacheService.messages].
    by rewrite Hgone.
  - unfold cached_count. cbn [CacheService.db CacheService.messages]. by rewrite Hgone.
  - intros limit offset. rewrite !getCachedMessages_rows. unfold folder_rows.
    cbn [CacheService.messages CacheService.attachments_tbl]. rewrite Hkeep.
    apply map_ext. intros r. unfold read_row. f_equal.
    apply (cascade_other_atts _ _ _ _ f a); [apply filter_in_folder_all|done].
  - unfold CacheService.getLastSyncTime. cbn [CacheService.db CacheService.messages].
    by rewrite Hkeep.
  - unfold cached_count. cbn [CacheService.db CacheService.messages]. by rewrite Hkeep.
Qed.

(** X7. After [clearAllCache] every read is empty, and the store is still
    open: the next write is read back. *)
Theorem clearAllCache_then_read (cs : CacheService.t) (d : CacheService.Database)
    (now : Z) (msgs : list EmailMessage) (f a : string) (m : EmailMessage) :
  CacheService.db cs = Some d -> m ∈ msgs -> NoDup (uids msgs) ->
  let cs' := CacheService.clearAllCache cs in
  (forall f' a' limit offset, CacheService.getCachedMessages cs' f' a' limit offset = [])
  /\ (forall f' a', CacheService.getFolderMetadata cs' f' a' = None)
  /\ (forall f' a', CacheService.getLastSyncTime cs' f' a' = None)
  /\ CacheService.getCacheStats cs' = (0, None)
  /\ exists i : nat, forall limit offset,
       (Z.to_nat offset <= i)%nat ->
       limit < 0 \/ (i < Z.to_nat offset + Z.to_nat limit)%nat ->
       CacheService.getCachedMessages
         (CacheService.updateMessages now msgs f a cs') f a limit offset
         !! (i - Z.to_nat offset)%nat
       = Some (stored_message f a m).
Proof.
  intros Hd Hm Hnd. destruct cs as [[d0|]]; [|done]. cbv zeta.
  unfold CacheService.clearAllCache. cbn [CacheService.db].
  split; [|split; [|split; [|split]]]; try done.
  - intros f' a' limit offset. rewrite getCachedMessages_rows. unfold folder_rows.
    cbn [CacheService.messages List.filter JS.sort_desc]. by rewrite limit_offset_nil.
  - by apply written_message_lookup.
Qed.

(** ** The time of the last synchronisation *)

Lemma fold_max_ge (x : Z) (l : list Z) (y : Z) :
  y ∈ x :: l -> y <= fold_right Z.max x l.
Proof.
  induction l as [|z l IH]; intros Hy; cbn.
  - apply list_elem_of_singleton in Hy. lia.
  - apply elem_of_cons in Hy as [->|Hy].
    + assert (x <= fold_right Z.max x l) by (apply IH, elem_of_cons; by left). lia.
    + apply elem_of_cons in Hy as [->|Hy]; [lia|].
      assert (y <= fold_right Z.max x l) by (apply IH, elem_of_cons; by right). lia.
Qed.

Lemma fold_max_le (now x : Z) (l : list Z) :
  Forall (fun y => y <= now) (x :: l) -> fold_right Z.max x l <= now.
Proof.
  intros Hall. apply Forall_cons in Hall as [Hx Hall].
  induction Hall as [|z l Hz Hall' IH]; cbn; lia.
Qed.

Lemma fold_max_top (now x : Z) (l : list Z) :
  Forall (fun y => y <= now) (x :: l) -> now ∈ x :: l -> fold_right Z.max x l = now.
Proof.
  intros Hall Hin. pose proof (fold_max_le now x l Hall).
  pose proof (fold_max_ge x l now Hin). lia.
Qed.

Lemma written_row_same_folder rid now f a m :
  CacheService.in_folder f a (written_row rid now f a m) = true.
Proof. unfold CacheService.in_folder, written_row. cbn. by rewrite !String.eqb_refl. Qed.

Lemma transaction_last_fetched now f a msgs d :
  Forall (fun r => CacheService.in_folder f a r = true -> CacheService.row_last_fetched r <= now)
         (CacheService.messages d) ->
  Forall (fun r => CacheService.in_folder f a r = true -> CacheService.row_last_fetched r <= now)
         (CacheService.messages (CacheService.transaction now f a msgs d)).
Proof.
  unfold CacheService.transaction. revert d.
  induction msgs as [|m msgs IH]; intros d Hall; simpl; [done|].
  apply IH. rewrite messages_upsert_one. apply Forall_app. split.
  - apply Forall_forall. intros r Hr. apply in_filter_iff in Hr as [Hr _].
    rewrite Forall_forall in Hall. by apply Hall.
  - constructor; [|constructor]. intros _. cbn. lia.
Qed.

Lemma max_last_fetched (l : list Z) (now : Z) :
  Forall (fun y => y <= now) l -> now ∈ l -> 0 < now ->
  match l with
  | [] => None
  | x :: l' => let m := fold_right Z.max x l' in if m =? 0 then None else Some m
  end = Some now.
Proof.
  intros Hall Hin Hnow. destruct l as [|x l']; [by apply elem_of_nil in Hin|].
  cbv zeta. rewrite (fold_max_top now x l' Hall Hin).
  destruct (Z.eqb_spec now 0); [lia|done].
Qed.

(** X8. The last synchronisation time of a folder is the time of the newest
    write to it: after [updateMessages] wrote a non-empty batch at a time
    [now > 0] to a folder none of whose rows was fetched after [now],
    [getLastSyncTime] returns [now]. *)
Theorem last_sync_is_newest_write (now : Z) (msgs : list EmailMessage) (f a : string)
    (d : CacheService.Database) :
  msgs <> [] -> 0 < now ->
  Forall (fun r => CacheService.in_folder f a r = true -> CacheService.row_last_fetched r <= now)
         (CacheService.messages d) ->
  CacheService.getLastSyncTime
    (CacheService.updateMessages now msgs f a (CacheService.mk (Some d))) f a
  = Some now.
Proof.
  intros Hne Hnow Hold.
  unfold CacheService.getLastSyncTime, CacheService.updateMessages. cbn [CacheService.db].
  pose proof (transaction_last_fetched now f a msgs d Hold) as Hall.
  apply max_last_fetched; [| |done].
  - apply Forall_fmap, Forall_forall. intros r Hr.
    apply in_filter_iff in Hr as [Hr Hin].
    rewrite Forall_forall in Hall. by apply Hall.
  - destruct (exists_last Hne) as (msgs' & m & ->).
    unfold CacheService.transaction. rewrite fold_left_app. cbn [fold_left].
    rewrite messages_upsert_one, List.filter_app, map_app. cbn [List.filter].
    rewrite written_row_same_folder. apply elem_of_app. right.
    apply list_elem_of_singleton. reflexivity.
Qed.

(** ** The constraints of the schema *)

Lemma NoDup_map_filter {A B} (g : A -> B) (p : A -> bool) (l : list A) :
  NoDup (map g l) -> NoDup (map g (List.filter p l)).
Proof.
  induction l as [|x l IH]; simpl; [done|].
  intros Hnd. apply NoDup_cons in Hnd as [Hx Hnd].
  destruct (p x); simpl; [|by apply IH].
  apply NoDup_cons. split; [|by apply IH].
  intros Hin. apply Hx. apply list_elem_of_fmap in Hin as (y & -> & Hy).
  apply in_filter_iff in Hy as [Hy _]. apply list_elem_of_fmap. by exists y.
Qed.

Lemma NoDup_map_snoc {A B} (g : A -> B) (l : list A) (x : A) :
  NoDup (map g l) -> g x ∉ map g l -> NoDup (map g (l ++ [x])).
Proof.
  intros Hnd Hx. rewrite map_app. apply NoDup_app. split; [done|]. split.
  - intros y Hy Hy'. apply list_elem_of_singleton in Hy'. by subst.
  - apply NoDup_singleton.
Qed.

Lemma next_rowid_above {A} (rid : A -> Z) (rows : list A) (seq : Z) (r : A) :
  r ∈ rows -> rid r < CacheService.next_rowid rid rows seq.
Proof.
  unfold CacheService.next_rowid. induction rows as [|x rows IH]; intros Hr.
  - by apply elem_of_nil in Hr.
  - cbn. apply elem_of_cons in Hr as [->|Hr]; [lia|]. specialize (IH Hr). lia.
Qed.

Lemma next_rowid_fresh {A} (rid : A -> Z) (rows : list A) (seq : Z) :
  CacheService.next_rowid rid rows seq ∉ map rid rows.
Proof.
  intros Hin. apply list_elem_of_fmap in Hin as (r & Heq & Hr).
  pose proof (next_rowid_above rid rows seq r Hr). lia.
Qed.

Lemma has_key_row_key u f a r :
  CacheService.has_key u f a r = true <-> row_key r = (u, f, a).
Proof.
  unfold CacheService.has_key, CacheService.in_folder, row_key.
  rewrite !andb_true_iff, !String.eqb_eq, Z.eqb_eq. split.
  - intros (-> & -> & ->). done.
  - intros [= -> -> ->]. done.
Qed.

Lemma unique_keys_upsert now f a d msg :
  unique_keys d -> unique_keys (CacheService.upsert_one now f a d msg).
Proof.
  unfold unique_keys. intros Hu. rewrite messages_upsert_one.
  apply (NoDup_map_snoc row_key).
  - by apply (NoDup_map_filter row_key).
  - intros Hin. apply list_elem_of_fmap in Hin as (r & Heq & Hr).
    apply in_filter_iff in Hr as [_ Hr]. apply negb_true_iff in Hr.
    assert (CacheService.has_key (uid msg) f a r = true); [|congruence].
    apply has_key_row_key. rewrite <- Heq. reflexivity.
Qed.

Lemma rowids_upsert now f a d msg :
  NoDup (map CacheService.row_id (CacheService.messages d)) ->
  NoDup (map CacheService.row_id
           (CacheService.messages (CacheService.upsert_one now f a d msg))).
Proof.
  intros Hu. rewrite messages_upsert_one.
  apply (NoDup_map_snoc CacheService.row_id).
  - by apply NoDup_map_filter.
  - intros Hin. apply list_elem_of_fmap in Hin as (r & Heq & Hr).
    apply in_filter_iff in Hr as [Hr _].
    pose proof (next_rowid_above CacheService.row_id _ (CacheService.messages_seq d) r Hr).
    cbn in Heq. lia.
Qed.

Lemma arowids_insert_fold u f a (l : list Attachment) d :
  NoDup (map CacheService.arow_id (CacheService.attachments_tbl d)) ->
  NoDup (map CacheService.arow_id (CacheService.attachments_tbl
    (fold_left (fun d' att => CacheService.insert_attachment u f a att d') l d))).
Proof.
  revert d. induction l as [|x l IH]; intros d Hnd; simpl; [done|].
  apply IH. cbn [CacheService.insert_attachment CacheService.attachments_tbl].
  apply (NoDup_map_snoc CacheService.arow_id); [done|]. cbn.
  apply next_rowid_fresh.
Qed.

Lemma arowids_upsert now f a d msg :
  NoDup (map CacheService.arow_id (CacheService.attachments_tbl d)) ->
  NoDup (map CacheService.arow_id
           (CacheService.attachments_tbl (CacheService.upsert_one now f a d msg))).
Proof.
  intros Hnd. unfold CacheService.upsert_one.
  assert (Hd2 : NoDup (map CacheService.arow_id (CacheService.attachments_tbl
            (CacheService.delete_attachments (uid msg) f a
               (CacheService.insert_or_replace_message now f a msg d))))).
  { cbn [CacheService.delete_attachments CacheService.insert_or_replace_message
         CacheService.attachments_tbl].
    apply NoDup_map_filter. unfold CacheService.cascade.
    destruct (CacheService.foreign_keys d); [by apply NoDup_map_filter|done]. }
  destruct (attachments msg) as [[|x l]|]; [done| |done].
  by apply arowids_insert_fold.
Qed.

Lemma folder_ids_snoc (F : list CacheService.CachedFolder) (k : string)
    (row : CacheService.CachedFolder) :
  CacheService.frow_id row = k ->
  NoDup (map CacheService.frow_id F) ->
  NoDup (map CacheService.frow_id
           (List.filter (fun r => negb (String.eqb (CacheService.frow_id r) k)) F ++ [row])).
Proof.
  intros Hk Hnd. apply (NoDup_map_snoc CacheService.frow_id).
  - by apply NoDup_map_filter.
  - intros Hin. apply list_elem_of_fmap in Hin as (r & Heq & Hr).
    apply in_filter_iff in Hr as [_ Hr]. apply negb_true_iff, String.eqb_neq in Hr.
    congruence.
Qed.

Lemma keys_unique_transaction now f a msgs d :
  keys_unique d -> keys_unique (CacheService.transaction now f a msgs d).
Proof.
  unfold CacheService.transaction. revert d.
  induction msgs as [|m msgs IH]; intros d Hk; simpl; [done|].
  apply IH. destruct Hk as (H1 & H2 & H3 & H4).
  split; [by apply unique_keys_upsert|].
  split; [by rewrite folders_upsert_one|].
  split; [by apply rowids_upsert | by apply arowids_upsert].
Qed.

Lemma cascade_sub fk deleted atts x :
  x ∈ CacheService.cascade fk deleted atts -> x ∈ atts.
Proof.
  unfold CacheService.cascade. destruct fk; [|done].
  intros Hx. by apply in_filter_iff in Hx as [Hx _].
Qed.

Lemma keys_unique_op (cs : CacheService.t) (op : StoreOp) (d d' : CacheService.Database) :
  CacheService.db cs = Some d -> CacheService.db (apply_op cs op) = Some d' ->
  keys_unique d -> keys_unique d'.
Proof.
  destruct cs as [[d0|]]; [|done]. intros [= ->] Hd' Hk.
  destruct op as [now msgs f a|now f a t u|u f a fl|f a| |]; cbn in Hd'.
  - injection Hd' as <-. by apply keys_unique_transaction.
  - injection Hd' as <-. destruct Hk as (H1 & H2 & H3 & H4).
    split; [|split; [|split]]; try done.
    by apply folder_ids_snoc.
  - injection Hd' as <-. destruct Hk as (H1 & H2 & H3 & H4).
    split; [|split; [|split]]; try done.
    + unfold unique_keys. cbn [CacheService.messages]. rewrite map_map.
      erewrite map_ext; [exact H1|]. intros r. cbn.
      match goal with |- context [if ?c then _ else _] => by destruct c end.
    + cbn [CacheService.messages]. rewrite map_map.
      erewrite map_ext; [exact H3|]. intros r. cbn.
      match goal with |- context [if ?c then _ else _] => by destruct c end.
  - injection Hd' as <-. destruct Hk as (H1 & H2 & H3 & H4).
    split; [|split; [|split]]; try done.
    + by apply (NoDup_map_filter row_key).
    + by apply NoDup_map_filter.
    + cbn [CacheService.attachments_tbl]. unfold CacheService.cascade.
      destruct (CacheService.foreign_keys d); [by apply NoDup_map_filter|done].
  - injection Hd' as <-. destruct Hk as (H1 & H2 & H3 & H4).
    split; [|split; [|split]]; try (cbn; by constructor).
    cbn [CacheService.attachments_tbl]. unfold CacheService.cascade.
    destruct (CacheService.foreign_keys d); [by apply NoDup_map_filter|done].
  - done.
Qed.

Lemma run_ops_cons op ops cs : run_ops (op :: ops) cs = run_ops ops (apply_op cs op).
Proof. reflexivity. Qed.

Lemma run_ops_closed ops : run_ops ops (CacheService.mk None) = CacheService.mk None.
Proof.
  induction ops as [|op ops IH]; [done|]. rewrite run_ops_cons.
  replace (apply_op (CacheService.mk None) op) with (CacheService.mk None); [done|].
  by destruct op.
Qed.

Lemma keys_unique_run ops d d' :
  CacheService.db (run_ops ops (CacheService.mk (Some d))) = Some d' ->
  keys_unique d -> keys_unique d'.
Proof.
  revert d. induction ops as [|op ops IH]; intros d Hd' Hk.
  - by injection Hd' as <-.
  - rewrite run_ops_cons in Hd'.
    destruct (apply_op (CacheService.mk (Some d)) op) as [[d1|]] eqn:Hop.
    + apply (IH d1 Hd').
      apply (keys_unique_op (CacheService.mk (Some d)) op d d1); [done|by rewrite Hop|exact Hk].
    + by rewrite (run_ops_closed ops) in Hd'.
Qed.

(** X9. The uniqueness constraints hold in every store the service can
    reach from a fresh database by its mutators: no two message rows share
    (uid, folder, account), no two folder rows share an id, and the row ids
    of messages and of attachments are pairwise distinct. *)
Theorem store_keys_stay_unique (fk : bool) (ops : list StoreOp) (d : CacheService.Database) :
  CacheService.db
    (run_ops ops (CacheService.initializeDatabase (Some (CacheService.createTables fk))))
  = Some d ->
  unique_keys d
  /\ NoDup (map CacheService.frow_id (CacheService.folders d))
  /\ NoDup (map CacheService.row_id (CacheService.messages d))
  /\ NoDup (map CacheService.arow_id (CacheService.attachments_tbl d)).
Proof.
  intros Hd. eapply keys_unique_run; [exact Hd|].
  repeat split; cbn; constructor.
Qed.

(** ** Attachment rows and their messages *)

Lemma has_parent_iff rows x :
  has_parent rows x = true <->
  exists r, r ∈ rows /\ CacheService.att_of (CacheService.row_uid r)
                          (CacheService.row_folder_id r) (CacheService.row_account_id r) x = true.
Proof.
  unfold has_parent. rewrite existsb_exists. split.
  - intros (r & Hr & H). exists r. by rewrite list_elem_of_In.
  - intros (r & Hr & H). exists r. by rewrite <- list_elem_of_In.
Qed.

Lemma att_of_row_key r x u f a :
  CacheService.att_of (CacheService.row_uid r) (CacheService.row_folder_id r)
    (CacheService.row_account_id r) x = true ->
  CacheService.has_key u f a r = CacheService.att_of u f a x.
Proof.
  unfold CacheService.att_of, CacheService.has_key, CacheService.in_folder.
  rewrite !andb_true_iff, !String.eqb_eq, Z.eqb_eq. intros [[-> ->] ->].
  by rewrite andb_assoc.
Qed.

Lemma insert_fold_elem u f a (l : list Attachment) d x :
  x ∈ CacheService.attachments_tbl
        (fold_left (fun d' att => CacheService.insert_attachment u f a att d') l d) ->
  x ∈ CacheService.attachments_tbl d \/ CacheService.att_of u f a x = true.
Proof.
  revert d. induction l as [|y l IH]; intros d Hx; simpl in Hx; [by left|].
  apply IH in Hx as [Hx|Hx]; [|by right].
  cbn [CacheService.insert_attachment CacheService.attachments_tbl] in Hx.
  apply elem_of_app in Hx as [Hx|Hx]; [by left|]. right.
  apply list_elem_of_singleton in Hx. subst x.
  unfold CacheService.att_of. cbn. by rewrite Z.eqb_refl, !String.eqb_refl.
Qed.

Lemma upsert_att_elem now f a d msg x :
  x ∈ CacheService.attachments_tbl (CacheService.upsert_one now f a d msg) ->
  (x ∈ CacheService.attachments_tbl d /\ CacheService.att_of (uid msg) f a x = false)
  \/ CacheService.att_of (uid msg) f a x = true.
Proof.
  intros Hx. unfold CacheService.upsert_one in Hx.
  assert (Hd2 : forall y,
    y ∈ CacheService.attachments_tbl
          (CacheService.delete_attachments (uid msg) f a
             (CacheService.insert_or_replace_message now f a msg d)) ->
    y ∈ CacheService.attachments_tbl d /\ CacheService.att_of (uid msg) f a y = false).
  { intros y Hy.
    cbn [CacheService.delete_attachments CacheService.insert_or_replace_message
         CacheService.attachments_tbl] in Hy.
    apply in_filter_iff in Hy as [Hy Hk]. apply negb_true_iff in Hk.
    split; [by eapply cascade_sub|done]. }
  destruct (attachments msg) as [[|y l]|]; [by left; apply Hd2| |by left; apply Hd2].
  apply insert_fold_elem in Hx as [Hx|Hx]; [left; by apply Hd2|by right].
Qed.

Lemma no_orphans_upsert now f a d msg :
  no_orphans d -> no_orphans (CacheService.upsert_one now f a d msg).
Proof.
  unfold no_orphans. intros Hno. apply Forall_forall. intros x Hx.
  apply has_parent_iff. rewrite messages_upsert_one.
  apply upsert_att_elem in Hx as [[Hx Hk]|Hk].
  - rewrite Forall_forall in Hno. apply Hno, has_parent_iff in Hx as (r & Hr & Hatt).
    exists r. split; [|done]. apply elem_of_app. left.
    apply in_filter_iff. split; [done|]. apply negb_true_iff.
    by rewrite (att_of_row_key r x (uid msg) f a Hatt).
  - eexists. split; [apply elem_of_app; right; by apply list_elem_of_singleton|].
    exact Hk.
Qed.

Lemma no_orphans_transaction now f a msgs d :
  no_orphans d -> no_orphans (CacheService.transaction now f a msgs d).
Proof.
  unfold CacheService.transaction. revert d.
  induction msgs as [|m msgs IH]; intros d Hno; simpl; [done|].
  by apply IH, no_orphans_upsert.
Qed.

Lemma foreign_keys_upsert now f a d msg :
  CacheService.foreign_keys (CacheService.upsert_one now f a d msg)
  = CacheService.foreign_keys d.
Proof.
  unfold CacheService.upsert_one.
  assert (H : forall (l : list Attachment) d0,
    CacheService.foreign_keys
      (fold_left (fun d' att => CacheService.insert_attachment (uid msg) f a att d') l d0)
    = CacheService.foreign_keys d0).
  { induction l as [|y l IH]; intros d0; simpl; [done|]. by rewrite IH. }
  destruct (attachments msg) as [[|y l]|]; rewrite ?H; done.
Qed.

Lemma foreign_keys_transaction now f a msgs d :
  CacheService.foreign_keys (CacheService.transaction now f a msgs d)
  = CacheService.foreign_keys d.
Proof.
  unfold CacheService.transaction. revert d.
  induction msgs as [|m msgs IH]; intros d; simpl; [done|].
  by rewrite IH, foreign_keys_upsert.
Qed.

Lemma cascade_parent deleted atts x r :
  x ∈ CacheService.cascade true deleted atts ->
  CacheService.att_of (CacheService.row_uid r) (CacheService.row_folder_id r)
    (CacheService.row_account_id r) x = true ->
  r ∉ deleted.
Proof.
  intros Hx Hatt Hr. cbn in Hx. apply in_filter_iff in Hx as [_ Hx].
  apply negb_true_iff in Hx.
  assert (CacheService.references_one_of deleted x = true); [|congruence].
  apply existsb_exists. exists r. by rewrite <- list_elem_of_In.
Qed.

Lemma no_orphans_op (cs : CacheService.t) (op : StoreOp) (d d' : CacheService.Database) :
  CacheService.db cs = Some d -> CacheService.db (apply_op cs op) = Some d' ->
  CacheService.foreign_keys d = true ->
  no_orphans d -> no_orphans d' /\ CacheService.foreign_keys d' = true.
Proof.
  destruct cs as [[d0|]]; [|done]. intros [= ->] Hd' Hfk Hno.
  destruct op as [now msgs f a|now f a t u|u f a fl|f a| |]; cbn in Hd';
    try (injection Hd' as <-).
  - split; [by apply no_orphans_transaction|by rewrite foreign_keys_transaction].
  - done.
  - split; [|done]. unfold no_orphans in *. cbn [CacheService.messages CacheService.attachments_tbl].
    eapply Forall_impl; [exact Hno|]. intros x Hx.
    apply has_parent_iff in Hx as (r & Hr & Hatt). apply has_parent_iff.
    eexists. split; [apply list_elem_of_fmap; exists r; split; [reflexivity|exact Hr]|].
    cbn. match goal with |- context [if ?c then _ else _] => by destruct c end.
  - split; [|done]. unfold no_orphans in *.
    cbn [CacheService.messages CacheService.attachments_tbl]. rewrite Hfk.
    apply Forall_forall. intros x Hx.
    rewrite Forall_forall in Hno.
    pose proof (cascade_sub _ _ _ _ Hx) as Hx0.
    apply Hno, has_parent_iff in Hx0 as (r & Hr & Hatt).
    apply has_parent_iff. exists r. split; [|done].
    apply in_filter_iff. split; [done|]. apply negb_true_iff.
    destruct (CacheService.in_folder f a r) eqn:Hin; [|done].
    destruct (cascade_parent _ _ _ r Hx Hatt). by apply in_filter_iff.
  - split; [|done]. unfold no_orphans in *.
    cbn [CacheService.messages CacheService.attachments_tbl]. rewrite Hfk.
    apply Forall_forall. intros x Hx.
    rewrite Forall_forall in Hno.
    pose proof (cascade_sub _ _ _ _ Hx) as Hx0.
    apply Hno, has_parent_iff in Hx0 as (r & Hr & Hatt).
    by destruct (cascade_parent _ _ _ r Hx Hatt).
  - done.
Qed.

Lemma no_orphans_run ops d d' :
  CacheService.db (run_ops ops (CacheService.mk (Some d))) = Some d' ->
  CacheService.foreign_keys d = true -> no_orphans d -> no_orphans d'.
Proof.
  revert d. induction ops as [|op ops IH]; intros d Hd' Hfk Hno.
  - by injection Hd' as <-.
  - rewrite run_ops_cons in Hd'.
    destruct (apply_op (CacheService.mk (Some d)) op) as [[d1|]] eqn:Hop.
    + destruct (no_orphans_op (CacheService.mk (Some d)) op d d1) as [Hno1 Hfk1];
        [done|by rewrite Hop|done|done|].
      by apply (IH d1 Hd').
    + by rewrite (run_ops_closed ops) in Hd'.
Qed.

(** X10. With foreign keys enforced no attachment row is ever left without
    its message row. *)
Theorem foreign_keys_leave_no_orphans (ops : list StoreOp) (d : CacheService.Database) :
  CacheService.db
    (run_ops ops (CacheService.initializeDatabase (Some (CacheService.createTables true))))
  = Some d ->
  Forall (fun x => has_parent (CacheService.messages d) x = true)
         (CacheService.attachments_tbl d).
Proof.
  intros Hd. eapply no_orphans_run; [exact Hd|done|]. constructor.
Qed.

(** ** Further properties of the page load *)

(** X11. [loadMessages] never raises: whatever the props, the environment and
    the state, the promise of a page load resolves; a failure of the cache
    or of the server ends in the state of the component. *)
Theorem loadMessages_never_raises (p : MessageList.Props) (env : Env)
    (st : MessageList.State) :
  fst (MessageList.loadMessages p env st) = Ok tt.
Proof.
  unfold MessageList.loadMessages.
  destruct (MessageList.p_account p) as [[|c account']|]; [done| |done].
  destruct (MessageList.p_folder p) as [|c' folder']; [done|].
  unfold MessageList.initialAutoRefresh. run_step.
  destruct (_ && _ && _ && _); run_step.
  - destruct (find_account _ _) as [ea|]; run_step.
    + destruct (CacheService.getLastSyncTime _ _ _) as [t|]; run_step.
      * destruct ((_ <? _) && _); run_step.
        all: destruct (MessageList.loadFromCache _ _ _ _ _) as [[[]|e] s']; run_step;
          try reflexivity; apply loadRemote_no_raise.
      * destruct (negb _); run_step.
        all: destruct (MessageList.loadFromCache _ _ _ _ _) as [[[]|e] s']; run_step;
          try reflexivity; apply loadRemote_no_raise.
    + destruct (MessageList.loadFromCache _ _ _ _ _) as [[[]|e] s']; run_step;
        try reflexivity; apply loadRemote_no_raise.
  - destruct (MessageList.loadFromCache _ _ _ _ _) as [[[]|e] s']; run_step;
      try reflexivity; apply loadRemote_no_raise.
Qed.

Lemma db_updateMessages now msgs f a cs :
  CacheService.db (CacheService.updateMessages now msgs f a cs)
  = match CacheService.db cs with
    | None => None
    | Some d => Some (CacheService.transaction now f a msgs d)
    end.
Proof. by destruct cs as [[d|]]. Qed.

(** X12. A failed fetch ends the page load in the error state: when the folder
    status reports messages and the fetch of the page window fails, the load
    returns normally with the error of the fetch as the error shown, an empty
    list, the loading and page-change flags cleared, the total of the status,
    and the store as it was; the listing, the status and the fetch are the
    only operations issued. *)
Theorem fetch_failure_is_error_state
    (p : MessageList.Props) (env : Env) (st0 st : MessageList.State)
    (account : string) (ea : EmailAccount) (folders : list string)
    (total unseen : Z) (e : string) :
  let pageSize := MessageList.p_messagesPerPage p in
  let page := MessageList.st_currentPage st0 in
  let actual := MessageList.actualFolderName folders (MessageList.p_folder p) in
  let endSeq := MessageList.endSeq total page pageSize in
  let startSeq := MessageList.startSeq endSeq pageSize in
  find_account (MessageList.p_emailAccounts p) account = Some ea ->
  EmailService.getFolders (emailService env) (acc_id ea) = Ok folders ->
  EmailService.getFolderStatus (emailService env) (acc_id ea) actual = Ok (total, unseen) ->
  total <> 0 -> 1 <= pageSize ->
  EmailService.getMessages (emailService env) (acc_id ea) actual pageSize startSeq endSeq
  = Err e ->
  let r := MessageList.loadRemote p env st0 account st in
  fst r = Ok tt
  /\ MessageList.st_error (snd r) = Some e
  /\ MessageList.st_messages (snd r) = []
  /\ MessageList.st_loading (snd r) = false
  /\ MessageList.st_isChangingPage (snd r) = false
  /\ MessageList.st_isFromCache (snd r) = false
  /\ MessageList.st_totalMessages (snd r) = total
  /\ store (MessageList.st_world (snd r)) = store (MessageList.st_world st)
  /\ log (MessageList.st_world (snd r))
     = (log (MessageList.st_world st)
        ++ [EvFolders (acc_id ea); EvStatus (acc_id ea) actual;
            EvFetch (acc_id ea) actual pageSize startSeq endSeq])%list.
Proof.
  intros pageSize page actual endSeq startSeq Hacc Hf Hst Ht Hps Hm r.
  subst r. unfold MessageList.loadRemote, MessageList.loadFromImap, MessageList.find_or_throw.
  rewrite Hacc.
  pose proof (window_in_order total page pageSize Hps) as Hwin. cbv zeta in Hwin.
  fold endSeq in Hwin. fold startSeq in Hwin.
  subst pageSize page actual.
  run_step. rewrite Hf. run_step. rewrite Hst. run_step.
  destruct (Z.eqb_spec total 0) as [|_]; [done|].
  fold endSeq. fold startSeq.
  destruct (Z.ltb_spec endSeq startSeq) as [|_]; [lia|].
  rewrite Hm. run_step.
  repeat split; by rewrite <- ?app_assoc.
Qed.


(** X14. An empty remote folder is shown empty without a fetch: when the status
    reports a total of zero the load shows no message and a total of zero,
    issues nothing after the status request and leaves the store as it was. *)
Theorem empty_folder_is_not_fetched
    (p : MessageList.Props) (env : Env) (st0 st : MessageList.State)
    (account : string) (ea : EmailAccount) (folders : list string) (unseen : Z) :
  let actual := MessageList.actualFolderName folders (MessageList.p_folder p) in
  find_account (MessageList.p_emailAccounts p) account = Some ea ->
  EmailService.getFolders (emailService env) (acc_id ea) = Ok folders ->
  EmailService.getFolderStatus (emailService env) (acc_id ea) actual = Ok (0, unseen) ->
  let r := MessageList.loadRemote p env st0 account st in
  fst r = Ok tt
  /\ MessageList.st_error (snd r) = None
  /\ MessageList.st_messages (snd r) = []
  /\ MessageList.st_totalMessages (snd r) = 0
  /\ MessageList.st_loading (snd r) = false
  /\ store (MessageList.st_world (snd r)) = store (MessageList.st_world st)
  /\ log (MessageList.st_world (snd r))
     = (log (MessageList.st_world st)
        ++ [EvFolders (acc_id ea); EvStatus (acc_id ea) actual])%list.
Proof.
  intros actual Hacc Hf Hst r.
  subst r. unfold MessageList.loadRemote, MessageList.loadFromImap, MessageList.find_or_throw.
  rewrite Hacc. subst actual.
  run_step. rewrite Hf. run_step. rewrite Hst. run_step.
  repeat split; by rewrite <- ?app_assoc.
Qed.

(** ** The cache-first part of the page load *)

Ltac log_only :=
  eexists; rewrite <- ?app_assoc; split; [reflexivity|]; by repeat constructor.

Lemma loadMessages_main (p : MessageList.Props) (env : Env) (st : MessageList.State)
    (c : ascii) (account' : string) :
  MessageList.p_account p = Some (String c account') ->
  MessageList.p_folder p <> "" ->
  MessageList.loadMessages p env st
  = (let* st0 := get_state in
     let* _ := MessageList.initialAutoRefresh p env st0 (String c account') in
     let* served := try_catch (MessageList.loadFromCache p env st0 (String c account'))
                      (fun _ => ret false) in
     if served then ret tt else MessageList.loadRemote p env st0 (String c account')) st.
Proof.
  intros Hacc Hfolder. unfold MessageList.loadMessages. rewrite Hacc.
  by destruct (MessageList.p_folder p).
Qed.

(** X15. A complete cached page is served from the cache: when the folder
    metadata gives a positive total and the cached page is full or is the
    last page, the load shows the cached page with that total and the time of
    the last synchronisation, and issues only cache reads, the folder listing
    and possibly a refresh request: no status request, no fetch and no write
    to the store. *)
Theorem cached_page_is_served
    (p : MessageList.Props) (env : Env) (st : MessageList.State)
    (c : ascii) (account' : string) (ea : EmailAccount) (folders : list string)
    (total unread : Z) :
  let account := String c account' in
  let pageSize := MessageList.p_messagesPerPage p in
  let page := MessageList.st_currentPage st in
  let cs := store (MessageList.st_world st) in
  let cached := CacheService.getCachedMessages cs (MessageList.p_folder p) (acc_id ea)
                  pageSize ((page - 1) * pageSize) in
  let actual := MessageList.actualFolderName folders (MessageList.p_folder p) in
  MessageList.p_account p = Some account ->
  MessageList.p_folder p <> "" ->
  find_account (MessageList.p_emailAccounts p) account = Some ea ->
  cached <> [] ->
  EmailService.getFolders (emailService env) (acc_id ea) = Ok folders ->
  CacheService.getFolderMetadata cs actual (acc_id ea) = Some (total, unread) ->
  0 < total ->
  MessageList.ceil_div total pageSize <= page \/ pageSize <= Z.of_nat (length cached) ->
  let r := MessageList.loadMessages p env st in
  fst r = Ok tt
  /\ MessageList.st_messages (snd r) = cached
  /\ MessageList.st_isFromCache (snd r) = true
  /\ MessageList.st_totalMessages (snd r) = total
  /\ MessageList.st_lastSyncTime (snd r)
     = CacheService.getLastSyncTime cs (MessageList.p_folder p) (acc_id ea)
  /\ MessageList.st_loading (snd r) = MessageList.st_loading st
  /\ MessageList.st_error (snd r) = MessageList.st_error st
  /\ store (MessageList.st_world (snd r)) = cs
  /\ exists evs, log (MessageList.st_world (snd r)) = (log (MessageList.st_world st) ++ evs)%list
                 /\ Forall cache_only evs.
Proof.
  intros account pageSize page cs cached actual Hacc Hfolder Hfind Hne Hf Hmeta Ht Hfull r.
  subst r. rewrite (loadMessages_main p env st c account' Hacc Hfolder).
  fold account.
  unfold MessageList.initialAutoRefresh, MessageList.loadFromCache, MessageList.find_or_throw.
  rewrite Hfind.
  assert (Hlast : negb (MessageList.ceil_div total pageSize <=? page)
                  && (Z.of_nat (length cached) <? pageSize) = false).
  { destruct Hfull.
    - destruct (Z.leb_spec (MessageList.ceil_div total pageSize) page); [done|lia].
    - destruct (Z.ltb_spec (Z.of_nat (length cached)) pageSize); [lia|].
      by rewrite andb_false_r. }
  assert (Hpos : (0 <? total) = true) by (apply Z.ltb_lt; lia).
  subst account pageSize page cs actual.
  destruct (MessageList.p_isRefreshing p) eqn:Hrefr.
  all: run_step.
  all: destruct (_ && _ && _ && _); run_step.
  all: try (destruct (CacheService.getLastSyncTime _ _ _) as [t|] eqn:Hsync; run_step).
  all: try (destruct (_ * 60 * 1000 <? _); run_step).
  all: fold cached; destruct cached as [|m ms] eqn:Hc; [done|]; run_step.
  all: rewrite Hf; run_step; rewrite Hmeta, Hpos; run_step.
  all: rewrite Hlast; run_step.
  all: rewrite ?Hsync; repeat split; try done; log_only.
Qed.

(** X16. A cached page that is short although the metadata total says it
    is not the last one is shown first, and the load then goes on with the
    remote part from the state that shows it; the page no longer counts as
    coming from the cache. *)
Theorem short_cached_page_goes_remote
    (p : MessageList.Props) (env : Env) (st : MessageList.State)
    (c : ascii) (account' : string) (ea : EmailAccount) (folders : list string)
    (total unread : Z) :
  let account := String c account' in
  let pageSize := MessageList.p_messagesPerPage p in
  let page := MessageList.st_currentPage st in
  let cs := store (MessageList.st_world st) in
  let cached := CacheService.getCachedMessages cs (MessageList.p_folder p) (acc_id ea)
                  pageSize ((page - 1) * pageSize) in
  let actual := MessageList.actualFolderName folders (MessageList.p_folder p) in
  MessageList.p_account p = Some account ->
  MessageList.p_folder p <> "" ->
  find_account (MessageList.p_emailAccounts p) account = Some ea ->
  cached <> [] ->
  EmailService.getFolders (emailService env) (acc_id ea) = Ok folders ->
  CacheService.getFolderMetadata cs actual (acc_id ea) = Some (total, unread) ->
  0 < total ->
  page < MessageList.ceil_div total pageSize ->
  Z.of_nat (length cached) < pageSize ->
  let r := MessageList.loadMessages p env st in
  fst r = Ok tt
  /\ MessageList.st_isFromCache (snd r) = false
  /\ exists st1,
       r = MessageList.loadRemote p env st account st1
       /\ MessageList.st_messages st1 = cached
       /\ MessageList.st_totalMessages st1 = total
       /\ store (MessageList.st_world st1) = cs
       /\ exists evs, log (MessageList.st_world st1) = (log (MessageList.st_world st) ++ evs)%list
                      /\ Forall cache_only evs.
Proof.
  intros account pageSize page cs cached actual Hacc Hfolder Hfind Hne Hf Hmeta Ht Hp Hshort r.
  assert (Hr : exists st1,
       r = MessageList.loadRemote p env st account st1
       /\ MessageList.st_messages st1 = cached
       /\ MessageList.st_totalMessages st1 = total
       /\ store (MessageList.st_world st1) = cs
       /\ exists evs, log (MessageList.st_world st1) = (log (MessageList.st_world st) ++ evs)%list
                      /\ Forall cache_only evs).
  { subst r. rewrite (loadMessages_main p env st c account' Hacc Hfolder).
    fold account.
    unfold MessageList.initialAutoRefresh, MessageList.loadFromCache, MessageList.find_or_throw.
    rewrite Hfind.
    assert (Hlast : negb (MessageList.ceil_div total pageSize <=? page)
                    && (Z.of_nat (length cached) <? pageSize) = true).
    { destruct (Z.leb_spec (MessageList.ceil_div total pageSize) page); [lia|].
      destruct (Z.ltb_spec (Z.of_nat (length cached)) pageSize); [done|lia]. }
    assert (Hpos : (0 <? total) = true) by (apply Z.ltb_lt; lia).
    subst account pageSize page cs actual.
    destruct (MessageList.p_isRefreshing p) eqn:Hrefr.
    all: run_step.
    all: destruct (_ && _ && _ && _); run_step.
    all: try (destruct (CacheService.getLastSyncTime _ _ _) as [t|] eqn:Hsync; run_step).
    all: try (destruct (_ * 60 * 1000 <? _); run_step).
    all: fold cached; destruct cached as [|m ms] eqn:Hc; [done|]; run_step.
    all: rewrite Hf; run_step; rewrite Hmeta, Hpos; run_step.
    all: rewrite Hlast; run_step.
    all: eexists; split; [reflexivity|]; run_step.
    all: repeat split; try done; log_only. }
  destruct Hr as (st1 & Hr & Hrest).
  split; [rewrite Hr; apply loadRemote_no_raise|].
  split; [rewrite Hr; apply loadRemote_not_from_cache|].
  exists st1. by split.
Qed.

(** X17. Without folder metadata the cached page is shown with a total of
    zero, the store and the server's status and messages are not touched,
    and a refresh is requested when the callback was supplied and no refresh
    is running; none is requested while one is running. *)
Theorem missing_metadata_requests_refresh
    (p : MessageList.Props) (env : Env) (st : MessageList.State)
    (c : ascii) (account' : string) (ea : EmailAccount) (folders : list string) :
  let account := String c account' in
  let pageSize := MessageList.p_messagesPerPage p in
  let page := MessageList.st_currentPage st in
  let cs := store (MessageList.st_world st) in
  let cached := CacheService.getCachedMessages cs (MessageList.p_folder p) (acc_id ea)
                  pageSize ((page - 1) * pageSize) in
  let actual := MessageList.actualFolderName folders (MessageList.p_folder p) in
  MessageList.p_account p = Some account ->
  MessageList.p_folder p <> "" ->
  find_account (MessageList.p_emailAccounts p) account = Some ea ->
  cached <> [] ->
  EmailService.getFolders (emailService env) (acc_id ea) = Ok folders ->
  CacheService.getFolderMetadata cs actual (acc_id ea) = None ->
  1 <= pageSize -> 0 <= page ->
  let r := MessageList.loadMessages p env st in
  fst r = Ok tt
  /\ MessageList.st_messages (snd r) = cached
  /\ MessageList.st_isFromCache (snd r) = true
  /\ MessageList.st_totalMessages (snd r) = 0
  /\ store (MessageList.st_world (snd r)) = cs
  /\ (exists evs, log (MessageList.st_world (snd r)) = (log (MessageList.st_world st) ++ evs)%list
                  /\ Forall cache_only evs
                  /\ (MessageList.p_isRefreshing p = false ->
                      MessageList.p_onRefreshRequest p = true ->
                      EvRefreshRequest ∈ evs)
                  /\ (MessageList.p_isRefreshing p = true -> EvRefreshRequest ∉ evs)).
Proof.
  intros account pageSize page cs cached actual Hacc Hfolder Hfind Hne Hf Hmeta Hps Hp r.
  subst r. rewrite (loadMessages_main p env st c account' Hacc Hfolder).
  fold account.
  unfold MessageList.initialAutoRefresh, MessageList.loadFromCache, MessageList.find_or_throw.
  rewrite Hfind.
  assert (Hlast : (MessageList.ceil_div 0 pageSize <=? page) = true).
  { apply Z.leb_le. unfold MessageList.ceil_div.
    rewrite Z.div_small by lia. lia. }
  subst account pageSize page cs actual.
  destruct (MessageList.p_isRefreshing p) eqn:Hrefr;
    destruct (MessageList.p_onRefreshRequest p) eqn:Hreq.
  all: run_step.
  all: try (destruct (_ && _ && _); run_step).
  all: try (destruct (CacheService.getLastSyncTime _ _ _) as [t|] eqn:Hsync; run_step).
  all: try (destruct (_ * 60 * 1000 <? _); run_step).
  all: fold cached; destruct cached as [|m ms] eqn:Hc; [done|]; run_step.
  all: rewrite Hf; run_step; rewrite Hmeta; run_step.
  all: rewrite Hlast; run_step.
  all: repeat split; try done.
  all: eexists; rewrite <- ?app_assoc; split; [reflexivity|].
  all: split; [by repeat constructor|].
  all: split; [intros; try done; set_solver|intros; try done; set_solver].
Qed.

(** ** Further properties of the refresh *)

(** X18. [handleRefresh] never raises; a second call while one is running
    does nothing; a failed status query ends in the failure status with the
    store untouched. *)
Theorem handleRefresh_never_raises (env : Env) (scope : App.Scope) (s : App.State) :
  fst (App.handleRefresh env scope s) = Ok tt
  /\ (App.st_isRefreshing s = true -> snd (App.handleRefresh env scope s) = s)
  /\ (forall c acc' account c' F' e,
        App.st_isRefreshing s = false ->
        scope = App.Current ->
        App.st_selectedAccount s = Some (String c acc') ->
        App.st_selectedFolder s = String c' F' ->
        find_account (App.st_emailAccounts s) (String c acc') = Some account ->
        EmailService.getFolderStatus (emailService env) (acc_id account) (String c' F') = Err e ->
        let s' := snd (App.handleRefresh env scope s) in
        App.st_status s' = App.Failed e
        /\ App.st_isRefreshing s' = false
        /\ App.st_refreshTrigger s' = App.st_refreshTrigger s
        /\ store (App.st_world s') = store (App.st_world s)).
Proof.
  split; [|split].
  - unfold App.handleRefresh. run_step.
    destruct (App.st_isRefreshing s); [done|]. run_step.
    match goal with |- context [match ?m ?x with _ => _ end] => destruct (m x) as [[[]|e] s'] end;
      reflexivity.
  - intros Hr. unfold App.handleRefresh. run_step. by rewrite Hr.
  - intros c acc' account c' F' e Hr -> Hacc Hfold Hfind Hst s'.
    subst s'. unfold App.handleRefresh, App.refreshCurrent. run_step.
    rewrite Hr, Hacc, Hfold, Hfind. run_step. rewrite Hst. run_step. done.
Qed.

(** ** What a refresh never removes *)

#[local] Instance keeps_cached_refl : Reflexive keeps_cached.
Proof. by intros cs k. Qed.

#[local] Instance keeps_cached_trans : Transitive keeps_cached.
Proof. intros c1 c2 c3 H12 H23 k Hk. by apply H23, H12. Qed.

#[local] Instance refresh_keeps_cached_refl : Reflexive refresh_keeps_cached.
Proof. intros s. unfold refresh_keeps_cached. reflexivity. Qed.

#[local] Instance refresh_keeps_cached_trans : Transitive refresh_keeps_cached.
Proof. intros s1 s2 s3. unfold refresh_keeps_cached. apply keeps_cached_trans. Qed.

Lemma upsert_keeps_key now f a d msg k :
  k ∈ map row_key (CacheService.messages d) ->
  k ∈ map row_key (CacheService.messages (CacheService.upsert_one now f a d msg)).
Proof.
  intros Hk. apply list_elem_of_fmap in Hk as (r & -> & Hr).
  rewrite messages_upsert_one, map_app. apply elem_of_app.
  destruct (CacheService.has_key (uid msg) f a r) eqn:Hkey.
  - right. apply has_key_row_key in Hkey. rewrite Hkey. cbn.
    apply list_elem_of_singleton. reflexivity.
  - left. apply list_elem_of_fmap. exists r. split; [done|].
    apply in_filter_iff. split; [done|by rewrite Hkey].
Qed.

Lemma updateMessages_keeps_cached now msgs f a cs :
  keeps_cached cs (CacheService.updateMessages now msgs f a cs).
Proof.
  destruct cs as [[d|]]; [|done]. intros k. unfold cached_keys. cbn [CacheService.db].
  unfold CacheService.updateMessages. cbn [CacheService.db].
  unfold CacheService.transaction. revert d.
  induction msgs as [|m msgs IH]; intros d Hk; simpl; [done|].
  by apply IH, upsert_keeps_key.
Qed.

Lemma updateFolderMetadata_keeps_cached now f a t u cs :
  keeps_cached cs (CacheService.updateFolderMetadata now f a t u cs).
Proof. destruct cs as [[d|]]; intros k Hk; exact Hk. Qed.

Section RefreshKeeps.
Context (env : Env).

Lemma keeps_log : forall s (e : Event), True ->
  refresh_keeps_cached s (App.setWorld
    (mkWorld (store (App.st_world s)) (log (App.st_world s) ++ [e])
             (ticks (App.st_world s))) s).
Proof. intros s e _. unfold refresh_keeps_cached. cbn. reflexivity. Qed.

Lemma keeps_tick : forall s,
  refresh_keeps_cached s (App.setWorld
    (mkWorld (store (App.st_world s)) (log (App.st_world s))
             (S (ticks (App.st_world s)))) s).
Proof. intros s. unfold refresh_keeps_cached. cbn. reflexivity. Qed.

Lemma keeps_store : forall s (f : CacheService.t -> CacheService.t),
  (forall cs, keeps_cached cs (f cs)) ->
  refresh_keeps_cached s (App.setWorld
    (mkWorld (f (store (App.st_world s))) (log (App.st_world s))
             (ticks (App.st_world s))) s).
Proof. intros s f Hf. unfold refresh_keeps_cached. cbn. apply Hf. Qed.

Lemma backfill_loop_keeps_cached fuel accountId folderName endSeq allMessages :
  respects refresh_keeps_cached
    (App.backfill_loop env fuel accountId folderName endSeq allMessages).
Proof.
  revert endSeq allMessages. induction fuel as [|fuel IH]; intros endSeq allMessages; cbn.
  - destruct (0 <? endSeq); apply respects_ret; typeclasses eauto.
  - destruct (0 <? endSeq); [|apply respects_ret; typeclasses eauto].
    pose proof keeps_log as Hl. pose proof keeps_tick as Ht. pose proof keeps_store as Hs.
    repeat (first [exact Hl | exact Ht | exact Hs | apply IH | respects_step]); try done.
    intros now cs. apply updateMessages_keeps_cached.
Qed.

Lemma refreshInbox_keeps_cached accounts n :
  respects refresh_keeps_cached (App.refreshInbox env accounts n).
Proof.
  revert n. induction accounts as [|account rest IH]; intros n; cbn.
  - apply respects_ret; typeclasses eauto.
  - pose proof keeps_log as Hl. pose proof keeps_tick as Ht. pose proof keeps_store as Hs.
    repeat (first [exact Hl | exact Ht | exact Hs | apply IH | respects_step]); try done.
    intros now cs. apply updateMessages_keeps_cached.
Qed.

Lemma handleRefresh_keeps_cached scope :
  respects refresh_keeps_cached (App.handleRefresh env scope).
Proof.
  pose proof keeps_log as Hl. pose proof keeps_tick as Ht. pose proof keeps_store as Hs.
  unfold App.handleRefresh, App.refreshCurrent, App.initialLoad, App.regularRefresh,
    App.backfill.
  repeat (first [exact Hl | exact Ht | exact Hs
                | apply backfill_loop_keeps_cached | apply refreshInbox_keeps_cached
                | respects_step]); try done.
  all: try (intros now cs; apply updateMessages_keeps_cached).
  all: try (intros now cs; apply updateFolderMetadata_keeps_cached).
  all: try (unfold refresh_keeps_cached; cbn; reflexivity).
Qed.
End RefreshKeeps.

(** X19. A refresh never drops a cached message: every key (uid, folder,
    account) of a message row in the store before [handleRefresh] is the key
    of a row after it, for every scope and whatever the server answers. *)
Theorem refresh_never_drops_cached (env : Env) (scope : App.Scope) (s : App.State)
    (u : Z) (f a : string) :
  (u, f, a) ∈ cached_keys (store (App.st_world s)) ->
  (u, f, a) ∈ cached_keys (store (App.st_world (snd (App.handleRefresh env scope s)))).
Proof. intros Hk. by apply (handleRefresh_keeps_cached env scope s). Qed.

(** ** The quick inbox refresh *)

#[local] Instance refresh_logs_only_refl P : Reflexive (refresh_logs_only P).
Proof. intros s. exists []. by rewrite app_nil_r. Qed.

#[local] Instance refresh_logs_only_trans P : Transitive (refresh_logs_only P).
Proof.
  intros s1 s2 s3 (e1 & H1 & F1) (e2 & H2 & F2). exists (e1 ++ e2)%list.
  rewrite H2, H1, app_assoc. split; [done|]. by apply Forall_app.
Qed.

Section InboxRefresh.
Context (env : Env) (P : Event -> Prop).

Lemma logs_log : forall s (e : Event), P e ->
  refresh_logs_only P s (App.setWorld
    (mkWorld (store (App.st_world s)) (log (App.st_world s) ++ [e])
             (ticks (App.st_world s))) s).
Proof. intros s e He. exists [e]. split; [done|]. by constructor. Qed.

Lemma logs_tick : forall s,
  refresh_logs_only P s (App.setWorld
    (mkWorld (store (App.st_world s)) (log (App.st_world s))
             (S (ticks (App.st_world s)))) s).
Proof. intros s. exists []. by rewrite app_nil_r. Qed.

Lemma logs_store : forall s (f : CacheService.t -> CacheService.t), True ->
  refresh_logs_only P s (App.setWorld
    (mkWorld (f (store (App.st_world s))) (log (App.st_world s))
             (ticks (App.st_world s))) s).
Proof. intros s f _. exists []. by rewrite app_nil_r. Qed.

Lemma logs_set (f : App.State -> App.State) :
  (forall s, App.st_world (f s) = App.st_world s) ->
  forall s, refresh_logs_only P s (f s).
Proof. intros Hw s. exists []. by rewrite Hw, app_nil_r. Qed.
End InboxRefresh.

Lemma refreshInbox_logs env accounts n :
  respects (refresh_logs_only inbox_event) (App.refreshInbox env accounts n).
Proof.
  revert n. induction accounts as [|account rest IH]; intros n; cbn.
  - apply respects_ret; typeclasses eauto.
  - pose proof (logs_log inbox_event) as Hl. pose proof (logs_tick inbox_event) as Ht.
    pose proof (logs_store inbox_event) as Hs.
    repeat (first [exact Hl | exact Ht | exact Hs | apply IH | respects_step]); try done.
    unfold inbox_event, App.messagesToFetch.
    match goal with H : (0 <? _) = true |- _ => apply Z.ltb_lt in H end.
    repeat split; lia.
Qed.

(** X20. The quick inbox refresh returns normally and works on INBOX only:
    it reads the cache, asks for the status, fetches windows of at most 100
    sequence numbers and writes messages, all of INBOX, and it never writes
    folder metadata. *)
Theorem inbox_refresh_touches_inbox_only (env : Env) (s : App.State) :
  let r := App.handleRefresh env App.Inbox s in
  fst r = Ok tt
  /\ exists evs, log (App.st_world (snd r)) = (log (App.st_world s) ++ evs)%list
                 /\ Forall inbox_event evs.
Proof.
  cbv zeta. split.
  - unfold App.handleRefresh. run_step.
    destruct (App.st_isRefreshing s); [done|]. run_step.
    match goal with |- context [match ?m ?x with _ => _ end] => destruct (m x) as [[[]|e] s'] end;
      reflexivity.
  - change (refresh_logs_only inbox_event s (snd (App.handleRefresh env App.Inbox s))).
    revert s. change (respects (refresh_logs_only inbox_event) (App.handleRefresh env App.Inbox)).
    pose proof (logs_log inbox_event) as Hl. pose proof (logs_tick inbox_event) as Ht.
    pose proof (logs_store inbox_event) as Hs.
    unfold App.handleRefresh.
    repeat (first [exact Hl | exact Ht | exact Hs | apply refreshInbox_logs | respects_step]);
      try done.
    all: by apply logs_set.
Qed.

(** ** The folder metadata a refresh writes *)

(** X21. A steady-state refresh of the current folder (open store,
    non-empty cache, positive total, successful fetch of the newest 200
    sequence numbers) ends with the status that names the folder and the
    number of merged messages and with the refresh trigger raised by one;
    the folder metadata then holds the number of merged messages and the
    number of them without [\Seen]; the run issues one cache read, the
    status request, one fetch, one message write and one metadata write. *)
Theorem refresh_writes_merged_count (env : Env) (s : App.State) (c : ascii) (acc' : string)
    (account : EmailAccount) (c' : ascii) (F' : string) (d : CacheService.Database)
    (total unseen : Z) (fetched : list EmailMessage) :
  let F := String c' F' in
  let cached := CacheService.getCachedMessages (store (App.st_world s)) F (acc_id account) 10000 0 in
  let merged := App.mergedMessages cached fetched in
  let startSeq := Z.max 1 (total - App.messagesToCheck + 1) in
  App.st_isRefreshing s = false ->
  App.st_selectedAccount s = Some (String c acc') ->
  App.st_selectedFolder s = F ->
  find_account (App.st_emailAccounts s) (String c acc') = Some account ->
  CacheService.db (store (App.st_world s)) = Some d ->
  cached <> [] ->
  EmailService.getFolderStatus (emailService env) (acc_id account) F = Ok (total, unseen) ->
  0 < total ->
  EmailService.getMessages (emailService env) (acc_id account) F App.messagesToCheck
    startSeq total = Ok fetched ->
  let s1 := snd (App.handleRefresh env App.Current s) in
  App.st_status s1 = App.Refreshed F (length merged)
  /\ App.st_isRefreshing s1 = false
  /\ App.st_refreshTrigger s1 = App.st_refreshTrigger s + 1
  /\ CacheService.getFolderMetadata (store (App.st_world s1)) F (acc_id account)
     = Some (Z.of_nat (length merged), App.unreadCount merged)
  /\ log (App.st_world s1)
     = (log (App.st_world s)
        ++ [EvCacheRead F (acc_id account) 10000 0; EvStatus (acc_id account) F;
            EvFetch (acc_id account) F App.messagesToCheck startSeq total;
            EvCacheWrite F (acc_id account) (length merged);
            EvCacheMetaWrite F (acc_id account) (Z.of_nat (length merged))
              (App.unreadCount merged)])%list.
Proof.
  intros F cached merged startSeq Hidle Hsel Hfolder Hacc Hdb Hne Hstatus Htotal Hfetch s1.
  subst s1 F startSeq. unfold App.handleRefresh. run_step.
  rewrite Hidle, Hsel, Hfolder. run_step. rewrite Hacc.
  unfold App.refreshCurrent, App.regularRefresh. run_step.
  fold cached. rewrite Hstatus. run_step.
  destruct (Z.ltb_spec 0 total) as [_|]; [|lia].
  assert (Hlen : Nat.eqb (length cached) 0 = false) by (by destruct cached).
  rewrite Hlen. run_step. rewrite Hfetch. run_step.
  fold merged. rewrite Hdb. run_step.
  rewrite db_updateMessages, Hdb. run_step.
  unfold CacheService.updateMessages. rewrite Hdb.
  rewrite getFolderMetadata_updated.
  repeat split; by rewrite <- ?app_assoc.
Qed.

(** ** The steady-state refresh and the store *)

Lemma cached_uids_nodup d f a limit offset :
  unique_keys d ->
  NoDup (uids (CacheService.getCachedMessages (CacheService.mk (Some d)) f a limit offset)).
Proof.
  intros Hu. rewrite getCachedMessages_rows, uids_read_rows.
  eapply sublist_NoDup; [by apply (folder_rows_uids_NoDup f a)|].
  apply fmap_sublist, limit_offset_sublist.
Qed.

Lemma upsert_keys now f a d msg k :
  k ∈ map row_key (CacheService.messages (CacheService.upsert_one now f a d msg))
  <-> k ∈ map row_key (CacheService.messages d) \/ k = (uid msg, f, a).
Proof.
  split.
  - rewrite messages_upsert_one, map_app, elem_of_app. intros [Hk|Hk].
    + left. apply list_elem_of_fmap in Hk as (r & -> & Hr).
      apply in_filter_iff in Hr as [Hr _]. apply list_elem_of_fmap. by exists r.
    + right. cbn in Hk. by apply list_elem_of_singleton in Hk.
  - intros [Hk| ->]; [by apply upsert_keeps_key|].
    rewrite messages_upsert_one, map_app, elem_of_app. right. cbn.
    apply list_elem_of_singleton. reflexivity.
Qed.

Lemma transaction_keys now f a msgs d k :
  k ∈ map row_key (CacheService.messages (CacheService.transaction now f a msgs d))
  <-> k ∈ map row_key (CacheService.messages d)
      \/ exists m, m ∈ msgs /\ k = (uid m, f, a).
Proof.
  unfold CacheService.transaction. revert d.
  induction msgs as [|m msgs IH]; intros d; simpl.
  - split; [by left|]. intros [H|(m & Hm & _)]; [done|by apply elem_of_nil in Hm].
  - rewrite IH, upsert_keys. split.
    + intros [[H| ->]|(x & Hx & ->)]; [by left| |].
      * right. exists m. split; [apply list_elem_of_here|done].
      * right. exists x. split; [by apply list_elem_of_further|done].
    + intros [H|(x & Hx & ->)]; [by left; left|].
      apply elem_of_cons in Hx as [-> |Hx]; [by left; right|].
      right. by exists x.
Qed.

(** The keys of a folder that holds at most 10000 rows are the uids the
    refresh reads from it; in any case every uid read is a key. *)
Lemma read_uid_is_key d f a limit offset u :
  u ∈ uids (CacheService.getCachedMessages (CacheService.mk (Some d)) f a limit offset) ->
  (u, f, a) ∈ cached_keys (CacheService.mk (Some d)).
Proof.
  rewrite getCachedMessages_rows, uids_read_rows. intros Hu.
  apply list_elem_of_fmap in Hu as (r & -> & Hr).
  eapply elem_of_sublist in Hr; [|apply limit_offset_sublist].
  unfold folder_rows in Hr. rewrite sort_desc_perm in Hr.
  apply in_filter_iff in Hr as [Hr Hin].
  unfold cached_keys. cbn [CacheService.db]. apply list_elem_of_fmap. exists r.
  split; [|done]. unfold row_key, CacheService.in_folder in *.
  apply andb_true_iff in Hin as [Hf Ha]. apply String.eqb_eq in Hf, Ha. by rewrite Hf, Ha.
Qed.

Lemma key_is_read_uid d f a u :
  cached_count (CacheService.mk (Some d)) f a <= 10000 ->
  (u, f, a) ∈ cached_keys (CacheService.mk (Some d)) ->
  u ∈ uids (CacheService.getCachedMessages (CacheService.mk (Some d)) f a 10000 0).
Proof.
  intros Hsmall Hk. rewrite getCachedMessages_rows, uids_read_rows.
  rewrite limit_offset_all by (rewrite cached_count_rows in Hsmall; lia).
  unfold cached_keys in Hk. cbn [CacheService.db] in Hk.
  apply list_elem_of_fmap in Hk as (r & Hkey & Hr).
  apply list_elem_of_fmap. exists r.
  unfold row_key in Hkey. injection Hkey as Hu Hf Ha.
  split; [done|]. unfold folder_rows. rewrite sort_desc_perm. apply in_filter_iff.
  split; [done|]. unfold CacheService.in_folder. rewrite <- Hf, <- Ha, !String.eqb_refl. done.
Qed.

(** The state a steady-state refresh of the current folder ends in. *)
Lemma steady_refresh_run (env : Env) (s : App.State) (c : ascii) (acc' : string)
    (account : EmailAccount) (c' : ascii) (F' : string) (d : CacheService.Database)
    (total unseen : Z) (fetched : list EmailMessage) :
  let F := String c' F' in
  let a := acc_id account in
  let w := App.st_world s in
  let cached := CacheService.getCachedMessages (store w) F a 10000 0 in
  let merged := App.mergedMessages cached fetched in
  let startSeq := Z.max 1 (total - App.messagesToCheck + 1) in
  App.st_isRefreshing s = false ->
  App.st_selectedAccount s = Some (String c acc') ->
  App.st_selectedFolder s = F ->
  find_account (App.st_emailAccounts s) (String c acc') = Some account ->
  CacheService.db (store w) = Some d ->
  cached <> [] ->
  EmailService.getFolderStatus (emailService env) a F = Ok (total, unseen) ->
  0 < total ->
  EmailService.getMessages (emailService env) a F App.messagesToCheck startSeq total
  = Ok fetched ->
  let s1 := snd (App.handleRefresh env App.Current s) in
  store (App.st_world s1)
  = CacheService.updateFolderMetadata (clock env (S (ticks w))) F a
      (Z.of_nat (length merged)) (App.unreadCount merged)
      (CacheService.updateMessages (clock env (ticks w)) merged F a (store w))
  /\ log (App.st_world s1)
     = (log w
        ++ [EvCacheRead F a 10000 0; EvStatus a F;
            EvFetch a F App.messagesToCheck startSeq total;
            EvCacheWrite F a (length merged);
            EvCacheMetaWrite F a (Z.of_nat (length merged)) (App.unreadCount merged)])%list
  /\ App.st_status s1 = App.Refreshed F (length merged)
  /\ App.st_isRefreshing s1 = false
  /\ App.st_refreshTrigger s1 = App.st_refreshTrigger s + 1.
Proof.
  intros F a w cached merged startSeq Hidle Hsel Hfolder Hacc Hdb Hne Hstatus Htotal Hfetch s1.
  subst s1 F a w startSeq. unfold App.handleRefresh. run_step.
  rewrite Hidle, Hsel, Hfolder. run_step. rewrite Hacc.
  unfold App.refreshCurrent, App.regularRefresh. run_step.
  fold cached. rewrite Hstatus. run_step.
  destruct (Z.ltb_spec 0 total) as [_|]; [|lia].
  assert (Hlen : Nat.eqb (length cached) 0 = false) by (by destruct cached).
  rewrite Hlen. run_step. rewrite Hfetch. run_step.
  fold merged. rewrite Hdb. run_step.
  rewrite db_updateMessages, Hdb. run_step.
  repeat split; by rewrite <- ?app_assoc.
Qed.

Lemma cached_keys_written t1 t2 msgs f a n u cs k :
  CacheService.db cs <> None ->
  k ∈ cached_keys (CacheService.updateFolderMetadata t2 f a n u
                     (CacheService.updateMessages t1 msgs f a cs))
  <-> k ∈ cached_keys cs \/ exists m, m ∈ msgs /\ k = (uid m, f, a).
Proof.
  destruct cs as [[d|]]; [intros _|done].
  unfold cached_keys, CacheService.updateFolderMetadata, CacheService.updateMessages.
  cbn [CacheService.db CacheService.messages]. apply transaction_keys.
Qed.

(** C2. A steady-state refresh of the current folder (store open with unique
    keys, cache of the folder not empty, the status reports messages, the
    fetch of the newest 200 sequence numbers succeeds; cached and fetched
    messages carry non-zero UIDs, the fetched ones pairwise distinct, as a
    mailbox assigns them) merges by UID and writes the merge back. With [S]
    the UIDs read from the cache and [S'] the UIDs fetched: the merged list
    has exactly the UIDs [S ∪ S'], each once; a cached record is missing
    from it only if its UID was fetched again, so every cached record
    outside the fetched window is carried over as it is; every record of the
    merge is a cached or a fetched one; [|S' \ S|] messages are counted as
    new. The run of [handleRefresh] issues one cache read, the status
    request, the fetch, one write of the merged list and one metadata write;
    the store it leaves is the store before with the merged list written by
    [updateMessages] and its length and unread count written by
    [updateFolderMetadata]; in that store the folder holds the keys it held
    before and those of [S'], which are exactly [S ∪ S'] when the folder
    held at most the 10000 rows the refresh reads, and the keys of all other
    folders are as before. The refresh trigger is raised, and the list view
    then reports [|current \ last|] new messages when that is positive. *)
Theorem steady_state_merge (env : Env) (s : App.State) (c : ascii) (acc' : string)
    (account : EmailAccount) (c' : ascii) (F' : string) (d : CacheService.Database)
    (total unseen : Z) (fetched : list EmailMessage) :
  let F := String c' F' in
  let a := acc_id account in
  let w := App.st_world s in
  let cached := CacheService.getCachedMessages (store w) F a 10000 0 in
  let S : gset Z := App.existingUIDs cached in
  let S' : gset Z := list_to_set (uids fetched) in
  let merged := App.mergedMessages cached fetched in
  let startSeq := Z.max 1 (total - App.messagesToCheck + 1) in
  App.st_isRefreshing s = false ->
  App.st_selectedAccount s = Some (String c acc') ->
  App.st_selectedFolder s = F ->
  find_account (App.st_emailAccounts s) (String c acc') = Some account ->
  CacheService.db (store w) = Some d -> unique_keys d ->
  cached <> [] -> Forall (fun x => uid x <> 0) cached ->
  EmailService.getFolderStatus (emailService env) a F = Ok (total, unseen) ->
  0 < total ->
  EmailService.getMessages (emailService env) a F App.messagesToCheck startSeq total
  = Ok fetched ->
  NoDup (uids fetched) -> Forall (fun x => uid x <> 0) fetched ->
  let s1 := snd (App.handleRefresh env App.Current s) in
  let cs1 := store (App.st_world s1) in
  (list_to_set (uids merged) = S ∪ S'
   /\ NoDup (uids merged)
   /\ (forall x, x ∈ cached -> x ∉ merged -> uid x ∈ S')
   /\ (forall x, x ∈ cached -> uid x ∉ S' -> x ∈ merged)
   /\ (forall v, v ∈ merged -> v ∈ cached \/ v ∈ fetched)
   /\ (App.newMessages cached fetched <> [] ->
       forall v, v ∈ merged <-> v ∈ fetched \/ (v ∈ cached /\ uid v ∉ S'))
   /\ length (App.newMessages cached fetched) = size (S' ∖ S))
  /\ (cs1 = CacheService.updateFolderMetadata (clock env (Datatypes.S (ticks w))) F a
              (Z.of_nat (length merged)) (App.unreadCount merged)
              (CacheService.updateMessages (clock env (ticks w)) merged F a (store w))
      /\ log (App.st_world s1)
         = (log w
            ++ [EvCacheRead F a 10000 0; EvStatus a F;
                EvFetch a F App.messagesToCheck startSeq total;
                EvCacheWrite F a (length merged);
                EvCacheMetaWrite F a (Z.of_nat (length merged)) (App.unreadCount merged)])%list
      /\ App.st_status s1 = App.Refreshed F (length merged)
      /\ App.st_refreshTrigger s1 = App.st_refreshTrigger s + 1)
  /\ ((forall u, (u, F, a) ∈ cached_keys cs1 <-> (u, F, a) ∈ cached_keys (store w) \/ u ∈ S')
      /\ (cached_count (store w) F a <= 10000 ->
          forall u, (u, F, a) ∈ cached_keys cs1 <-> u ∈ S ∪ S')
      /\ (forall u f' a', (f', a') <> (F, a) ->
          ((u, f', a') ∈ cached_keys cs1 <-> (u, f', a') ∈ cached_keys (store w))))
  /\ (forall (p : MessageList.Props) (st : MessageList.State),
        0 < MessageList.p_refreshTrigger p ->
        MessageList.st_messages st <> [] ->
        MessageList.st_lastMessageUIDs st <> ∅ ->
        let current : gset Z := list_to_set (uids (MessageList.st_messages st)) in
        let n := size (current ∖ MessageList.st_lastMessageUIDs st) in
        let st' := MessageList.trackNewMessages p st in
        MessageList.st_lastMessageUIDs st' = current
        /\ MessageList.st_newMessageCount st'
           = if Nat.eqb n 0 then MessageList.st_newMessageCount st else Z.of_nat n).
Proof.
  intros F a w cached S S' merged startSeq Hidle Hsel Hfolder Hacc Hdb Huniq Hne Hcz
    Hstatus Htotal Hfetch Hfnd Hfz s1 cs1.
  assert (Hcnd : NoDup (uids cached)).
  { subst cached. destruct (store w) as [[d0|]] eqn:Hw; [|done].
    cbn in Hdb. injection Hdb as ->. by apply cached_uids_nodup. }
  pose proof (merge_by_uid cached fetched Hne Hcnd Hfnd Hcz Hfz)
    as (P1 & P2 & P3 & P4 & P5 & P6 & P7 & _ & P9).
  cbv zeta in P1, P2, P3, P4, P5, P6, P7, P9.
  pose proof (steady_refresh_run env s c acc' account c' F' d total unseen fetched
                Hidle Hsel Hfolder Hacc Hdb Hne Hstatus Htotal Hfetch)
    as (R1 & R2 & R3 & _ & R5).
  cbv zeta in R1, R2, R3, R5. fold F a w cached merged startSeq s1 in R1, R2, R3, R5.
  fold cs1 in R1.
  assert (Hkeys : forall k, k ∈ cached_keys cs1
            <-> k ∈ cached_keys (store w) \/ exists m, m ∈ merged /\ k = (uid m, F, a)).
  { intros k. rewrite R1. apply cached_keys_written. by rewrite Hdb. }
  assert (Hread : forall u, u ∈ S -> (u, F, a) ∈ cached_keys (store w)).
  { intros u Hu. unfold S, App.existingUIDs in Hu. apply elem_of_list_to_set in Hu.
    subst cached. destruct (store w) as [[d0|]] eqn:Hw; [|done].
    by eapply read_uid_is_key. }
  assert (Hmerged : forall u, (exists m, m ∈ merged /\ uid m = u) <-> u ∈ S ∪ S').
  { intros u. unfold S, S'. rewrite <- P1, elem_of_list_to_set. unfold uids.
    rewrite list_elem_of_fmap. naive_solver. }
  split; [exact (conj P1 (conj P2 (conj P3 (conj P4 (conj P5 (conj P6 P7))))))|].
  split; [exact (conj R1 (conj R2 (conj R3 R5)))|]. split; [|exact P9].
  split; [|split].
  - intros u. rewrite Hkeys. split.
    + intros [H|(m & Hm & [= Hu])]; [by left|].
      assert (Hin : u ∈ S ∪ S') by (apply Hmerged; by exists m).
      apply elem_of_union in Hin as [Hin|Hin]; [left; by apply Hread|by right].
    + intros [H|H]; [by left|]. right.
      assert (Hin : u ∈ S ∪ S') by (apply elem_of_union; by right).
      apply Hmerged in Hin as (m & Hm & <-). by exists m.
  - intros Hsmall u. rewrite Hkeys. split.
    + intros [H|(m & Hm & [= Hu])].
      * apply elem_of_union. left. unfold S, App.existingUIDs. apply elem_of_list_to_set.
        subst cached. destruct (store w) as [[d0|]] eqn:Hw; [|done].
        by apply key_is_read_uid.
      * apply Hmerged. by exists m.
    + intros Hin. right. apply Hmerged in Hin as (m & Hm & <-). by exists m.
  - intros u f' a' Hother. rewrite Hkeys. split; [|by left].
    intros [H|(m & Hm & [= _ -> ->])]; done.
Qed.

(** C2 at a mailbox of three messages (UIDs 101 to 103) of which the first
    is cached: the refresh reads the cache, fetches 1:3, writes the three
    merged messages and the metadata, and the store then holds the key of
    the new message 103. *)
Lemma steady_state_merge_witness :
  let s1 := snd (App.handleRefresh (Sample.env ["INBOX"] 3) App.Current
                   (Sample.app_state "INBOX" Sample.store_in_sync)) in
  log (App.st_world s1)
  = [EvCacheRead "INBOX" "acc1" 10000 0; EvStatus "acc1" "INBOX";
     EvFetch "acc1" "INBOX" 200 1 3; EvCacheWrite "INBOX" "acc1" 3;
     EvCacheMetaWrite "INBOX" "acc1" 3 0]
  /\ App.st_status s1 = App.Refreshed "INBOX" 3
  /\ (103, "INBOX", "acc1") ∈ cached_keys (store (App.st_world s1))
  /\ (101, "INBOX", "acc1") ∈ cached_keys (store (App.st_world s1)).
Proof.
  pose proof (steady_state_merge (Sample.env ["INBOX"] 3)
                (Sample.app_state "INBOX" Sample.store_in_sync)
                "a" "nn@example.org" Sample.account "I" "NBOX" Sample.db_in_sync 3 0
                (map (EmailService.set_origin "acc1" "INBOX")
                   (JS.sort_desc date (Sample.mailbox_fetch 3 1 3)))) as H.
  cbv zeta in H.
  destruct H as (_ & (_ & Hlog & Hstatus & _) & (Hkeys & _) & _).
  - reflexivity.
  - reflexivity.
  - reflexivity.
  - reflexivity.
  - reflexivity.
  - unfold unique_keys. apply (bool_decide_unpack _). vm_compute. exact I.
  - vm_compute. discriminate.
  - vm_compute. repeat constructor; discriminate.
  - vm_compute. reflexivity.
  - lia.
  - vm_compute. reflexivity.
  - apply (bool_decide_unpack _). vm_compute. exact I.
  - vm_compute. repeat constructor; discriminate.
  - cbv zeta. split; [|split; [|split]].
    + refine (eq_trans Hlog _). vm_compute. reflexivity.
    + refine (eq_trans Hstatus _). vm_compute. reflexivity.
    + apply (Hkeys 103). right. apply elem_of_list_to_set. vm_compute.
      apply list_elem_of_here.
    + apply (Hkeys 101). left. vm_compute. apply list_elem_of_here.
Defined.

(** ** The key handler of the message list *)

Lemma visibleItems_pos (v : MessageView.View) : 1 <= MessageView.visibleItems v.
Proof.
  unfold MessageView.visibleItems, MessageView.viewportHeight, MessageView.itemHeight.
  apply Z.div_le_lower_bound; lia.
Qed.

Lemma nav_ok_if (v : MessageView.View) (c : bool) (a b : MessageView.Nav) :
  (c = true -> nav_ok v a) -> nav_ok v b -> nav_ok v (if c then a else b).
Proof. destruct c; auto. Qed.

Lemma nav_ok_top (v : MessageView.View) (s : MessageView.Nav) :
  nav_ok v (MessageView.setViewportOffset 0 (MessageView.setSelectedIndex 0 s)).
Proof.
  pose proof (visibleItems_pos v). unfold nav_ok. simpl. lia.
Qed.

Lemma nav_ok_shown (v : MessageView.View) (s : MessageView.Nav) :
  nav_ok v s -> MessageView.v_messages v <> [] ->
  exists m,
    MessageView.at_index (MessageView.v_messages v) (MessageView.selectedIndex s) = Some m
    /\ MessageView.shown v s
         !! Z.to_nat (MessageView.selectedIndex s - MessageView.viewportOffset s) = Some m.
Proof.
  intros (Hvo & Hvis & Hlen) Hne.
  assert (Hlt : MessageView.selectedIndex s < Z.of_nat (length (MessageView.v_messages v))).
  { destruct Hlen as [?|H0]; [done|]. rewrite H0.
    destruct (MessageView.v_messages v); [done|]. simpl. lia. }
  destruct (lookup_lt_is_Some_2 (MessageView.v_messages v)
              (Z.to_nat (MessageView.selectedIndex s)) ltac:(lia)) as [m Hm].
  exists m. split.
  - unfold MessageView.at_index. destruct (Z.ltb_spec (MessageView.selectedIndex s) 0); [lia|done].
  - unfold MessageView.shown, MessageView.slice.
    destruct (Z.ltb_spec (MessageView.viewportOffset s) 0); [lia|].
    destruct (Z.ltb_spec (MessageView.viewportOffset s + MessageView.visibleItems v) 0); [lia|].
    rewrite lookup_take_lt by lia. rewrite lookup_drop.
    rewrite <- Hm. f_equal. lia.
Qed.

(** X22. A key press keeps the selection of the message list consistent:
    if the highlighted row was on screen and inside the list, it still is
    after the handler ran, whatever the key, provided the event does not
    carry both arrow-up and arrow-down; the highlighted message is then one
    of the rows the next render shows. *)
Theorem selection_stays_visible (v : MessageView.View) (s : MessageView.Nav)
    (input : string) (key : MessageView.Key) :
  nav_ok v s ->
  MessageView.upArrow key && MessageView.downArrow key = false ->
  let s' := fst (MessageView.useInput v s input key) in
  nav_ok v s'
  /\ (MessageView.v_messages v <> [] ->
      exists m,
        MessageView.at_index (MessageView.v_messages v) (MessageView.selectedIndex s') = Some m
        /\ MessageView.shown v s'
             !! Z.to_nat (MessageView.selectedIndex s' - MessageView.viewportOffset s')
           = Some m).
Proof.
  intros Hok Hkeys s'.
  assert (Hs' : nav_ok v s'); [|split; [done|by apply nav_ok_shown]].
  subst s'. unfold MessageView.useInput.
  destruct (MessageView.escape key); [done|].
  destruct (negb (MessageView.v_hasFocus v)); [done|].
  cbv zeta. cbn [fst].
  pose proof (visibleItems_pos v) as Hvis.
  apply nav_ok_if.
  { intros Hc. apply andb_true_iff in Hc as [_ Hc]. apply Z.ltb_lt in Hc.
    unfold nav_ok. simpl. lia. }
  apply nav_ok_if; [intros _; apply nav_ok_top|].
  repeat (apply nav_ok_if; [intros _; first [apply nav_ok_top | apply nav_ok_if; [intros _; apply nav_ok_top|]]|]).
  all: destruct Hok as (Hvo & Hsel & Hlen); unfold nav_ok.
  all: destruct (MessageView.upArrow key), (MessageView.downArrow key); try discriminate Hkeys.
  all: cbn [andb].
  all: repeat match goal with
       | |- context [if ?c then _ else _] =>
           match c with
           | (?a <? ?b) => destruct (Z.ltb_spec a b)
           | (?a <=? ?b) => destruct (Z.leb_spec a b)
           end
       end; simpl; lia.
Qed.

(** X23. Enter (or arrow-right) opens the highlighted message and nothing
    else: with a consistent selection on a non-empty list the handler makes
    exactly one call, for the message at the selected index, which is on
    screen; it opens the thread view only for a message with a positive
    thread count when the thread callback was supplied. Without focus, or
    for Escape, the handler makes no call and changes nothing. *)
Theorem enter_opens_highlighted (v : MessageView.View) (s : MessageView.Nav)
    (input : string) (key : MessageView.Key) :
  nav_ok v s ->
  MessageView.v_messages v <> [] ->
  (MessageView.escape key = false -> MessageView.v_hasFocus v = true ->
   MessageView.return_ key || MessageView.rightArrow key = true ->
   exists m,
     MessageView.at_index (MessageView.v_messages v) (MessageView.selectedIndex s) = Some m
     /\ m ∈ MessageView.shown v s
     /\ snd (MessageView.useInput v s input key)
        = [match MessageView.m_threadCount m with
           | Some n => if (0 <? n) && MessageView.v_onThreadOpen v
                       then MessageView.OnThreadOpen m else MessageView.OnEmailOpen m
           | None => MessageView.OnEmailOpen m
           end])
  /\ (MessageView.escape key = false -> MessageView.v_hasFocus v = true ->
      MessageView.return_ key || MessageView.rightArrow key = false ->
      snd (MessageView.useInput v s input key) = [])
  /\ (MessageView.escape key = true \/ MessageView.v_hasFocus v = false ->
      MessageView.useInput v s input key = (s, [])).
Proof.
  intros Hok Hne. split; [|split].
  - intros Hesc Hfocus Hkey.
    destruct (nav_ok_shown v s Hok Hne) as (m & Hm & Hshown).
    exists m. split; [done|]. split; [by eapply list_elem_of_lookup_2|].
    unfold MessageView.useInput. rewrite Hesc, Hfocus. cbv zeta. cbn [negb snd].
    rewrite Hkey, Hm. destruct (MessageView.m_threadCount m) as [n|]; [|done].
    destruct (Z.eqb_spec n 0) as [->|Hn]; [reflexivity|]. cbn [negb andb].
    by destruct ((0 <? n) && MessageView.v_onThreadOpen v).
  - intros Hesc Hfocus Hkey.
    unfold MessageView.useInput. rewrite Hesc, Hfocus. cbv zeta. cbn [negb snd].
    by rewrite Hkey.
  - intros [Hesc|Hfocus]; unfold MessageView.useInput.
    + by rewrite Hesc.
    + rewrite Hfocus. by destruct (MessageView.escape key).
Qed.

Lemma ceil_div_reaches (total pageSize page : Z) :
  1 <= pageSize -> 1 < page -> page <= MessageList.ceil_div total pageSize ->
  (page - 1) * pageSize < total.
Proof.
  unfold MessageList.ceil_div. intros Hps Hp Hle.
  assert (page * pageSize <= total + pageSize - 1); [|lia].
  pose proof (Z.mul_div_le (total + pageSize - 1) pageSize ltac:(lia)).
  nia.
Qed.

(** X24. Paging by key stays inside the folder: a key press moves the page
    by at most one, never below page 1 and never past the last page, so a
    page above the first that the handler moves to starts below the
    folder's message count; a page turn raises the page-change flag. *)
Theorem paging_stays_in_range (v : MessageView.View) (s : MessageView.Nav)
    (input : string) (key : MessageView.Key) :
  1 <= MessageView.v_messagesPerPage v ->
  1 <= MessageView.currentPage s <= Z.max 1 (MessageView.totalPages v) ->
  let s' := fst (MessageView.useInput v s input key) in
  1 <= MessageView.currentPage s' <= Z.max 1 (MessageView.totalPages v)
  /\ Z.abs (MessageView.currentPage s' - MessageView.currentPage s) <= 1
  /\ (1 < MessageView.currentPage s' ->
      (MessageView.currentPage s' - 1) * MessageView.v_messagesPerPage v
      < MessageView.v_totalMessages v)
  /\ (MessageView.currentPage s' <> MessageView.currentPage s ->
      MessageView.isChangingPage s' = true).
Proof.
  intros Hps Hpage s'.
  assert (Hmain : 1 <= MessageView.currentPage s' <= Z.max 1 (MessageView.totalPages v)
          /\ Z.abs (MessageView.currentPage s' - MessageView.currentPage s) <= 1
          /\ (MessageView.currentPage s' <> MessageView.currentPage s ->
              MessageView.isChangingPage s' = true)).
  { subst s'. unfold MessageView.useInput.
    destruct (MessageView.escape key); [simpl; split; [done|split; [lia|done]]|].
    destruct (negb (MessageView.v_hasFocus v)); [simpl; split; [done|split; [lia|done]]|].
    cbv zeta. cbn [fst].
    generalize (MessageView.totalPages v) Hpage. intros T HT.
    match goal with
    | |- context [if MessageView.downArrow key && ?c then ?a else ?b] =>
        remember (if MessageView.downArrow key && c then a else b) as s2 eqn:Hs2
    end.
    assert (Hsame : MessageView.currentPage s2 = MessageView.currentPage s
                    /\ MessageView.isChangingPage s2 = MessageView.isChangingPage s).
    { subst s2.
      repeat match goal with |- context [if ?c then _ else _] => destruct c end;
        split; reflexivity. }
    destruct Hsame as [Hp2 Hc2]. clear Hs2.
    destruct (String.eqb input "G" && _), (String.eqb input "g" && _);
      destruct (MessageView.shift key && (String.eqb input "N" || String.eqb input "n")),
               (MessageView.shift key && (String.eqb input "P" || String.eqb input "p")),
               (MessageView.pageDown key), (MessageView.pageUp key); cbn [andb];
      repeat match goal with
       | |- context [if ?c then _ else _] =>
           match c with
           | (?a <? ?b) => destruct (Z.ltb_spec a b)
           end
       end; simpl; rewrite ?Hp2; (split; [lia|split; [lia|try done; try lia]]). }
  destruct Hmain as (Hb & Habs & Hch). repeat split; try tauto; try lia.
  intros H1. apply ceil_div_reaches; [done..|].
  unfold MessageView.totalPages in Hb. lia.
Qed.

(** ** Opening a message *)

Lemma Z_of_string_of_Z (u : Z) : JS.Z_of_string (JS.string_of_Z u) = Some u.
Proof.
  unfold JS.Z_of_string, JS.string_of_Z.
  rewrite NilZero.isi.
  - simpl. f_equal. apply DecimalZ.of_to.
  - destruct u; simpl; try discriminate.
    intros H. injection H as H. by apply DecimalPos.Unsigned.to_uint_nonnil in H.
  - destruct u; simpl; try discriminate.
    intros H. injection H as H. by apply DecimalPos.Unsigned.to_uint_nonnil in H.
Qed.

Lemma Z_of_string_angle (s : string) : JS.Z_of_string (String "<" s) = None.
Proof.
  unfold JS.Z_of_string, NilZero.int_of_string. cbn.
  by destruct (NilEmpty.uint_of_string s).
Qed.

Lemma string_of_Z_nonempty (u : Z) : JS.string_of_Z u <> "".
Proof.
  intros H. pose proof (Z_of_string_of_Z u) as Hu. rewrite H in Hu. discriminate.
Qed.

Lemma sort_desc_ext {A} (key key' : A -> Z) (l : list A) :
  (forall x, key x = key' x) -> JS.sort_desc key l = JS.sort_desc key' l.
Proof.
  intros Hk. induction l as [|x l IH]; simpl; [done|]. rewrite IH.
  generalize (JS.sort_desc key' l). intros s.
  induction s as [|y s IHs]; simpl; [done|]. by rewrite !Hk, IHs.
Qed.

(** The row [updateMessageFlags] leaves in place of a row. *)
Lemma updateMessageFlags_rows us f a fl d :
  CacheService.db (CacheService.updateMessageFlags us f a fl (CacheService.mk (Some d)))
  = Some (CacheService.mkDatabase
            (map (fun r =>
                    if match JS.Z_of_string us with
                       | Some n => CacheService.has_key n f a r
                       | None => false
                       end
                    then CacheService.mkCachedMessage (CacheService.row_id r)
                           (CacheService.row_uid r) (CacheService.row_folder_id r)
                           (CacheService.row_account_id r) (CacheService.row_subject r)
                           (CacheService.row_from_name r) (CacheService.row_from_address r)
                           (CacheService.row_date r) (JS.join_comma fl)
                           (CacheService.row_preview r) (CacheService.row_has_attachments r)
                           (CacheService.row_thread_count r) (CacheService.row_last_fetched r)
                    else r) (CacheService.messages d))
            (CacheService.messages_seq d) (CacheService.folders d)
            (CacheService.attachments_tbl d) (CacheService.attachments_seq d)
            (CacheService.foreign_keys d)).
Proof. reflexivity. Qed.

Lemma map_id_ext {A} (g : A -> A) (l : list A) : (forall x, g x = x) -> map g l = l.
Proof. intros Hg. induction l as [|x l IH]; simpl; [done|]. by rewrite Hg, IH. Qed.

(** An identifier that spells no number selects no row. *)
Lemma updateMessageFlags_no_number us f a fl cs :
  JS.Z_of_string us = None ->
  CacheService.updateMessageFlags us f a fl cs = cs.
Proof.
  intros Hus. destruct cs as [[d|]]; [|done].
  unfold CacheService.updateMessageFlags. cbn [CacheService.db]. rewrite Hus.
  rewrite map_id_ext by done. by destruct d.
Qed.

(** The pages of every folder after [updateMessageFlags]. *)
Lemma getCachedMessages_updateMessageFlags u F A fl cs f a limit offset :
  CacheService.getCachedMessages
    (CacheService.updateMessageFlags (JS.string_of_Z u) F A fl cs) f a limit offset
  = if String.eqb f F && String.eqb a A
    then map (fun x => if uid x =? u then with_flags (stored_flags fl) x else x)
           (CacheService.getCachedMessages cs f a limit offset)
    else CacheService.getCachedMessages cs f a limit offset.
Proof.
  destruct cs as [[d|]]; [|by destruct (String.eqb f F && String.eqb a A)].
  set (upd := fun r =>
         if CacheService.has_key u F A r
         then CacheService.mkCachedMessage (CacheService.row_id r)
                (CacheService.row_uid r) (CacheService.row_folder_id r)
                (CacheService.row_account_id r) (CacheService.row_subject r)
                (CacheService.row_from_name r) (CacheService.row_from_address r)
                (CacheService.row_date r) (JS.join_comma fl)
                (CacheService.row_preview r) (CacheService.row_has_attachments r)
                (CacheService.row_thread_count r) (CacheService.row_last_fetched r)
         else r).
  assert (Hcs : CacheService.updateMessageFlags (JS.string_of_Z u) F A fl
                  (CacheService.mk (Some d))
                = CacheService.mk (Some (CacheService.mkDatabase
                    (map upd (CacheService.messages d))
                    (CacheService.messages_seq d) (CacheService.folders d)
                    (CacheService.attachments_tbl d) (CacheService.attachments_seq d)
                    (CacheService.foreign_keys d)))).
  { unfold CacheService.updateMessageFlags. cbn [CacheService.db].
    by rewrite Z_of_string_of_Z. }
  rewrite Hcs, !getCachedMessages_rows. cbn [CacheService.messages CacheService.attachments_tbl].
  assert (Hfolder : forall r, CacheService.in_folder f a (upd r) = CacheService.in_folder f a r).
  { intros r. unfold upd. by destruct (CacheService.has_key u F A r). }
  assert (Hdate : forall r, CacheService.row_date (upd r) = CacheService.row_date r).
  { intros r. unfold upd. by destruct (CacheService.has_key u F A r). }
  assert (Hrows : folder_rows (map upd (CacheService.messages d)) f a
                  = map upd (folder_rows (CacheService.messages d) f a)).
  { unfold folder_rows. rewrite filter_map_comm, sort_desc_map.
    rewrite (sort_desc_ext _ CacheService.row_date) by done.
    f_equal. f_equal. apply filter_ext_Forall, Forall_forall. intros r _. apply Hfolder. }
  rewrite Hrows, limit_offset_map, map_map.
  assert (Hin : Forall (fun r => CacheService.in_folder f a r = true)
                  (CacheService.limit_offset limit offset
                     (folder_rows (CacheService.messages d) f a))).
  { apply Forall_forall. intros r Hr. eapply elem_of_sublist in Hr; [|apply limit_offset_sublist].
    revert r Hr. apply Forall_forall, folder_rows_in_folder. }
  destruct (String.eqb_spec f F) as [->|HF]; [destruct (String.eqb_spec a A) as [->|HA]|];
    cbn [andb]; [rewrite map_map|..]; apply Forall_fmap_ext_1;
    (eapply Forall_impl; [exact Hin|]); intros r Hr; cbn beta; unfold upd, CacheService.has_key.
  - rewrite Hr, andb_true_r.
    change (uid (read_row (CacheService.attachments_tbl d) F A r)) with (CacheService.row_uid r).
    by destruct (CacheService.row_uid r =? u).
  - unfold CacheService.in_folder in *. apply andb_true_iff in Hr as [_ Hr].
    apply String.eqb_eq in Hr. rewrite Hr.
    destruct (String.eqb_spec a A); [done|]. by rewrite !andb_false_r.
  - unfold CacheService.in_folder in *. apply andb_true_iff in Hr as [Hr _].
    apply String.eqb_eq in Hr. rewrite Hr.
    destruct (String.eqb_spec f F); [done|]. cbn [andb]. by rewrite andb_false_r.
Qed.

Lemma split_comma_pieces (s : string) :
  Forall (fun x => comma_free x = true) (JS.split_comma s).
Proof.
  induction s as [|c s IH]; simpl; [by repeat constructor|].
  destruct (Ascii.eqb c ",") eqn:Hc; [by constructor|].
  destruct (JS.split_comma s) as [|w ws]; [by repeat constructor; unfold comma_free; simpl; rewrite Hc|].
  inversion IH as [|? ? Hw Hws]; subst. constructor; [|done].
  unfold comma_free in *. simpl. by rewrite Hc, Hw.
Qed.

(** What every message read from the cache looks like. *)
Lemma cached_message_form cs f a limit offset m :
  m ∈ CacheService.getCachedMessages cs f a limit offset ->
  id m = JS.string_of_Z (uid m)
  /\ Forall (fun x => comma_free x = true) (flags m).
Proof.
  destruct cs as [[d|]]; [|by intros ?%elem_of_nil].
  rewrite getCachedMessages_rows. intros (r & -> & _)%list_elem_of_fmap.
  split; [done|]. unfold read_row, CacheService.cachedMessageToEmailMessage. cbn [flags].
  destruct (CacheService.row_flags r) eqn:Hf; [constructor|].
  apply split_comma_pieces.
Qed.

Lemma includes_app x l l' : JS.includes x (l ++ l') = JS.includes x l || JS.includes x l'.
Proof. unfold JS.includes. apply existsb_app. Qed.

Lemma updatedFlags_seen (m : EmailMessage) :
  JS.includes "\Seen" (EmailOpen.updatedFlags m) = true.
Proof.
  unfold EmailOpen.updatedFlags. destruct (JS.includes "\Seen" (flags m)) eqn:H; [done|].
  rewrite includes_app, H. reflexivity.
Qed.

(** Flags without commas that include [\Seen] come back from the column as
    they were written. *)
Lemma stored_flags_seen (fl : list string) :
  Forall (fun x => comma_free x = true) fl -> JS.includes "\Seen" fl = true ->
  stored_flags fl = fl.
Proof.
  intros Hcf Hseen.
  assert (Hne : fl <> []) by (by intros ->).
  pose proof (split_join_comma fl Hne Hcf) as Hsj.
  unfold stored_flags. destruct (JS.join_comma fl) eqn:Hj; [|done].
  simpl in Hsj. subst fl. discriminate Hseen.
Qed.

Lemma updatedFlags_stored (m : EmailMessage) :
  Forall (fun x => comma_free x = true) (flags m) ->
  stored_flags (EmailOpen.updatedFlags m) = EmailOpen.updatedFlags m.
Proof.
  intros Hcf. apply stored_flags_seen; [|apply updatedFlags_seen].
  unfold EmailOpen.updatedFlags. destruct (JS.includes "\Seen" (flags m)); [done|].
  apply Forall_app. split; [done|]. by repeat constructor.
Qed.

Lemma getFolderMetadata_updateMessageFlags us F A fl cs f a :
  CacheService.getFolderMetadata (CacheService.updateMessageFlags us F A fl cs) f a
  = CacheService.getFolderMetadata cs f a.
Proof. by destruct cs as [[d|]]. Qed.

(** X25. Opening a message that the list shows from the cache marks it read
    in the cache: when the server accepts the mark, every page of the selected
    folder read afterwards is the page read before with the flags of the
    opened message replaced by its flags plus [\Seen] (added once), the pages
    of all other folders and the stored folder counts (the unread count among
    them) are unchanged, and the handler shows the message as read and does
    not raise. *)
Theorem opening_cached_message_marks_it_seen
    (markAsRead : string -> string -> string -> result unit) (s : EmailOpen.State)
    (c : ascii) (selected : string) (account : EmailAccount) (m : EmailMessage)
    (limit offset : Z) :
  let F := App.st_selectedFolder (EmailOpen.st_app s) in
  let cs := store (EmailOpen.st_world s) in
  App.st_selectedAccount (EmailOpen.st_app s) = Some (String c selected) ->
  find_account (App.st_emailAccounts (EmailOpen.st_app s)) (String c selected) = Some account ->
  m ∈ CacheService.getCachedMessages cs F (acc_id account) limit offset ->
  markAsRead (acc_id account) F (id m) = Ok tt ->
  let r := EmailOpen.handleEmailOpen markAsRead (MessageView.convertEmailMessage m) s in
  let cs' := store (EmailOpen.st_world (snd r)) in
  fst r = Ok tt
  /\ EmailOpen.st_viewMode (snd r) = EmailOpen.Email
  /\ option_map MessageView.m_read (EmailOpen.st_openedEmail (snd r)) = Some true
  /\ JS.includes "\Seen" (EmailOpen.updatedFlags m) = true
  /\ (forall f a l o,
        CacheService.getCachedMessages cs' f a l o
        = if String.eqb f F && String.eqb a (acc_id account)
          then map (fun x => if uid x =? uid m
                             then with_flags (EmailOpen.updatedFlags m) x else x)
                 (CacheService.getCachedMessages cs f a l o)
          else CacheService.getCachedMessages cs f a l o)
  /\ (forall f a, CacheService.getFolderMetadata cs' f a = CacheService.getFolderMetadata cs f a)
  /\ log (EmailOpen.st_world (snd r)) = log (EmailOpen.st_world s).
Proof.
  intros F cs Hsel Hacc Hm Hmark r cs'.
  destruct (cached_message_form _ _ _ _ _ _ Hm) as [Hid Hcf].
  assert (Hr : r = (Ok tt,
                    EmailOpen.setWorld
                      (mkWorld (CacheService.updateMessageFlags (JS.string_of_Z (uid m)) F
                                  (acc_id account) (EmailOpen.updatedFlags m) cs)
                         (log (EmailOpen.st_world s)) (ticks (EmailOpen.st_world s)))
                      (EmailOpen.setViewMode EmailOpen.Email
                         (EmailOpen.setOpenedEmail
                            (Some (EmailOpen.set_read (MessageView.convertEmailMessage m))) s)))).
  { subst r. unfold EmailOpen.handleEmailOpen. run_monad.
    cbn [MessageView.convertEmailMessage MessageView.m_original EmailOpen.st_app
         EmailOpen.setViewMode EmailOpen.setOpenedEmail].
    rewrite Hsel, Hacc. fold F. rewrite Hid in *.
    destruct (JS.string_of_Z (uid m)) eqn:Hs; [by apply string_of_Z_nonempty in Hs|].
    rewrite Hmark. reflexivity. }
  subst cs'. rewrite Hr. cbn [fst snd].
  split; [done|]. split; [done|]. split; [done|]. split; [apply updatedFlags_seen|].
  split; [|split].
  - intros f a l o. cbn. fold cs. rewrite getCachedMessages_updateMessageFlags.
    by rewrite updatedFlags_stored.
  - intros f a. cbn. apply getFolderMetadata_updateMessageFlags.
  - done.
Qed.

(** X26. Opening a message whose identifier is a Message-ID in angle
    brackets never changes the cache, whatever the server answers: the
    identifier is compared with the numeric uid column and selects no row,
    so the cached copy keeps its flags. The handler still shows the message
    as read and does not raise. A fetched message gets such an identifier
    whenever the parsed mail carries a Message-ID of that form. *)
Theorem opening_fetched_message_leaves_cache
    (markAsRead : string -> string -> string -> result unit) (s : EmailOpen.State)
    (m : EmailMessage) (rest : string) :
  id m = String "<" rest ->
  let r := EmailOpen.handleEmailOpen markAsRead (MessageView.convertEmailMessage m) s in
  (fst r = Ok tt
   /\ EmailOpen.st_world (snd r) = EmailOpen.st_world s
   /\ EmailOpen.st_viewMode (snd r) = EmailOpen.Email
   /\ option_map MessageView.m_read (EmailOpen.st_openedEmail (snd r)) = Some true)
  /\ (forall now parsed u attrs rest',
        ImapFetch.p_messageId parsed = Some (String "<" rest') ->
        id (ImapFetch.parsedMailToEmailMessage now parsed u attrs) = String "<" rest').
Proof.
  intros Hid r. split; [|by intros now parsed u attrs rest' Hp; cbn; rewrite Hp].
  subst r. unfold EmailOpen.handleEmailOpen. run_monad.
  cbn [MessageView.convertEmailMessage MessageView.m_original EmailOpen.st_app
       EmailOpen.setViewMode EmailOpen.setOpenedEmail].
  rewrite Hid.
  destruct (App.st_selectedAccount (EmailOpen.st_app s)) as [[|c sel]|]; [done..| |done].
  destruct (find_account _ _) as [account|]; [|done].
  destruct (markAsRead _ _ _) as [[]|e]; [|done].
  rewrite updateMessageFlags_no_number by apply Z_of_string_angle.
  cbn. repeat split; try done.
  unfold EmailOpen.st_world. destruct s as [[? ? ? ? ? ? [? ? ?]] ? ?]. reflexivity.
Qed.

(** ** Building a message from a fetch *)

Lemma or_string_nonempty (s : option string) (d : string) :
  d <> "" -> ImapFetch.or_string s d <> "".
Proof. intros Hd. by destruct s as [[|c s]|]. Qed.

(** X27. A fetched message is built the same way whichever of its body and
    its attributes arrives first: the body is handed to the parser once, and
    the parsed mail becomes one message carrying the uid of the attributes
    (0 when they have none), their flags (none when missing), an empty
    account and folder, and a non-empty identifier (the Message-ID, or the
    uid in decimal when the mail has none). A message whose body is empty is
    dropped without being parsed, as is one the parser rejects. *)
Theorem fetched_message_assembly
    (simpleParser : string -> result ImapFetch.ParsedMail) (now : Z)
    (attrs : ImapFetch.Attrs) (chunks : list string) :
  let body := String.concat "" chunks in
  let body_first :=
    ImapFetch.on_message simpleParser now
      [ImapFetch.BodyEnd chunks; ImapFetch.Attributes attrs] ImapFetch.emptyData in
  let attributes_first :=
    ImapFetch.on_message simpleParser now
      [ImapFetch.Attributes attrs; ImapFetch.BodyEnd chunks] ImapFetch.emptyData in
  body_first = attributes_first
  /\ (body = "" -> body_first = [])
  /\ (forall e, simpleParser body = Err e -> body_first = [])
  /\ (forall parsed, body <> "" -> simpleParser body = Ok parsed ->
      exists m,
        body_first = [m]
        /\ m = ImapFetch.parsedMailToEmailMessage now parsed
                 (ImapService.or_zero (ImapFetch.attr_uid attrs)) (Some attrs)
        /\ uid m = ImapService.or_zero (ImapFetch.attr_uid attrs)
        /\ flags m = match ImapFetch.attr_flags attrs with Some fl => fl | None => [] end
        /\ accountId m = "" /\ folder m = ""
        /\ id m <> ""
        /\ (ImapFetch.p_messageId parsed = None -> id m = JS.string_of_Z (uid m))).
Proof.
  intros body body_first attributes_first.
  subst body_first attributes_first.
  unfold ImapFetch.on_message, ImapFetch.on_event, ImapFetch.has_body,
    ImapFetch.processMessage, ImapFetch.emptyData.
  cbn [ImapFetch.md_uid ImapFetch.md_attributes ImapFetch.md_body].
  fold body. rewrite !app_nil_r.
  split; [by destruct body|]. split; [by intros ->|]. split.
  - intros e He. rewrite He. by destruct body.
  - intros parsed Hne Hp. rewrite Hp. destruct body eqn:Hb; [done|].
    eexists. split; [reflexivity|].
    unfold EmailService.set_origin, ImapFetch.parsedMailToEmailMessage.
    cbn [uid flags accountId folder id].
    repeat split.
    + apply or_string_nonempty, string_of_Z_nonempty.
    + by intros ->.
Qed.

(** ** The settings service *)

Lemma settings_ok_current P st : settings_ok P st -> P (SettingsService.current st).
Proof.
  intros [Hd Hs]. unfold SettingsService.current.
  destruct (SettingsService.settings st); auto.
Qed.

Lemma ensureAutoRefresh_complete st :
  settings_ok complete st -> SettingsService.ensureAutoRefresh st = st.
Proof.
  intros Hok. apply settings_ok_current in Hok as [[e He] _].
  unfold SettingsService.ensureAutoRefresh.
  unfold SettingsService.auto_enabled in He.
  by destruct (SettingsService.autoRefresh (SettingsService.current st)).
Qed.

Lemma settings_ok_assign P f st :
  (forall s, P s -> P (f s)) -> settings_ok P st -> settings_ok P (SettingsService.assign f st).
Proof.
  intros Hf [Hd Hs]. unfold SettingsService.assign.
  destruct (SettingsService.settings st) as [s|] eqn:E; split; cbn; auto;
    intros ? [= <-]; auto.
Qed.

Lemma settings_ok_save P st : settings_ok P st -> settings_ok P (SettingsService.saveSettings st).
Proof. unfold SettingsService.saveSettings. by destruct (SettingsService.writable st). Qed.

Lemma settings_ok_reset P st : settings_ok P st -> settings_ok P (SettingsService.resetToDefaults st).
Proof.
  intros [Hd _]. unfold SettingsService.resetToDefaults. apply settings_ok_save.
  split; [done|]. intros ? [=].
Qed.

Lemma bounded_complete s : bounded s -> complete s.
Proof. by intros [? _]. Qed.

Lemma settings_ok_impl (P Q : SettingsService.UserSettings -> Prop) st :
  (forall s, P s -> Q s) -> settings_ok P st -> settings_ok Q st.
Proof. intros H [Hd Hs]. split; auto. Qed.

Ltac auto_fields :=
  unfold bounded, complete, SettingsService.auto_enabled, SettingsService.auto_interval in *;
  cbn [SettingsService.autoRefresh SettingsService.display SettingsService.messagesPerPage
       SettingsService.enabled SettingsService.intervalMinutes] in *.

Lemma bounded_call st c : settings_ok bounded st -> settings_ok bounded (SettingsService.call st c).
Proof.
  intros Hok.
  pose proof (ensureAutoRefresh_complete st (settings_ok_impl _ _ st bounded_complete Hok)) as Hens.
  destruct c as [v|b|b|m|]; cbn [SettingsService.call].
  - unfold SettingsService.setMessagesPerPage.
    destruct (Z.ltb_spec v 1); [done|]. destruct (Z.ltb_spec 100 v); [done|]. cbn [orb].
    apply settings_ok_save, settings_ok_assign; [|done].
    intros s (Hc & Hm & Hi). auto_fields. naive_solver lia.
  - apply settings_ok_save, settings_ok_assign; [|done].
    intros s (Hc & Hm & Hi). auto_fields. naive_solver lia.
  - unfold SettingsService.setAutoRefreshEnabled. rewrite Hens.
    apply settings_ok_save, settings_ok_assign; [|done].
    intros s (Hc & Hm & Hi). auto_fields.
    destruct (SettingsService.autoRefresh s) as [ar|]; cbn in *; [|by destruct Hc as [[? [=]] _]].
    destruct Hc as [He Hiv].
    split; [split; eauto|]. split; [done|]. first [exact Hi | intros ? [= <-]; lia].
  - unfold SettingsService.setAutoRefreshInterval.
    destruct (Z.ltb_spec m 1); [done|]. destruct (Z.ltb_spec 60 m); [done|]. cbn [orb].
    rewrite Hens. apply settings_ok_save, settings_ok_assign; [|done].
    intros s (Hc & Hm & Hi). auto_fields.
    destruct (SettingsService.autoRefresh s) as [ar|]; cbn in *; [|by destruct Hc as [[? [=]] _]].
    destruct Hc as [He Hiv].
    split; [split; eauto|]. split; [done|]. first [exact Hi | intros ? [= <-]; lia].
  - by apply settings_ok_reset.
Qed.

Lemma bounded_calls cs st :
  settings_ok bounded st -> settings_ok bounded (SettingsService.calls cs st).
Proof.
  revert st. induction cs as [|c cs IH]; intros st Hok; [done|].
  apply IH, bounded_call, Hok.
Qed.

Lemma bounded_default : bounded SettingsService.DEFAULT_SETTINGS.
Proof.
  unfold bounded, complete. cbn. split; [split; eauto|]. split; [lia|].
  intros ? [= <-]. lia.
Qed.

Lemma bounded_create file0 w :
  file_in_bounds file0 -> settings_ok bounded (SettingsService.create file0 w).
Proof.
  intros Hf. destruct file0 as [| |l]; cbn [SettingsService.create].
  - apply settings_ok_save. split; [apply bounded_default|]. intros ? [=].
  - split; [apply bounded_default|]. intros ? [=].
  - destruct Hf as [Hm Hi]. split; [apply bounded_default|]. intros ? [= <-].
    unfold bounded, complete. cbn.
    destruct (SettingsService.l_messagesPerPage l) as [n|] eqn:En;
      destruct (SettingsService.l_intervalMinutes l) as [i|] eqn:Ei;
      destruct (SettingsService.l_enabled l) as [e|]; cbn;
      (split; [split; eauto|]); (split; [first [by apply Hm | lia]|]);
      intros ? [= <-]; first [by apply Hi | lia].
Qed.

Lemma bounded_in_bounds st : settings_ok bounded st -> in_bounds st.
Proof.
  intros Hok. pose proof (settings_ok_current _ _ Hok) as (([e He] & [i Hi]) & Hm & Hb).
  unfold in_bounds, SettingsService.getMessagesPerPage, SettingsService.getAutoRefreshInterval.
  rewrite Hi. cbn. split; [done|]. by apply Hb.
Qed.

(** X28. The bounds of the settings hold at every moment: starting from no
    settings file, an unreadable one or one whose numbers are in range, and
    after any sequence of setter calls and resets (a setter that throws
    leaves the service as it was), the page size reported is between 1 and
    100 and the auto-refresh interval between 1 and 60 minutes. *)
Theorem setters_keep_bounds (file0 : SettingsService.File) (w : bool)
    (cs : list SettingsService.Call) :
  file_in_bounds file0 ->
  in_bounds (SettingsService.calls cs (SettingsService.create file0 w)).
Proof.
  intros Hf. by apply bounded_in_bounds, bounded_calls, bounded_create.
Qed.

Lemma complete_call st c : settings_ok complete st -> settings_ok complete (SettingsService.call st c).
Proof.
  intros Hok. pose proof (ensureAutoRefresh_complete st Hok) as Hens.
  destruct c as [v|b|b|m|]; cbn [SettingsService.call].
  - unfold SettingsService.setMessagesPerPage.
    destruct ((v <? 1) || (100 <? v)); [done|].
    apply settings_ok_save, settings_ok_assign; [|done]. by intros s Hc.
  - apply settings_ok_save, settings_ok_assign; [|done]. by intros s Hc.
  - unfold SettingsService.setAutoRefreshEnabled. rewrite Hens.
    apply settings_ok_save, settings_ok_assign; [|done].
    intros s [He Hi]. auto_fields.
    destruct (SettingsService.autoRefresh s) as [ar|]; cbn in *; [|by destruct He as [? [=]]].
    split; eauto.
  - unfold SettingsService.setAutoRefreshInterval.
    destruct ((m <? 1) || (60 <? m)); [done|].
    rewrite Hens. apply settings_ok_save, settings_ok_assign; [|done].
    intros s [He Hi]. auto_fields.
    destruct (SettingsService.autoRefresh s) as [ar|]; cbn in *; [|by destruct He as [? [=]]].
    split; eauto.
  - by apply settings_ok_reset.
Qed.

Lemma complete_create file0 w : settings_ok complete (SettingsService.create file0 w).
Proof.
  assert (Hd : complete SettingsService.DEFAULT_SETTINGS) by (split; cbn; eauto).
  destruct file0 as [| |l]; cbn [SettingsService.create].
  - apply settings_ok_save. split; [done|]. intros ? [=].
  - split; [done|]. intros ? [=].
  - split; [done|]. intros ? [= <-]. unfold complete. cbn.
    destruct (SettingsService.l_intervalMinutes l), (SettingsService.l_enabled l); cbn; eauto.
Qed.

(** With both auto-refresh fields present the getters read the current
    object only. *)
Lemma readings_current st :
  complete (SettingsService.current st) ->
  SettingsService.readings st
  = (SettingsService.messagesPerPage (SettingsService.display (SettingsService.current st)),
     SettingsService.foldersExpanded (SettingsService.display (SettingsService.current st)),
     default true (SettingsService.auto_enabled (SettingsService.current st)),
     default 5 (SettingsService.auto_interval (SettingsService.current st))).
Proof.
  intros [[e He] [i Hi]].
  unfold SettingsService.readings, SettingsService.getMessagesPerPage,
    SettingsService.getFoldersExpanded, SettingsService.getAutoRefreshEnabled,
    SettingsService.getAutoRefreshInterval.
  by rewrite He, Hi.
Qed.

Lemma current_save st : SettingsService.current (SettingsService.saveSettings st) = SettingsService.current st.
Proof. unfold SettingsService.saveSettings. by destruct (SettingsService.writable st). Qed.

Lemma writable_save st :
  SettingsService.writable (SettingsService.saveSettings st) = SettingsService.writable st.
Proof. unfold SettingsService.saveSettings. by destruct (SettingsService.writable st) eqn:E. Qed.

Lemma writable_assign f st :
  SettingsService.writable (SettingsService.assign f st) = SettingsService.writable st.
Proof. unfold SettingsService.assign. by destruct (SettingsService.settings st). Qed.

(** A saved service starts again with the same readings. *)
Lemma restart_saved st :
  SettingsService.writable st = true -> complete (SettingsService.current st) ->
  SettingsService.readings (SettingsService.restart (SettingsService.saveSettings st))
  = SettingsService.readings (SettingsService.saveSettings st).
Proof.
  intros Hw Hc. rewrite (readings_current (SettingsService.saveSettings st))
    by (by rewrite current_save).
  rewrite current_save. destruct Hc as [[e He] [i Hi]].
  unfold SettingsService.restart, SettingsService.saveSettings. rewrite Hw.
  cbn [SettingsService.file SettingsService.writable SettingsService.create].
  rewrite readings_current.
  - cbn. by rewrite He, Hi.
  - split; cbn; rewrite ?He, ?Hi; cbn; eauto.
Qed.

Lemma restart_call st c :
  SettingsService.writable st = true -> settings_ok complete st ->
  SettingsService.readings (SettingsService.restart st) = SettingsService.readings st ->
  SettingsService.readings (SettingsService.restart (SettingsService.call st c))
  = SettingsService.readings (SettingsService.call st c).
Proof.
  intros Hw Hok Hr. pose proof (ensureAutoRefresh_complete st Hok) as Hens.
  assert (Hassign : forall f, (forall s, complete s -> complete (f s)) ->
            complete (SettingsService.current (SettingsService.assign f st))).
  { intros f Hf. by apply settings_ok_current, settings_ok_assign. }
  destruct c as [v|b|b|m|]; cbn [SettingsService.call].
  - unfold SettingsService.setMessagesPerPage.
    destruct ((v <? 1) || (100 <? v)); [done|].
    apply restart_saved; [by rewrite writable_assign|]. apply Hassign. by intros s Hc.
  - apply restart_saved; [by rewrite writable_assign|]. apply Hassign. by intros s Hc.
  - unfold SettingsService.setAutoRefreshEnabled. rewrite Hens.
    apply restart_saved; [by rewrite writable_assign|]. apply Hassign.
    intros s [He Hi]. auto_fields.
    destruct (SettingsService.autoRefresh s) as [ar|]; cbn in *; [|by destruct He as [? [=]]].
    split; eauto.
  - unfold SettingsService.setAutoRefreshInterval.
    destruct ((m <? 1) || (60 <? m)); [done|]. rewrite Hens.
    apply restart_saved; [by rewrite writable_assign|]. apply Hassign.
    intros s [He Hi]. auto_fields.
    destruct (SettingsService.autoRefresh s) as [ar|]; cbn in *; [|by destruct He as [? [=]]].
    split; eauto.
  - unfold SettingsService.resetToDefaults. apply restart_saved; [done|].
    cbn. by destruct Hok.
Qed.

Lemma writable_call st c :
  SettingsService.writable (SettingsService.call st c) = SettingsService.writable st.
Proof.
  destruct c as [v|b|b|m|]; cbn [SettingsService.call];
    unfold SettingsService.setMessagesPerPage, SettingsService.setFoldersExpanded,
      SettingsService.setAutoRefreshEnabled, SettingsService.setAutoRefreshInterval,
      SettingsService.resetToDefaults, SettingsService.ensureAutoRefresh;
    repeat match goal with |- context [if ?c then _ else _] => destruct c end;
    repeat match goal with |- context [match ?c with Some _ => _ | None => _ end] => destruct c end;
    rewrite ?writable_save, ?writable_assign; done.
Qed.

Lemma restart_calls cs st :
  SettingsService.writable st = true -> settings_ok complete st ->
  SettingsService.readings (SettingsService.restart st) = SettingsService.readings st ->
  SettingsService.readings (SettingsService.restart (SettingsService.calls cs st))
  = SettingsService.readings (SettingsService.calls cs st).
Proof.
  revert st. induction cs as [|c cs IH]; intros st Hw Hok Hr; [done|].
  apply IH; [by rewrite writable_call|by apply complete_call|by apply restart_call].
Qed.

(** X29. Settings survive a restart: when the settings file can be written,
    whatever file the service started from and whatever setters and resets
    were called since, a service started on the file left behind reports the
    same page size, folder expansion, auto-refresh switch and interval. *)
Theorem settings_survive_restart (file0 : SettingsService.File)
    (cs : list SettingsService.Call) :
  let st := SettingsService.calls cs (SettingsService.create file0 true) in
  SettingsService.readings (SettingsService.restart st) = SettingsService.readings st.
Proof.
  intros st. subst st. apply restart_calls.
  - by destruct file0.
  - apply complete_create.
  - destruct file0 as [| |l]; try reflexivity.
Qed.

Lemma alias_call st c :
  SettingsService.settings st = None ->
  SettingsService.settings (SettingsService.call st c) = None.
Proof.
  intros Hs.
  assert (Hsave : forall st', SettingsService.settings st' = None ->
            SettingsService.settings (SettingsService.saveSettings st') = None).
  { intros st' H. unfold SettingsService.saveSettings. by destruct (SettingsService.writable st'). }
  assert (Hassign : forall f st', SettingsService.settings st' = None ->
            SettingsService.settings (SettingsService.assign f st') = None).
  { intros f st' H. unfold SettingsService.assign. by rewrite H. }
  assert (Hens : SettingsService.settings (SettingsService.ensureAutoRefresh st) = None).
  { unfold SettingsService.ensureAutoRefresh.
    destruct (SettingsService.autoRefresh _); [done|]. by apply Hassign. }
  destruct c as [v|b|b|m|]; cbn [SettingsService.call];
    unfold SettingsService.setMessagesPerPage, SettingsService.setFoldersExpanded,
      SettingsService.setAutoRefreshEnabled, SettingsService.setAutoRefreshInterval,
      SettingsService.resetToDefaults;
    repeat match goal with |- context [if ?c then _ else _] => destruct c end;
    try done; auto.
Qed.

Lemma alias_calls cs st :
  SettingsService.settings st = None ->
  SettingsService.settings (SettingsService.calls cs st) = None.
Proof.
  revert st. induction cs as [|c cs IH]; intros st Hs; [done|].
  by apply IH, alias_call.
Qed.

Lemma alias_after_reset cs st :
  existsb SettingsService.is_reset cs = true ->
  SettingsService.settings (SettingsService.calls cs st) = None.
Proof.
  revert st. induction cs as [|c cs IH]; intros st Hr; [done|].
  change (SettingsService.is_reset c || existsb SettingsService.is_reset cs = true) in Hr.
  apply orb_true_iff in Hr as [Hc|Hr]; [|by apply IH].
  change (SettingsService.settings (SettingsService.calls cs (SettingsService.call st c)) = None).
  apply alias_calls. destruct c; try discriminate. cbn [SettingsService.call].
  unfold SettingsService.resetToDefaults, SettingsService.saveSettings. cbn.
  by destruct (SettingsService.writable st).
Qed.

Lemma readings_save st :
  SettingsService.readings (SettingsService.saveSettings st) = SettingsService.readings st.
Proof. unfold SettingsService.saveSettings. by destruct (SettingsService.writable st). Qed.

Lemma pristine_call st c :
  SettingsService.is_reset c = false ->
  is_Some (SettingsService.settings st) -> settings_ok complete st ->
  SettingsService.default_object st = SettingsService.DEFAULT_SETTINGS ->
  is_Some (SettingsService.settings (SettingsService.call st c))
  /\ SettingsService.default_object (SettingsService.call st c) = SettingsService.DEFAULT_SETTINGS.
Proof.
  intros Hc [s Hs] Hok Hd. pose proof (ensureAutoRefresh_complete st Hok) as Hens.
  assert (Hassign : forall f,
            is_Some (SettingsService.settings (SettingsService.saveSettings (SettingsService.assign f st)))
            /\ SettingsService.default_object (SettingsService.saveSettings (SettingsService.assign f st))
               = SettingsService.DEFAULT_SETTINGS).
  { intros f. unfold SettingsService.saveSettings, SettingsService.assign. rewrite Hs.
    cbn. destruct (SettingsService.writable st); cbn; eauto. }
  destruct c as [v|b|b|m|]; [| | | |done]; cbn [SettingsService.call];
    unfold SettingsService.setMessagesPerPage, SettingsService.setFoldersExpanded,
      SettingsService.setAutoRefreshEnabled, SettingsService.setAutoRefreshInterval;
    rewrite ?Hens;
    repeat match goal with |- context [if ?c then _ else _] => destruct c end;
    eauto.
Qed.

Lemma pristine_calls cs st :
  existsb SettingsService.is_reset cs = false ->
  is_Some (SettingsService.settings st) -> settings_ok complete st ->
  SettingsService.default_object st = SettingsService.DEFAULT_SETTINGS ->
  SettingsService.default_object (SettingsService.calls cs st) = SettingsService.DEFAULT_SETTINGS.
Proof.
  revert st. induction cs as [|c cs IH]; intros st Hr Hs Hok Hd; [done|].
  change (SettingsService.is_reset c || existsb SettingsService.is_reset cs = false) in Hr.
  apply orb_false_iff in Hr as [Hc Hr].
  destruct (pristine_call st c Hc Hs Hok Hd) as [Hs' Hd'].
  apply IH; [exact Hr|exact Hs'|by apply complete_call|exact Hd'].
Qed.

(** X30. What [resetToDefaults] gives back. A service that found and parsed
    its settings file and was not reset before reports the shipped defaults
    after a reset (20 messages per page, folders collapsed, auto-refresh on,
    every 5 minutes). A service that started without a readable file, or that
    was reset before, holds the default object itself: its setters have been
    changing the defaults, and a reset changes none of the reported values. *)
Theorem reset_gives_defaults_once (file0 : SettingsService.File) (w : bool)
    (cs : list SettingsService.Call) :
  let st := SettingsService.calls cs (SettingsService.create file0 w) in
  (file_was_read file0 = true -> existsb SettingsService.is_reset cs = false ->
   SettingsService.readings (SettingsService.resetToDefaults st) = (20, false, true, 5))
  /\ (file_was_read file0 = false \/ existsb SettingsService.is_reset cs = true ->
      SettingsService.readings (SettingsService.resetToDefaults st)
      = SettingsService.readings st).
Proof.
  intros st. split.
  - intros Hf Hr. destruct file0 as [| |l]; try discriminate.
    assert (Hd : SettingsService.default_object st = SettingsService.DEFAULT_SETTINGS).
    { subst st. apply pristine_calls; [done|by eexists|apply complete_create|done]. }
    unfold SettingsService.resetToDefaults. rewrite readings_save.
    unfold SettingsService.readings, SettingsService.getMessagesPerPage,
      SettingsService.getFoldersExpanded, SettingsService.getAutoRefreshEnabled,
      SettingsService.getAutoRefreshInterval, SettingsService.current.
    cbn [SettingsService.settings SettingsService.default_object]. by rewrite Hd.
  - intros H.
    assert (Hs : SettingsService.settings st = None).
    { subst st. destruct H as [Hf|Hr]; [|by apply alias_after_reset].
      apply alias_calls. destruct file0 as [| |l]; try discriminate; cbn; [|done].
      unfold SettingsService.saveSettings. cbn. by destruct w. }
    unfold SettingsService.resetToDefaults. rewrite readings_save.
    unfold SettingsService.readings, SettingsService.getMessagesPerPage,
      SettingsService.getFoldersExpanded, SettingsService.getAutoRefreshEnabled,
      SettingsService.getAutoRefreshInterval, SettingsService.current.
    cbn [SettingsService.settings SettingsService.default_object]. by rewrite Hs.
Qed.

(** ** The further properties at sample inputs *)

(** X1 on a fresh store. *)
Lemma folder_metadata_round_trip_witness :
  CacheService.getFolderMetadata
    (CacheService.updateFolderMetadata 2000 "INBOX" "acc1" 3 1 Sample.empty_store)
    "INBOX" "acc1" = Some (3, 1).
Proof.
  pose proof (folder_metadata_round_trip 2000 "INBOX" "acc1" 3 1 Sample.empty_store) as H.
  cbv zeta in H. destruct H as (H & _); [vm_compute; discriminate|]. exact H.
Defined.

(** X2 for a write to Sent of a store that holds a message of INBOX. *)
Lemma updateMessages_leaves_other_folders_witness :
  let cs' := CacheService.updateMessages 3000 [Sample.message 8 60 "Hi" []] "Sent" "acc1"
               Sample.store_with_attachment in
  cached_count cs' "INBOX" "acc1" = 1
  /\ CacheService.getFolderMetadata cs' "INBOX" "acc1" = Some (1, 0).
Proof.
  pose proof (updateMessages_leaves_other_folders 3000 [Sample.message 8 60 "Hi" []]
                "Sent" "acc1" "INBOX" "acc1" Sample.store_with_attachment) as H.
  cbv zeta in H. destruct H as (_ & _ & Hc & Hm); [discriminate|].
  cbv zeta. rewrite Hc, Hm. vm_compute. split; reflexivity.
Defined.

(** X3 for a message with an attachment written to a fresh store. *)
Lemma written_message_reads_back_witness :
  let m := Sample.message_with_attachment 7 50 in
  let cs' := CacheService.updateMessages 1000 [m] "INBOX" "acc1" Sample.empty_store in
  exists i : nat, forall limit offset,
    (Z.to_nat offset <= i)%nat ->
    limit < 0 \/ (i < Z.to_nat offset + Z.to_nat limit)%nat ->
    CacheService.getCachedMessages cs' "INBOX" "acc1" limit offset !! (i - Z.to_nat offset)%nat
    = Some (stored_message "INBOX" "acc1" m).
Proof.
  cbv zeta.
  apply (written_message_reads_back (CacheService.createTables true) 1000
           [Sample.message_with_attachment 7 50] "INBOX" "acc1"
           (Sample.message_with_attachment 7 50)).
  - apply list_elem_of_here.
  - apply (bool_decide_unpack _). vm_compute. exact I.
Defined.

(** X4 for the second page of two of a folder of three cached messages. *)
Lemma cached_page_shape_witness :
  length (CacheService.getCachedMessages (Scenario.store_with_total 3) "INBOX" "acc1" 2 2)
  = 1%nat.
Proof.
  pose proof (cached_page_shape (Scenario.store_with_total 3) "INBOX" "acc1" 2 2) as H.
  cbv zeta in H. destruct H as (H & _); [lia | lia |].
  apply Nat2Z.inj. rewrite H. vm_compute. reflexivity.
Defined.

(** X5 on a folder of three cached messages. *)
Lemma cached_pages_compose_witness :
  (CacheService.getCachedMessages (Scenario.store_with_total 3) "INBOX" "acc1" 1 0
   ++ CacheService.getCachedMessages (Scenario.store_with_total 3) "INBOX" "acc1" 2 1)%list
  = CacheService.getCachedMessages (Scenario.store_with_total 3) "INBOX" "acc1" 3 0.
Proof.
  apply (cached_pages_compose (Scenario.store_with_total 3) "INBOX" "acc1" 1 2 0); lia.
Defined.

(** X6 for a store that holds a message of INBOX and one of Sent. *)
Lemma clearFolder_then_read_witness :
  let cs := CacheService.updateMessages 3000 [Sample.message 8 60 "Hi" []] "Sent" "acc1"
              Sample.store_with_attachment in
  let cs' := CacheService.clearFolder "INBOX" "acc1" cs in
  CacheService.getCachedMessages cs' "INBOX" "acc1" 50 0 = []
  /\ cached_count cs' "Sent" "acc1" = 1.
Proof.
  pose proof (clearFolder_then_read "INBOX" "acc1" "Sent" "acc1"
                (CacheService.updateMessages 3000 [Sample.message 8 60 "Hi" []] "Sent" "acc1"
                   Sample.store_with_attachment)) as H.
  cbv zeta in H. destruct H as (H1 & _ & _ & _ & _ & H2); [discriminate|].
  cbv zeta. split; [apply H1|]. rewrite H2. vm_compute. reflexivity.
Defined.

(** X7 on a store in sync with a one-message mailbox. *)
Lemma clearAllCache_then_read_witness :
  let cs' := CacheService.clearAllCache Sample.store_in_sync in
  CacheService.getCacheStats cs' = (0, None)
  /\ CacheService.getFolderMetadata cs' "INBOX" "acc1" = None.
Proof.
  pose proof (clearAllCache_then_read Sample.store_in_sync Sample.db_in_sync 1000
                [Sample.message 8 60 "Hi" []] "INBOX" "acc1" (Sample.message 8 60 "Hi" [])) as H.
  cbv zeta in H. destruct H as (_ & H2 & _ & H4 & _).
  - reflexivity.
  - apply list_elem_of_here.
  - apply (bool_decide_unpack _). vm_compute. exact I.
  - cbv zeta. split; [exact H4 | apply H2].
Defined.

(** X8 for a write at time 1000 to a folder cached at time 500. *)
Lemma last_sync_is_newest_write_witness :
  CacheService.getLastSyncTime
    (CacheService.updateMessages 1000 [Sample.message 8 60 "Hi" []] "INBOX" "acc1"
       Sample.store_in_sync) "INBOX" "acc1"
  = Some 1000.
Proof.
  apply (last_sync_is_newest_write 1000 [Sample.message 8 60 "Hi" []] "INBOX" "acc1"
           Sample.db_in_sync).
  - discriminate.
  - lia.
  - vm_compute. repeat constructor. intros _. discriminate.
Defined.

(** X9 for a run of five operations, without foreign keys. *)
Lemma store_keys_stay_unique_witness :
  unique_keys (Scenario.db_after false)
  /\ length (CacheService.messages (Scenario.db_after false)) = 2%nat.
Proof.
  pose proof (store_keys_stay_unique false Scenario.ops (Scenario.db_after false)) as H.
  destruct H as (H & _); [vm_compute; reflexivity|].
  split; [exact H|]. vm_compute. reflexivity.
Defined.

(** X10 for the same run with foreign keys enforced. *)
Lemma foreign_keys_leave_no_orphans_witness :
  Forall (fun x => has_parent (CacheService.messages (Scenario.db_after true)) x = true)
         (CacheService.attachments_tbl (Scenario.db_after true))
  /\ length (CacheService.attachments_tbl (Scenario.db_after true)) = 1%nat.
Proof.
  split; [|vm_compute; reflexivity].
  apply (foreign_keys_leave_no_orphans Scenario.ops (Scenario.db_after true)).
  vm_compute. reflexivity.
Defined.

(** X12 at a server whose fetch fails. *)
Lemma fetch_failure_is_error_state_witness :
  let r := MessageList.loadRemote (Sample.props "INBOX" 20) Scenario.env_fetch_fails
             (Sample.list_state 1 Sample.empty_store) "ann@example.org"
             (Sample.list_state 1 Sample.empty_store) in
  fst r = Ok tt
  /\ MessageList.st_error (snd r) = Some "Connection lost"
  /\ log (MessageList.st_world (snd r))
     = [EvFolders "acc1"; EvStatus "acc1" "INBOX"; EvFetch "acc1" "INBOX" 20 494 523].
Proof.
  pose proof (fetch_failure_is_error_state (Sample.props "INBOX" 20) Scenario.env_fetch_fails
                (Sample.list_state 1 Sample.empty_store) (Sample.list_state 1 Sample.empty_store)
                "ann@example.org" Sample.account ["INBOX"] 523 0 "Connection lost") as H.
  cbv zeta in H.
  destruct H as (H1 & H2 & _ & _ & _ & _ & _ & _ & H3);
    [reflexivity | reflexivity | vm_compute; reflexivity | lia | vm_compute; congruence
     | vm_compute; reflexivity |].
  cbv zeta. split; [exact H1|]. split; [exact H2|]. rewrite H3. vm_compute. reflexivity.
Defined.


(** X14 at an empty mailbox. *)
Lemma empty_folder_is_not_fetched_witness :
  let r := MessageList.loadRemote (Sample.props "INBOX" 20) (Sample.env ["INBOX"] 0)
             (Sample.list_state 1 Sample.empty_store) "ann@example.org"
             (Sample.list_state 1 Sample.empty_store) in
  fst r = Ok tt
  /\ MessageList.st_messages (snd r) = []
  /\ log (MessageList.st_world (snd r)) = [EvFolders "acc1"; EvStatus "acc1" "INBOX"].
Proof.
  pose proof (empty_folder_is_not_fetched (Sample.props "INBOX" 20) (Sample.env ["INBOX"] 0)
                (Sample.list_state 1 Sample.empty_store) (Sample.list_state 1 Sample.empty_store)
                "ann@example.org" Sample.account ["INBOX"] 0) as H.
  cbv zeta in H.
  destruct H as (H1 & _ & H2 & _ & _ & _ & H3);
    [reflexivity | reflexivity | vm_compute; reflexivity |].
  cbv zeta. split; [exact H1|]. split; [exact H2|]. rewrite H3. vm_compute. reflexivity.
Defined.

(** X15 for a folder of three messages, all cached. *)
Lemma cached_page_is_served_witness :
  let st := Sample.list_state 1 (Scenario.store_with_total 3) in
  let r := MessageList.loadMessages (Sample.props "INBOX" 20) (Sample.env ["INBOX"] 3) st in
  fst r = Ok tt
  /\ length (MessageList.st_messages (snd r)) = 3%nat
  /\ MessageList.st_isFromCache (snd r) = true
  /\ MessageList.st_totalMessages (snd r) = 3.
Proof.
  pose proof (cached_page_is_served (Sample.props "INBOX" 20) (Sample.env ["INBOX"] 3)
                (Sample.list_state 1 (Scenario.store_with_total 3))
                "a" "nn@example.org" Sample.account ["INBOX"] 3 0) as H.
  cbv zeta in H.
  destruct H as (H1 & H2 & H3 & H4 & _);
    [reflexivity | discriminate | reflexivity | vm_compute; discriminate | reflexivity
     | vm_compute; reflexivity | lia | left; vm_compute; discriminate |].
  cbv zeta. split; [exact H1|]. split; [|split; [exact H3|exact H4]].
  rewrite H2. vm_compute. reflexivity.
Defined.

(** X16 for a folder of 523 messages of which three are cached. *)
Lemma short_cached_page_goes_remote_witness :
  let st := Sample.list_state 1 (Scenario.store_with_total 523) in
  let r := MessageList.loadMessages (Sample.props "INBOX" 20) (Sample.env ["INBOX"] 523) st in
  fst r = Ok tt /\ MessageList.st_isFromCache (snd r) = false.
Proof.
  pose proof (short_cached_page_goes_remote (Sample.props "INBOX" 20) (Sample.env ["INBOX"] 523)
                (Sample.list_state 1 (Scenario.store_with_total 523))
                "a" "nn@example.org" Sample.account ["INBOX"] 523 0) as H.
  cbv zeta in H.
  destruct H as (H1 & H2 & _);
    [reflexivity | discriminate | reflexivity | vm_compute; discriminate | reflexivity
     | vm_compute; reflexivity | lia | vm_compute; reflexivity | vm_compute; reflexivity |].
  cbv zeta. split; [exact H1 | exact H2].
Defined.

(** X17 for three cached messages without folder metadata. *)
Lemma missing_metadata_requests_refresh_witness :
  let st := Sample.list_state 1 Scenario.store_without_metadata in
  let r := MessageList.loadMessages (Sample.props "INBOX" 20) (Sample.env ["INBOX"] 3) st in
  fst r = Ok tt
  /\ MessageList.st_isFromCache (snd r) = true
  /\ MessageList.st_totalMessages (snd r) = 0.
Proof.
  pose proof (missing_metadata_requests_refresh (Sample.props "INBOX" 20)
                (Sample.env ["INBOX"] 3) (Sample.list_state 1 Scenario.store_without_metadata)
                "a" "nn@example.org" Sample.account ["INBOX"]) as H.
  cbv zeta in H.
  destruct H as (H1 & _ & H3 & H4 & _);
    [reflexivity | discriminate | reflexivity | vm_compute; discriminate | reflexivity
     | vm_compute; reflexivity | vm_compute; congruence | vm_compute; congruence |].
  cbv zeta. split; [exact H1|]. split; [exact H3 | exact H4].
Defined.

(** X18 for a call during a refresh and for a folder that cannot be opened. *)
Lemma handleRefresh_never_raises_witness :
  let s := App.setRefreshStatus true App.Refreshing
             (Sample.app_state "INBOX" Sample.store_in_sync) in
  App.handleRefresh (Sample.env ["INBOX"] 1) App.Current s = (Ok tt, s)
  /\ App.st_status
       (snd (App.handleRefresh Scenario.env_no_box App.Current
               (Sample.app_state "INBOX" Sample.store_in_sync)))
     = App.Failed "Mailbox does not exist".
Proof.
  cbv zeta. split.
  - pose proof (handleRefresh_never_raises (Sample.env ["INBOX"] 1) App.Current
                  (App.setRefreshStatus true App.Refreshing
                     (Sample.app_state "INBOX" Sample.store_in_sync))) as (H1 & H2 & _).
    specialize (H2 eq_refl).
    destruct (App.handleRefresh _ _ _) as [r s']. cbn in H1, H2. by rewrite H1, H2.
  - pose proof (handleRefresh_never_raises Scenario.env_no_box App.Current
                  (Sample.app_state "INBOX" Sample.store_in_sync)) as (_ & _ & H3).
    destruct (H3 "a"%char "nn@example.org" Sample.account "I"%char "NBOX"
                "Mailbox does not exist") as (H & _);
      [reflexivity | reflexivity | reflexivity | reflexivity | reflexivity
       | vm_compute; reflexivity |].
    exact H.
Defined.

(** X19 for a refresh of all folders on a store in sync. *)
Lemma refresh_never_drops_cached_witness :
  (101, "INBOX", "acc1")
  ∈ cached_keys (store (App.st_world
       (snd (App.handleRefresh (Sample.env ["INBOX"] 1) App.All
               (Sample.app_state "INBOX" Sample.store_in_sync))))).
Proof.
  apply (refresh_never_drops_cached (Sample.env ["INBOX"] 1) App.All
           (Sample.app_state "INBOX" Sample.store_in_sync) 101 "INBOX" "acc1").
  vm_compute. apply list_elem_of_here.
Defined.

(** X21 for a mailbox of three messages of which one is cached. *)
Lemma refresh_writes_merged_count_witness :
  let s1 := snd (App.handleRefresh (Sample.env ["INBOX"] 3) App.Current
                   (Sample.app_state "INBOX" Sample.store_in_sync)) in
  App.st_status s1 = App.Refreshed "INBOX" 3
  /\ CacheService.getFolderMetadata (store (App.st_world s1)) "INBOX" "acc1" = Some (3, 0).
Proof.
  pose proof (refresh_writes_merged_count (Sample.env ["INBOX"] 3)
                (Sample.app_state "INBOX" Sample.store_in_sync)
                "a" "nn@example.org" Sample.account "I" "NBOX" Sample.db_in_sync 3 0
                (map (EmailService.set_origin "acc1" "INBOX")
                   (JS.sort_desc date (Sample.mailbox_fetch 3 1 3)))) as H.
  cbv zeta in H.
  destruct H as (H1 & _ & _ & H4 & _);
    [reflexivity | reflexivity | reflexivity | reflexivity | reflexivity
     | vm_compute; discriminate | vm_compute; reflexivity | lia | vm_compute; reflexivity |].
  cbv zeta. split.
  - refine (eq_trans H1 _). vm_compute. reflexivity.
  - refine (eq_trans H4 _). vm_compute. reflexivity.
Defined.

(** X22 for arrow-down on the second of three messages. *)
Lemma selection_stays_visible_witness :
  let s := MessageView.mkNav 1 0 1 false in
  let s' := fst (MessageView.useInput Scenario.view s "" Scenario.key_down) in
  MessageView.selectedIndex s' = 2 /\ nav_ok Scenario.view s'.
Proof.
  pose proof (selection_stays_visible Scenario.view (MessageView.mkNav 1 0 1 false) ""
                Scenario.key_down) as H.
  cbv zeta in H. destruct H as (H & _).
  - unfold nav_ok. vm_compute. repeat split; try discriminate. left. reflexivity.
  - reflexivity.
  - cbv zeta. split; [reflexivity | exact H].
Defined.

(** X23 for Enter on the second of three messages. *)
Lemma enter_opens_highlighted_witness :
  snd (MessageView.useInput Scenario.view (MessageView.mkNav 1 0 1 false) "" Scenario.key_return)
  = [MessageView.OnEmailOpen
       (MessageView.convertEmailMessage
          (EmailService.set_origin "acc1" "INBOX" (Sample.message 102 2 "Hi" ["\Seen"])))].
Proof.
  pose proof (enter_opens_highlighted Scenario.view (MessageView.mkNav 1 0 1 false) ""
                Scenario.key_return) as H.
  destruct H as (H & _).
  - unfold nav_ok. vm_compute. repeat split; try discriminate. left. reflexivity.
  - vm_compute. discriminate.
  - destruct (H eq_refl eq_refl eq_refl) as (m & Hm & _ & Hcall).
    rewrite Hcall. vm_compute in Hm. injection Hm as <-. vm_compute. reflexivity.
Defined.

(** X24 on the last of three pages. *)
Lemma paging_stays_in_range_witness :
  let s := MessageView.mkNav 1 0 3 false in
  let next := fst (MessageView.useInput Scenario.view s "N" Scenario.key_shift) in
  let prev := fst (MessageView.useInput Scenario.view s "P" Scenario.key_shift) in
  MessageView.currentPage next = 3
  /\ MessageView.currentPage prev = 2
  /\ MessageView.isChangingPage prev = true
  /\ (MessageView.currentPage prev - 1) * 20 < 45.
Proof.
  cbv zeta. split; [reflexivity|]. split; [reflexivity|].
  pose proof (paging_stays_in_range Scenario.view (MessageView.mkNav 1 0 3 false) "P"
                Scenario.key_shift) as H.
  cbv zeta in H.
  destruct H as (_ & _ & Hlast & Hflag);
    [vm_compute; discriminate | vm_compute; split; discriminate |].
  split; [apply Hflag; vm_compute; discriminate | apply Hlast; reflexivity].
Defined.

(** X25 for the unread message of a one-message cache. *)
Lemma opening_cached_message_marks_it_seen_witness :
  let r := EmailOpen.handleEmailOpen (fun _ _ _ => Ok tt)
             (MessageView.convertEmailMessage Scenario.cached_message)
             (Scenario.open_state Sample.store_with_attachment) in
  fst r = Ok tt
  /\ map flags (CacheService.getCachedMessages (store (EmailOpen.st_world (snd r)))
                  "INBOX" "acc1" 50 0)
     = [["\Seen"]].
Proof.
  pose proof (opening_cached_message_marks_it_seen (fun _ _ _ => Ok tt)
                (Scenario.open_state Sample.store_with_attachment)
                "a" "nn@example.org" Sample.account Scenario.cached_message 50 0) as H.
  cbv zeta in H.
  destruct H as (H1 & _ & _ & _ & H5 & _);
    [reflexivity | reflexivity | vm_compute; apply list_elem_of_here | reflexivity |].
  cbv zeta. split; [exact H1|]. rewrite H5. vm_compute. reflexivity.
Defined.

(** X26 for a fetched message with a Message-ID. *)
Lemma opening_fetched_message_leaves_cache_witness :
  let s := Scenario.open_state Sample.store_with_attachment in
  let r := EmailOpen.handleEmailOpen (fun _ _ _ => Ok tt)
             (MessageView.convertEmailMessage Scenario.fetched_message) s in
  fst r = Ok tt /\ EmailOpen.st_world (snd r) = EmailOpen.st_world s.
Proof.
  pose proof (opening_fetched_message_leaves_cache (fun _ _ _ => Ok tt)
                (Scenario.open_state Sample.store_with_attachment)
                Scenario.fetched_message "1@example.org>") as H.
  cbv zeta in H. destruct H as ((H1 & H2 & _) & _); [reflexivity|].
  cbv zeta. split; [exact H1 | exact H2].
Defined.

(** X27 for a message whose attributes arrive first. *)
Lemma fetched_message_assembly_witness :
  ImapFetch.on_message (fun _ => Ok Scenario.parsed_mail) 0
    [ImapFetch.Attributes (ImapFetch.mkAttrs (Some 7) (Some []));
     ImapFetch.BodyEnd ["Subject: Hi"; "Hello"]] ImapFetch.emptyData
  = [ImapFetch.parsedMailToEmailMessage 0 Scenario.parsed_mail 7
       (Some (ImapFetch.mkAttrs (Some 7) (Some [])))].
Proof.
  pose proof (fetched_message_assembly (fun _ => Ok Scenario.parsed_mail) 0
                (ImapFetch.mkAttrs (Some 7) (Some [])) ["Subject: Hi"; "Hello"]) as H.
  cbv zeta in H. destruct H as (Ho & _ & _ & H).
  destruct (H Scenario.parsed_mail) as (m & Hm & -> & _); [vm_compute; discriminate | reflexivity |].
  rewrite <- Ho. exact Hm.
Defined.

(** X28 for a settings file and four calls, two of them rejected. *)
Lemma setters_keep_bounds_witness :
  let st := SettingsService.calls Scenario.settings_calls
              (SettingsService.create Scenario.settings_file true) in
  SettingsService.readings st = (30, false, false, 10) /\ in_bounds st.
Proof.
  cbv zeta. split; [vm_compute; reflexivity|].
  apply (setters_keep_bounds Scenario.settings_file true Scenario.settings_calls).
  split; intros n [= <-]; lia.
Defined.

(** X30 for a service that read its file and for a first run. *)
Lemma reset_gives_defaults_once_witness :
  SettingsService.readings
    (SettingsService.resetToDefaults
       (SettingsService.calls Scenario.settings_calls
          (SettingsService.create Scenario.settings_file true)))
  = (20, false, true, 5)
  /\ SettingsService.readings
       (SettingsService.resetToDefaults
          (SettingsService.calls Scenario.settings_calls
             (SettingsService.create SettingsService.Missing true)))
     = (30, false, false, 5).
Proof.
  split.
  - pose proof (reset_gives_defaults_once Scenario.settings_file true Scenario.settings_calls)
      as H.
    cbv zeta in H. destruct H as (H & _). apply H; reflexivity.
  - pose proof (reset_gives_defaults_once SettingsService.Missing true Scenario.settings_calls)
      as H.
    cbv zeta in H. destruct H as (_ & H). rewrite H by (left; reflexivity).
    vm_compute. reflexivity.
Defined.
